(** * RTuinOS kernel: a shallow embedding of code/RTOS/rtos.c

    The scheduler logic of rtos.c is rendered as pure functions over an
    explicit kernel state.  Task pointers ([task_t *]) are indices into
    [_taskAry]; the idle task is the last element.  The due and suspended
    arrays keep their fixed capacity, with the separate element counters of
    the C code, and are read and written through stdpp's list lookup and
    insert.

    An access outside an array has no meaning in C.  Here such a read
    yields the default element (index 0, the zero task) and such a write is
    dropped; the theorems carry the hypotheses under which the accesses they
    depend on are in range, and in the reachable states all of them are.

    All kernel code runs with the interrupts disabled, so every entry into
    the kernel (timer tic, posted event, suspend command) is one step.

    Not modelled: the saved CPU contexts (stack pointers, stack areas, the
    assembly of the context switch).  The logic functions below decide which
    task is active; the context switch follows that decision. *)

From Stdlib Require Import ZArith Lia Bool.
From stdpp Require Import base tactics option numbers list.

Local Open Scope nat_scope.

(** ** Machine integers *)

(** [uint8_t] counters and indices: arithmetic modulo 256. *)
Definition u8_inc (n : nat) : nat := (n + 1) mod 256.
Definition u8_dec (n : nat) : nat := (n + 255) mod 256.

(** Conversion to [uint16_t]. *)
Definition u16 (z : Z) : Z := (z mod 65536)%Z.

(** ** Loops *)

(** [for_range u cnt body s] runs [body u], [body (u+1)], ... [cnt] times. *)
Fixpoint for_range {St : Type} (u cnt : nat) (body : nat → St → St) (s : St) : St :=
  match cnt with
  | 0 => s
  | S cnt' => for_range (S u) cnt' body (body u s)
  end.

(** [for(u = from; u < to; ++u) body] where the body changes neither [u]
    nor [to]. *)
Definition for_loop {St : Type} (from to : nat) (body : nat → St → St) (s : St) : St :=
  for_range from (to - from) body s.

(** The loop that closes a gap in an array of task pointers:
    [for(u = from; u < to; ++u) a[u] = a[u+1];] *)
Definition shiftDown (from to : nat) (a : list nat) : list nat :=
  for_loop from to (λ u a, <[u := a !!! (u + 1)]> a) a.

(** ** The task descriptor [task_t]

    The members that only serve the context switch ([stackPointer],
    [taskFunction], [pStackArea], [stackSize]) are left out. *)
Record task_t := mkTask {
  prioClass : nat;
  timeDueAt : Z;
  timeRoundRobin : Z;
  cntDelay : Z;
  cntRoundRobin : Z;
  postedEventVec : Z;
  eventMask : Z;
  waitForAnyEvent : bool;
  cntOverrun : Z
}.

Definition zeroTask : task_t := mkTask 0 0 0 0 0 0 0 false 0.

#[global] Instance task_t_inhabited : Inhabited task_t := populate zeroTask.

Definition set_prioClass (v : nat) (t : task_t) : task_t :=
  mkTask v (timeDueAt t) (timeRoundRobin t) (cntDelay t) (cntRoundRobin t)
         (postedEventVec t) (eventMask t) (waitForAnyEvent t) (cntOverrun t).
Definition set_timeDueAt (v : Z) (t : task_t) : task_t :=
  mkTask (prioClass t) v (timeRoundRobin t) (cntDelay t) (cntRoundRobin t)
         (postedEventVec t) (eventMask t) (waitForAnyEvent t) (cntOverrun t).
Definition set_timeRoundRobin (v : Z) (t : task_t) : task_t :=
  mkTask (prioClass t) (timeDueAt t) v (cntDelay t) (cntRoundRobin t)
         (postedEventVec t) (eventMask t) (waitForAnyEvent t) (cntOverrun t).
Definition set_cntDelay (v : Z) (t : task_t) : task_t :=
  mkTask (prioClass t) (timeDueAt t) (timeRoundRobin t) v (cntRoundRobin t)
         (postedEventVec t) (eventMask t) (waitForAnyEvent t) (cntOverrun t).
Definition set_cntRoundRobin (v : Z) (t : task_t) : task_t :=
  mkTask (prioClass t) (timeDueAt t) (timeRoundRobin t) (cntDelay t) v
         (postedEventVec t) (eventMask t) (waitForAnyEvent t) (cntOverrun t).
Definition set_postedEventVec (v : Z) (t : task_t) : task_t :=
  mkTask (prioClass t) (timeDueAt t) (timeRoundRobin t) (cntDelay t) (cntRoundRobin t)
         v (eventMask t) (waitForAnyEvent t) (cntOverrun t).
Definition set_eventMask (v : Z) (t : task_t) : task_t :=
  mkTask (prioClass t) (timeDueAt t) (timeRoundRobin t) (cntDelay t) (cntRoundRobin t)
         (postedEventVec t) v (waitForAnyEvent t) (cntOverrun t).
Definition set_waitForAnyEvent (v : bool) (t : task_t) : task_t :=
  mkTask (prioClass t) (timeDueAt t) (timeRoundRobin t) (cntDelay t) (cntRoundRobin t)
         (postedEventVec t) (eventMask t) v (cntOverrun t).
Definition set_cntOverrun (v : Z) (t : task_t) : task_t :=
  mkTask (prioClass t) (timeDueAt t) (timeRoundRobin t) (cntDelay t) (cntRoundRobin t)
         (postedEventVec t) (eventMask t) (waitForAnyEvent t) v.

(** ** The kernel's global data *)
Record kernel := mkKernel {
  _time : Z;
  _taskAry : list task_t;
  _pActiveTask : nat;
  _pSuspendedTask : nat;
  _pDueTaskAryAry : list (list nat);
  _noDueTasksAry : list nat;
  _pSuspendedTaskAry : list nat;
  _noSuspendedTasks : nat
}.

Definition set_time (v : Z) (s : kernel) : kernel :=
  mkKernel v (_taskAry s) (_pActiveTask s) (_pSuspendedTask s) (_pDueTaskAryAry s)
           (_noDueTasksAry s) (_pSuspendedTaskAry s) (_noSuspendedTasks s).
Definition set_taskAry (v : list task_t) (s : kernel) : kernel :=
  mkKernel (_time s) v (_pActiveTask s) (_pSuspendedTask s) (_pDueTaskAryAry s)
           (_noDueTasksAry s) (_pSuspendedTaskAry s) (_noSuspendedTasks s).
Definition set_pActiveTask (v : nat) (s : kernel) : kernel :=
  mkKernel (_time s) (_taskAry s) v (_pSuspendedTask s) (_pDueTaskAryAry s)
           (_noDueTasksAry s) (_pSuspendedTaskAry s) (_noSuspendedTasks s).
Definition set_pSuspendedTask (v : nat) (s : kernel) : kernel :=
  mkKernel (_time s) (_taskAry s) (_pActiveTask s) v (_pDueTaskAryAry s)
           (_noDueTasksAry s) (_pSuspendedTaskAry s) (_noSuspendedTasks s).
Definition set_pDueTaskAryAry (v : list (list nat)) (s : kernel) : kernel :=
  mkKernel (_time s) (_taskAry s) (_pActiveTask s) (_pSuspendedTask s) v
           (_noDueTasksAry s) (_pSuspendedTaskAry s) (_noSuspendedTasks s).
Definition set_noDueTasksAry (v : list nat) (s : kernel) : kernel :=
  mkKernel (_time s) (_taskAry s) (_pActiveTask s) (_pSuspendedTask s) (_pDueTaskAryAry s)
           v (_pSuspendedTaskAry s) (_noSuspendedTasks s).
Definition set_pSuspendedTaskAry (v : list nat) (s : kernel) : kernel :=
  mkKernel (_time s) (_taskAry s) (_pActiveTask s) (_pSuspendedTask s) (_pDueTaskAryAry s)
           (_noDueTasksAry s) v (_noSuspendedTasks s).
Definition set_noSuspendedTasks (v : nat) (s : kernel) : kernel :=
  mkKernel (_time s) (_taskAry s) (_pActiveTask s) (_pSuspendedTask s) (_pDueTaskAryAry s)
           (_noDueTasksAry s) (_pSuspendedTaskAry s) v.

(** [*pT]: the task object a task pointer refers to. *)
Definition task (s : kernel) (pT : nat) : task_t := _taskAry s !!! pT.

(** [pT->member = ...]: an update of the task object [pT] points to. *)
Definition updTask (pT : nat) (f : task_t → task_t) (s : kernel) : kernel :=
  set_taskAry (alter f pT (_taskAry s)) s.

(** The live part of the suspended array and of the due array of class [c]. *)
Definition suspList (s : kernel) : list nat :=
  take (_noSuspendedTasks s) (_pSuspendedTaskAry s).
Definition dueList (s : kernel) (c : nat) : list nat :=
  take (_noDueTasksAry s !!! c) (_pDueTaskAryAry s !!! c).

(** The priority classes of all task objects. *)
Definition prios (s : kernel) : list nat := prioClass <$> _taskAry s.

(** How often a task pointer occurs in a list. *)
Definition occurrences (pT : nat) (l : list nat) : nat :=
  length (filter (λ q, q = pT) l).

(** The loop over the suspended tasks of [onTimerTic] and [setEvent],
    [for(idxSuspTask=0; idxSuspTask<_noSuspendedTasks; ++idxSuspTask)
       { task_t * const pT = _pSuspendedTaskAry[idxSuspTask]; ... }],
    with a body that writes to the task object [*pT] only. *)
Definition forSuspendedTasks (body : kernel → task_t → task_t) (s : kernel) : kernel :=
  for_loop 0 (_noSuspendedTasks s)
    (λ idxSuspTask s, updTask (_pSuspendedTaskAry s !!! idxSuspTask) (body s) s) s.

(** The arguments of one call of [rtos_initializeTask]. *)
Record initArgs := mkInitArgs {
  ia_idxTask : nat;
  ia_prioClass : nat;
  ia_timeRoundRobin : Z;
  ia_startEventMask : Z;
  ia_startByAllEvents : bool;
  ia_startTimeout : Z
}.

(** The configuration of rtos.h and rtos.config.h: the number of tasks, of
    priority classes and the capacity of a class, whether round robin is
    compiled, the width in bit of [uintTime_t], and the two timer events. *)
Record config := mkConfig {
  RTOS_NO_TASKS : nat;
  RTOS_NO_PRIO_CLASSES : nat;
  RTOS_MAX_NO_TASKS_IN_PRIO_CLASS : nat;
  RTOS_ROUND_ROBIN_MODE_SUPPORTED : bool;
  TIME_BITS : Z;
  RTOS_EVT_ABSOLUTE_TIMER : Z;
  RTOS_EVT_DELAY_TIMER : Z
}.

Section Kernel.

Variable cfg : config.

Definition IDLE_TASK_ID : nat := RTOS_NO_TASKS cfg.
Definition _pIdleTask : nat := IDLE_TASK_ID.

(** Conversion to [uintTime_t] and to [intTime_t]. *)
Definition uintTime (z : Z) : Z := (z mod 2 ^ TIME_BITS cfg)%Z.
Definition intTime (z : Z) : Z :=
  (let r := z mod 2 ^ TIME_BITS cfg in
   if r <? 2 ^ (TIME_BITS cfg - 1) then r else r - 2 ^ TIME_BITS cfg)%Z.

(** [d] is the value of [z] read as [intTime_t]: the one integer of the
    signed range that is congruent to [z] modulo the range of the type. *)
Definition signedTime (d z : Z) : Prop :=
  (- 2 ^ (TIME_BITS cfg - 1) ≤ d < 2 ^ (TIME_BITS cfg - 1)
   ∧ (d - z) mod 2 ^ TIME_BITS cfg = 0)%Z.

Definition TIMER_EVT_MASK : Z :=
  Z.lor (RTOS_EVT_ABSOLUTE_TIMER cfg) (RTOS_EVT_DELAY_TIMER cfg).

(** *** checkForTaskActivation *)

(** The condition under which [checkForTaskActivation] releases a
    suspended task (the [if] inside its [while] loop). *)
Definition releaseTest (pT : task_t) : bool :=
  let eventVec := postedEventVec pT in
  (waitForAnyEvent pT && negb (eventVec =? 0)%Z)
  || (negb (waitForAnyEvent pT)
      && ((Z.land (Z.lxor eventVec (eventMask pT)) (u16 (Z.lnot TIMER_EVT_MASK)) =? 0)%Z
          || negb (Z.land (Z.land eventVec (eventMask pT)) TIMER_EVT_MASK =? 0)%Z)).

(** What [checkForTaskActivation] writes to the task object of a task that
    becomes due. *)
Definition madeDue (t : task_t) : task_t :=
  let t := set_eventMask 0 t in
  if RTOS_ROUND_ROBIN_MODE_SUPPORTED cfg
  then set_cntRoundRobin (timeRoundRobin t) t else t.

(** The body of the [if]: the task [pT] found at [idxSuspTask] becomes due. *)
Definition releaseTask (idxSuspTask : nat) (s : kernel) : kernel :=
  let pT := _pSuspendedTaskAry s !!! idxSuspTask in
  let prio := prioClass (task s pT) in
  let s := updTask pT (set_eventMask 0) s in
  let s := if RTOS_ROUND_ROBIN_MODE_SUPPORTED cfg
           then updTask pT (λ t, set_cntRoundRobin (timeRoundRobin t) t) s
           else s in
  let n := _noDueTasksAry s !!! prio in
  let s := set_pDueTaskAryAry (alter (<[n := pT]>) prio (_pDueTaskAryAry s)) s in
  let s := set_noDueTasksAry (<[prio := u8_inc n]> (_noDueTasksAry s)) s in
  let s := set_noSuspendedTasks (u8_dec (_noSuspendedTasks s)) s in
  set_pSuspendedTaskAry
    (shiftDown idxSuspTask (_noSuspendedTasks s) (_pSuspendedTaskAry s)) s.

(** The [while] loop over the suspended tasks.  Every round either takes a
    task out of the array or advances the index, so as many rounds as there
    are suspended tasks at entry suffice; the final index is returned to
    show that the loop ends by its condition. *)
Fixpoint scanSuspended (rounds idxSuspTask : nat) (isNewActiveTask : bool) (s : kernel)
  : nat * bool * kernel :=
  match rounds with
  | 0 => (idxSuspTask, isNewActiveTask, s)
  | S rounds' =>
      if idxSuspTask <? _noSuspendedTasks s then
        if releaseTest (task s (_pSuspendedTaskAry s !!! idxSuspTask))
        then scanSuspended rounds' idxSuspTask true (releaseTask idxSuspTask s)
        else scanSuspended rounds' (idxSuspTask + 1) isNewActiveTask s
      else (idxSuspTask, isNewActiveTask, s)
  end.

(** [for(idxPrio = k-1; idxPrio >= 0; --idxPrio) if(noDue[idxPrio] > 0) ...]:
    the highest class below [k] with a due task. *)
Fixpoint findDueClass (noDue : list nat) (k : nat) : option nat :=
  match k with
  | 0 => None
  | S idxPrio =>
      if 0 <? noDue !!! idxPrio then Some idxPrio else findDueClass noDue idxPrio
  end.

Definition checkForTaskActivation (isNewActiveTask : bool) (s : kernel) : kernel * bool :=
  let '(_, isNewActiveTask, s) :=
    scanSuspended (_noSuspendedTasks s) 0 isNewActiveTask s in
  if isNewActiveTask then
    match findDueClass (_noDueTasksAry s) (RTOS_NO_PRIO_CLASSES cfg) with
    | Some idxPrio =>
        let s := set_pSuspendedTask (_pActiveTask s) s in
        let s := set_pActiveTask ((_pDueTaskAryAry s !!! idxPrio) !!! 0) s in
        (s, negb (_pActiveTask s =? _pSuspendedTask s))
    | None => (s, true)
    end
  else (s, false).

(** *** onTimerTic *)

(** What the timer loop does to one suspended task. *)
Definition serveTimers (time : Z) (t : task_t) : task_t :=
  let t := if (time =? timeDueAt t)%Z
           then set_postedEventVec
                  (Z.lor (postedEventVec t)
                     (Z.land (RTOS_EVT_ABSOLUTE_TIMER cfg) (eventMask t))) t
           else t in
  if (0 <? cntDelay t)%Z then
    let t := set_cntDelay (uintTime (cntDelay t - 1)) t in
    if (cntDelay t =? 0)%Z
    then set_postedEventVec
           (Z.lor (postedEventVec t) (Z.land (RTOS_EVT_DELAY_TIMER cfg) (eventMask t))) t
    else t
  else t.

(** Clock the system time and post the timer events. *)
Definition clockTimers (s : kernel) : kernel :=
  let s := set_time (uintTime (_time s + 1)) s in
  forSuspendedTasks (λ s, serveTimers (_time s)) s.

(** The round robin part: the time slice of the active task. *)
Definition roundRobin (s : kernel) : kernel * bool :=
  if RTOS_ROUND_ROBIN_MODE_SUPPORTED cfg then
    let pA := _pActiveTask s in
    if (0 <? cntRoundRobin (task s pA))%Z then
      let s := updTask pA (λ t, set_cntRoundRobin (uintTime (cntRoundRobin t - 1)) t) s in
      if (cntRoundRobin (task s pA) =? 0)%Z then
        let s := updTask pA (λ t, set_cntRoundRobin (timeRoundRobin t) t) s in
        let prio := prioClass (task s pA) in
        let noTasks := _noDueTasksAry s !!! prio in
        if 1 <? noTasks then
          let noTasks := u8_dec noTasks in
          let roll row := <[noTasks := pA]> (shiftDown 0 noTasks row) in
          (set_pDueTaskAryAry (alter roll prio (_pDueTaskAryAry s)) s, true)
        else (s, false)
      else (s, false)
    else (s, false)
  else (s, false).

Definition onTimerTic (s : kernel) : kernel * bool :=
  let s := clockTimers s in
  let '(s, isNewActiveTask) := roundRobin s in
  checkForTaskActivation isNewActiveTask s.

(** *** setEvent *)

(** The loop that posts the events to the suspended tasks. *)
Definition postEvents (postedEventVec_ : Z) (s : kernel) : kernel :=
  forSuspendedTasks
    (λ _ t, set_postedEventVec
              (Z.lor (postedEventVec t) (Z.land postedEventVec_ (eventMask t))) t) s.

Definition setEvent (postedEventVec_ : Z) (s : kernel) : kernel * bool :=
  let postedEventVec_ :=
    u16 (Z.land postedEventVec_
           (Z.lnot (Z.lor (RTOS_EVT_ABSOLUTE_TIMER cfg) (RTOS_EVT_DELAY_TIMER cfg)))) in
  let s := postEvents postedEventVec_ s in
  checkForTaskActivation false s.

(** *** storeResumeCondition *)
Definition storeResumeCondition (pT : nat) (eventMask_ : Z) (all : bool) (timeout : Z)
    (s : kernel) : kernel :=
  let s :=
    if negb (Z.land eventMask_ (RTOS_EVT_ABSOLUTE_TIMER cfg) =? 0)%Z then
      let s := updTask pT (λ t, set_timeDueAt (uintTime (timeDueAt t + timeout)) t) s in
      if (intTime (timeDueAt (task s pT) - _time s) <=? 0)%Z then
        let s := if (cntOverrun (task s pT) <? 255)%Z
                 then updTask pT (λ t, set_cntOverrun (cntOverrun t + 1) t) s
                 else s in
        updTask pT (set_timeDueAt (uintTime (_time s + 1))) s
      else s
    else
      let timeout := if negb (uintTime (timeout + 1) =? 0)%Z
                     then uintTime (timeout + 1) else timeout in
      updTask pT (set_cntDelay timeout) s in
  let s := updTask pT (set_eventMask eventMask_) s in
  updTask pT (set_waitForAnyEvent (negb all)) s.

(** *** waitForEvent *)
Definition waitForEvent (eventMask_ : Z) (all : bool) (timeout : Z) (s : kernel) : kernel :=
  let pT := _pActiveTask s in
  let prio := prioClass (task s pT) in
  let noDueNow := u8_dec (_noDueTasksAry s !!! prio) in
  let s := set_noDueTasksAry (<[prio := noDueNow]> (_noDueTasksAry s)) s in
  let s := set_pDueTaskAryAry (alter (shiftDown 0 noDueNow) prio (_pDueTaskAryAry s)) s in
  let s := storeResumeCondition pT eventMask_ all timeout s in
  let s := set_pSuspendedTaskAry
             (<[_noSuspendedTasks s := _pActiveTask s]> (_pSuspendedTaskAry s)) s in
  let s := set_noSuspendedTasks (u8_inc (_noSuspendedTasks s)) s in
  let s := set_pSuspendedTask (_pActiveTask s) s in
  let s := set_pActiveTask _pIdleTask s in
  match findDueClass (_noDueTasksAry s) (RTOS_NO_PRIO_CLASSES cfg) with
  | Some idxPrio => set_pActiveTask ((_pDueTaskAryAry s !!! idxPrio) !!! 0) s
  | None => s
  end.

(** *** The entry points: interrupts and software interrupts *)

(** [PUSH_RET_CODE_OF_CONTEXT_SWITCH]: a task that comes out of a suspend
    command gets its posted events as return code, and the vector is
    cleared.  The code handed to the task is the second component. *)
Definition PUSH_RET_CODE_OF_CONTEXT_SWITCH (s : kernel) : kernel * option Z :=
  let ev := postedEventVec (task s (_pActiveTask s)) in
  if (0 <? ev)%Z
  then (updTask (_pActiveTask s) (set_postedEventVec 0) s, Some ev)
  else (s, None).

(** [ISR(RTOS_ISR_SYSTEM_TIMER_TIC)] *)
Definition ISR_SYSTEM_TIMER_TIC (s : kernel) : kernel :=
  let '(s, switch) := onTimerTic s in
  if switch then fst (PUSH_RET_CODE_OF_CONTEXT_SWITCH s) else s.

(** [rtos_setEvent]; the interrupts [RTOS_ISR_USER_00] and [_01] enter the
    same code with their event as argument. *)
Definition rtos_setEvent (eventVec : Z) (s : kernel) : kernel :=
  let '(s, switch) := setEvent eventVec s in
  if switch then fst (PUSH_RET_CODE_OF_CONTEXT_SWITCH s) else s.

(** [rtos_waitForEvent]: the context switch is unconditional. *)
Definition rtos_waitForEvent (eventMask_ : Z) (all : bool) (timeout : Z) (s : kernel)
  : kernel :=
  fst (PUSH_RET_CODE_OF_CONTEXT_SWITCH (waitForEvent eventMask_ all timeout s)).

(** [rtos_getTaskOverrunCounter] *)
Definition rtos_getTaskOverrunCounter (idxTask : nat) (doReset : bool) (s : kernel)
  : kernel * Z :=
  if doReset
  then (updTask idxTask (set_cntOverrun 0) s, cntOverrun (task s idxTask))
  else (s, cntOverrun (task s idxTask)).

(** *** Initialization *)

(** The static data before [rtos_initRTOS]: zero, but for the system time
    and the two task pointers, which have initializers. *)
Definition staticData : kernel :=
  mkKernel (uintTime (-1)) (replicate (RTOS_NO_TASKS cfg + 1) zeroTask)
           _pIdleTask _pIdleTask
           (replicate (RTOS_NO_PRIO_CLASSES cfg)
              (replicate (RTOS_MAX_NO_TASKS_IN_PRIO_CLASS cfg) 0))
           (replicate (RTOS_NO_PRIO_CLASSES cfg) 0)
           (replicate (RTOS_NO_TASKS cfg) 0) 0.

Definition rtos_initializeTask (a : initArgs) (s : kernel) : kernel :=
  let pT := ia_idxTask a in
  let s := updTask pT (set_prioClass (ia_prioClass a)) s in
  let s := updTask pT (set_cntDelay 0) s in
  let s := updTask pT (set_timeDueAt 0) s in
  let s := storeResumeCondition pT (ia_startEventMask a) (ia_startByAllEvents a)
             (ia_startTimeout a) s in
  if RTOS_ROUND_ROBIN_MODE_SUPPORTED cfg
  then updTask pT (set_timeRoundRobin (ia_timeRoundRobin a)) s
  else s.

(** [rtos_initRTOS], up to the point where the idle loop starts.  The
    application's [setup] is the list of its calls of
    [rtos_initializeTask]. *)
Definition rtos_initRTOS (setup : list initArgs) : kernel :=
  let s := foldl (λ s a, rtos_initializeTask a s) staticData setup in
  let s := for_loop 0 (RTOS_NO_TASKS cfg)
             (λ idxTask s,
                let s := if RTOS_ROUND_ROBIN_MODE_SUPPORTED cfg
                         then updTask idxTask (set_cntRoundRobin 0) s else s in
                let s := updTask idxTask (set_postedEventVec 0) s in
                let s := updTask idxTask (set_cntOverrun 0) s in
                set_pSuspendedTaskAry (<[idxTask := idxTask]> (_pSuspendedTaskAry s)) s) s in
  let s := set_noSuspendedTasks (RTOS_NO_TASKS cfg) s in
  let pT := _pIdleTask in
  let s := updTask pT (set_timeDueAt 0) s in
  let s := updTask pT (set_cntDelay 0) s in
  let s := if RTOS_ROUND_ROBIN_MODE_SUPPORTED cfg
           then updTask pT (set_cntRoundRobin 0) s else s in
  let s := updTask pT (set_postedEventVec 0) s in
  let s := updTask pT (set_eventMask 0) s in
  let s := updTask pT (set_waitForAnyEvent true) s in
  let s := updTask pT (set_cntOverrun 0) s in
  let s := for_loop 0 (RTOS_NO_PRIO_CLASSES cfg)
             (λ idxClass s, set_noDueTasksAry (<[idxClass := 0]> (_noDueTasksAry s)) s) s in
  let s := set_pActiveTask _pIdleTask s in
  set_pSuspendedTask _pIdleTask s.

(** ** Reachable states and invariants *)

(** The limits the integer types of the kernel put on the configuration:
    counters and task indices are [uint8_t], the class index of the search
    for the active task is [int8_t]. *)
Definition config_ok : Prop :=
  RTOS_NO_TASKS cfg ≤ 255
  ∧ RTOS_MAX_NO_TASKS_IN_PRIO_CLASS cfg ≤ 255
  ∧ RTOS_NO_PRIO_CLASSES cfg ≤ 128.

(** A call of [rtos_initializeTask] with arguments of its parameter types
    and a task index in the documented range 0..RTOS_NO_TASKS-1. *)
Definition initArgs_ok (a : initArgs) : Prop :=
  ia_idxTask a < RTOS_NO_TASKS cfg
  ∧ ia_prioClass a < 256
  ∧ (0 ≤ ia_timeRoundRobin a < 2 ^ TIME_BITS cfg)%Z
  ∧ (0 ≤ ia_startEventMask a < 65536)%Z
  ∧ (0 ≤ ia_startTimeout a < 2 ^ TIME_BITS cfg)%Z.

(** What the application's task setup has to respect: every task has a
    priority class of the configuration, and no class has more tasks than
    the due array has room for. *)
Definition setup_ok (setup : list initArgs) : Prop :=
  let s := rtos_initRTOS setup in
  Forall initArgs_ok setup
  ∧ (∀ t, t < RTOS_NO_TASKS cfg → prioClass (task s t) < RTOS_NO_PRIO_CLASSES cfg)
  ∧ (∀ c, c < RTOS_NO_PRIO_CLASSES cfg →
       length (filter (λ t, prioClass (task s t) = c) (seq 0 (RTOS_NO_TASKS cfg)))
       ≤ RTOS_MAX_NO_TASKS_IN_PRIO_CLASS cfg).

(** The states the kernel gets into: from initialization by timer tics,
    posted events (from tasks, the idle task or the user interrupts),
    suspend commands of the active task, which is not the idle task, and
    readings of an overrun counter. *)
Inductive reachable (setup : list initArgs) : kernel → Prop :=
| reachable_init :
    reachable setup (rtos_initRTOS setup)
| reachable_timerTic s :
    reachable setup s →
    reachable setup (ISR_SYSTEM_TIMER_TIC s)
| reachable_setEvent s eventVec :
    reachable setup s →
    (0 ≤ eventVec < 65536)%Z →
    reachable setup (rtos_setEvent eventVec s)
| reachable_waitForEvent s eventMask_ all timeout :
    reachable setup s →
    _pActiveTask s ≠ _pIdleTask →
    (0 ≤ eventMask_ < 65536)%Z →
    (0 ≤ timeout < 2 ^ TIME_BITS cfg)%Z →
    reachable setup (rtos_waitForEvent eventMask_ all timeout s)
| reachable_getTaskOverrunCounter s idxTask doReset :
    reachable setup s →
    idxTask ≤ RTOS_NO_TASKS cfg →
    reachable setup (fst (rtos_getTaskOverrunCounter idxTask doReset s)).

(** The calls of [checkForTaskActivation]: with which argument and in
    which state it is run from a reachable state, at the end of [setEvent]
    and at the end of [onTimerTic]. *)
Inductive checkCall (setup : list initArgs) : bool → kernel → Prop :=
| checkCall_setEvent s eventVec :
    reachable setup s →
    (0 ≤ eventVec < 65536)%Z →
    checkCall setup false
      (postEvents
         (u16 (Z.land eventVec
                 (Z.lnot (Z.lor (RTOS_EVT_ABSOLUTE_TIMER cfg) (RTOS_EVT_DELAY_TIMER cfg)))))
         s)
| checkCall_onTimerTic s :
    reachable setup s →
    checkCall setup (snd (roundRobin (clockTimers s))) (fst (roundRobin (clockTimers s))).

(** The due tasks of all classes, lowest class first. *)
Definition allDue (s : kernel) : list nat :=
  concat (map (dueList s) (seq 0 (RTOS_NO_PRIO_CLASSES cfg))).

(** The consistency of the task arrays: the arrays have their declared
    sizes, every task but the idle task is in exactly one place of the due
    arrays or the suspended array, a due task is in the array of its
    priority class, and a class has room for all its tasks. *)
Record arrays_inv (s : kernel) : Prop := mkArraysInv {
  inv_len_tasks : length (_taskAry s) = RTOS_NO_TASKS cfg + 1;
  inv_len_susp : length (_pSuspendedTaskAry s) = RTOS_NO_TASKS cfg;
  inv_len_due : length (_pDueTaskAryAry s) = RTOS_NO_PRIO_CLASSES cfg;
  inv_len_noDue : length (_noDueTasksAry s) = RTOS_NO_PRIO_CLASSES cfg;
  inv_len_row : ∀ c row, _pDueTaskAryAry s !! c = Some row →
                  length row = RTOS_MAX_NO_TASKS_IN_PRIO_CLASS cfg;
  inv_noSusp : _noSuspendedTasks s ≤ RTOS_NO_TASKS cfg;
  inv_capacity : ∀ c, c < RTOS_NO_PRIO_CLASSES cfg →
                   _noDueTasksAry s !!! c
                   + length (filter (λ t, prios s !!! t = c) (suspList s))
                   ≤ RTOS_MAX_NO_TASKS_IN_PRIO_CLASS cfg;
  inv_perm : allDue s ++ suspList s ≡ₚ seq 0 (RTOS_NO_TASKS cfg);
  inv_due_prio : ∀ c t, c < RTOS_NO_PRIO_CLASSES cfg → t ∈ dueList s c →
                   prios s !!! t = c;
  inv_prio : ∀ t, t < RTOS_NO_TASKS cfg → prios s !!! t < RTOS_NO_PRIO_CLASSES cfg
}.

(** The task the search for the active task finds: the first entry of the
    highest non-empty priority class, or the idle task. *)
Definition selectActive (s : kernel) : nat :=
  match findDueClass (_noDueTasksAry s) (RTOS_NO_PRIO_CLASSES cfg) with
  | Some idxPrio => (_pDueTaskAryAry s !!! idxPrio) !!! 0
  | None => _pIdleTask
  end.

(** The first entry of the highest non-empty priority class, or the idle
    task if no class has a due task. *)
Definition highestDue (s : kernel) (a : nat) : Prop :=
  (∃ c, c < RTOS_NO_PRIO_CLASSES cfg
        ∧ head (dueList s c) = Some a
        ∧ ∀ c', c < c' < RTOS_NO_PRIO_CLASSES cfg → dueList s c' = [])
  ∨ ((∀ c, c < RTOS_NO_PRIO_CLASSES cfg → dueList s c = []) ∧ a = _pIdleTask).

Definition kernel_inv (s : kernel) : Prop :=
  arrays_inv s ∧ _pActiveTask s = selectActive s.

(** ** The value ranges of the C types

    The model computes with unbounded integers.  These are the ranges the
    C types give to the members of [task_t] and to the system time. *)
Record task_in_range (t : task_t) : Prop := mkTaskInRange {
  rng_prioClass : prioClass t < 256;
  rng_timeDueAt : (0 ≤ timeDueAt t < 2 ^ TIME_BITS cfg)%Z;
  rng_timeRoundRobin : (0 ≤ timeRoundRobin t < 2 ^ TIME_BITS cfg)%Z;
  rng_cntDelay : (0 ≤ cntDelay t < 2 ^ TIME_BITS cfg)%Z;
  rng_cntRoundRobin : (0 ≤ cntRoundRobin t < 2 ^ TIME_BITS cfg)%Z;
  rng_postedEventVec : (0 ≤ postedEventVec t < 65536)%Z;
  rng_eventMask : (0 ≤ eventMask t < 65536)%Z;
  rng_cntOverrun : (0 ≤ cntOverrun t < 256)%Z
}.

Definition kernel_in_range (s : kernel) : Prop :=
  (0 ≤ _time s < 2 ^ TIME_BITS cfg)%Z ∧ ∀ t, task_in_range (task s t).

(** A property of the task objects, one for each task index, holds in a
    state. *)
Definition tasks_ok (Q : nat → task_t → Prop) (s : kernel) : Prop :=
  ∀ t, Q t (task s t).

(** ** Sequences of kernel entries *)

(** One entry into the kernel: an interrupt of the system timer, or a call
    of one of the functions of the API. *)
Inductive entry :=
| TimerTic
| SetEvent (eventVec : Z)
| WaitForEvent (eventMask_ : Z) (all : bool) (timeout : Z)
| GetTaskOverrunCounter (idxTask : nat) (doReset : bool).

Definition enter (e : entry) (s : kernel) : kernel :=
  match e with
  | TimerTic => ISR_SYSTEM_TIMER_TIC s
  | SetEvent eventVec => rtos_setEvent eventVec s
  | WaitForEvent eventMask_ all timeout => rtos_waitForEvent eventMask_ all timeout s
  | GetTaskOverrunCounter idxTask doReset =>
      fst (rtos_getTaskOverrunCounter idxTask doReset s)
  end.

(** The conditions under which an entry is taken, as in [reachable]: the
    arguments are of their parameter types, and the suspend command is not
    called by the idle task. *)
Definition permitted (e : entry) (s : kernel) : Prop :=
  match e with
  | TimerTic => True
  | SetEvent eventVec => (0 ≤ eventVec < 65536)%Z
  | WaitForEvent eventMask_ all timeout =>
      _pActiveTask s ≠ _pIdleTask
      ∧ (0 ≤ eventMask_ < 65536)%Z
      ∧ (0 ≤ timeout < 2 ^ TIME_BITS cfg)%Z
  | GetTaskOverrunCounter idxTask doReset => idxTask ≤ RTOS_NO_TASKS cfg
  end.

(** The state after a sequence of entries, and whether each entry of the
    sequence is permitted in the state it is taken in. *)
Fixpoint run (es : list entry) (s : kernel) : kernel :=
  match es with
  | [] => s
  | e :: es => run es (enter e s)
  end.

Fixpoint permittedRun (es : list entry) (s : kernel) : Prop :=
  match es with
  | [] => True
  | e :: es => permitted e s ∧ permittedRun es (enter e s)
  end.

(** The return code a kernel entry hands to the task it activates: what
    [PUSH_RET_CODE_OF_CONTEXT_SWITCH] puts onto the stack of the new active
    task, if the entry switches the context. *)
Definition returnCode (e : entry) (s : kernel) : option Z :=
  match e with
  | TimerTic =>
      let '(s', switch) := onTimerTic s in
      if switch then snd (PUSH_RET_CODE_OF_CONTEXT_SWITCH s') else None
  | SetEvent eventVec =>
      let '(s', switch) := setEvent eventVec s in
      if switch then snd (PUSH_RET_CODE_OF_CONTEXT_SWITCH s') else None
  | WaitForEvent eventMask_ all timeout =>
      snd (PUSH_RET_CODE_OF_CONTEXT_SWITCH (waitForEvent eventMask_ all timeout s))
  | GetTaskOverrunCounter _ _ => None
  end.

(** The task [a] is not the active task in [s], nor after any entry of the
    sequence. *)
Fixpoint neverActive (a : nat) (es : list entry) (s : kernel) : Prop :=
  _pActiveTask s ≠ a
  ∧ match es with
    | [] => True
    | e :: es => neverActive a es (enter e s)
    end.

(** The task [a] has called the suspend command with [mask] and [all] and
    has not been activated since: it is suspended with this resume
    condition, or it is due.  Its event vector holds events of the mask
    only, and it is empty on a due task only if the task waited for all
    events of a mask of timer events. *)
Definition awaits (a : nat) (mask : Z) (all : bool) (s : kernel) : Prop :=
  Z.land (postedEventVec (task s a)) (Z.lnot mask) = 0%Z
  ∧ ((a ∈ suspList s
      ∧ eventMask (task s a) = mask
      ∧ waitForAnyEvent (task s a) = negb all)
     ∨ (a ∈ allDue s
        ∧ (postedEventVec (task s a) = 0%Z →
           all = true ∧ Z.land mask (Z.lnot TIMER_EVT_MASK) = 0%Z))).

(** The number of timer tics in a sequence of entries. *)
Fixpoint tics (es : list entry) : nat :=
  match es with
  | [] => 0
  | TimerTic :: es => S (tics es)
  | _ :: es => tics es
  end.


(** The two timer events as rtos.h defines them: two different, non-empty
    sets of bits of the sixteen bit event vector. *)
Definition timer_events_ok : Prop :=
  (0 < RTOS_EVT_ABSOLUTE_TIMER cfg < 65536)%Z
  ∧ (0 < RTOS_EVT_DELAY_TIMER cfg < 65536)%Z
  ∧ Z.land (RTOS_EVT_ABSOLUTE_TIMER cfg) (RTOS_EVT_DELAY_TIMER cfg) = 0%Z.


End Kernel.

(** ** The stack of a task

    The stack area of a task is the list of its bytes, lowest address
    first.  A pointer into the area is the offset from its first byte; the
    offset -1 is the pointer just below the area, which a post-decremented
    stack pointer reaches when the area is full. *)

Definition UNUSED_STACK_PATTERN : Z := 41.

(** [* sp-- = v] *)
Definition pushByte (v : Z) (st : list Z * Z) : list Z * Z :=
  ((if (0 <=? snd st)%Z then <[Z.to_nat (snd st) := v]> (fst st) else fst st),
   (snd st - 1)%Z).

(** [while(sp >= pEmptyTaskStack) * sp-- = UNUSED_STACK_PATTERN;]
    Every round moves the pointer down by one, so as many rounds as the
    area has bytes suffice. *)
Fixpoint fillUnused (rounds : nat) (st : list Z * Z) : list Z * Z :=
  match rounds with
  | 0 => st
  | S rounds' =>
      if (0 <=? snd st)%Z then fillUnused rounds' (pushByte UNUSED_STACK_PATTERN st)
      else st
  end.

(** [prepareTaskStack]: the prepared area and the returned stack pointer. *)
Definition prepareTaskStack (pEmptyTaskStack : list Z) (stackSize : Z)
    (taskEntryPoint : Z) : list Z * Z :=
  let st := (pEmptyTaskStack, (stackSize - 1)%Z) in
  let st := pushByte 0 st in
  let st := pushByte 0 st in
  let st := pushByte 0 st in
  let st := pushByte (Z.land taskEntryPoint 255) st in
  let st := pushByte (Z.shiftr (Z.land taskEntryPoint 65280) 8) st in
  let st := pushByte (Z.shiftr (Z.land taskEntryPoint 16711680) 16) st in
  let st := pushByte 0 st in
  let st := pushByte 128 st in
  let st := pushByte 0 st in
  let st := for_loop 2 24 (λ _, pushByte 0) st in
  let st := for_loop 26 32 (λ _, pushByte 0) st in
  let retCode := snd st in
  let st := fillUnused (Z.to_nat stackSize) st in
  (fst st, retCode).

(** [while( * sp == UNUSED_STACK_PATTERN) ++ sp;] on the bytes from [sp] on:
    the number of steps up to the first byte that is not the pattern.  The
    loop has no bound; the result is [None] if it leaves the stack area. *)
Fixpoint searchUsed (bytes : list Z) : option nat :=
  match bytes with
  | [] => None
  | b :: bytes' =>
      if (b =? UNUSED_STACK_PATTERN)%Z then S <$> searchUsed bytes' else Some 0
  end.

(** [rtos_getStackReserve], given the stack area of the task. *)
Definition rtos_getStackReserve (pStackArea : list Z) : option Z :=
  (λ n, u16 (Z.of_nat n)) <$> searchUsed pStackArea.

(** ** The CPU context

    The registers r0..r31, the status register, the stack pointer and the
    RAM, with the instructions of the code patterns that save and restore a
    context.  [push] stores at the stack pointer and decrements it, [pop]
    increments it and loads from there. *)
Record cpu := mkCpu {
  reg : list Z;
  SREG : Z;
  SP : nat;
  RAM : list Z;
  _tmpVarCToAsm_u16 : Z
}.

Inductive instr :=
| push (r : nat)
| pop (r : nat)
| in_SREG (r : nat)
| out_SREG (r : nat)
| lds_tmpVarCToAsm_u16 (r : nat) (offset : nat).

Definition step (i : instr) (m : cpu) : cpu :=
  match i with
  | push r =>
      mkCpu (reg m) (SREG m) (pred (SP m)) (<[SP m := reg m !!! r]> (RAM m))
            (_tmpVarCToAsm_u16 m)
  | pop r =>
      mkCpu (<[r := RAM m !!! S (SP m)]> (reg m)) (SREG m) (S (SP m)) (RAM m)
            (_tmpVarCToAsm_u16 m)
  | in_SREG r =>
      mkCpu (<[r := SREG m]> (reg m)) (SREG m) (SP m) (RAM m) (_tmpVarCToAsm_u16 m)
  | out_SREG r =>
      mkCpu (reg m) (reg m !!! r) (SP m) (RAM m) (_tmpVarCToAsm_u16 m)
  | lds_tmpVarCToAsm_u16 r offset =>
      let byte := if offset is 0 then (_tmpVarCToAsm_u16 m mod 256)%Z
                  else (_tmpVarCToAsm_u16 m / 256 mod 256)%Z in
      mkCpu (<[r := byte]> (reg m)) (SREG m) (SP m) (RAM m) (_tmpVarCToAsm_u16 m)
  end.

Definition exec (code : list instr) (m : cpu) : cpu := foldl (λ m i, step i m) m code.

Definition PUSH_CONTEXT_WITHOUT_R24R25_ONTO_STACK : list instr :=
  [ push 0; in_SREG 0; push 0;
    push 1; push 2; push 3; push 4; push 5; push 6; push 7; push 8; push 9;
    push 10; push 11; push 12; push 13; push 14; push 15; push 16; push 17;
    push 18; push 19; push 20; push 21; push 22; push 23;
    push 26; push 27; push 28; push 29; push 30; push 31 ].

Definition PUSH_CONTEXT_ONTO_STACK : list instr :=
  PUSH_CONTEXT_WITHOUT_R24R25_ONTO_STACK ++ [ push 24; push 25 ].

Definition POP_CONTEXT_FROM_STACK : list instr :=
  [ pop 25; pop 24;
    pop 31; pop 30; pop 29; pop 28; pop 28; pop 27; pop 26;
    pop 23; pop 22; pop 21; pop 20; pop 19; pop 18; pop 17; pop 16; pop 15;
    pop 14; pop 13; pop 12; pop 11; pop 10; pop 9; pop 8; pop 7; pop 6; pop 5;
    pop 4; pop 3; pop 2; pop 1; pop 0;
    out_SREG 0; pop 0 ].

(** The assembly of [PUSH_RET_CODE_OF_CONTEXT_SWITCH], which puts the return
    code, held by [_tmpVarCToAsm_u16], at the context positions of r24 and
    r25. *)
Definition PUSH_RET_CODE_asm : list instr :=
  [ lds_tmpVarCToAsm_u16 0 0; push 0; lds_tmpVarCToAsm_u16 0 1; push 0 ].

(** ** An example system

    Eight bit system time, the timer events at bits 14 and 15, round robin
    compiled.  Tasks 0 and 1 share priority class 0 with a time slice of two
    tics and start after a delay of zero; task 2 is of class 1 and starts
    after a delay of two. *)
Definition exConfig : config := mkConfig 3 2 2 true 8 16384 32768.

Definition exSetup : list initArgs :=
  [ mkInitArgs 0 0 2 32768 false 0;
    mkInitArgs 1 0 2 32768 false 0;
    mkInitArgs 2 1 0 32768 false 2 ].

(** The state after initialization and after the first, second and third
    timer tic. *)
Definition exInit : kernel := rtos_initRTOS exConfig exSetup.
Definition exTic1 : kernel := ISR_SYSTEM_TIMER_TIC exConfig exInit.
Definition exTic2 : kernel := ISR_SYSTEM_TIMER_TIC exConfig exTic1.
Definition exTic3 : kernel := ISR_SYSTEM_TIMER_TIC exConfig exTic2.

(** The state in which the first and the third tic call
    [checkForTaskActivation], with the argument of the call. *)
Definition exCall1 : kernel * bool := roundRobin exConfig (clockTimers exConfig exInit).
Definition exCall3 : kernel * bool := roundRobin exConfig (clockTimers exConfig exTic2).

(** The state after task 2, active since the third tic, has suspended itself
    to wait for event 0. *)
Definition exWait : kernel := rtos_waitForEvent exConfig 1 false 0 exTic3.

(** A CPU in the middle of a computation, and the CPU at the first
    activation of a task with entry address 0x1234 on a stack of 40 bytes at
    the bottom of the RAM, with the return code 0x0201 to hand over. *)
Definition exCpu : cpu := mkCpu (Z.of_nat <$> seq 1 32) 128 40 (replicate 64 0%Z) 513.

Definition exStart : cpu :=
  let prepared := prepareTaskStack (replicate 40 0%Z) 40 4660 in
  mkCpu (replicate 32 7%Z) 0 (Z.to_nat (snd prepared)) (fst prepared) 513.

(** A task that waits for all of event 0 and the delay timer, with the
    timer event posted and event 0 missing. *)
Definition exTimedOut : task_t := mkTask 0 0 0 0 0 32768 32769 false 0.

(** The placement of the active task as the specification states it: the
    active task is in no due array and not in the suspended array. *)
Definition activeStoredNowhere (cfg : config) (s : kernel) : Prop :=
  (∀ c, c < RTOS_NO_PRIO_CLASSES cfg → _pActiveTask s ∉ dueList s c)
  ∧ (_pActiveTask s ∉ suspList s).

(** * Properties *)

(** ** Machine integer facts *)

Lemma u16_lnot_land (x m : Z) :
  (0 ≤ x < 65536)%Z → Z.land x (u16 (Z.lnot m)) = Z.land x (Z.lnot m).
Proof.
  intros Hx. unfold u16.
  change 65536%Z with (2 ^ 16)%Z. rewrite <- Z.land_ones by lia.
  rewrite (Z.land_comm (Z.lnot m)), Z.land_assoc.
  rewrite Z.land_ones by lia. rewrite Z.mod_small; [done | simpl; lia].
Qed.

Lemma lxor_u16_range (p m : Z) :
  (0 ≤ p < 65536)%Z → (0 ≤ m < 65536)%Z → (0 ≤ Z.lxor p m < 65536)%Z.
Proof.
  intros Hp Hm. split; [apply Z.lxor_nonneg; lia |].
  destruct (Z.eq_dec (Z.lxor p m) 0%Z) as [-> | Hne]; [lia |].
  assert (0 < Z.lxor p m)%Z by (pose proof (proj2 (Z.lxor_nonneg p m)); lia).
  change 65536%Z with (2 ^ 16)%Z.
  apply Z.log2_lt_pow2; [done |].
  eapply Z.le_lt_trans; [apply Z.log2_lxor; lia |].
  apply Z.max_lub_lt.
  - destruct (Z.eq_dec p 0%Z) as [-> | ?]; [done |]. apply Z.log2_lt_pow2; simpl; lia.
  - destruct (Z.eq_dec m 0%Z) as [-> | ?]; [done |]. apply Z.log2_lt_pow2; simpl; lia.
Qed.

(** ** Loops and arrays *)

Lemma for_range_ind {St : Type} (P : nat → St → Prop) (body : nat → St → St)
    (u cnt : nat) (s : St) :
  P u s →
  (∀ i x, u ≤ i < u + cnt → P i x → P (S i) (body i x)) →
  P (u + cnt) (for_range u cnt body s).
Proof.
  revert u s. induction cnt as [| cnt IH]; intros u s H0 Hstep; simpl.
  - by rewrite Nat.add_0_r.
  - replace (u + S cnt) with (S u + cnt) by lia. apply IH.
    + apply Hstep; [lia | done].
    + intros i x Hi. apply Hstep. lia.
Qed.

Lemma for_loop_ind {St : Type} (P : nat → St → Prop) (body : nat → St → St)
    (from to : nat) (s : St) :
  from ≤ to →
  P from s →
  (∀ i x, from ≤ i < to → P i x → P (S i) (body i x)) →
  P to (for_loop from to body s).
Proof.
  intros Hle H0 Hstep. unfold for_loop.
  replace to with (from + (to - from)) at 1 by lia.
  apply for_range_ind; [done |]. intros i x Hi. apply Hstep. lia.
Qed.

Lemma shiftDown_spec (from to : nat) (a : list nat) :
  from ≤ to → to < length a →
  length (shiftDown from to a) = length a
  ∧ ∀ j, shiftDown from to a !! j
         = if decide (from ≤ j < to) then a !! (S j) else a !! j.
Proof.
  intros Hle Hlen. unfold shiftDown.
  pose proof (for_loop_ind (λ i x, length x = length a
    ∧ ∀ j, x !! j = if decide (from ≤ j < i) then a !! (S j) else a !! j)
    (λ u a, <[u := a !!! (u + 1)]> a) from to a Hle) as Hind.
  apply Hind; clear Hind.
  - split; [done |]. intros j. case_decide; [lia | done].
  - intros i x Hi [Hl Hx]. split; [by rewrite length_insert |].
    intros j. destruct (decide (j = i)) as [-> | Hne].
    + rewrite list_lookup_insert_eq by lia.
      rewrite decide_True by lia.
      rewrite list_lookup_total_alt, Hx, decide_False by lia.
      replace (i + 1) with (S i) by lia.
      destruct (lookup_lt_is_Some_2 a (S i) ltac:(lia)) as [y ->]. done.
    + rewrite list_lookup_insert_ne by done. rewrite Hx.
      repeat case_decide; done || lia.
Qed.

Lemma length_shiftDown (from to : nat) (a : list nat) :
  length (shiftDown from to a) = length a.
Proof.
  unfold shiftDown, for_loop.
  generalize (to - from). intros cnt. revert from a.
  induction cnt as [| cnt IH]; intros from a; simpl; [done |].
  by rewrite IH, length_insert.
Qed.

Lemma take_shiftDown (from to : nat) (a : list nat) :
  from ≤ to → to < length a →
  take to (shiftDown from to a) = delete from (take (S to) a).
Proof.
  intros Hle Hlen. destruct (shiftDown_spec from to a Hle Hlen) as [_ Hx].
  apply list_eq. intros j.
  rewrite lookup_take, Hx, list_lookup_delete, !lookup_take.
  repeat case_decide; done || lia.
Qed.

Lemma take_insert_S_r {A : Type} (l : list A) (n : nat) (x : A) :
  n < length l → take (S n) (<[n := x]> l) = take n l ++ [x].
Proof.
  intros Hlt. rewrite (take_S_r _ _ x) by (by apply list_lookup_insert_eq).
  by rewrite take_insert_ge.
Qed.

Lemma filter_ext_elem {A : Type} (P Q : A → Prop)
    `{!∀ x, Decision (P x)} `{!∀ x, Decision (Q x)} (l : list A) :
  (∀ x, x ∈ l → P x ↔ Q x) → filter P l = filter Q l.
Proof.
  induction l as [| a l IH]; intros Hext; [done |].
  rewrite !filter_cons.
  assert (Ha : P a ↔ Q a) by (apply Hext; left).
  rewrite IH by (intros x Hx; apply Hext; by right).
  destruct (decide (P a)), (decide (Q a)); tauto || done.
Qed.

Lemma filter_none {A : Type} (P : A → Prop) `{!∀ x, Decision (P x)} (l : list A) :
  (∀ x, x ∈ l → ¬ P x) → filter P l = [].
Proof.
  induction l as [| a l IH]; intros Hnone; [done |].
  rewrite filter_cons, decide_False by (apply Hnone; left).
  apply IH. intros x Hx. apply Hnone. by right.
Qed.

Lemma concat_map_perm_cons (f g : nat → list nat) (cs : list nat) (c x : nat) :
  NoDup cs → c ∈ cs →
  g c ≡ₚ x :: f c →
  (∀ c', c' ≠ c → g c' = f c') →
  concat (map g cs) ≡ₚ x :: concat (map f cs).
Proof.
  induction cs as [| a cs IH]; intros Hnd Hin Hc Hother.
  - by apply elem_of_nil in Hin.
  - apply NoDup_cons in Hnd as [Hna Hnd]. simpl.
    destruct (decide (a = c)) as [-> | Hne].
    + rewrite Hc. simpl. f_equiv. f_equiv.
      assert (Heq : map g cs = map f cs); [| by rewrite Heq].
      apply map_ext_in. intros c' Hc'. apply Hother.
      intros ->. apply Hna. by apply list_elem_of_In.
    + rewrite (Hother a Hne).
      apply elem_of_cons in Hin as [-> | Hin]; [done |].
      rewrite IH by done. by rewrite Permutation_middle.
Qed.

Lemma concat_map_perm (f g : nat → list nat) (cs : list nat) :
  (∀ c, c ∈ cs → g c ≡ₚ f c) →
  concat (map g cs) ≡ₚ concat (map f cs).
Proof.
  induction cs as [| a cs IH]; intros H; [done |]. simpl.
  rewrite (H a) by left. f_equiv. apply IH. intros c Hc. apply H. by right.
Qed.

Lemma elem_of_concat_map (f : nat → list nat) (cs : list nat) (x : nat) :
  x ∈ concat (map f cs) ↔ ∃ c, c ∈ cs ∧ x ∈ f c.
Proof.
  induction cs as [| a cs IH]; simpl.
  - split; [intros H; by apply elem_of_nil in H | intros (c & H & _); by apply elem_of_nil in H].
  - rewrite elem_of_app, IH. split.
    + intros [Hx | (c & Hc & Hx)]; [exists a; split; [left | done] |].
      exists c. split; [by right | done].
    + intros (c & Hc & Hx). apply elem_of_cons in Hc as [-> | Hc]; [by left |].
      right. by exists c.
Qed.


Section Facts.

Variable cfg : config.

(** ** The release test *)

(** C1: the release test of [checkForTaskActivation] holds exactly if the
    task waits for any event and some event is posted, or it waits for all
    events and either the posted vector agrees with the mask on every bit
    that is not a timer bit or a timer bit of the mask is posted.  In
    particular, in all-mode a posted timer bit of the mask releases the
    task, whatever the other bits are. *)
Theorem releaseTest_iff (t : task_t) :
  (0 ≤ postedEventVec t < 65536)%Z →
  (0 ≤ eventMask t < 65536)%Z →
  let p := postedEventVec t in
  let m := eventMask t in
  let TM := Z.lor (RTOS_EVT_ABSOLUTE_TIMER cfg) (RTOS_EVT_DELAY_TIMER cfg) in
  (releaseTest cfg t = true ↔
     (waitForAnyEvent t = true ∧ p ≠ 0%Z)
     ∨ (waitForAnyEvent t = false
        ∧ (Z.land (Z.lxor p m) (Z.lnot TM) = 0%Z ∨ Z.land (Z.land p m) TM ≠ 0%Z)))
  ∧ (waitForAnyEvent t = false →
     ∀ i, Z.testbit TM i = true → Z.testbit m i = true → Z.testbit p i = true →
          releaseTest cfg t = true).
Proof.
  intros Hp Hm p m TM.
  assert (Hiff : releaseTest cfg t = true ↔
     (waitForAnyEvent t = true ∧ p ≠ 0%Z)
     ∨ (waitForAnyEvent t = false
        ∧ (Z.land (Z.lxor p m) (Z.lnot TM) = 0%Z ∨ Z.land (Z.land p m) TM ≠ 0%Z))).
  { unfold releaseTest, TIMER_EVT_MASK. fold p m TM.
    rewrite u16_lnot_land by (apply lxor_u16_range; done).
    rewrite orb_true_iff, !andb_true_iff, orb_true_iff, !negb_true_iff.
    rewrite !Z.eqb_eq, !Z.eqb_neq. done. }
  split; [exact Hiff |].
  intros Hall i HT Hmi Hpi. apply Hiff. right. split; [done |]. right.
  intros H0. apply (f_equal (λ z, Z.testbit z i)) in H0.
  rewrite !Z.land_spec, Z.bits_0, HT, Hmi, Hpi in H0. done.
Qed.

(** ** Reading and writing task objects *)

Lemma task_updTask_eq (s : kernel) (pT : nat) (f : task_t → task_t) :
  pT < length (_taskAry s) → task (updTask pT f s) pT = f (task s pT).
Proof.
  intros Hlt. unfold task, updTask. simpl.
  destruct (lookup_lt_is_Some_2 (_taskAry s) pT Hlt) as [t Ht].
  rewrite (list_lookup_total_correct _ _ _ Ht).
  apply list_lookup_total_correct.
  by rewrite list_lookup_alter_eq, Ht.
Qed.

Lemma task_updTask_ne (s : kernel) (pT q : nat) (f : task_t → task_t) :
  pT ≠ q → task (updTask pT f s) q = task s q.
Proof.
  intros Hne. unfold task, updTask. simpl.
  rewrite !list_lookup_total_alt. by rewrite list_lookup_alter_ne.
Qed.

Lemma length_updTask (s : kernel) (pT : nat) (f : task_t → task_t) :
  length (_taskAry (updTask pT f s)) = length (_taskAry s).
Proof. unfold updTask. simpl. apply length_alter. Qed.

Lemma signedTime_intTime (d z : Z) :
  (0 < TIME_BITS cfg)%Z → signedTime cfg d z → d = intTime cfg z.
Proof.
  intros Hw [Hd Hc]. unfold intTime.
  assert (H2 : (2 ^ TIME_BITS cfg = 2 * 2 ^ (TIME_BITS cfg - 1))%Z).
  { rewrite <- Z.pow_succ_r by lia. f_equal. lia. }
  assert (Hh : (0 < 2 ^ (TIME_BITS cfg - 1))%Z) by (apply Z.pow_pos_nonneg; lia).
  set (h := (2 ^ (TIME_BITS cfg - 1))%Z) in *.
  rewrite H2 in *.
  pose proof (Z.mod_pos_bound z (2 * h) ltac:(lia)) as Hr.
  pose proof (Z.div_mod z (2 * h) ltac:(lia)) as Hz.
  apply Z.mod_divide in Hc; [| lia]. destruct Hc as [k Hk].
  set (r := (z mod (2 * h))%Z) in *. set (q := (z / (2 * h))%Z) in *.
  assert (Hm : (d - r = (k + q) * (2 * h))%Z) by lia.
  destruct (Z.ltb_spec r h).
  - assert (k + q = 0)%Z by nia. nia.
  - assert (k + q = -1)%Z by nia. nia.
Qed.

Lemma intTime_signedTime (z : Z) :
  (0 < TIME_BITS cfg)%Z → signedTime cfg (intTime cfg z) z.
Proof.
  intros Hw. unfold signedTime, intTime.
  assert (H2 : (2 ^ TIME_BITS cfg = 2 * 2 ^ (TIME_BITS cfg - 1))%Z).
  { rewrite <- Z.pow_succ_r by lia. f_equal. lia. }
  assert (Hh : (0 < 2 ^ (TIME_BITS cfg - 1))%Z) by (apply Z.pow_pos_nonneg; lia).
  set (h := (2 ^ (TIME_BITS cfg - 1))%Z) in *.
  rewrite H2 in *.
  pose proof (Z.mod_pos_bound z (2 * h) ltac:(lia)) as Hr.
  pose proof (Z.div_mod z (2 * h) ltac:(lia)) as Hz.
  set (r := (z mod (2 * h))%Z) in *. set (q := (z / (2 * h))%Z) in *.
  destruct (Z.ltb_spec r h).
  - split; [lia |]. replace (r - z)%Z with ((- q) * (2 * h))%Z by lia.
    apply Z.mod_mul. lia.
  - split; [lia |]. replace (r - 2 * h - z)%Z with ((- q - 1) * (2 * h))%Z by lia.
    apply Z.mod_mul. lia.
Qed.

(** ** storeResumeCondition *)

(** C3: with the absolute-timer event in the mask, [timeDueAt] advances by
    [timeout] in the cyclic time type; the task overruns exactly if the
    signed reading [d] of the new due time minus the system time is not
    positive, and then the saturating overrun counter is incremented and
    the due time becomes the system time plus one. *)
Theorem storeResumeCondition_absolute (s : kernel) (pT : nat) (mask : Z) (all : bool)
    (timeout d : Z) :
  (0 < TIME_BITS cfg)%Z →
  pT < length (_taskAry s) →
  Z.land mask (RTOS_EVT_ABSOLUTE_TIMER cfg) ≠ 0%Z →
  let t := task s pT in
  let t' := task (storeResumeCondition cfg pT mask all timeout s) pT in
  let due := ((timeDueAt t + timeout) mod 2 ^ TIME_BITS cfg)%Z in
  signedTime cfg d (due - _time s) →
  ((0 < d)%Z → timeDueAt t' = due ∧ cntOverrun t' = cntOverrun t)
  ∧ ((d ≤ 0)%Z →
     timeDueAt t' = ((_time s + 1) mod 2 ^ TIME_BITS cfg)%Z
     ∧ cntOverrun t' = if (cntOverrun t <? 255)%Z then (cntOverrun t + 1)%Z else cntOverrun t)
  ∧ (cntOverrun t' = (cntOverrun t + 1)%Z ↔ (d ≤ 0)%Z ∧ (cntOverrun t < 255)%Z)
  ∧ cntDelay t' = cntDelay t.
Proof.
  intros Hw Hlt Hmask t t' due Hd.
  apply signedTime_intTime in Hd; [| done].
  assert (Hc : negb (Z.land mask (RTOS_EVT_ABSOLUTE_TIMER cfg) =? 0)%Z = true)
    by (apply negb_true_iff, Z.eqb_neq; done).
  subst t'. unfold storeResumeCondition. rewrite Hc.
  set (s1 := updTask pT (λ t0, set_timeDueAt (uintTime cfg (timeDueAt t0 + timeout)) t0) s).
  assert (Hl1 : pT < length (_taskAry s1)) by (unfold s1; rewrite length_updTask; done).
  assert (Ht1 : task s1 pT = set_timeDueAt due t)
    by (unfold s1; rewrite task_updTask_eq by done; reflexivity).
  change (_time s1) with (_time s). rewrite Ht1.
  cbn [timeDueAt cntOverrun set_timeDueAt]. rewrite <- Hd.
  destruct (Z.leb_spec d 0) as [Hle | Hgt].
  - destruct (Z.ltb_spec (cntOverrun t) 255) as [Hsat | Hsat].
    + rewrite !task_updTask_eq by (rewrite ?length_updTask; done).
      rewrite Ht1. cbn. unfold uintTime.
      repeat split; try lia; done.
    + rewrite !task_updTask_eq by (rewrite ?length_updTask; done).
      rewrite Ht1. cbn. unfold uintTime.
      repeat split; try lia; done.
  - rewrite !task_updTask_eq by (rewrite ?length_updTask; done).
    rewrite Ht1. cbn. repeat split; try lia; done.
Qed.

(** C6: without the absolute-timer event in the mask, the delay counter is
    loaded with [timeout + 1], or with [timeout] itself if [timeout + 1]
    wraps to zero in the time type; the counter is never zero, a timeout of
    zero gives one, and no event is posted by the call.  A counter of one is
    counted down to zero by the timer service of the next tic, which is what
    posts the delay event: the suspension lasts until that tic. *)
Theorem storeResumeCondition_delay (s : kernel) (pT : nat) (mask : Z) (all : bool)
    (timeout : Z) :
  (0 < TIME_BITS cfg)%Z →
  pT < length (_taskAry s) →
  Z.land mask (RTOS_EVT_ABSOLUTE_TIMER cfg) = 0%Z →
  (0 ≤ timeout < 2 ^ TIME_BITS cfg)%Z →
  let t := task s pT in
  let t' := task (storeResumeCondition cfg pT mask all timeout s) pT in
  cntDelay t' = (if ((timeout + 1) mod 2 ^ TIME_BITS cfg =? 0)%Z
                 then timeout else (timeout + 1)%Z)
  ∧ (0 < cntDelay t' < 2 ^ TIME_BITS cfg)%Z
  ∧ (timeout = 0%Z → cntDelay t' = 1%Z)
  ∧ postedEventVec t' = postedEventVec t
  ∧ timeDueAt t' = timeDueAt t
  ∧ cntOverrun t' = cntOverrun t
  ∧ (cntDelay t' = 1%Z → ∀ time,
       cntDelay (serveTimers cfg time t') = 0%Z
       ∧ Z.land (postedEventVec (serveTimers cfg time t'))
           (Z.land (RTOS_EVT_DELAY_TIMER cfg) mask)
         = Z.land (RTOS_EVT_DELAY_TIMER cfg) mask).
Proof.
  intros Hw Hlt Hmask Hto t t'.
  assert (Hc : negb (Z.land mask (RTOS_EVT_ABSOLUTE_TIMER cfg) =? 0)%Z = false)
    by (apply negb_false_iff, Z.eqb_eq; done).
  assert (H1 : (1 < 2 ^ TIME_BITS cfg)%Z) by (apply Z.pow_gt_1; lia).
  assert (Hm : eventMask t' = mask).
  { subst t'. unfold storeResumeCondition. rewrite Hc.
    rewrite !task_updTask_eq by (rewrite ?length_updTask; done).
    reflexivity. }
  assert (Htic : cntDelay t' = 1%Z → ∀ time,
             cntDelay (serveTimers cfg time t') = 0%Z
             ∧ Z.land (postedEventVec (serveTimers cfg time t'))
                 (Z.land (RTOS_EVT_DELAY_TIMER cfg) mask)
               = Z.land (RTOS_EVT_DELAY_TIMER cfg) mask).
  { intros Hone time. unfold serveTimers.
    set (t1 := if (time =? timeDueAt t')%Z then _ else t').
    assert (Hc1 : cntDelay t1 = 1%Z) by (subst t1; destruct (time =? _)%Z; done).
    assert (Hm1 : eventMask t1 = mask) by (subst t1; destruct (time =? _)%Z; done).
    cbv zeta. rewrite Hc1. cbn [Z.ltb Z.compare]. cbn.
    unfold uintTime. rewrite Z.mod_0_l by lia. cbn. rewrite Hm1.
    split; [done |].
    apply Z.bits_inj'. intros i Hi.
    rewrite Z.land_spec, Z.lor_spec.
    destruct (Z.testbit (postedEventVec t1) i),
      (Z.testbit (Z.land (RTOS_EVT_DELAY_TIMER cfg) mask) i); done. }
  split_and!; [.. | exact Htic];
    subst t'; unfold storeResumeCondition; rewrite Hc;
    rewrite !task_updTask_eq by (rewrite ?length_updTask; done);
    fold t; cbn; unfold uintTime.
  all: destruct (Z.eq_dec (timeout + 1)%Z (2 ^ TIME_BITS cfg)%Z) as [Heq | Hne];
    [ rewrite ?Heq, ?Z.mod_same by lia; cbn; try lia; try done
    | rewrite ?(Z.mod_small (timeout + 1)%Z) by lia;
      destruct (Z.eqb_spec (timeout + 1)%Z 0%Z); [lia |]; cbn; try lia; try done ].
Qed.

(** ** The loops over the suspended tasks *)

Lemma occurrences_0 (pT : nat) (l : list nat) : pT ∉ l → occurrences pT l = 0.
Proof.
  intros Hn. unfold occurrences.
  induction l as [| a l IH]; [done |].
  rewrite filter_cons. apply not_elem_of_cons in Hn as [Hne Hn].
  rewrite decide_False by done. by apply IH.
Qed.

Lemma occurrences_pos (pT : nat) (l : list nat) : pT ∈ l → 0 < occurrences pT l.
Proof.
  intros Hin. unfold occurrences.
  induction l as [| a l IH]; [by apply elem_of_nil in Hin |].
  rewrite filter_cons. destruct (decide (a = pT)); [simpl; lia |].
  apply elem_of_cons in Hin as [-> | Hin]; [done | by apply IH].
Qed.

Lemma occurrences_NoDup (pT : nat) (l : list nat) :
  NoDup l → pT ∈ l → occurrences pT l = 1.
Proof.
  intros Hnd Hin. unfold occurrences.
  induction l as [| a l IH]; [by apply elem_of_nil in Hin |].
  apply NoDup_cons in Hnd as [Hna Hnd]. rewrite filter_cons.
  destruct (decide (a = pT)) as [-> | Hne].
  - simpl. f_equal. by apply (occurrences_0 pT l).
  - apply elem_of_cons in Hin as [-> | Hin]; [done | by apply IH].
Qed.

Lemma iter_idempotent {A : Type} (f : A → A) (k : nat) (x : A) :
  (∀ y, f (f y) = f y) → 0 < k → Nat.iter k f x = f x.
Proof.
  intros Hf Hk. destruct k as [| k]; [lia |]. clear Hk.
  induction k as [| k IH]; [done |].
  change (Nat.iter (S (S k)) f x) with (f (Nat.iter (S k) f x)).
  by rewrite IH, Hf.
Qed.

Lemma forSuspendedTasks_spec (body : kernel → task_t → task_t) (s : kernel) :
  (∀ x ts, body (set_taskAry ts x) = body x) →
  _noSuspendedTasks s ≤ length (_pSuspendedTaskAry s) →
  let s' := forSuspendedTasks body s in
  s' = set_taskAry (_taskAry s') s
  ∧ length (_taskAry s') = length (_taskAry s)
  ∧ ∀ pT, pT < length (_taskAry s) →
          task s' pT = Nat.iter (occurrences pT (suspList s)) (body s) (task s pT).
Proof.
  intros Hbody Hn s'. subst s'. unfold forSuspendedTasks.
  pose proof (for_loop_ind (λ i x,
    x = set_taskAry (_taskAry x) s
    ∧ length (_taskAry x) = length (_taskAry s)
    ∧ ∀ pT, pT < length (_taskAry s) →
        task x pT = Nat.iter (occurrences pT (take i (_pSuspendedTaskAry s)))
                      (body s) (task s pT))
    (λ idxSuspTask x, updTask (_pSuspendedTaskAry x !!! idxSuspTask) (body x) x)
    0 (_noSuspendedTasks s) s ltac:(lia)) as Hind.
  apply Hind; clear Hind.
  - split; [by destruct s |]. split; [done |]. intros pT _. done.
  - intros i x Hi (Hx & Hl & Ht).
    assert (Harr : _pSuspendedTaskAry x = _pSuspendedTaskAry s) by (by rewrite Hx).
    assert (Hb : body x = body s) by (rewrite Hx; apply Hbody).
    rewrite Harr, Hb.
    set (q := _pSuspendedTaskAry s !!! i).
    split; [unfold updTask; rewrite Hx; unfold set_taskAry; simpl; done |].
    split; [by rewrite length_updTask |].
    intros pT HpT.
    assert (Hq : _pSuspendedTaskAry s !! i = Some q)
      by (apply list_lookup_lookup_total_lt; lia).
    rewrite (take_S_r _ _ _ Hq). unfold occurrences. rewrite filter_app, length_app.
    fold (occurrences pT (take i (_pSuspendedTaskAry s))).
    rewrite filter_cons, filter_nil.
    destruct (decide (q = pT)) as [-> | Hne].
    + rewrite task_updTask_eq by lia. rewrite Ht by done.
      simpl. rewrite Nat.add_1_r. done.
    + rewrite task_updTask_ne by done. rewrite Ht by done.
      simpl. by rewrite Nat.add_0_r.
Qed.

Lemma forSuspendedTasks_preserves {X : Type} (g : task_t → X)
    (body : kernel → task_t → task_t) (s : kernel) :
  (∀ x ts, body (set_taskAry ts x) = body x) →
  _noSuspendedTasks s ≤ length (_pSuspendedTaskAry s) →
  (∀ t, g (body s t) = g t) →
  g <$> _taskAry (forSuspendedTasks body s) = g <$> _taskAry s.
Proof.
  intros Hbody Hn Hg.
  destruct (forSuspendedTasks_spec body s Hbody Hn) as (_ & Hl & Ht).
  apply list_eq. intros pT. rewrite !list_lookup_fmap.
  destruct (decide (pT < length (_taskAry s))) as [Hlt | Hge].
  - specialize (Ht pT Hlt). unfold task in Ht.
    rewrite (list_lookup_lookup_total_lt (_taskAry s)) by done.
    rewrite (list_lookup_lookup_total_lt (_taskAry (forSuspendedTasks body s))) by lia.
    simpl. f_equal. rewrite Ht.
    generalize (occurrences pT (suspList s)). intros k.
    induction k as [| k IH]; [done |]. simpl. by rewrite Hg.
  - rewrite !(proj2 (lookup_ge_None _ _)) by lia. done.
Qed.

(** ** setEvent *)

Lemma postEvents_spec (s : kernel) (vec : Z) :
  _noSuspendedTasks s ≤ length (_pSuspendedTaskAry s) →
  let TM := Z.lor (RTOS_EVT_ABSOLUTE_TIMER cfg) (RTOS_EVT_DELAY_TIMER cfg) in
  let vec' := u16 (Z.land vec (Z.lnot TM)) in
  let s' := postEvents vec' s in
  setEvent cfg vec s = checkForTaskActivation cfg false s'
  ∧ (∀ i, Z.testbit TM i = true → Z.testbit vec' i = false)
  ∧ (∀ i, (0 ≤ i < 16)%Z → Z.testbit TM i = false → Z.testbit vec' i = Z.testbit vec i)
  ∧ s' = set_taskAry (_taskAry s') s
  ∧ length (_taskAry s') = length (_taskAry s)
  ∧ ∀ pT, pT < length (_taskAry s) →
      let t := task s pT in
      (pT ∈ suspList s →
         task s' pT
         = set_postedEventVec (Z.lor (postedEventVec t) (Z.land vec' (eventMask t))) t)
      ∧ (pT ∉ suspList s → task s' pT = t)
      ∧ (Z.land vec' (eventMask t) = 0%Z → task s' pT = t)
      ∧ (∀ i, Z.testbit TM i = true →
              Z.testbit (postedEventVec (task s' pT)) i = Z.testbit (postedEventVec t) i).
Proof.
  intros Hn TM vec' s'.
  assert (Hbits : ∀ i, Z.testbit vec' i
            = ((Z.testbit vec i && negb (Z.testbit TM i)) && (i <? 16)%Z)).
  { intros i. unfold vec', u16. change 65536%Z with (2 ^ 16)%Z.
    destruct (Z.ltb_spec i 0) as [Hneg | Hpos].
    - rewrite !Z.testbit_neg_r by done. done.
    - destruct (Z.ltb_spec i 16).
      + rewrite Z.mod_pow2_bits_low by lia.
        rewrite Z.land_spec, Z.lnot_spec by lia. by rewrite andb_true_r.
      + rewrite Z.mod_pow2_bits_high by lia. by rewrite andb_false_r. }
  set (body := λ (_ : kernel) t,
         set_postedEventVec (Z.lor (postedEventVec t) (Z.land vec' (eventMask t))) t).
  destruct (forSuspendedTasks_spec body s ltac:(done) Hn) as (Hfr & Hl & Ht).
  fold (postEvents vec' s) in Hfr, Hl, Ht. fold s' in Hfr, Hl, Ht.
  assert (Hidem : ∀ y, body s (body s y) = body s y).
  { intros y. unfold body, set_postedEventVec. simpl. f_equal.
    rewrite <- Z.lor_assoc, Z.lor_diag. done. }
  split; [done |].
  split; [intros i Hi; rewrite Hbits, Hi; by rewrite andb_false_r |].
  split.
  { intros i Hi HT. rewrite Hbits, HT.
    rewrite (proj2 (Z.ltb_lt i 16)) by lia. by rewrite !andb_true_r. }
  split; [done |]. split; [done |].
  intros pT HpT t.
  assert (Hin : pT ∈ suspList s → task s' pT = body s t).
  { intros Hin. rewrite Ht by done. apply iter_idempotent; [done |].
    by apply occurrences_pos. }
  assert (Hout : pT ∉ suspList s → task s' pT = t).
  { intros Hout. rewrite Ht by done. by rewrite occurrences_0. }
  split; [exact Hin |]. split; [exact Hout |].
  assert (Hcases : task s' pT = body s t ∨ task s' pT = t).
  { destruct (decide (pT ∈ suspList s)); [left | right]; auto. }
  split.
  - intros H0. destruct Hcases as [-> | ->]; [| done].
    unfold body. rewrite H0, Z.lor_0_r. by destruct t.
  - intros i HT. destruct Hcases as [-> | ->]; [| done].
    unfold body. simpl. rewrite Z.lor_spec, Z.land_spec, Hbits, HT.
    by rewrite andb_false_r, orb_false_r.
Qed.

(** ** The views of the arrays *)

Lemma prios_lookup (s : kernel) (t : nat) : prios s !!! t = prioClass (task s t).
Proof.
  unfold prios, task. rewrite !list_lookup_total_alt, list_lookup_fmap.
  by destruct (_taskAry s !! t).
Qed.

Lemma fmap_alter_preserved {X : Type} (g : task_t → X) (f : task_t → task_t)
    (pT : nat) (l : list task_t) :
  (∀ t, g (f t) = g t) → g <$> alter f pT l = g <$> l.
Proof.
  intros Hg. apply list_eq. intros i. rewrite !list_lookup_fmap.
  destruct (decide (pT = i)) as [-> | Hne].
  - rewrite list_lookup_alter_eq. destruct (l !! i); simpl; [by rewrite Hg | done].
  - by rewrite list_lookup_alter_ne.
Qed.

Lemma prios_updTask (s : kernel) (pT : nat) (f : task_t → task_t) :
  (∀ t, prioClass (f t) = prioClass t) → prios (updTask pT f s) = prios s.
Proof. intros Hf. unfold prios, updTask. simpl. by apply fmap_alter_preserved. Qed.

Lemma u8_inc_small (n : nat) : n < 255 → u8_inc n = n + 1.
Proof. intros H. unfold u8_inc. apply Nat.mod_small. lia. Qed.

Lemma u8_dec_small (n : nat) : 0 < n ≤ 255 → u8_dec n = n - 1.
Proof.
  intros H. unfold u8_dec. replace (n + 255) with ((n - 1) + 1 * 256) by lia.
  rewrite Nat.Div0.mod_add. apply Nat.mod_small. lia.
Qed.

Lemma length_suspList (s : kernel) :
  arrays_inv cfg s → length (suspList s) = _noSuspendedTasks s.
Proof.
  intros Hinv. unfold suspList. rewrite length_take.
  pose proof (inv_len_susp _ _ Hinv). pose proof (inv_noSusp _ _ Hinv). lia.
Qed.

Lemma due_row_length (s : kernel) (c : nat) :
  arrays_inv cfg s → c < RTOS_NO_PRIO_CLASSES cfg →
  length (_pDueTaskAryAry s !!! c) = RTOS_MAX_NO_TASKS_IN_PRIO_CLASS cfg.
Proof.
  intros Hinv Hc. apply (inv_len_row _ _ Hinv c).
  apply list_lookup_lookup_total_lt. rewrite (inv_len_due _ _ Hinv). done.
Qed.

Lemma noDue_le (s : kernel) (c : nat) :
  arrays_inv cfg s → c < RTOS_NO_PRIO_CLASSES cfg →
  _noDueTasksAry s !!! c ≤ RTOS_MAX_NO_TASKS_IN_PRIO_CLASS cfg.
Proof. intros Hinv Hc. pose proof (inv_capacity _ _ Hinv c Hc). lia. Qed.

Lemma length_dueList (s : kernel) (c : nat) :
  arrays_inv cfg s → c < RTOS_NO_PRIO_CLASSES cfg →
  length (dueList s c) = _noDueTasksAry s !!! c.
Proof.
  intros Hinv Hc. unfold dueList. rewrite length_take, due_row_length by done.
  pose proof (noDue_le s c Hinv Hc). lia.
Qed.

Lemma dueList_out_of_range (s : kernel) (c : nat) :
  length (_noDueTasksAry s) ≤ c → dueList s c = [].
Proof.
  intros Hc. unfold dueList.
  rewrite (list_lookup_total_alt (_noDueTasksAry s)).
  rewrite (proj2 (lookup_ge_None _ _)) by done. done.
Qed.

Lemma elem_of_allDue (s : kernel) (t : nat) :
  t ∈ allDue cfg s ↔ ∃ c, c < RTOS_NO_PRIO_CLASSES cfg ∧ t ∈ dueList s c.
Proof.
  unfold allDue. rewrite elem_of_concat_map. split.
  - intros (c & Hc & Ht). exists c. split; [| done].
    apply elem_of_seq in Hc. lia.
  - intros (c & Hc & Ht). exists c. split; [| done]. apply elem_of_seq. lia.
Qed.

Lemma inv_NoDup (s : kernel) : arrays_inv cfg s → NoDup (allDue cfg s ++ suspList s).
Proof. intros Hinv. rewrite (inv_perm _ _ Hinv). apply NoDup_seq. Qed.

Lemma inv_elem_lt (s : kernel) (t : nat) :
  arrays_inv cfg s → t ∈ allDue cfg s ++ suspList s → t < RTOS_NO_TASKS cfg.
Proof.
  intros Hinv Ht. rewrite (inv_perm _ _ Hinv) in Ht. apply elem_of_seq in Ht. lia.
Qed.

Lemma susp_lt (s : kernel) (t : nat) :
  arrays_inv cfg s → t ∈ suspList s → t < RTOS_NO_TASKS cfg.
Proof. intros Hinv Ht. apply (inv_elem_lt s t Hinv). apply elem_of_app. by right. Qed.

Lemma due_lt (s : kernel) (c t : nat) :
  arrays_inv cfg s → c < RTOS_NO_PRIO_CLASSES cfg → t ∈ dueList s c →
  t < RTOS_NO_TASKS cfg.
Proof.
  intros Hinv Hc Ht. apply (inv_elem_lt s t Hinv). apply elem_of_app. left.
  apply elem_of_allDue. eauto.
Qed.

Lemma suspList_lookup (s : kernel) (idx : nat) :
  arrays_inv cfg s → idx < _noSuspendedTasks s →
  suspList s !! idx = Some (_pSuspendedTaskAry s !!! idx).
Proof.
  intros Hinv Hidx. unfold suspList. rewrite lookup_take_lt by done.
  apply list_lookup_lookup_total_lt.
  pose proof (inv_len_susp _ _ Hinv). pose proof (inv_noSusp _ _ Hinv). lia.
Qed.

(** ** A suspended task becomes due *)

Lemma releaseTask_eq (idx : nat) (s : kernel) :
  let pT := _pSuspendedTaskAry s !!! idx in
  let prio := prioClass (task s pT) in
  let n := _noDueTasksAry s !!! prio in
  releaseTask cfg idx s
  = mkKernel (_time s) (alter (madeDue cfg) pT (_taskAry s))
      (_pActiveTask s) (_pSuspendedTask s)
      (alter (<[n := pT]>) prio (_pDueTaskAryAry s))
      (<[prio := u8_inc n]> (_noDueTasksAry s))
      (shiftDown idx (u8_dec (_noSuspendedTasks s)) (_pSuspendedTaskAry s))
      (u8_dec (_noSuspendedTasks s)).
Proof.
  intros pT prio n. unfold releaseTask, madeDue, updTask.
  destruct (RTOS_ROUND_ROBIN_MODE_SUPPORTED cfg); simpl; fold pT; fold prio; fold n.
  - rewrite list_alter_alter_eq. done.
  - done.
Qed.

Lemma prioClass_madeDue (t : task_t) : prioClass (madeDue cfg t) = prioClass t.
Proof. unfold madeDue. by destruct (RTOS_ROUND_ROBIN_MODE_SUPPORTED cfg). Qed.

Lemma length_filter_delete (P : nat → Prop) `{!∀ x, Decision (P x)}
    (l : list nat) (i x : nat) :
  l !! i = Some x →
  length (filter P l)
  = length (filter P (delete i l)) + (if decide (P x) then 1 else 0).
Proof.
  intros Hi. rewrite <- (take_drop_middle l i x Hi) at 1.
  rewrite delete_take_drop, !filter_app, !length_app, filter_cons.
  destruct (decide (P x)); simpl; lia.
Qed.

Lemma releaseTask_inv (idx : nat) (s : kernel) :
  config_ok cfg → arrays_inv cfg s → idx < _noSuspendedTasks s →
  let pT := _pSuspendedTaskAry s !!! idx in
  let s' := releaseTask cfg idx s in
  arrays_inv cfg s'
  ∧ suspList s' = delete idx (suspList s)
  ∧ (∀ c, dueList s' c
          = if decide (c = prios s !!! pT) then dueList s c ++ [pT] else dueList s c)
  ∧ prios s' = prios s
  ∧ _taskAry s' = alter (madeDue cfg) pT (_taskAry s)
  ∧ _pActiveTask s' = _pActiveTask s
  ∧ _pSuspendedTask s' = _pSuspendedTask s
  ∧ _time s' = _time s
  ∧ S (_noSuspendedTasks s') = _noSuspendedTasks s.
Proof.
  intros (HN & HM & HP) Hinv Hidx pT s'.
  pose proof (suspList_lookup s idx Hinv Hidx) as Hlk. fold pT in Hlk.
  assert (HpT : pT ∈ suspList s) by (apply list_elem_of_lookup; eauto).
  pose proof (susp_lt s pT Hinv HpT) as HpTlt.
  pose proof (inv_prio _ _ Hinv pT HpTlt) as Hprio.
  pose proof (inv_noSusp _ _ Hinv) as HnS.
  pose proof (inv_len_susp _ _ Hinv) as HlS.
  pose proof (inv_capacity _ _ Hinv _ Hprio) as Hcap.
  pose proof (length_filter_delete (λ t, prios s !!! t = prios s !!! pT)
                (suspList s) idx pT Hlk) as Hcnt.
  rewrite decide_True in Hcnt by done.
  set (prio := prios s !!! pT) in *.
  set (n := _noDueTasksAry s !!! prio) in *.
  assert (Hn : n < RTOS_MAX_NO_TASKS_IN_PRIO_CLASS cfg) by lia.
  assert (Hs' : s' = mkKernel (_time s) (alter (madeDue cfg) pT (_taskAry s))
      (_pActiveTask s) (_pSuspendedTask s)
      (alter (<[n := pT]>) prio (_pDueTaskAryAry s))
      (<[prio := S n]> (_noDueTasksAry s))
      (shiftDown idx (_noSuspendedTasks s - 1) (_pSuspendedTaskAry s))
      (_noSuspendedTasks s - 1)).
  { unfold s'. rewrite releaseTask_eq. fold pT. rewrite <- prios_lookup.
    fold prio. fold n. rewrite u8_inc_small, u8_dec_small by lia.
    by rewrite Nat.add_1_r. }
  clearbody s'. subst s'.
  assert (Hprios : prios (mkKernel (_time s) (alter (madeDue cfg) pT (_taskAry s))
      (_pActiveTask s) (_pSuspendedTask s)
      (alter (<[n := pT]>) prio (_pDueTaskAryAry s))
      (<[prio := S n]> (_noDueTasksAry s))
      (shiftDown idx (_noSuspendedTasks s - 1) (_pSuspendedTaskAry s))
      (_noSuspendedTasks s - 1)) = prios s).
  { unfold prios. simpl. apply fmap_alter_preserved, prioClass_madeDue. }
  assert (Hsusp : suspList (mkKernel (_time s) (alter (madeDue cfg) pT (_taskAry s))
      (_pActiveTask s) (_pSuspendedTask s)
      (alter (<[n := pT]>) prio (_pDueTaskAryAry s))
      (<[prio := S n]> (_noDueTasksAry s))
      (shiftDown idx (_noSuspendedTasks s - 1) (_pSuspendedTaskAry s))
      (_noSuspendedTasks s - 1)) = delete idx (suspList s)).
  { unfold suspList. simpl. rewrite take_shiftDown by lia.
    by replace (S (_noSuspendedTasks s - 1)) with (_noSuspendedTasks s) by lia. }
  assert (Hdue : ∀ c, dueList (mkKernel (_time s) (alter (madeDue cfg) pT (_taskAry s))
      (_pActiveTask s) (_pSuspendedTask s)
      (alter (<[n := pT]>) prio (_pDueTaskAryAry s))
      (<[prio := S n]> (_noDueTasksAry s))
      (shiftDown idx (_noSuspendedTasks s - 1) (_pSuspendedTaskAry s))
      (_noSuspendedTasks s - 1)) c
      = if decide (c = prio) then dueList s c ++ [pT] else dueList s c).
  { intros c. unfold dueList. simpl. case_decide as Hc.
    - subst c. rewrite list_lookup_total_insert_eq
        by (rewrite (inv_len_noDue _ _ Hinv); done).
      rewrite (list_lookup_total_alt (alter _ _ _)), list_lookup_alter_eq.
      rewrite (list_lookup_lookup_total_lt (_pDueTaskAryAry s) prio)
        by (rewrite (inv_len_due _ _ Hinv); done).
      simpl. fold n. apply take_insert_S_r.
      rewrite due_row_length by done. done.
    - rewrite list_lookup_total_insert_ne by done.
      rewrite (list_lookup_total_alt (alter _ _ _)), list_lookup_alter_ne by done.
      by rewrite <- list_lookup_total_alt. }
  set (s' := mkKernel _ _ _ _ _ _ _ _) in *.
  split; [| repeat split; try done; simpl; lia].
  constructor.
  - simpl. rewrite length_alter. apply (inv_len_tasks _ _ Hinv).
  - simpl. rewrite length_shiftDown. done.
  - simpl. rewrite length_alter. apply (inv_len_due _ _ Hinv).
  - simpl. rewrite length_insert. apply (inv_len_noDue _ _ Hinv).
  - simpl. intros c row. rewrite list_lookup_alter. case_decide as Hc.
    + subst c. destruct (_pDueTaskAryAry s !! prio) as [row0 |] eqn:Hrow; [| done].
      simpl. intros [= <-]. rewrite length_insert.
      by apply (inv_len_row _ _ Hinv prio).
    + apply (inv_len_row _ _ Hinv c).
  - simpl. lia.
  - intros c Hc. rewrite Hprios, Hsusp.
    pose proof (inv_capacity _ _ Hinv c Hc) as Hcapc.
    pose proof (length_filter_delete (λ t, prios s !!! t = c)
                  (suspList s) idx pT Hlk) as Hcntc.
    simpl. destruct (decide (c = prio)) as [-> | Hne].
    + rewrite list_lookup_total_insert_eq
        by (rewrite (inv_len_noDue _ _ Hinv); done).
      fold n. fold prio in Hcntc. rewrite decide_True in Hcntc by done. lia.
    + rewrite list_lookup_total_insert_ne by done.
      fold prio in Hcntc. rewrite decide_False in Hcntc by done. lia.
  - rewrite Hsusp. rewrite <- (inv_perm _ _ Hinv).
    rewrite <- (take_drop_middle (suspList s) idx pT Hlk) at 2.
    rewrite delete_take_drop.
    assert (Hall : allDue cfg s' ≡ₚ pT :: allDue cfg s).
    { unfold allDue. apply (concat_map_perm_cons _ _ _ prio).
      - apply NoDup_seq.
      - apply elem_of_seq. lia.
      - rewrite Hdue, decide_True by done. by rewrite Permutation_app_comm.
      - intros c' Hc'. by rewrite Hdue, decide_False. }
    rewrite Hall. simpl. by rewrite <- !Permutation_middle.
  - intros c t Hc. rewrite Hprios, Hdue. case_decide as Hcp.
    + subst c. rewrite elem_of_app, list_elem_of_singleton.
      intros [Ht | ->]; [by apply (inv_due_prio _ _ Hinv) | done].
    + by apply (inv_due_prio _ _ Hinv).
  - intros t Ht. rewrite Hprios. by apply (inv_prio _ _ Hinv).
Qed.

(** ** The scan of the suspended tasks *)

Lemma take_drop_delete {A : Type} (l : list A) (i : nat) :
  i < length l →
  take i (delete i l) = take i l ∧ drop i (delete i l) = drop (S i) l.
Proof.
  intros Hi. rewrite delete_take_drop.
  assert (Hl : i = length (take i l)) by (rewrite length_take; lia).
  split; [by apply take_app_length' | by apply drop_app_length'].
Qed.

Lemma scanSuspended_spec (rounds idx : nat) (b : bool) (s : kernel) :
  config_ok cfg → arrays_inv cfg s → idx + rounds = _noSuspendedTasks s →
  let todo := drop idx (suspList s) in
  let rel t := releaseTest cfg (task s t) = true in
  ∃ b' s',
    scanSuspended cfg rounds idx b s = (_noSuspendedTasks s', b', s')
    ∧ arrays_inv cfg s'
    ∧ prios s' = prios s
    ∧ _pActiveTask s' = _pActiveTask s
    ∧ _pSuspendedTask s' = _pSuspendedTask s
    ∧ _time s' = _time s
    ∧ suspList s' = take idx (suspList s) ++ filter (λ t, ¬ rel t) todo
    ∧ (∀ c, dueList s' c
            = dueList s c ++ filter (λ t, rel t ∧ prios s !!! t = c) todo)
    ∧ (∀ t, task s' t
            = if decide (t ∈ filter rel todo) then madeDue cfg (task s t) else task s t)
    ∧ b' = b || bool_decide (filter rel todo ≠ [])
    ∧ (filter rel todo = [] → s' = s).
Proof.
  intros Hcfg. revert idx b s.
  induction rounds as [| rounds IH]; intros idx b s Hinv Hidx todo rel.
  - exists b, s. simpl.
    assert (Htodo : todo = []).
    { apply drop_ge. rewrite length_suspList by done. lia. }
    rewrite Htodo, !filter_nil, app_nil_r.
    replace idx with (_noSuspendedTasks s) by lia.
    split_and!; try done.
    + symmetry. apply take_ge. rewrite length_suspList by done. lia.
    + intros c. by rewrite filter_nil, app_nil_r.
    + by rewrite orb_false_r.
  - assert (Hlt : idx < _noSuspendedTasks s) by lia.
    pose proof (suspList_lookup s idx Hinv Hlt) as Hlk.
    set (pT := _pSuspendedTaskAry s !!! idx) in *.
    assert (Htodo : todo = pT :: drop (S idx) (suspList s)) by (by apply drop_S).
    assert (HpTin : pT ∈ suspList s) by (apply list_elem_of_lookup; eauto).
    pose proof (susp_lt s pT Hinv HpTin) as HpTlt.
    assert (Hnd : NoDup (suspList s)).
    { pose proof (inv_NoDup s Hinv) as H. by apply NoDup_app in H as (_ & _ & H). }
    assert (HpTnot : pT ∉ drop (S idx) (suspList s)).
    { rewrite <- (take_drop_middle _ _ _ Hlk) in Hnd.
      apply NoDup_app in Hnd as (_ & _ & Hnd). by apply NoDup_cons in Hnd as [Hnd _]. }
    simpl. rewrite (proj2 (Nat.ltb_lt _ _) Hlt). fold pT.
    destruct (releaseTest cfg (task s pT)) eqn:Hrel.
    + destruct (releaseTask_inv idx s Hcfg Hinv Hlt)
        as (Hinv1 & Hsusp1 & Hdue1 & Hprios1 & Htasks1 & Hact1 & Hps1 & Htime1 & Hn1).
      fold pT in Hdue1, Htasks1.
      assert (HrelpT : rel pT) by exact Hrel.
      set (s1 := releaseTask cfg idx s) in *.
      destruct (IH idx true s1 Hinv1 ltac:(lia))
        as (b' & s' & Hscan & Hinv' & Hprios' & Hact' & Hps' & Htime' & Hsusp' & Hdue'
            & Htasks' & Hb' & Hsame').
      exists b', s'.
      destruct (take_drop_delete (suspList s) idx
                  ltac:(rewrite length_suspList by done; lia)) as [Htk Hdr].
      rewrite Hsusp1, Htk, Hdr in Hsusp'. rewrite Hsusp1, Hdr in Hdue', Htasks', Hb'.
      assert (Htask1 : ∀ t, t ≠ pT → task s1 t = task s t).
      { intros t Hne. unfold task. rewrite Htasks1.
        by rewrite list_lookup_total_alter_ne. }
      assert (Hrel1 : ∀ t, t ∈ drop (S idx) (suspList s) →
                releaseTest cfg (task s1 t) = releaseTest cfg (task s t)).
      { intros t Ht. rewrite Htask1; [done |]. by intros ->. }
      rewrite (filter_ext_elem (λ t, ¬ releaseTest cfg (task s1 t) = true)
                 (λ t, ¬ rel t)) in Hsusp'
        by (intros t Ht; unfold rel; by rewrite Hrel1).
      rewrite (filter_ext_elem (λ t, releaseTest cfg (task s1 t) = true) rel)
        in Htasks', Hb'
        by (intros t Ht; unfold rel; by rewrite Hrel1).
      rewrite Htodo.
      split; [exact Hscan |]. split; [done |].
      split; [congruence |]. split; [congruence |]. split; [congruence |].
      split; [congruence |].
      split.
      { rewrite filter_cons, decide_False; [done |]. by intros Hn. }
      split.
      { intros c. rewrite Hdue', Hdue1, Hprios1.
        rewrite (filter_ext_elem
                   (λ t, releaseTest cfg (task s1 t) = true ∧ prios s !!! t = c)
                   (λ t, rel t ∧ prios s !!! t = c))
          by (intros t Ht; unfold rel; by rewrite Hrel1).
        rewrite filter_cons. case_decide as Hc.
        - subst c. rewrite decide_True by done. by rewrite <- app_assoc.
        - rewrite decide_False; [done |]. intros [_ Heq]. by apply Hc. }
      split.
      { intros t. rewrite Htasks'. rewrite filter_cons.
        rewrite (decide_True (P := rel pT)) by done.
        destruct (decide (t = pT)) as [-> | Hne].
        - rewrite decide_False
            by (rewrite list_elem_of_filter; intros [_ Hin]; done).
          rewrite (decide_True (P := pT ∈ pT :: _)) by left.
          unfold task. rewrite Htasks1.
          apply list_lookup_total_alter_eq.
          rewrite (inv_len_tasks _ _ Hinv). lia.
        - rewrite Htask1 by done.
          destruct (decide (t ∈ filter rel (drop (S idx) (suspList s)))) as [Hin | Hout].
          + rewrite decide_True by (by right). done.
          + rewrite decide_False; [done |].
            intros Hin. apply elem_of_cons in Hin as [-> | Hin]; done. }
      split; [| by rewrite filter_cons, decide_True].
      rewrite Hb', filter_cons, decide_True by done.
      rewrite (bool_decide_true (_ :: _ ≠ [])) by done. by rewrite orb_true_r.
    + destruct (IH (idx + 1) b s Hinv ltac:(lia))
        as (b' & s' & Hscan & Hinv' & Hprios' & Hact' & Hps' & Htime' & Hsusp' & Hdue'
            & Htasks' & Hb' & Hsame').
      exists b', s'. replace (idx + 1) with (S idx) in * by lia.
      fold rel in Hsusp', Hdue', Htasks', Hb'.
      rewrite Htodo.
      assert (Hnrel : ¬ rel pT) by (unfold rel; by rewrite Hrel).
      split; [exact Hscan |]. split; [done |].
      split; [done |]. split; [done |]. split; [done |]. split; [done |].
      split.
      { rewrite Hsusp', filter_cons, decide_True by done.
        rewrite (take_S_r _ _ _ Hlk), <- app_assoc. done. }
      split.
      { intros c. rewrite Hdue', filter_cons, decide_False; [done |].
        by intros [H _]. }
      split.
      { intros t. rewrite Htasks', filter_cons.
        by rewrite (decide_False (P := rel pT)) by done. }
      rewrite filter_cons, (decide_False (P := rel pT)) by done. by split.
Qed.

(** ** The search for the active task *)

Lemma findDueClass_Some (noDue : list nat) (k c : nat) :
  findDueClass noDue k = Some c →
  c < k ∧ 0 < noDue !!! c ∧ ∀ c', c < c' < k → noDue !!! c' = 0.
Proof.
  induction k as [| k IH]; simpl; [done |].
  destruct (Nat.ltb_spec 0 (noDue !!! k)) as [Hpos | Hzero].
  - intros [= <-]. split_and!; [lia | done | intros c' Hc'; lia].
  - intros Hf. destruct (IH Hf) as (Hc & Hn & Hab). split_and!; [lia | done |].
    intros c' Hc'. destruct (decide (c' = k)) as [-> | Hne]; [lia |].
    apply Hab. lia.
Qed.

Lemma findDueClass_None (noDue : list nat) (k : nat) :
  findDueClass noDue k = None → ∀ c, c < k → noDue !!! c = 0.
Proof.
  induction k as [| k IH]; simpl; [intros _ c Hc; lia |].
  destruct (Nat.ltb_spec 0 (noDue !!! k)) as [Hpos | Hzero]; [done |].
  intros Hf c Hc. destruct (decide (c = k)) as [-> | Hne]; [lia |].
  apply IH; [done | lia].
Qed.

Lemma findDueClass_is_Some (noDue : list nat) (k c : nat) :
  c < k → 0 < noDue !!! c → is_Some (findDueClass noDue k).
Proof.
  intros Hc Hpos. destruct (findDueClass noDue k) eqn:Hf; [eauto |].
  pose proof (findDueClass_None _ _ Hf c Hc). lia.
Qed.

Lemma dueList_nil_iff (s : kernel) (c : nat) :
  arrays_inv cfg s → c < RTOS_NO_PRIO_CLASSES cfg →
  dueList s c = [] ↔ _noDueTasksAry s !!! c = 0.
Proof.
  intros Hinv Hc. rewrite <- (length_dueList s c Hinv Hc).
  split; [by intros -> | apply nil_length_inv].
Qed.

Lemma dueList_head (s : kernel) (c : nat) :
  arrays_inv cfg s → c < RTOS_NO_PRIO_CLASSES cfg → 0 < _noDueTasksAry s !!! c →
  head (dueList s c) = Some ((_pDueTaskAryAry s !!! c) !!! 0).
Proof.
  intros Hinv Hc Hpos. rewrite head_lookup. unfold dueList.
  rewrite lookup_take_lt by done. apply list_lookup_lookup_total_lt.
  rewrite due_row_length by done. pose proof (noDue_le s c Hinv Hc). lia.
Qed.

Lemma selectActive_highestDue (s : kernel) :
  arrays_inv cfg s → highestDue cfg s (selectActive cfg s).
Proof.
  intros Hinv. unfold highestDue, selectActive.
  destruct (findDueClass _ _) as [c |] eqn:Hf.
  - left. destruct (findDueClass_Some _ _ _ Hf) as (Hc & Hpos & Hab).
    exists c. split_and!; [done | by apply dueList_head |].
    intros c' Hc'. apply dueList_nil_iff; [done | lia |]. by apply Hab.
  - right. split; [| done]. intros c Hc. apply dueList_nil_iff; [done | done |].
    by apply (findDueClass_None _ _ Hf).
Qed.

Lemma highestDue_unique (s : kernel) (a a' : nat) :
  highestDue cfg s a → highestDue cfg s a' → a = a'.
Proof.
  intros [(c & Hc & Hh & Hab) | [Hnil ->]] [(c' & Hc' & Hh' & Hab') | [Hnil' ->]].
  - destruct (Nat.lt_trichotomy c c') as [Hlt | [-> | Hgt]].
    + rewrite (Hab c') in Hh' by lia. done.
    + congruence.
    + rewrite (Hab' c) in Hh by lia. done.
  - rewrite (Hnil' c Hc) in Hh. done.
  - rewrite (Hnil c' Hc') in Hh'. done.
  - done.
Qed.

Lemma highestDue_ext (s s' : kernel) (a : nat) :
  (∀ c, c < RTOS_NO_PRIO_CLASSES cfg → dueList s' c = dueList s c) →
  highestDue cfg s a → highestDue cfg s' a.
Proof.
  intros Hd [(c & Hc & Hh & Hab) | [Hnil ->]].
  - left. exists c. split_and!; [done | by rewrite Hd |].
    intros c' Hc'. rewrite Hd by lia. by apply Hab.
  - right. split; [| done]. intros c Hc. rewrite Hd by done. by apply Hnil.
Qed.

Lemma selectActive_ext (s s' : kernel) :
  arrays_inv cfg s → arrays_inv cfg s' →
  (∀ c, c < RTOS_NO_PRIO_CLASSES cfg → dueList s' c = dueList s c) →
  selectActive cfg s' = selectActive cfg s.
Proof.
  intros Hinv Hinv' Hd. apply (highestDue_unique s').
  - by apply selectActive_highestDue.
  - apply (highestDue_ext s); [done |]. by apply selectActive_highestDue.
Qed.

Lemma arrays_inv_ext (s s' : kernel) :
  prios s' = prios s →
  _pDueTaskAryAry s' = _pDueTaskAryAry s →
  _noDueTasksAry s' = _noDueTasksAry s →
  _pSuspendedTaskAry s' = _pSuspendedTaskAry s →
  _noSuspendedTasks s' = _noSuspendedTasks s →
  arrays_inv cfg s → arrays_inv cfg s'.
Proof.
  intros Hpr Hd Hn Hs Hns [H1 H2 H3 H4 H5 H6 H7 H8 H9 H10].
  assert (Hsl : suspList s' = suspList s) by (unfold suspList; by rewrite Hs, Hns).
  assert (Hdl : ∀ c, dueList s' c = dueList s c)
    by (intros c; unfold dueList; by rewrite Hd, Hn).
  assert (Hal : allDue cfg s' = allDue cfg s).
  { unfold allDue. f_equal. apply map_ext. apply Hdl. }
  assert (Hlen : length (_taskAry s') = length (_taskAry s)).
  { apply (f_equal length) in Hpr. unfold prios in Hpr.
    by rewrite !length_fmap in Hpr. }
  constructor; rewrite ?Hlen, ?Hd, ?Hn, ?Hs, ?Hns, ?Hsl, ?Hpr, ?Hal; try done.
  intros c t. rewrite Hdl. apply H9.
Qed.

(** ** checkForTaskActivation *)

Lemma checkForTaskActivation_spec (hint : bool) (s : kernel) :
  config_ok cfg → arrays_inv cfg s →
  let rel t := releaseTest cfg (task s t) = true in
  let released := filter rel (suspList s) in
  ∃ s' b,
    checkForTaskActivation cfg hint s = (s', b)
    ∧ fst (fst (scanSuspended cfg (_noSuspendedTasks s) 0 hint s)) = _noSuspendedTasks s'
    ∧ arrays_inv cfg s'
    ∧ prios s' = prios s
    ∧ _time s' = _time s
    ∧ suspList s' = filter (λ t, ¬ rel t) (suspList s)
    ∧ (∀ c, dueList s' c
            = dueList s c ++ filter (λ t, rel t ∧ prios s !!! t = c) (suspList s))
    ∧ (∀ t, task s' t
            = if decide (t ∈ released) then madeDue cfg (task s t) else task s t)
    ∧ (hint || bool_decide (released ≠ []) = false → s' = s ∧ b = false)
    ∧ (hint || bool_decide (released ≠ []) = true →
       (∃ c, c < RTOS_NO_PRIO_CLASSES cfg ∧ dueList s' c ≠ []) →
       _pActiveTask s' = selectActive cfg s'
       ∧ _pSuspendedTask s' = _pActiveTask s
       ∧ b = negb (_pActiveTask s' =? _pActiveTask s))
    ∧ (released ≠ [] → ∃ c, c < RTOS_NO_PRIO_CLASSES cfg ∧ dueList s' c ≠ []).
Proof.
  intros Hcfg Hinv rel released.
  destruct (scanSuspended_spec (_noSuspendedTasks s) 0 hint s Hcfg Hinv ltac:(lia))
    as (b1 & s1 & Hscan & Hinv1 & Hprios1 & Hact1 & Hps1 & Htime1 & Hsusp1 & Hdue1
        & Htasks1 & Hb1 & Hsame1).
  rewrite drop_0 in Hsusp1, Hdue1, Htasks1, Hb1, Hsame1.
  rewrite take_0, app_nil_l in Hsusp1.
  fold rel in Hsusp1, Hdue1, Htasks1, Hb1, Hsame1.
  fold released in Htasks1, Hb1, Hsame1.
  assert (Hrelcls : released ≠ [] →
            ∃ c, c < RTOS_NO_PRIO_CLASSES cfg ∧ dueList s1 c ≠ []).
  { intros Hne. destruct released as [| t l] eqn:Hr; [done |].
    assert (Ht : t ∈ released) by (rewrite Hr; left).
    apply list_elem_of_filter in Ht as [Hrelt Hin].
    exists (prios s !!! t). split.
    - apply (inv_prio _ _ Hinv). by apply (susp_lt s).
    - rewrite Hdue1. intros Heq. apply app_eq_nil in Heq as [_ Heq].
      apply (elem_of_nil t). rewrite <- Heq. by apply list_elem_of_filter. }
  unfold checkForTaskActivation. rewrite Hscan. simpl.
  destruct b1.
  - destruct (findDueClass _ _) as [c |] eqn:Hf.
    + eexists _, _. split; [reflexivity |]. simpl.
      set (s' := set_pActiveTask _ _).
      assert (Hinv' : arrays_inv cfg s') by (by apply (arrays_inv_ext s1)).
      split_and!; try done.
      * intros Hfalse. rewrite <- Hb1 in Hfalse. done.
      * intros _ _. unfold selectActive. simpl. rewrite Hf. split_and!; try done.
        by rewrite Hact1.
    + exists s1, true. split; [done |]. split_and!; try done.
      * intros Hfalse. rewrite <- Hb1 in Hfalse. done.
      * intros _ (c & Hc & Hne). exfalso. apply Hne.
        apply (dueList_nil_iff s1); [done | done |].
        by apply (findDueClass_None _ _ Hf).
  - exists s1, false. split; [done |]. symmetry in Hb1.
    apply orb_false_iff in Hb1 as [-> Hnone].
    apply bool_decide_eq_false in Hnone.
    assert (Hnil : released = []) by (destruct released; [done | by destruct Hnone]).
    split_and!; try done.
    + intros _. split; [by apply Hsame1 | done].
    + rewrite orb_false_l. intros Htrue. apply bool_decide_eq_true in Htrue. done.
Qed.

Lemma checkForTaskActivation_releases (hint : bool) (s : kernel) :
  config_ok cfg → arrays_inv cfg s →
  let s' := fst (checkForTaskActivation cfg hint s) in
  let rel t := releaseTest cfg (task s t) = true in
  fst (fst (scanSuspended cfg (_noSuspendedTasks s) 0 hint s)) = _noSuspendedTasks s'
  ∧ (∀ t, t ∈ suspList s' → releaseTest cfg (task s' t) = false)
  ∧ suspList s' = filter (λ t, ¬ rel t) (suspList s)
  ∧ (∀ c, c < RTOS_NO_PRIO_CLASSES cfg →
          dueList s' c
          = dueList s c ++ filter (λ t, rel t ∧ prioClass (task s t) = c) (suspList s))
  ∧ (∀ t, t ∈ suspList s → rel t →
          (t ∉ suspList s')
          ∧ prioClass (task s t) < RTOS_NO_PRIO_CLASSES cfg
          ∧ t ∈ dueList s' (prioClass (task s t))).
Proof.
  intros Hcfg Hinv s' rel.
  destruct (checkForTaskActivation_spec hint s Hcfg Hinv)
    as (s1 & b & Hc & Hidx & Hinv1 & Hprios1 & Htime1 & Hsusp1 & Hdue1 & Htasks1 & _).
  fold rel in Hsusp1, Hdue1, Htasks1.
  subst s'. rewrite Hc. simpl.
  assert (Hdue2 : ∀ c, dueList s1 c
            = dueList s c ++ filter (λ t, rel t ∧ prioClass (task s t) = c) (suspList s)).
  { intros c. rewrite Hdue1. f_equal. apply list_filter_iff.
    intros t. by rewrite prios_lookup. }
  split_and!; [done | | done | intros c _; apply Hdue2 |].
  - intros t Ht. rewrite Hsusp1 in Ht. apply list_elem_of_filter in Ht as [Hn Hin].
    rewrite Htasks1, decide_False.
    + by apply not_true_is_false.
    + rewrite list_elem_of_filter. by intros [Hr _].
  - intros t Hin Hr. split_and!.
    + rewrite Hsusp1, list_elem_of_filter. by intros [Hn _].
    + rewrite <- prios_lookup. apply (inv_prio _ _ Hinv). by apply (susp_lt s).
    + rewrite Hdue2, elem_of_app. right. by apply list_elem_of_filter.
Qed.

Lemma checkForTaskActivation_inv (hint : bool) (s : kernel) :
  config_ok cfg → arrays_inv cfg s →
  (hint = false → _pActiveTask s = selectActive cfg s) →
  (hint = true → ∃ c, c < RTOS_NO_PRIO_CLASSES cfg ∧ dueList s c ≠ []) →
  let '(s', b) := checkForTaskActivation cfg hint s in
  kernel_inv cfg s'
  ∧ prios s' = prios s
  ∧ (b = true ↔ _pActiveTask s' ≠ _pActiveTask s)
  ∧ (b = false → _pActiveTask s' = _pActiveTask s).
Proof.
  intros Hcfg Hinv Hsel Hhint.
  destruct (checkForTaskActivation_spec hint s Hcfg Hinv)
    as (s1 & b & Hc & Hidx & Hinv1 & Hprios1 & Htime1 & Hsusp1 & Hdue1 & Htasks1
        & Hquiet & Hsearch & Hcls).
  rewrite Hc.
  destruct (hint || bool_decide (filter _ (suspList s) ≠ [])) eqn:Htrig.
  - assert (Hne : ∃ c, c < RTOS_NO_PRIO_CLASSES cfg ∧ dueList s1 c ≠ []).
    { apply orb_true_iff in Htrig as [-> | Hrel].
      - destruct (Hhint eq_refl) as (c & Hlt & Hne). exists c. split; [done |].
        rewrite Hdue1. intros Heq. by apply app_eq_nil in Heq as [Heq _].
      - apply Hcls. by apply bool_decide_eq_true in Hrel. }
    destruct (Hsearch eq_refl Hne) as (Hact & Hps & Hb).
    split_and!; [by split | done | |].
    + rewrite Hb, negb_true_iff, Nat.eqb_neq. done.
    + rewrite Hb, negb_false_iff, Nat.eqb_eq. done.
  - destruct (Hquiet eq_refl) as [-> ->].
    apply orb_false_iff in Htrig as [-> _].
    split_and!; [split; [done | by apply Hsel] | done | | done].
    split; [done | by intros H].
Qed.

(** ** Operations that leave the task arrays alone *)

Lemma selectActive_arrays (s s' : kernel) :
  _pDueTaskAryAry s' = _pDueTaskAryAry s →
  _noDueTasksAry s' = _noDueTasksAry s →
  selectActive cfg s' = selectActive cfg s.
Proof. intros Hd Hn. unfold selectActive. by rewrite Hd, Hn. Qed.

Lemma kernel_inv_ext (s s' : kernel) :
  prios s' = prios s →
  _pDueTaskAryAry s' = _pDueTaskAryAry s →
  _noDueTasksAry s' = _noDueTasksAry s →
  _pSuspendedTaskAry s' = _pSuspendedTaskAry s →
  _noSuspendedTasks s' = _noSuspendedTasks s →
  _pActiveTask s' = _pActiveTask s →
  kernel_inv cfg s → kernel_inv cfg s'.
Proof.
  intros Hpr Hd Hn Hs Hns Ha [Hinv Hact]. split.
  - by apply (arrays_inv_ext s).
  - rewrite Ha, Hact. symmetry. by apply selectActive_arrays.
Qed.

Lemma kernel_inv_updTask (s : kernel) (pT : nat) (f : task_t → task_t) :
  (∀ t, prioClass (f t) = prioClass t) →
  kernel_inv cfg s → kernel_inv cfg (updTask pT f s).
Proof.
  intros Hf. apply kernel_inv_ext; try done. by apply prios_updTask.
Qed.

Lemma prioClass_serveTimers (time : Z) (t : task_t) :
  prioClass (serveTimers cfg time t) = prioClass t.
Proof.
  unfold serveTimers.
  repeat match goal with |- context [if ?b then _ else _] => destruct b end; done.
Qed.

Lemma forSuspendedTasks_frame (body : kernel → task_t → task_t) (s : kernel) :
  (∀ x ts, body (set_taskAry ts x) = body x) →
  (∀ x t, prioClass (body x t) = prioClass t) →
  arrays_inv cfg s →
  let s' := forSuspendedTasks body s in
  s' = set_taskAry (_taskAry s') s
  ∧ prios s' = prios s
  ∧ arrays_inv cfg s'
  ∧ (∀ pT, pT ∉ suspList s → task s' pT = task s pT).
Proof.
  intros Hbody Hprio Hinv s'.
  assert (Hn : _noSuspendedTasks s ≤ length (_pSuspendedTaskAry s)).
  { rewrite (inv_len_susp _ _ Hinv). apply (inv_noSusp _ _ Hinv). }
  destruct (forSuspendedTasks_spec body s Hbody Hn) as (Hfr & Hl & Ht).
  fold s' in Hfr, Hl, Ht.
  assert (Hpr : prios s' = prios s).
  { unfold prios. by apply forSuspendedTasks_preserves. }
  split_and!; [done | done | |].
  - apply (arrays_inv_ext s); try done; by rewrite Hfr.
  - intros pT Hout. destruct (decide (pT < length (_taskAry s))) as [Hlt | Hge].
    + rewrite Ht by done. by rewrite occurrences_0.
    + unfold task. rewrite !list_lookup_total_alt.
      rewrite !(proj2 (lookup_ge_None _ _)) by lia. done.
Qed.

Lemma clockTimers_frame (s : kernel) :
  arrays_inv cfg s →
  let s' := clockTimers cfg s in
  s' = set_taskAry (_taskAry s') (set_time (uintTime cfg (_time s + 1)) s)
  ∧ prios s' = prios s
  ∧ arrays_inv cfg s'
  ∧ (∀ pT, pT ∉ suspList s → task s' pT = task s pT).
Proof.
  intros Hinv. unfold clockTimers.
  apply (forSuspendedTasks_frame (λ x, serveTimers cfg (_time x))
           (set_time (uintTime cfg (_time s + 1)) s)).
  - done.
  - intros x t. apply prioClass_serveTimers.
  - by apply (arrays_inv_ext s).
Qed.

Lemma postEvents_frame (vec : Z) (s : kernel) :
  arrays_inv cfg s →
  let s' := postEvents vec s in
  s' = set_taskAry (_taskAry s') s
  ∧ prios s' = prios s
  ∧ arrays_inv cfg s'
  ∧ (∀ pT, pT ∉ suspList s → task s' pT = task s pT).
Proof.
  intros Hinv. unfold postEvents. by apply forSuspendedTasks_frame.
Qed.

Lemma PUSH_RET_CODE_OF_CONTEXT_SWITCH_inv (s : kernel) :
  kernel_inv cfg s → kernel_inv cfg (fst (PUSH_RET_CODE_OF_CONTEXT_SWITCH s)).
Proof.
  intros Hinv. unfold PUSH_RET_CODE_OF_CONTEXT_SWITCH.
  destruct (0 <? _)%Z; [| done]. simpl. by apply kernel_inv_updTask.
Qed.

Lemma rtos_getTaskOverrunCounter_inv (idxTask : nat) (doReset : bool) (s : kernel) :
  kernel_inv cfg s → kernel_inv cfg (fst (rtos_getTaskOverrunCounter idxTask doReset s)).
Proof.
  intros Hinv. unfold rtos_getTaskOverrunCounter.
  destruct doReset; [| done]. simpl. by apply kernel_inv_updTask.
Qed.

(** ** Round robin *)

Lemma take_roll (row : list nat) (n pA : nat) :
  0 < n ≤ length row →
  take n (<[n - 1 := pA]> (shiftDown 0 (n - 1) row)) = drop 1 (take n row) ++ [pA].
Proof.
  intros Hn. replace n with (S (n - 1)) at 1 by lia.
  rewrite take_insert_S_r by (rewrite length_shiftDown; lia).
  rewrite take_shiftDown by lia.
  replace (S (n - 1)) with n by lia. by destruct (take n row).
Qed.

Lemma rotate_inv (s : kernel) (c pA : nat) (tl : list nat) :
  arrays_inv cfg s → c < RTOS_NO_PRIO_CLASSES cfg →
  dueList s c = pA :: tl →
  let n := _noDueTasksAry s !!! c in
  let roll row := <[n - 1 := pA]> (shiftDown 0 (n - 1) row) in
  let s' := set_pDueTaskAryAry (alter roll c (_pDueTaskAryAry s)) s in
  arrays_inv cfg s'
  ∧ dueList s' c = tl ++ [pA]
  ∧ (∀ c', c' ≠ c → dueList s' c' = dueList s c').
Proof.
  intros Hinv Hc Hdue n roll s'.
  pose proof (length_dueList s c Hinv Hc) as Hlen. fold n in Hlen.
  rewrite Hdue in Hlen. simpl in Hlen.
  pose proof (noDue_le s c Hinv Hc) as HnM. fold n in HnM.
  pose proof (due_row_length s c Hinv Hc) as Hrow.
  assert (Hdc : dueList s' c = tl ++ [pA]).
  { unfold dueList, s'. simpl. fold n.
    rewrite list_lookup_total_alter_eq by (rewrite (inv_len_due _ _ Hinv); done).
    unfold roll. rewrite take_roll by lia.
    change (take n (_pDueTaskAryAry s !!! c)) with (dueList s c). by rewrite Hdue. }
  assert (Hdo : ∀ c', c' ≠ c → dueList s' c' = dueList s c').
  { intros c' Hne. unfold dueList, s'. simpl.
    by rewrite list_lookup_total_alter_ne. }
  split_and!; [| done | done].
  destruct Hinv as [H1 H2 H3 H4 H5 H6 H7 H8 H9 H10].
  constructor; try done.
  - simpl. by rewrite length_alter.
  - simpl. intros c' row. rewrite list_lookup_alter. case_decide as Hcc.
    + subst c'. destruct (_pDueTaskAryAry s !! c) as [row0 |] eqn:Hr; [| done].
      simpl. intros [= <-]. unfold roll.
      rewrite length_insert, length_shiftDown. by apply (H5 c).
    + apply H5.
  - rewrite <- H8. apply Permutation_app_tail. unfold allDue.
    apply concat_map_perm. intros c' _.
    destruct (decide (c' = c)) as [-> | Hne]; [| by rewrite Hdo].
    rewrite Hdc, Hdue. by rewrite Permutation_app_comm.
  - intros c' t Hc'. destruct (decide (c' = c)) as [-> | Hne].
    + rewrite Hdc. intros Ht. apply (H9 c t Hc). rewrite Hdue.
      apply elem_of_app in Ht as [Ht | Ht]; [by right |].
      apply list_elem_of_singleton in Ht as ->. left.
    + rewrite Hdo by done. by apply H9.
Qed.

Lemma active_head (s : kernel) :
  kernel_inv cfg s →
  let pA := _pActiveTask s in
  0 < _noDueTasksAry s !!! (prios s !!! pA) →
  prios s !!! pA < RTOS_NO_PRIO_CLASSES cfg
  ∧ ∃ tl, dueList s (prios s !!! pA) = pA :: tl.
Proof.
  intros [Hinv Hact] pA Hpos.
  pose proof (selectActive_highestDue s Hinv) as Hh. rewrite <- Hact in Hh. fold pA in Hh.
  destruct Hh as [(c & Hc & Hhead & Hab) | [Hnil Hidle]].
  - assert (Hin : pA ∈ dueList s c).
    { destruct (dueList s c) as [| x l]; [done |]. simpl in Hhead.
      injection Hhead as ->. left. }
    rewrite (inv_due_prio _ _ Hinv c pA Hc Hin).
    split; [done |]. destruct (dueList s c) as [| x l]; [done |].
    simpl in Hhead. injection Hhead as ->. eauto.
  - exfalso. destruct (decide (prios s !!! pA < RTOS_NO_PRIO_CLASSES cfg)) as [Hlt | Hge].
    + apply (dueList_nil_iff s _ Hinv Hlt) in Hnil; [lia | done].
    + rewrite (list_lookup_total_alt (_noDueTasksAry s)) in Hpos.
      rewrite (proj2 (lookup_ge_None _ _)) in Hpos; [simpl in Hpos; lia |].
      rewrite (inv_len_noDue _ _ Hinv). lia.
Qed.

Lemma roundRobin_spec (s : kernel) :
  config_ok cfg → kernel_inv cfg s →
  let pA := _pActiveTask s in
  let c := prioClass (task s pA) in
  ∃ s' hint,
    roundRobin cfg s = (s', hint)
    ∧ arrays_inv cfg s'
    ∧ prios s' = prios s
    ∧ suspList s' = suspList s
    ∧ _pActiveTask s' = pA
    ∧ _time s' = _time s
    ∧ (∀ t, t ≠ pA → task s' t = task s t)
    ∧ (hint = false → ∀ c', dueList s' c' = dueList s c')
    ∧ (hint = true →
       c < RTOS_NO_PRIO_CLASSES cfg
       ∧ (∃ tl, tl ≠ [] ∧ dueList s c = pA :: tl ∧ dueList s' c = tl ++ [pA])
       ∧ ∀ c', c' ≠ c → dueList s' c' = dueList s c').
Proof.
  intros (HN & HM & HP) Hk pA c. pose proof Hk as [Hinv Hact].
  assert (Hquiet : ∀ s', prios s' = prios s →
            _pDueTaskAryAry s' = _pDueTaskAryAry s →
            _noDueTasksAry s' = _noDueTasksAry s →
            _pSuspendedTaskAry s' = _pSuspendedTaskAry s →
            _noSuspendedTasks s' = _noSuspendedTasks s →
            _pActiveTask s' = pA → _time s' = _time s →
            (∀ t, t ≠ pA → task s' t = task s t) →
            arrays_inv cfg s' ∧ prios s' = prios s ∧ suspList s' = suspList s
            ∧ _pActiveTask s' = pA ∧ _time s' = _time s
            ∧ (∀ t, t ≠ pA → task s' t = task s t)
            ∧ (false = false → ∀ c', dueList s' c' = dueList s c')
            ∧ (false = true →
               c < RTOS_NO_PRIO_CLASSES cfg
               ∧ (∃ tl, tl ≠ [] ∧ dueList s c = pA :: tl ∧ dueList s' c = tl ++ [pA])
               ∧ ∀ c', c' ≠ c → dueList s' c' = dueList s c')).
  { intros s' Hpr Hd Hn Hs Hns Ha Ht Htk. split_and!; try done.
    - by apply (arrays_inv_ext s).
    - unfold suspList. by rewrite Hs, Hns.
    - intros _ c'. unfold dueList. by rewrite Hd, Hn. }
  unfold roundRobin. fold pA.
  destruct (RTOS_ROUND_ROBIN_MODE_SUPPORTED cfg);
    [| exists s, false; split; [done |]; by apply Hquiet].
  destruct (0 <? cntRoundRobin (task s pA))%Z;
    [| exists s, false; split; [done |]; by apply Hquiet].
  set (s1 := updTask pA (λ t, set_cntRoundRobin (uintTime cfg (cntRoundRobin t - 1)) t) s).
  destruct (cntRoundRobin (task s1 pA) =? 0)%Z.
  2:{ exists s1, false. split; [done |]. apply Hquiet; try done.
      - by apply prios_updTask.
      - intros t Hne. by apply task_updTask_ne. }
  set (s2 := updTask pA (λ t, set_cntRoundRobin (timeRoundRobin t) t) s1).
  assert (Hpr2 : prios s2 = prios s).
  { unfold s2. rewrite prios_updTask by done. by apply prios_updTask. }
  assert (Htk2 : ∀ t, t ≠ pA → task s2 t = task s t).
  { intros t Hne. unfold s2. rewrite task_updTask_ne by done. by apply task_updTask_ne. }
  assert (Hc2 : prioClass (task s2 pA) = prios s !!! pA).
  { by rewrite <- prios_lookup, Hpr2. }
  rewrite Hc2. change (_noDueTasksAry s2) with (_noDueTasksAry s).
  destruct (Nat.ltb_spec 1 (_noDueTasksAry s !!! (prios s !!! pA))) as [Hgt | Hle].
  2:{ exists s2, false. split; [done |]. by apply Hquiet. }
  destruct (active_head s Hk ltac:(fold pA; lia)) as (Hlt & tl & Hdue).
  fold pA in Hlt, Hdue.
  assert (Hinv2 : arrays_inv cfg s2) by (by apply (arrays_inv_ext s)).
  assert (Hdue2 : dueList s2 (prios s !!! pA) = pA :: tl) by exact Hdue.
  pose proof (noDue_le s _ Hinv Hlt) as HnM.
  rewrite u8_dec_small by lia.
  destruct (rotate_inv s2 (prios s !!! pA) pA tl Hinv2 Hlt Hdue2) as (Hinv' & Hdc & Hdo).
  change (_noDueTasksAry s2) with (_noDueTasksAry s) in Hinv', Hdc, Hdo.
  eexists _, true. split; [reflexivity |].
  split_and!; try done.
  intros _. unfold c. rewrite <- prios_lookup. split_and!; [done | | done].
  exists tl. split_and!; [| done | done].
  intros ->. pose proof (length_dueList s _ Hinv Hlt) as Hlen.
  rewrite Hdue in Hlen. simpl in Hlen. lia.
Qed.

(** ** The suspend command *)

Lemma storeResumeCondition_frame (pT : nat) (mask : Z) (all : bool) (timeout : Z)
    (s : kernel) :
  let s' := storeResumeCondition cfg pT mask all timeout s in
  s' = set_taskAry (_taskAry s') s
  ∧ prios s' = prios s
  ∧ (∀ t, t ≠ pT → task s' t = task s t).
Proof.
  unfold storeResumeCondition.
  repeat match goal with |- context [if ?b then _ else _] => destruct b end;
    (split_and!;
     [ by destruct s
     | by rewrite !prios_updTask by done
     | intros t Hne; by rewrite !task_updTask_ne by done ]).
Qed.

Lemma storeResumeCondition_taskAry (pT : nat) (mask : Z) (all : bool) (timeout : Z)
    (s s0 : kernel) :
  _taskAry s = _taskAry s0 → _time s = _time s0 →
  _taskAry (storeResumeCondition cfg pT mask all timeout s)
  = _taskAry (storeResumeCondition cfg pT mask all timeout s0).
Proof.
  intros Ht Htime. unfold storeResumeCondition, updTask, task, set_taskAry. simpl.
  rewrite Ht, Htime.
  repeat match goal with |- context [if ?b then _ else _] => destruct b end; done.
Qed.

Lemma suspend_inv (s : kernel) (c pT : nat) (tl : list nat) :
  config_ok cfg → arrays_inv cfg s → c < RTOS_NO_PRIO_CLASSES cfg →
  dueList s c = pT :: tl →
  let n := _noDueTasksAry s !!! c in
  let s' :=
    set_noSuspendedTasks (u8_inc (_noSuspendedTasks s))
      (set_pSuspendedTaskAry (<[_noSuspendedTasks s := pT]> (_pSuspendedTaskAry s))
         (set_pDueTaskAryAry (alter (shiftDown 0 (u8_dec n)) c (_pDueTaskAryAry s))
            (set_noDueTasksAry (<[c := u8_dec n]> (_noDueTasksAry s)) s))) in
  arrays_inv cfg s'
  ∧ dueList s' c = tl
  ∧ (∀ c', c' ≠ c → dueList s' c' = dueList s c')
  ∧ suspList s' = suspList s ++ [pT].
Proof.
  intros (HN & HM & HP) Hinv Hc Hdue n s'.
  pose proof (length_dueList s c Hinv Hc) as Hlen. fold n in Hlen.
  rewrite Hdue in Hlen. simpl in Hlen.
  pose proof (noDue_le s c Hinv Hc) as HnM. fold n in HnM.
  pose proof (due_row_length s c Hinv Hc) as Hrow.
  assert (HpT : pT ∈ dueList s c) by (rewrite Hdue; left).
  pose proof (inv_due_prio _ _ Hinv c pT Hc HpT) as Hprio.
  assert (Hroom : _noSuspendedTasks s < RTOS_NO_TASKS cfg).
  { pose proof (inv_perm _ _ Hinv) as Hperm. apply Permutation_length in Hperm.
    rewrite length_app, length_seq, length_suspList in Hperm by done.
    assert (Hall : pT ∈ allDue cfg s) by (apply elem_of_allDue; eauto).
    destruct (allDue cfg s); [by apply elem_of_nil in Hall | simpl in Hperm; lia]. }
  assert (Hs' : s' = mkKernel (_time s) (_taskAry s) (_pActiveTask s) (_pSuspendedTask s)
            (alter (shiftDown 0 (n - 1)) c (_pDueTaskAryAry s))
            (<[c := n - 1]> (_noDueTasksAry s))
            (<[_noSuspendedTasks s := pT]> (_pSuspendedTaskAry s))
            (S (_noSuspendedTasks s))).
  { unfold s'. rewrite u8_dec_small, u8_inc_small by lia.
    by rewrite Nat.add_1_r. }
  clearbody s'. subst s'. set (s' := mkKernel _ _ _ _ _ _ _ _).
  assert (Hdc : dueList s' c = tl).
  { unfold dueList, s'. simpl.
    rewrite list_lookup_total_insert_eq by (rewrite (inv_len_noDue _ _ Hinv); done).
    rewrite list_lookup_total_alter_eq by (rewrite (inv_len_due _ _ Hinv); done).
    rewrite take_shiftDown by lia.
    replace (S (n - 1)) with n by lia.
    change (take n (_pDueTaskAryAry s !!! c)) with (dueList s c). by rewrite Hdue. }
  assert (Hdo : ∀ c', c' ≠ c → dueList s' c' = dueList s c').
  { intros c' Hne. unfold dueList, s'. simpl.
    rewrite list_lookup_total_insert_ne by done.
    by rewrite list_lookup_total_alter_ne. }
  assert (Hsl : suspList s' = suspList s ++ [pT]).
  { unfold suspList, s'. simpl. apply take_insert_S_r.
    rewrite (inv_len_susp _ _ Hinv). done. }
  split_and!; [| done | done | done].
  destruct Hinv as [H1 H2 H3 H4 H5 H6 H7 H8 H9 H10].
  constructor; try done.
  - simpl. by rewrite length_insert.
  - simpl. by rewrite length_alter.
  - simpl. by rewrite length_insert.
  - simpl. intros c' row. rewrite list_lookup_alter. case_decide as Hcc.
    + subst c'. destruct (_pDueTaskAryAry s !! c) as [row0 |] eqn:Hr; [| done].
      simpl. intros [= <-]. rewrite length_shiftDown. by apply (H5 c).
    + apply H5.
  - intros c' Hc'. rewrite Hsl, filter_app, length_app.
    change (prios s') with (prios s).
    rewrite filter_cons, filter_nil. pose proof (H7 c' Hc') as Hcap.
    simpl. destruct (decide (c' = c)) as [-> | Hne].
    + rewrite list_lookup_total_insert_eq by (rewrite H4; done).
      rewrite decide_True by done. fold n in Hcap. simpl. lia.
    + rewrite list_lookup_total_insert_ne by done.
      rewrite decide_False by (by rewrite Hprio). simpl. lia.
  - rewrite <- H8, Hsl.
    assert (Hall : allDue cfg s ≡ₚ pT :: allDue cfg s').
    { unfold allDue. apply (concat_map_perm_cons _ _ _ c).
      - apply NoDup_seq.
      - apply elem_of_seq. lia.
      - by rewrite Hdue, Hdc.
      - intros c' Hne. by rewrite Hdo. }
    rewrite Hall. simpl. rewrite <- Permutation_middle.
    rewrite app_nil_r. symmetry. apply Permutation_middle.
  - intros c' t Hc'. change (prios s') with (prios s).
    destruct (decide (c' = c)) as [-> | Hne].
    + rewrite Hdc. intros Ht. apply (H9 c t Hc). rewrite Hdue. by right.
    + rewrite Hdo by done. by apply H9.
Qed.

Lemma active_due (s : kernel) :
  kernel_inv cfg s → _pActiveTask s ≠ _pIdleTask cfg →
  let pT := _pActiveTask s in
  prios s !!! pT < RTOS_NO_PRIO_CLASSES cfg
  ∧ (∃ tl, dueList s (prios s !!! pT) = pT :: tl)
  ∧ ∀ c', prios s !!! pT < c' < RTOS_NO_PRIO_CLASSES cfg → dueList s c' = [].
Proof.
  intros [Hinv Hact] Hidle pT.
  pose proof (selectActive_highestDue s Hinv) as Hh. rewrite <- Hact in Hh. fold pT in Hh.
  destruct Hh as [(c & Hc & Hhead & Hab) | [Hnil Hid]]; [| done].
  destruct (dueList s c) as [| x l] eqn:Hdue; [done |].
  simpl in Hhead. injection Hhead as ->.
  assert (Hin : pT ∈ dueList s c) by (rewrite Hdue; left).
  rewrite (inv_due_prio _ _ Hinv c pT Hc Hin). rewrite Hdue. eauto.
Qed.

Lemma waitForEvent_spec (s : kernel) (mask : Z) (all : bool) (timeout : Z) :
  config_ok cfg → kernel_inv cfg s → _pActiveTask s ≠ _pIdleTask cfg →
  let pT := _pActiveTask s in
  let c := prioClass (task s pT) in
  let s' := waitForEvent cfg mask all timeout s in
  c < RTOS_NO_PRIO_CLASSES cfg
  ∧ (∃ tl, dueList s c = pT :: tl ∧ dueList s' c = tl)
  ∧ (∀ c', c' ≠ c → dueList s' c' = dueList s c')
  ∧ _taskAry s' = _taskAry (storeResumeCondition cfg pT mask all timeout s)
  ∧ suspList s' = suspList s ++ [pT]
  ∧ _pSuspendedTask s' = pT
  ∧ highestDue cfg s' (_pActiveTask s')
  ∧ _pActiveTask s' ≠ pT
  ∧ kernel_inv cfg s'.
Proof.
  intros Hcfg Hk Hidle pT c s'. pose proof Hk as [Hinv Hact].
  destruct (active_due s Hk Hidle) as (Hlt & (tl & Hdue) & _).
  fold pT in Hlt, Hdue. rewrite prios_lookup in Hlt, Hdue. fold c in Hlt, Hdue.
  destruct (suspend_inv s c pT tl Hcfg Hinv Hlt Hdue) as (HinvA & HdcA & HdoA & HslA).
  set (sA := set_noSuspendedTasks _ _) in *.
  set (s2 := set_pDueTaskAryAry
               (alter (shiftDown 0 (u8_dec (_noDueTasksAry s !!! c))) c (_pDueTaskAryAry s))
               (set_noDueTasksAry (<[c := u8_dec (_noDueTasksAry s !!! c)]> (_noDueTasksAry s)) s)).
  set (s3 := storeResumeCondition cfg pT mask all timeout s2).
  destruct (storeResumeCondition_frame pT mask all timeout s2) as (Hfr3 & Hpr3 & Htk3).
  fold s3 in Hfr3, Hpr3, Htk3.
  assert (HT : _taskAry s3 = _taskAry (storeResumeCondition cfg pT mask all timeout s))
    by (by apply storeResumeCondition_taskAry).
  set (s7 := set_pActiveTask (_pIdleTask cfg)
               (set_pSuspendedTask pT (set_taskAry (_taskAry s3) sA))).
  assert (Hs' : s' = set_pActiveTask (selectActive cfg s7) s7).
  { set (F := λ s3 : kernel,
      let x := set_pSuspendedTaskAry
                 (<[_noSuspendedTasks s3 := _pActiveTask s3]> (_pSuspendedTaskAry s3)) s3 in
      let x := set_noSuspendedTasks (u8_inc (_noSuspendedTasks x)) x in
      let x := set_pSuspendedTask (_pActiveTask x) x in
      let x := set_pActiveTask (_pIdleTask cfg) x in
      match findDueClass (_noDueTasksAry x) (RTOS_NO_PRIO_CLASSES cfg) with
      | Some idxPrio => set_pActiveTask ((_pDueTaskAryAry x !!! idxPrio) !!! 0) x
      | None => x
      end).
    change s' with (F s3). rewrite Hfr3. unfold F, selectActive, s7, sA. simpl.
    destruct (findDueClass _ _); done. }
  assert (Hinv7 : arrays_inv cfg s7) by (by apply (arrays_inv_ext sA)).
  assert (Hinv' : arrays_inv cfg s') by (rewrite Hs'; by apply (arrays_inv_ext s7)).
  assert (Hk' : kernel_inv cfg s') by (split; [done | by rewrite Hs']).
  assert (Hd' : ∀ c', dueList s' c' = dueList sA c') by (by rewrite Hs').
  assert (Hsl' : suspList s' = suspList s ++ [pT]) by (by rewrite Hs').
  assert (Hh' : highestDue cfg s' (_pActiveTask s')).
  { destruct Hk' as [_ ->]. by apply selectActive_highestDue. }
  split_and!; try done.
  - exists tl. by rewrite Hd'.
  - intros c' Hne. rewrite Hd'. by apply HdoA.
  - by rewrite Hs'.
  - by rewrite Hs'.
  - destruct Hh' as [(c' & Hc' & Hhead & _) | [_ ->]]; [| done].
    intros Heq. rewrite Heq in Hhead.
    pose proof (inv_NoDup s' Hinv') as Hnd.
    apply NoDup_app in Hnd as (_ & Hdisj & _). apply (Hdisj pT).
    + apply elem_of_allDue. exists c'. split; [done |].
      destruct (dueList s' c'); [done |]. simpl in Hhead. injection Hhead as ->. left.
    + rewrite Hsl'. apply elem_of_app. right. left.
Qed.

(** ** Initialization *)

Lemma rtos_initializeTask_frame (a : initArgs) (s : kernel) :
  let s' := rtos_initializeTask cfg a s in
  s' = set_taskAry (_taskAry s') s ∧ length (_taskAry s') = length (_taskAry s).
Proof.
  unfold rtos_initializeTask.
  set (s3 := updTask _ (set_timeDueAt 0) _).
  destruct (storeResumeCondition_frame (ia_idxTask a) (ia_startEventMask a)
              (ia_startByAllEvents a) (ia_startTimeout a) s3) as (Hfr & Hpr & _).
  set (s4 := storeResumeCondition _ _ _ _ _ _) in *.
  assert (Hl4 : length (_taskAry s4) = length (_taskAry s)).
  { apply (f_equal length) in Hpr. unfold prios in Hpr. rewrite !length_fmap in Hpr.
    rewrite Hpr. unfold s3. by rewrite !length_updTask. }
  destruct (RTOS_ROUND_ROBIN_MODE_SUPPORTED cfg).
  - split; [| by rewrite length_updTask].
    unfold updTask. rewrite Hfr. by destruct s.
  - split; [| done]. rewrite Hfr. by destruct s.
Qed.

Lemma setup_frame (setup : list initArgs) (s : kernel) :
  let s' := foldl (λ s a, rtos_initializeTask cfg a s) s setup in
  s' = set_taskAry (_taskAry s') s ∧ length (_taskAry s') = length (_taskAry s).
Proof.
  revert s. induction setup as [| a setup IH]; intros s; simpl.
  - split; [by destruct s | done].
  - destruct (IH (rtos_initializeTask cfg a s)) as [Hfr Hl].
    destruct (rtos_initializeTask_frame a s) as [Hfr1 Hl1].
    split; [| by rewrite Hl, Hl1].
    rewrite Hfr. rewrite Hfr1. by destruct s.
Qed.

Lemma insert_replicate_id {A : Type} (x : A) (n i : nat) :
  <[i := x]> (replicate n x) = replicate n x.
Proof.
  destruct (decide (i < n)) as [Hlt | Hge].
  - apply list_insert_id. by apply lookup_replicate_2.
  - apply list_insert_ge. rewrite length_replicate. lia.
Qed.

Lemma rtos_initRTOS_arrays (setup : list initArgs) :
  let s := rtos_initRTOS cfg setup in
  length (_taskAry s) = RTOS_NO_TASKS cfg + 1
  ∧ _pSuspendedTaskAry s = seq 0 (RTOS_NO_TASKS cfg)
  ∧ _noSuspendedTasks s = RTOS_NO_TASKS cfg
  ∧ _pDueTaskAryAry s
    = replicate (RTOS_NO_PRIO_CLASSES cfg)
        (replicate (RTOS_MAX_NO_TASKS_IN_PRIO_CLASS cfg) 0)
  ∧ _noDueTasksAry s = replicate (RTOS_NO_PRIO_CLASSES cfg) 0
  ∧ _pActiveTask s = _pIdleTask cfg.
Proof.
  unfold rtos_initRTOS.
  destruct (setup_frame setup (staticData cfg)) as [Hfr0 Hl0].
  set (s0 := foldl _ _ _) in *.
  set (body := λ (idxTask : nat) (s : kernel),
         let s := if RTOS_ROUND_ROBIN_MODE_SUPPORTED cfg
                  then updTask idxTask (set_cntRoundRobin 0) s else s in
         let s := updTask idxTask (set_postedEventVec 0) s in
         let s := updTask idxTask (set_cntOverrun 0) s in
         set_pSuspendedTaskAry (<[idxTask := idxTask]> (_pSuspendedTaskAry s)) s).
  assert (H1 : ∀ s1, s1 = for_loop 0 (RTOS_NO_TASKS cfg) body s0 →
            length (_taskAry s1) = RTOS_NO_TASKS cfg + 1
            ∧ _pSuspendedTaskAry s1 = seq 0 (RTOS_NO_TASKS cfg)
            ∧ _pDueTaskAryAry s1 = _pDueTaskAryAry (staticData cfg)
            ∧ _noDueTasksAry s1 = _noDueTasksAry (staticData cfg)).
  { intros s1 ->.
    pose proof (for_loop_ind (λ i x,
      length (_taskAry x) = RTOS_NO_TASKS cfg + 1
      ∧ length (_pSuspendedTaskAry x) = RTOS_NO_TASKS cfg
      ∧ take i (_pSuspendedTaskAry x) = seq 0 i
      ∧ _pDueTaskAryAry x = _pDueTaskAryAry (staticData cfg)
      ∧ _noDueTasksAry x = _noDueTasksAry (staticData cfg))
      body 0 (RTOS_NO_TASKS cfg) s0 ltac:(lia)) as Hind.
    simpl in Hind.
    destruct Hind as (Ha & Hb & Hc & Hd & He).
    - rewrite Hl0, Hfr0. simpl. rewrite !length_replicate. done.
    - intros i x Hi (Ha & Hb & Hc & Hd & He). unfold body.
      destruct (RTOS_ROUND_ROBIN_MODE_SUPPORTED cfg); simpl;
        rewrite !length_alter, length_insert;
        (split_and!; try done;
         rewrite take_insert_S_r by lia; rewrite Hc;
         change (0 :: seq 1 i) with (seq 0 (S i));
         by rewrite seq_S).
    - split_and!; try done. rewrite <- Hc. symmetry. apply take_ge. lia. }
  destruct (H1 _ eq_refl) as (Ha & Hb & Hc & Hd).
  set (s1 := for_loop 0 (RTOS_NO_TASKS cfg) body s0) in *.
  set (s2 := updTask _ (set_cntOverrun 0) _).
  assert (H2 : length (_taskAry s2) = RTOS_NO_TASKS cfg + 1
               ∧ _pSuspendedTaskAry s2 = seq 0 (RTOS_NO_TASKS cfg)
               ∧ _noSuspendedTasks s2 = RTOS_NO_TASKS cfg
               ∧ _pDueTaskAryAry s2 = _pDueTaskAryAry (staticData cfg)
               ∧ _noDueTasksAry s2 = _noDueTasksAry (staticData cfg)).
  { unfold s2. destruct (RTOS_ROUND_ROBIN_MODE_SUPPORTED cfg); simpl;
      rewrite !length_alter; done. }
  destruct H2 as (Ha2 & Hb2 & Hc2 & Hd2 & He2).
  pose proof (for_loop_ind (λ (i : nat) x,
      _taskAry x = _taskAry s2
      ∧ _pSuspendedTaskAry x = _pSuspendedTaskAry s2
      ∧ _noSuspendedTasks x = _noSuspendedTasks s2
      ∧ _pDueTaskAryAry x = _pDueTaskAryAry s2
      ∧ _noDueTasksAry x = replicate (RTOS_NO_PRIO_CLASSES cfg) 0)
      (λ idxClass s, set_noDueTasksAry (<[idxClass := 0]> (_noDueTasksAry s)) s)
      0 (RTOS_NO_PRIO_CLASSES cfg) s2 ltac:(lia)) as Hind.
  simpl in Hind. destruct Hind as (Ha3 & Hb3 & Hc3 & Hd3 & He3).
  - split_and!; try done.
  - intros i x Hi (Ha3 & Hb3 & Hc3 & Hd3 & He3). split_and!; try done.
    rewrite He3. apply insert_replicate_id.
  - simpl. rewrite Ha3, Hb3, Hc3, Hd3, He3. done.
Qed.

Lemma findDueClass_replicate (n k : nat) : findDueClass (replicate n 0) k = None.
Proof.
  induction k as [| k IH]; simpl; [done |].
  rewrite list_lookup_total_alt.
  destruct (replicate n 0 !! k) as [x |] eqn:Hx; simpl.
  - apply lookup_replicate in Hx as [-> _]. done.
  - done.
Qed.

Lemma rtos_initRTOS_inv (setup : list initArgs) :
  setup_ok cfg setup → kernel_inv cfg (rtos_initRTOS cfg setup).
Proof.
  intros (_ & Hprio & Hcount).
  destruct (rtos_initRTOS_arrays setup) as (Hl & Hsusp & Hns & Hdue & Hnd & Hact).
  set (s := rtos_initRTOS cfg setup) in *.
  assert (Hsl : suspList s = seq 0 (RTOS_NO_TASKS cfg)).
  { unfold suspList. rewrite Hsusp, Hns. apply take_ge. by rewrite length_seq. }
  assert (Hdl : ∀ c, dueList s c = []).
  { intros c. unfold dueList. rewrite Hnd.
    rewrite (list_lookup_total_alt (replicate _ 0)).
    destruct (replicate _ 0 !! c) as [x |] eqn:Hx; simpl; [| done].
    apply lookup_replicate in Hx as [-> _]. done. }
  assert (Hall : allDue cfg s = []).
  { unfold allDue. generalize (seq 0 (RTOS_NO_PRIO_CLASSES cfg)).
    intros l. induction l as [| a l IH]; simpl; [done |]. by rewrite Hdl, IH. }
  split.
  - constructor.
    + done.
    + by rewrite Hsusp, length_seq.
    + by rewrite Hdue, length_replicate.
    + by rewrite Hnd, length_replicate.
    + intros c row. rewrite Hdue. intros Hrow.
      apply lookup_replicate in Hrow as [-> _]. by rewrite length_replicate.
    + by rewrite Hns.
    + intros c Hc. rewrite Hsl.
      assert (H0 : _noDueTasksAry s !!! c = 0).
      { rewrite Hnd, list_lookup_total_alt.
        by rewrite lookup_replicate_2. }
      rewrite H0. simpl.
      rewrite (list_filter_iff _ (λ t, prioClass (task s t) = c))
        by (intros t; by rewrite prios_lookup).
      by apply Hcount.
    + by rewrite Hall, Hsl.
    + intros c t _. rewrite Hdl. intros Ht. by apply elem_of_nil in Ht.
    + intros t Ht. rewrite prios_lookup. by apply Hprio.
  - rewrite Hact. unfold selectActive. rewrite Hnd.
    by rewrite findDueClass_replicate.
Qed.

(** ** The invariant of the reachable states *)

Lemma onTimerTic_inv (s : kernel) :
  config_ok cfg → kernel_inv cfg s →
  let '(s1, hint) := roundRobin cfg (clockTimers cfg s) in
  let '(s', b) := checkForTaskActivation cfg hint s1 in
  onTimerTic cfg s = (s', b)
  ∧ _pActiveTask s1 = _pActiveTask s
  ∧ kernel_inv cfg s'
  ∧ (b = true ↔ _pActiveTask s' ≠ _pActiveTask s1)
  ∧ (b = false → _pActiveTask s' = _pActiveTask s1).
Proof.
  intros Hcfg Hk. pose proof Hk as [Hinv Hact].
  destruct (clockTimers_frame s Hinv) as (Hfr0 & Hpr0 & Hinv0 & _).
  assert (Hk0 : kernel_inv cfg (clockTimers cfg s)).
  { apply (kernel_inv_ext s); try done; by rewrite Hfr0. }
  destruct (roundRobin_spec (clockTimers cfg s) Hcfg Hk0)
    as (s1 & hint & Hrr & Hinv1 & Hpr1 & Hsl1 & Hact1 & Htime1 & Htk1 & Hquiet & Hroll).
  unfold onTimerTic. rewrite Hrr.
  assert (Ha0 : _pActiveTask (clockTimers cfg s) = _pActiveTask s) by (by rewrite Hfr0).
  pose proof (checkForTaskActivation_inv hint s1 Hcfg Hinv1) as Hc.
  destruct (checkForTaskActivation cfg hint s1) as [s' b].
  destruct Hc as (Hk' & _ & Hb1 & Hb2).
  - intros ->. rewrite Hact1. destruct Hk0 as [_ ->].
    symmetry. apply selectActive_ext; [done | done |]. intros c _. by apply Hquiet.
  - intros ->. destruct (Hroll eq_refl) as (Hc & (tl & _ & _ & Hd) & _).
    eexists. split; [exact Hc |]. rewrite Hd. by destruct tl.
  - split_and!; try done. by rewrite Hact1.
Qed.

Lemma setEvent_inv (vec : Z) (s : kernel) :
  config_ok cfg → kernel_inv cfg s →
  let TM := Z.lor (RTOS_EVT_ABSOLUTE_TIMER cfg) (RTOS_EVT_DELAY_TIMER cfg) in
  let s1 := postEvents (u16 (Z.land vec (Z.lnot TM))) s in
  let '(s', b) := checkForTaskActivation cfg false s1 in
  setEvent cfg vec s = (s', b)
  ∧ _pActiveTask s1 = _pActiveTask s
  ∧ kernel_inv cfg s'
  ∧ (b = true ↔ _pActiveTask s' ≠ _pActiveTask s1)
  ∧ (b = false → _pActiveTask s' = _pActiveTask s1).
Proof.
  intros Hcfg Hk TM s1. pose proof Hk as [Hinv Hact].
  destruct (postEvents_frame (u16 (Z.land vec (Z.lnot TM))) s Hinv)
    as (Hfr1 & Hpr1 & Hinv1 & _).
  fold s1 in Hfr1, Hpr1, Hinv1.
  assert (Hk1 : kernel_inv cfg s1).
  { apply (kernel_inv_ext s); try done; by rewrite Hfr1. }
  pose proof (checkForTaskActivation_inv false s1 Hcfg Hinv1) as Hc.
  unfold setEvent. fold TM. fold s1.
  destruct (checkForTaskActivation cfg false s1) as [s' b].
  destruct Hc as (Hk' & _ & Hb1 & Hb2).
  - intros _. by destruct Hk1.
  - done.
  - split_and!; try done. by rewrite Hfr1.
Qed.

Lemma reachable_kernel_inv (setup : list initArgs) (s : kernel) :
  config_ok cfg → setup_ok cfg setup → reachable cfg setup s → kernel_inv cfg s.
Proof.
  intros Hcfg Hsetup Hr. induction Hr as
    [| s Hr IH | s vec Hr IH Hvec | s mask all timeout Hr IH Hidle Hmask Hto
     | s idxTask doReset Hr IH Hidx].
  - by apply rtos_initRTOS_inv.
  - unfold ISR_SYSTEM_TIMER_TIC.
    pose proof (onTimerTic_inv s Hcfg IH) as H.
    destruct (roundRobin cfg (clockTimers cfg s)) as [s1 hint].
    destruct (checkForTaskActivation cfg hint s1) as [s' b].
    destruct H as (-> & _ & Hk' & _).
    destruct b; [by apply PUSH_RET_CODE_OF_CONTEXT_SWITCH_inv | done].
  - unfold rtos_setEvent.
    pose proof (setEvent_inv vec s Hcfg IH) as H. simpl in H.
    destruct (checkForTaskActivation cfg false _) as [s' b].
    destruct H as (-> & _ & Hk' & _).
    destruct b; [by apply PUSH_RET_CODE_OF_CONTEXT_SWITCH_inv | done].
  - unfold rtos_waitForEvent. apply PUSH_RET_CODE_OF_CONTEXT_SWITCH_inv.
    by apply waitForEvent_spec.
  - by apply rtos_getTaskOverrunCounter_inv.
Qed.

(** ** Where the active task is stored *)

Lemma active_valid (s : kernel) :
  kernel_inv cfg s → _pActiveTask s ≤ RTOS_NO_TASKS cfg.
Proof.
  intros [Hinv Hact].
  pose proof (selectActive_highestDue s Hinv) as Hh. rewrite <- Hact in Hh.
  destruct Hh as [(c & Hc & Hhead & _) | [_ ->]]; [| done].
  apply Nat.lt_le_incl, (due_lt s c); [done | done |].
  destruct (dueList s c); [done |]. simpl in Hhead. injection Hhead as ->. left.
Qed.

Lemma idle_nowhere (s : kernel) :
  arrays_inv cfg s → _pIdleTask cfg ∉ allDue cfg s ++ suspList s.
Proof.
  intros Hinv Hin. apply (inv_elem_lt s _ Hinv) in Hin.
  unfold _pIdleTask, IDLE_TASK_ID in Hin. lia.
Qed.

Lemma active_not_suspended (s : kernel) :
  kernel_inv cfg s → _pActiveTask s ∉ suspList s.
Proof.
  intros Hk Hin. pose proof Hk as [Hinv Hact].
  destruct (decide (_pActiveTask s = _pIdleTask cfg)) as [Hidle | Hne].
  - apply (idle_nowhere s Hinv). rewrite <- Hidle. apply elem_of_app. by right.
  - destruct (active_due s Hk Hne) as (Hc & (tl & Hdue) & _).
    pose proof (inv_NoDup s Hinv) as Hnd.
    apply NoDup_app in Hnd as (_ & Hdisj & _). apply (Hdisj (_pActiveTask s)); [| done].
    apply elem_of_allDue. eexists. split; [exact Hc |]. rewrite Hdue. left.
Qed.

Lemma due_classes_respected (setup : list initArgs) (s : kernel) (pH pL H L : nat) :
  config_ok cfg → setup_ok cfg setup → reachable cfg setup s →
  pL < pH < RTOS_NO_PRIO_CLASSES cfg →
  H ∈ dueList s pH → L ∈ dueList s pL →
  _pActiveTask s ≠ L
  ∧ highestDue cfg s (_pActiveTask s)
  ∧ pH ≤ prioClass (task s (_pActiveTask s)).
Proof.
  intros Hcfg Hsetup Hr Hp HH HL.
  pose proof (reachable_kernel_inv setup s Hcfg Hsetup Hr) as Hk.
  pose proof Hk as [Hinv Hact].
  pose proof (selectActive_highestDue s Hinv) as Hh. rewrite <- Hact in Hh.
  assert (Htop : pH ≤ prioClass (task s (_pActiveTask s))).
  { destruct Hh as [(c & Hc & Hhead & Hab) | [Hnil _]].
    - assert (Hin : _pActiveTask s ∈ dueList s c).
      { destruct (dueList s c); [done |]. simpl in Hhead. injection Hhead as ->. left. }
      rewrite <- prios_lookup, (inv_due_prio _ _ Hinv c _ Hc Hin).
      destruct (decide (pH ≤ c)) as [Hle | Hgt]; [done |].
      rewrite (Hab pH) in HH by lia. by apply elem_of_nil in HH.
    - rewrite (Hnil pH) in HH by lia. by apply elem_of_nil in HH. }
  split_and!; [| done | done].
  intros Heq. rewrite Heq in Htop.
  rewrite <- prios_lookup in Htop.
  rewrite (inv_due_prio _ _ Hinv pL L) in Htop by (done || lia). lia.
Qed.

(** ** The rotation of a round robin class *)

Lemma NoDup_concat_map (f : nat → list nat) (cs : list nat) (c : nat) :
  NoDup (concat (map f cs)) → c ∈ cs → NoDup (f c).
Proof.
  induction cs as [| a cs IH]; intros Hnd Hin; [by apply elem_of_nil in Hin |].
  simpl in Hnd. apply NoDup_app in Hnd as (Ha & _ & Hrest).
  apply elem_of_cons in Hin as [-> | Hin]; [done | by apply IH].
Qed.

Lemma NoDup_dueList (s : kernel) (c : nat) :
  arrays_inv cfg s → c < RTOS_NO_PRIO_CLASSES cfg → NoDup (dueList s c).
Proof.
  intros Hinv Hc. pose proof (inv_NoDup s Hinv) as Hnd.
  apply NoDup_app in Hnd as (Hnd & _ & _).
  apply (NoDup_concat_map _ _ c) in Hnd; [done |]. apply elem_of_seq. lia.
Qed.

Lemma roundRobin_reload (s : kernel) :
  RTOS_ROUND_ROBIN_MODE_SUPPORTED cfg = true →
  let pA := _pActiveTask s in
  pA < length (_taskAry s) →
  cntRoundRobin (task s pA) = 1%Z →
  1 < _noDueTasksAry s !!! prioClass (task s pA) →
  snd (roundRobin cfg s) = true
  ∧ task (fst (roundRobin cfg s)) pA
    = set_cntRoundRobin (timeRoundRobin (task s pA)) (task s pA).
Proof.
  intros Hrr pA Hlt Hcnt Hn. unfold roundRobin. rewrite Hrr. fold pA.
  rewrite Hcnt. simpl (0 <? 1)%Z. cbv iota.
  set (s1 := updTask pA _ s).
  assert (Ht1 : task s1 pA = set_cntRoundRobin 0 (task s pA)).
  { unfold s1. rewrite task_updTask_eq by done. rewrite Hcnt.
    unfold uintTime. by rewrite Z.sub_diag, Zmod_0_l. }
  rewrite Ht1. simpl (cntRoundRobin _ =? 0)%Z. cbv iota.
  set (s2 := updTask pA _ s1).
  assert (Ht2 : task s2 pA = set_cntRoundRobin (timeRoundRobin (task s pA)) (task s pA)).
  { unfold s2. rewrite task_updTask_eq by (unfold s1; by rewrite length_updTask).
    rewrite Ht1. by destruct (task s pA). }
  rewrite Ht2. simpl (prioClass _).
  change (_noDueTasksAry s2) with (_noDueTasksAry s).
  rewrite (proj2 (Nat.ltb_lt _ _) Hn). done.
Qed.

Lemma roundRobin_rotation_spec (s : kernel) :
  config_ok cfg → kernel_inv cfg s →
  RTOS_ROUND_ROBIN_MODE_SUPPORTED cfg = true →
  let pA := _pActiveTask s in
  let c := prioClass (task s pA) in
  cntRoundRobin (task s pA) = 1%Z →
  1 < _noDueTasksAry s !!! c →
  ∃ second rest,
    dueList s c = pA :: second :: rest
    ∧ let s1 := fst (roundRobin cfg (clockTimers cfg s)) in
      let s' := fst (onTimerTic cfg s) in
      snd (roundRobin cfg (clockTimers cfg s)) = true
      ∧ cntRoundRobin (task s1 pA) = timeRoundRobin (task s pA)
      ∧ dueList s1 c = second :: rest ++ [pA]
      ∧ (∀ c', c' ≠ c → dueList s1 c' = dueList s c')
      ∧ highestDue cfg s' (_pActiveTask s')
      ∧ ((∀ t, t ∈ suspList s → c < prioClass (task s t) →
               releaseTest cfg (task (clockTimers cfg s) t) = false) →
         _pActiveTask s' = second ∧ snd (onTimerTic cfg s) = true).
Proof.
  intros Hcfg Hk Hrr pA c Hcnt Hn. pose proof Hk as [Hinv Hact].
  destruct (active_head s Hk ltac:(fold pA; rewrite prios_lookup; fold c; lia))
    as (Hc & tl & Hdue).
  fold pA in Hc, Hdue. rewrite prios_lookup in Hc, Hdue. fold c in Hc, Hdue.
  assert (HpAin : pA ∈ dueList s c) by (rewrite Hdue; left).
  pose proof (due_lt s c pA Hinv Hc HpAin) as HpAlt.
  assert (Hidle : pA ≠ _pIdleTask cfg) by (unfold _pIdleTask, IDLE_TASK_ID; lia).
  destruct (active_due s Hk Hidle) as (_ & _ & Habove).
  fold pA in Habove. rewrite prios_lookup in Habove. fold c in Habove.
  pose proof (length_dueList s c Hinv Hc) as Hlen. rewrite Hdue in Hlen.
  destruct tl as [| second rest]; [simpl in Hlen; lia |]. clear Hlen.
  exists second, rest. split; [done |].
  (* the timers *)
  destruct (clockTimers_frame s Hinv) as (Hfr0 & Hpr0 & Hinv0 & Htk0).
  set (s0 := clockTimers cfg s) in *.
  assert (Hk0 : kernel_inv cfg s0) by (apply (kernel_inv_ext s); try done; by rewrite Hfr0).
  assert (Ha0 : _pActiveTask s0 = pA) by (by rewrite Hfr0).
  assert (Hd0 : ∀ c', dueList s0 c' = dueList s c') by (intros c'; by rewrite Hfr0).
  assert (Hs0 : suspList s0 = suspList s) by (by rewrite Hfr0).
  assert (Ht0 : task s0 pA = task s pA) by (apply Htk0; by apply active_not_suspended).
  (* the round robin part *)
  destruct (roundRobin_reload s0 Hrr) as [Hhint Htask1].
  { rewrite Ha0, (inv_len_tasks _ _ Hinv0). lia. }
  { by rewrite Ha0, Ht0. }
  { rewrite Ha0, Ht0. fold c. by rewrite Hfr0. }
  rewrite Ha0, Ht0 in Htask1.
  destruct (roundRobin_spec s0 Hcfg Hk0)
    as (s1 & hint & Hrr1 & Hinv1 & Hpr1 & Hsl1 & Hact1 & Htime1 & Htk1 & _ & Hroll).
  rewrite Hrr1 in Hhint, Htask1. simpl in Hhint, Htask1. subst hint.
  rewrite Ha0, Ht0 in Hroll. fold c in Hroll.
  destruct (Hroll eq_refl) as (_ & (tl' & _ & Hdue0 & Hdue1) & Hother1).
  rewrite Hd0, Hdue in Hdue0. injection Hdue0 as <-.
  (* the scan *)
  pose proof (checkForTaskActivation_inv true s1 Hcfg Hinv1) as Hci.
  destruct (checkForTaskActivation_spec true s1 Hcfg Hinv1)
    as (s' & b & Hchk & _ & Hinv' & _ & _ & Hsusp' & Hdue' & _).
  rewrite Hchk in Hci.
  destruct Hci as ((_ & Hact') & _ & Hb & _); [done | |].
  { intros _. exists c. split; [done |]. by rewrite Hdue1. }
  assert (Htic : onTimerTic cfg s = (s', b)).
  { unfold onTimerTic. fold s0. by rewrite Hrr1. }
  rewrite Hrr1, Htic. simpl.
  assert (Hh' : highestDue cfg s' (_pActiveTask s')).
  { rewrite Hact'. by apply selectActive_highestDue. }
  split_and!; try done.
  - by rewrite Htask1.
  - intros c' Hne. rewrite Hother1 by done. apply Hd0.
  - intros Hquiet.
    assert (Hsecond : highestDue cfg s' second).
    { left. exists c. split_and!; [done | by rewrite Hdue', Hdue1 |].
      intros c' Hc'. rewrite Hdue', Hother1, Hd0, Habove by lia. simpl.
      apply filter_none. intros t Ht [Hrel Hprio].
      rewrite Hsl1, Hs0 in Ht.
      assert (Hne : t ≠ pA).
      { intros ->. by apply (active_not_suspended s Hk). }
      rewrite Htk1 in Hrel by (by rewrite Ha0).
      rewrite Hquiet in Hrel; [done | done |].
      rewrite <- prios_lookup, <- Hpr0, <- Hpr1, Hprio. lia. }
    pose proof (highestDue_unique s' _ _ Hh' Hsecond) as Heq.
    split; [done |]. apply Hb. rewrite Heq, Hact1, Ha0.
    pose proof (NoDup_dueList s c Hinv Hc) as Hnd. rewrite Hdue in Hnd.
    apply NoDup_cons in Hnd as [Hnin _]. intros ->. apply Hnin. left.
Qed.


(** ** The scheduler in the reachable states *)

Lemma checkCall_inv (setup : list initArgs) (hint : bool) (s : kernel) :
  config_ok cfg → setup_ok cfg setup → checkCall cfg setup hint s →
  arrays_inv cfg s
  ∧ (hint = false → _pActiveTask s = selectActive cfg s)
  ∧ (hint = true → ∃ c, c < RTOS_NO_PRIO_CLASSES cfg ∧ dueList s c ≠ []).
Proof.
  intros Hcfg Hsetup Hcall. destruct Hcall as [s vec Hr Hvec | s Hr].
  - pose proof (reachable_kernel_inv setup s Hcfg Hsetup Hr) as [Hinv Hact].
    destruct (postEvents_frame
                (u16 (Z.land vec (Z.lnot (Z.lor (RTOS_EVT_ABSOLUTE_TIMER cfg)
                                            (RTOS_EVT_DELAY_TIMER cfg))))) s Hinv)
      as (Hfr & _ & Hinv1 & _).
    split_and!; [done | | done]. intros _. rewrite Hfr. exact Hact.
  - pose proof (reachable_kernel_inv setup s Hcfg Hsetup Hr) as Hk.
    pose proof Hk as [Hinv Hact].
    destruct (clockTimers_frame s Hinv) as (Hfr0 & Hpr0 & Hinv0 & _).
    assert (Hk0 : kernel_inv cfg (clockTimers cfg s)).
    { apply (kernel_inv_ext s); try done; by rewrite Hfr0. }
    destruct (roundRobin_spec (clockTimers cfg s) Hcfg Hk0)
      as (s1 & hint & Hrr & Hinv1 & Hpr1 & Hsl1 & Hact1 & Htime1 & Htk1 & Hquiet & Hroll).
    rewrite Hrr. simpl. split_and!; [done | |].
    + intros ->. rewrite Hact1. destruct Hk0 as [_ ->].
      symmetry. apply selectActive_ext; [done | done |]. intros c _. by apply Hquiet.
    + intros ->. destruct (Hroll eq_refl) as (Hc & (tl & _ & _ & Hd) & _).
      eexists. split; [exact Hc |]. rewrite Hd. by destruct tl.
Qed.

(** C2, as the code has it: in every reachable state the one active task
    is a task of the task array; it is not in the suspended array; every
    task but the idle task is in exactly one place of the due arrays and the
    suspended array, and the idle task is in none; the active task is the
    idle task if no class has a due task, and else it is stored in the due
    array of its priority class, as the first entry, and that class is the
    highest non-empty one. *)
Theorem active_task_placement (setup : list initArgs) (s : kernel) :
  config_ok cfg → setup_ok cfg setup → reachable cfg setup s →
  let pA := _pActiveTask s in
  pA ≤ RTOS_NO_TASKS cfg
  ∧ (pA ∉ suspList s)
  ∧ allDue cfg s ++ suspList s ≡ₚ seq 0 (RTOS_NO_TASKS cfg)
  ∧ (_pIdleTask cfg ∉ allDue cfg s ++ suspList s)
  ∧ highestDue cfg s pA
  ∧ (pA ≠ _pIdleTask cfg →
     prioClass (task s pA) < RTOS_NO_PRIO_CLASSES cfg
     ∧ head (dueList s (prioClass (task s pA))) = Some pA).
Proof.
  intros Hcfg Hsetup Hr pA.
  pose proof (reachable_kernel_inv setup s Hcfg Hsetup Hr) as Hk.
  pose proof Hk as [Hinv Hact].
  split_and!.
  - by apply active_valid.
  - by apply active_not_suspended.
  - apply (inv_perm _ _ Hinv).
  - by apply idle_nowhere.
  - unfold pA. rewrite Hact. by apply selectActive_highestDue.
  - intros Hne. destruct (active_due s Hk Hne) as (Hc & (tl & Hdue) & _).
    fold pA in Hc, Hdue. rewrite prios_lookup in Hc, Hdue.
    split; [done |]. by rewrite Hdue.
Qed.

(** C4: the suspend logic of [waitForEvent], called in a reachable state by
    the active task, which is not the idle task, takes the caller from the
    head of the due array of its priority class, stores the resume condition
    in its task object, appends it to the suspended array and makes the
    first entry of the highest non-empty class the active task, or the idle
    task if no class has an entry; the new active task is never the
    caller. *)
Theorem waitForEvent_suspends (setup : list initArgs) (s : kernel)
    (mask : Z) (all : bool) (timeout : Z) :
  config_ok cfg → setup_ok cfg setup → reachable cfg setup s →
  _pActiveTask s ≠ _pIdleTask cfg →
  let pT := _pActiveTask s in
  let c := prioClass (task s pT) in
  let s' := waitForEvent cfg mask all timeout s in
  c < RTOS_NO_PRIO_CLASSES cfg
  ∧ (∃ tl, dueList s c = pT :: tl ∧ dueList s' c = tl)
  ∧ (∀ c', c' ≠ c → dueList s' c' = dueList s c')
  ∧ _taskAry s' = _taskAry (storeResumeCondition cfg pT mask all timeout s)
  ∧ suspList s' = suspList s ++ [pT]
  ∧ _pSuspendedTask s' = pT
  ∧ highestDue cfg s' (_pActiveTask s')
  ∧ _pActiveTask s' ≠ pT.
Proof.
  intros Hcfg Hsetup Hr Hidle pT c s'.
  pose proof (reachable_kernel_inv setup s Hcfg Hsetup Hr) as Hk.
  destruct (waitForEvent_spec s mask all timeout Hcfg Hk Hidle)
    as (H1 & H2 & H3 & H4 & H5 & H6 & H7 & H8 & _).
  by split_and!.
Qed.

(** C5: [setEvent] clears the timer bits of the vector, and the posting
    loop ORs the vector, masked with the task's event mask, into the posted
    events of every suspended task and changes nothing else: no other member
    of a task, no task that is not suspended, no task whose mask shares no
    bit with the vector, and never a timer bit; the search for the active
    task that ends [setEvent] posts no event either. *)
Theorem setEvent_posting (s : kernel) (vec : Z) :
  _noSuspendedTasks s ≤ length (_pSuspendedTaskAry s) →
  let TM := Z.lor (RTOS_EVT_ABSOLUTE_TIMER cfg) (RTOS_EVT_DELAY_TIMER cfg) in
  let vec' := u16 (Z.land vec (Z.lnot TM)) in
  let s' := postEvents vec' s in
  setEvent cfg vec s = checkForTaskActivation cfg false s'
  ∧ (∀ i, Z.testbit TM i = true → Z.testbit vec' i = false)
  ∧ (∀ i, (0 ≤ i < 16)%Z → Z.testbit TM i = false → Z.testbit vec' i = Z.testbit vec i)
  ∧ s' = set_taskAry (_taskAry s') s
  ∧ length (_taskAry s') = length (_taskAry s)
  ∧ (∀ pT, pT < length (_taskAry s) →
      let t := task s pT in
      (pT ∈ suspList s →
         task s' pT
         = set_postedEventVec (Z.lor (postedEventVec t) (Z.land vec' (eventMask t))) t)
      ∧ (pT ∉ suspList s → task s' pT = t)
      ∧ (Z.land vec (eventMask t) = 0%Z → task s' pT = t)
      ∧ (∀ i, Z.testbit TM i = true →
              Z.testbit (postedEventVec (task s' pT)) i = Z.testbit (postedEventVec t) i))
  ∧ (config_ok cfg → arrays_inv cfg s →
     ∀ pT i, Z.testbit TM i = true →
       Z.testbit (postedEventVec (task (fst (setEvent cfg vec s)) pT)) i
       = Z.testbit (postedEventVec (task s pT)) i).
Proof.
  intros Hn TM vec' s'.
  pose proof (postEvents_spec s vec Hn) as Hpe. cbv zeta in Hpe.
  fold TM in Hpe. fold vec' in Hpe. fold s' in Hpe.
  destruct Hpe as (H1 & H2 & H3 & H4 & H5 & H6).
  split_and!; try done.
  - intros pT HpT t. destruct (H6 pT HpT) as (Ha & Hb & Hc & Hd). fold t in Ha, Hb, Hc, Hd.
    split_and!; try done. intros H0. apply Hc.
    apply Z.bits_inj'. intros i Hi. rewrite Z.bits_0, Z.land_spec.
    apply (f_equal (λ z, Z.testbit z i)) in H0.
    rewrite Z.land_spec, Z.bits_0 in H0.
    destruct (Z.testbit TM i) eqn:HT; [by rewrite H2 |].
    destruct (Z.ltb_spec i 16) as [Hlt | Hge]; [by rewrite H3 |].
    unfold vec', u16. change 65536%Z with (2 ^ 16)%Z.
    by rewrite Z.mod_pow2_bits_high by lia.
  - intros Hcfg Hinv pT i HT.
    destruct (postEvents_frame vec' s Hinv) as (_ & _ & Hinv1 & _). fold s' in Hinv1.
    destruct (checkForTaskActivation_spec false s' Hcfg Hinv1)
      as (s2 & b & Hchk & _ & _ & _ & _ & _ & _ & Htasks & _).
    rewrite H1, Hchk. simpl. rewrite Htasks.
    assert (Hpost : Z.testbit (postedEventVec (task s' pT)) i
                    = Z.testbit (postedEventVec (task s pT)) i).
    { destruct (decide (pT < length (_taskAry s))) as [Hlt | Hge].
      - by apply H6.
      - unfold task. rewrite !list_lookup_total_alt.
        rewrite (proj2 (lookup_ge_None (_taskAry s') pT)) by lia.
        rewrite (proj2 (lookup_ge_None (_taskAry s) pT)) by lia. done. }
    case_decide; [| done]. rewrite <- Hpost. unfold madeDue.
    by destruct (RTOS_ROUND_ROBIN_MODE_SUPPORTED cfg).
Qed.

(** C7: in every reachable state with two due tasks [H] and [L], where
    the priority class of [L] is lower than that of [H], the active task is
    not [L]: it is the first entry of the highest non-empty class, which is
    the class of [H] or a higher one. *)
Theorem priority_respected (setup : list initArgs) (s : kernel) (H L : nat) :
  config_ok cfg → setup_ok cfg setup → reachable cfg setup s →
  H ∈ allDue cfg s → L ∈ allDue cfg s →
  prioClass (task s L) < prioClass (task s H) →
  _pActiveTask s ≠ L
  ∧ highestDue cfg s (_pActiveTask s)
  ∧ prioClass (task s H) ≤ prioClass (task s (_pActiveTask s)).
Proof.
  intros Hcfg Hsetup Hr HH HL Hlt.
  pose proof (reachable_kernel_inv setup s Hcfg Hsetup Hr) as [Hinv _].
  apply elem_of_allDue in HH as (cH & HcH & HH).
  apply elem_of_allDue in HL as (cL & HcL & HL).
  rewrite <- !prios_lookup in Hlt.
  rewrite (inv_due_prio _ _ Hinv cH H HcH HH) in Hlt.
  rewrite (inv_due_prio _ _ Hinv cL L HcL HL) in Hlt.
  rewrite <- (prios_lookup s H), (inv_due_prio _ _ Hinv cH H HcH HH).
  by apply (due_classes_respected setup s cH cL H L).
Qed.

(** C8: when a run of [checkForTaskActivation] returns, its loop has ended
    by its condition and no task left in the suspended array passes the
    release test; the tasks that passed it are exactly those taken out of
    the suspended array, and each of them has been appended to the due
    array of its priority class. *)
Theorem checkForTaskActivation_releases_all (setup : list initArgs)
    (hint : bool) (s : kernel) :
  config_ok cfg → setup_ok cfg setup → checkCall cfg setup hint s →
  let s' := fst (checkForTaskActivation cfg hint s) in
  let rel t := releaseTest cfg (task s t) = true in
  fst (fst (scanSuspended cfg (_noSuspendedTasks s) 0 hint s)) = _noSuspendedTasks s'
  ∧ (∀ t, t ∈ suspList s' → releaseTest cfg (task s' t) = false)
  ∧ suspList s' = filter (λ t, ¬ rel t) (suspList s)
  ∧ (∀ c, c < RTOS_NO_PRIO_CLASSES cfg →
          dueList s' c
          = dueList s c ++ filter (λ t, rel t ∧ prioClass (task s t) = c) (suspList s))
  ∧ (∀ t, t ∈ suspList s → rel t →
          (t ∉ suspList s')
          ∧ prioClass (task s t) < RTOS_NO_PRIO_CLASSES cfg
          ∧ t ∈ dueList s' (prioClass (task s t))).
Proof.
  intros Hcfg Hsetup Hcall.
  destruct (checkCall_inv setup hint s Hcfg Hsetup Hcall) as (Hinv & _).
  by apply checkForTaskActivation_releases.
Qed.

(** C9, as the code has it: with round robin compiled, on a tic where the
    round robin counter of the active task is decremented to zero and the
    due array of its class has more than one entry, the counter is reloaded
    from the time slice of the task, and the due array of the class is
    rolled by one: the other entries move down by one and the active task
    becomes the last.  The search for the active task that follows makes
    the first entry of the highest non-empty class the active task; this is
    the former second entry of the rolled class, unless the same tic has
    released a task of a higher class. *)
Theorem roundRobin_rotation (setup : list initArgs) (s : kernel) :
  config_ok cfg → setup_ok cfg setup → reachable cfg setup s →
  RTOS_ROUND_ROBIN_MODE_SUPPORTED cfg = true →
  let pA := _pActiveTask s in
  let c := prioClass (task s pA) in
  cntRoundRobin (task s pA) = 1%Z →
  1 < _noDueTasksAry s !!! c →
  ∃ second rest,
    dueList s c = pA :: second :: rest
    ∧ let s1 := fst (roundRobin cfg (clockTimers cfg s)) in
      let s' := fst (onTimerTic cfg s) in
      snd (roundRobin cfg (clockTimers cfg s)) = true
      ∧ cntRoundRobin (task s1 pA) = timeRoundRobin (task s pA)
      ∧ dueList s1 c = second :: rest ++ [pA]
      ∧ (∀ c', c' ≠ c → dueList s1 c' = dueList s c')
      ∧ highestDue cfg s' (_pActiveTask s')
      ∧ ((∀ t, t ∈ suspList s → c < prioClass (task s t) →
               releaseTest cfg (task (clockTimers cfg s) t) = false) →
         _pActiveTask s' = second ∧ snd (onTimerTic cfg s) = true).
Proof.
  intros Hcfg Hsetup Hr.
  pose proof (reachable_kernel_inv setup s Hcfg Hsetup Hr) as Hk.
  by apply roundRobin_rotation_spec.
Qed.

(** C10: in every reachable state, at both places where
    [checkForTaskActivation] is called (at the end of [setEvent] and at the
    end of [onTimerTic]) it returns true exactly if the active task after
    the call is another one than before, and false only with the active
    task unchanged; the interrupt routines switch the context on exactly
    this return value. *)
Theorem checkForTaskActivation_return (setup : list initArgs) (s : kernel) :
  config_ok cfg → setup_ok cfg setup → reachable cfg setup s →
  (∀ vec,
     let TM := Z.lor (RTOS_EVT_ABSOLUTE_TIMER cfg) (RTOS_EVT_DELAY_TIMER cfg) in
     let s1 := postEvents (u16 (Z.land vec (Z.lnot TM))) s in
     let '(s', b) := checkForTaskActivation cfg false s1 in
     setEvent cfg vec s = (s', b)
     ∧ (b = true ↔ _pActiveTask s' ≠ _pActiveTask s1)
     ∧ (b = false → _pActiveTask s' = _pActiveTask s1)
     ∧ rtos_setEvent cfg vec s
       = if b then fst (PUSH_RET_CODE_OF_CONTEXT_SWITCH s') else s')
  ∧ (let '(s1, hint) := roundRobin cfg (clockTimers cfg s) in
     let '(s', b) := checkForTaskActivation cfg hint s1 in
     onTimerTic cfg s = (s', b)
     ∧ (b = true ↔ _pActiveTask s' ≠ _pActiveTask s1)
     ∧ (b = false → _pActiveTask s' = _pActiveTask s1)
     ∧ ISR_SYSTEM_TIMER_TIC cfg s
       = if b then fst (PUSH_RET_CODE_OF_CONTEXT_SWITCH s') else s').
Proof.
  intros Hcfg Hsetup Hr.
  pose proof (reachable_kernel_inv setup s Hcfg Hsetup Hr) as Hk.
  split.
  - intros vec TM s1. pose proof (setEvent_inv vec s Hcfg Hk) as H.
    unfold rtos_setEvent. subst TM s1. cbv zeta in H.
    destruct (checkForTaskActivation cfg false _) as [s' b].
    destruct H as (H1 & _ & _ & H2 & H3). by rewrite H1.
  - pose proof (onTimerTic_inv s Hcfg Hk) as H. unfold ISR_SYSTEM_TIMER_TIC.
    destruct (roundRobin cfg (clockTimers cfg s)) as [s1 hint].
    destruct (checkForTaskActivation cfg hint s1) as [s' b].
    destruct H as (H1 & _ & _ & H2 & H3). by rewrite H1.
Qed.

End Facts.

(** * The example system *)

Lemma exConfig_ok : config_ok exConfig.
Proof. unfold config_ok. simpl. lia. Qed.

Lemma exSetup_ok : setup_ok exConfig exSetup.
Proof.
  split; [| split].
  - repeat constructor; simpl; lia.
  - intros t Ht. simpl in Ht.
    do 3 (destruct t as [| t]; [vm_compute; lia |]). lia.
  - intros c Hc. simpl in Hc.
    do 2 (destruct c as [| c]; [vm_compute; lia |]). lia.
Qed.

Lemma exTic1_reachable : reachable exConfig exSetup exTic1.
Proof. apply reachable_timerTic, reachable_init. Qed.

Lemma exTic2_reachable : reachable exConfig exSetup exTic2.
Proof. apply reachable_timerTic, exTic1_reachable. Qed.

Lemma exTic3_reachable : reachable exConfig exSetup exTic3.
Proof. apply reachable_timerTic, exTic2_reachable. Qed.

(** In all-mode the posted delay timer releases the task although event 0
    is missing. *)
Lemma releaseTest_iff_witness : releaseTest exConfig exTimedOut = true.
Proof.
  apply (proj2 (releaseTest_iff exConfig exTimedOut
                  ltac:(simpl; lia) ltac:(simpl; lia)) eq_refl 15%Z);
    reflexivity.
Defined.

(** Right after initialization the system time is 255.  Task 0 asks for a
    resume at its due time 0 plus 200: this is 55 tics in the past, the
    overrun is counted and the task becomes due at the next tic, time 0. *)
Lemma storeResumeCondition_absolute_witness :
  timeDueAt (task (storeResumeCondition exConfig 0 16384 false 200 exInit) 0) = 0%Z
  ∧ cntOverrun (task (storeResumeCondition exConfig 0 16384 false 200 exInit) 0) = 1%Z.
Proof.
  assert (Hw : (0 < TIME_BITS exConfig)%Z) by (simpl; lia).
  assert (Hlt : 0 < length (_taskAry exInit)) by (vm_compute; lia).
  assert (Hmask : Z.land 16384 (RTOS_EVT_ABSOLUTE_TIMER exConfig) ≠ 0%Z) by (by vm_compute).
  assert (Hd : signedTime exConfig (-55)
                 ((timeDueAt (task exInit 0) + 200) mod 2 ^ TIME_BITS exConfig
                  - _time exInit)).
  { split; vm_compute; [split; congruence | reflexivity]. }
  destruct (storeResumeCondition_absolute exConfig exInit 0 16384 false 200 (-55)
              Hw Hlt Hmask Hd) as (_ & Hover & _).
  apply Hover. lia.
Defined.

(** A delay of zero tics loads the delay counter with one. *)
Lemma storeResumeCondition_delay_witness :
  cntDelay (task (storeResumeCondition exConfig 0 32768 false 0 exTic1) 0) = 1%Z.
Proof.
  assert (Hw : (0 < TIME_BITS exConfig)%Z) by (simpl; lia).
  assert (Hlt : 0 < length (_taskAry exTic1)) by (vm_compute; lia).
  assert (Hmask : Z.land 32768 (RTOS_EVT_ABSOLUTE_TIMER exConfig) = 0%Z) by (by vm_compute).
  assert (Hto : (0 ≤ 0 < 2 ^ TIME_BITS exConfig)%Z) by (simpl; lia).
  destruct (storeResumeCondition_delay exConfig exTic1 0 32768 false 0
              Hw Hlt Hmask Hto) as (_ & _ & Hzero & _).
  by apply Hzero.
Defined.

(** Posting the absolute-timer event together with event 0 after
    initialization: bit 14 is dropped from the vector. *)
Lemma setEvent_posting_witness :
  Z.testbit (u16 (Z.land 16385 (Z.lnot (Z.lor 16384 32768)))) 14 = false.
Proof.
  assert (Hn : _noSuspendedTasks exInit ≤ length (_pSuspendedTaskAry exInit))
    by (vm_compute; lia).
  destruct (setEvent_posting exConfig exInit 16385 Hn) as (_ & Hclear & _).
  by apply (Hclear 14%Z).
Defined.

(** After the first tic task 0 is active.  When it suspends itself, task 1
    of the same class takes over. *)
Lemma waitForEvent_suspends_witness :
  _pActiveTask (waitForEvent exConfig 32768 false 5 exTic1) ≠ _pActiveTask exTic1.
Proof.
  assert (Hidle : _pActiveTask exTic1 ≠ _pIdleTask exConfig) by (by vm_compute).
  destruct (waitForEvent_suspends exConfig exSetup exTic1 32768 false 5
              exConfig_ok exSetup_ok exTic1_reachable Hidle)
    as (_ & _ & _ & _ & _ & _ & _ & Hne).
  exact Hne.
Defined.

(** After the third tic tasks 1 and 0 are due in class 0 and task 2 is due
    in class 1: the active task is not task 0. *)
Lemma priority_respected_witness : _pActiveTask exTic3 ≠ 0.
Proof.
  assert (Hall : allDue exConfig exTic3 = [1; 0; 2]) by (by vm_compute).
  assert (HH : 2 ∈ allDue exConfig exTic3) by (rewrite Hall, !elem_of_cons; auto).
  assert (HL : 0 ∈ allDue exConfig exTic3) by (rewrite Hall, !elem_of_cons; auto).
  assert (Hlt : prioClass (task exTic3 0) < prioClass (task exTic3 2))
    by (vm_compute; lia).
  destruct (priority_respected exConfig exSetup exTic3 2 0
              exConfig_ok exSetup_ok exTic3_reachable HH HL Hlt) as (Hne & _).
  exact Hne.
Defined.

(** The first tic releases tasks 0 and 1; task 2, left in the suspended
    array, does not pass the release test. *)
Lemma checkForTaskActivation_releases_all_witness :
  releaseTest exConfig
    (task (fst (checkForTaskActivation exConfig (snd exCall1) (fst exCall1))) 2)
  = false.
Proof.
  destruct (checkForTaskActivation_releases_all exConfig exSetup
              (snd exCall1) (fst exCall1) exConfig_ok exSetup_ok
              (checkCall_onTimerTic exConfig exSetup exInit
                 (reachable_init exConfig exSetup)))
    as (_ & Hnone & _).
  apply Hnone.
  assert (Hs : suspList (fst (checkForTaskActivation exConfig (snd exCall1) (fst exCall1)))
               = [2]) by (vm_compute; reflexivity).
  rewrite Hs. left.
Defined.

(** In the third tic the time slice of task 0 ends, with task 1 due in the
    same class: the class is rolled. *)
Lemma roundRobin_rotation_witness :
  dueList (fst exCall3) 0 = [1; 0].
Proof.
  assert (Hrr : RTOS_ROUND_ROBIN_MODE_SUPPORTED exConfig = true) by reflexivity.
  assert (Hcnt : cntRoundRobin (task exTic2 (_pActiveTask exTic2)) = 1%Z)
    by (by vm_compute).
  assert (Hn : 1 < _noDueTasksAry exTic2
                     !!! prioClass (task exTic2 (_pActiveTask exTic2)))
    by (vm_compute; lia).
  destruct (roundRobin_rotation exConfig exSetup exTic2
              exConfig_ok exSetup_ok exTic2_reachable Hrr Hcnt Hn)
    as (second & rest & Hdue & _ & _ & Hroll & _).
  assert (Hc : prioClass (task exTic2 (_pActiveTask exTic2)) = 0) by (by vm_compute).
  assert (Hd0 : dueList exTic2 0 = [0; 1]) by (by vm_compute).
  rewrite Hc in Hdue, Hroll. rewrite Hd0 in Hdue.
  assert (Hsecond : second = 1) by congruence.
  assert (Hrest : rest = []) by congruence.
  rewrite Hsecond, Hrest in Hroll. exact Hroll.
Defined.

(** The third tic changes the active task, and [checkForTaskActivation]
    says so. *)
Lemma checkForTaskActivation_return_witness :
  snd (checkForTaskActivation exConfig (snd exCall3) (fst exCall3)) = true
  ↔ _pActiveTask (fst (checkForTaskActivation exConfig (snd exCall3) (fst exCall3)))
    ≠ _pActiveTask (fst exCall3).
Proof.
  destruct (checkForTaskActivation_return exConfig exSetup exTic2
              exConfig_ok exSetup_ok exTic2_reachable) as [_ Htic].
  unfold exCall3.
  destruct (roundRobin exConfig (clockTimers exConfig exTic2)) as [s1 hint].
  cbn [fst snd].
  destruct (checkForTaskActivation exConfig hint s1) as [s' b].
  destruct Htic as (_ & Hb & _). exact Hb.
Defined.

(** After the first tic the active task 0 is neither idle nor suspended,
    and it is the first entry of the due array of class 0. *)
Lemma active_task_placement_witness :
  (_pActiveTask exTic1 ∉ suspList exTic1)
  ∧ head (dueList exTic1 (prioClass (task exTic1 (_pActiveTask exTic1))))
    = Some (_pActiveTask exTic1).
Proof.
  assert (Hidle : _pActiveTask exTic1 ≠ _pIdleTask exConfig) by (by vm_compute).
  destruct (active_task_placement exConfig exSetup exTic1
              exConfig_ok exSetup_ok exTic1_reachable)
    as (_ & Hsusp & _ & _ & _ & Hhead).
  split; [exact Hsusp |]. by destruct (Hhead Hidle) as [_ Hh].
Defined.

(** * What the code does differently *)

(** C2 as stated fails: after the first tic the active task 0 is stored in
    the due array of class 0. *)
Lemma active_task_placement_counterexample :
  reachable exConfig exSetup exTic1 ∧ ¬ activeStoredNowhere exConfig exTic1.
Proof.
  split; [exact exTic1_reachable |].
  intros [Hdue _]. apply (Hdue 0); [vm_compute; lia |].
  assert (Hd : dueList exTic1 0 = [0; 1]) by (by vm_compute).
  assert (Ha : _pActiveTask exTic1 = 0) by (by vm_compute).
  rewrite Hd, Ha. left.
Qed.

(** C9 as stated fails: in the third tic the time slice of the active task
    0 ends with the due array of its class being [0; 1], but the same tic
    releases task 2 of the higher class, so that task 2 and not task 1, the
    former second entry, becomes the active task. *)
Lemma roundRobin_rotation_counterexample :
  reachable exConfig exSetup exTic2
  ∧ RTOS_ROUND_ROBIN_MODE_SUPPORTED exConfig = true
  ∧ _pActiveTask exTic2 = 0
  ∧ cntRoundRobin (task exTic2 0) = 1%Z
  ∧ dueList exTic2 (prioClass (task exTic2 0)) = [0; 1]
  ∧ _pActiveTask (fst (onTimerTic exConfig exTic2)) = 2
  ∧ _pActiveTask (fst (onTimerTic exConfig exTic2)) ≠ 1.
Proof.
  split; [exact exTic2_reachable |].
  split_and!; try (by vm_compute).
Qed.

(** * Further properties of the kernel *)

(** ** Sixteen bit vectors *)

Lemma u16_range_bits (x : Z) :
  (0 ≤ x < 65536)%Z ↔ (0 ≤ x)%Z ∧ ∀ i, (16 ≤ i)%Z → Z.testbit x i = false.
Proof.
  change 65536%Z with (2 ^ 16)%Z. split.
  - intros Hx. split; [lia |]. intros i Hi.
    rewrite <- (Z.mod_small x (2 ^ 16)) by done. apply Z.mod_pow2_bits_high. lia.
  - intros [H0 Hb]. split; [done |].
    assert (Hx : x = (x mod 2 ^ 16)%Z).
    { apply Z.bits_inj'. intros i Hi. destruct (Z.lt_ge_cases i 16).
      - by rewrite Z.mod_pow2_bits_low.
      - rewrite Z.mod_pow2_bits_high by lia. by apply Hb. }
    rewrite Hx. apply Z.mod_pos_bound. lia.
Qed.

Lemma lor_land_u16_range (p x m : Z) :
  (0 ≤ p < 65536)%Z → (0 ≤ m < 65536)%Z → (0 ≤ Z.lor p (Z.land x m) < 65536)%Z.
Proof.
  intros Hp Hm. apply u16_range_bits.
  apply u16_range_bits in Hp as [Hp0 Hpb]. apply u16_range_bits in Hm as [Hm0 Hmb].
  split.
  - apply Z.lor_nonneg. split; [done |]. apply Z.land_nonneg. by right.
  - intros i Hi. rewrite Z.lor_spec, Z.land_spec, Hpb, Hmb by done.
    by rewrite andb_false_r.
Qed.

(** ** Updates of one task object *)

Lemma task_out_of_range (s : kernel) (t : nat) :
  length (_taskAry s) ≤ t → task s t = zeroTask.
Proof.
  intros Hge. unfold task. rewrite list_lookup_total_alt.
  by rewrite lookup_ge_None_2.
Qed.

Lemma task_updTask (s : kernel) (p t : nat) (f : task_t → task_t) :
  task (updTask p f s) t
  = if decide (p = t ∧ t < length (_taskAry s)) then f (task s t) else task s t.
Proof.
  case_decide as Hd.
  - destruct Hd as [-> Hlt]. by apply task_updTask_eq.
  - destruct (decide (p = t)) as [-> | Hne]; [| by apply task_updTask_ne].
    assert (Hge : length (_taskAry s) ≤ t) by lia.
    rewrite (task_out_of_range s t Hge). apply task_out_of_range.
    by rewrite length_updTask.
Qed.

Lemma task_updTask_preserved {X : Type} (g : task_t → X) (s : kernel) (p t : nat)
    (f : task_t → task_t) :
  (∀ x, g (f x) = g x) → g (task (updTask p f s) t) = g (task s t).
Proof. intros Hg. rewrite task_updTask. by case_decide. Qed.


Section Coverage.

Variable cfg : config.

(** ** The value ranges are kept *)

Lemma kernel_in_range_ext (s s' : kernel) :
  _time s' = _time s → _taskAry s' = _taskAry s →
  kernel_in_range cfg s → kernel_in_range cfg s'.
Proof.
  intros Ht Hta [H1 H2]. split; [by rewrite Ht |].
  intros t. unfold task. rewrite Hta. apply H2.
Qed.

Lemma kernel_in_range_updTask (s : kernel) (p : nat) (f : task_t → task_t) :
  kernel_in_range cfg s → task_in_range cfg (f (task s p)) →
  kernel_in_range cfg (updTask p f s).
Proof.
  intros [H1 H2] Hf. split; [done |].
  intros t. rewrite task_updTask. case_decide as Hd; [| done].
  by destruct Hd as [<- _].
Qed.

Lemma zeroTask_in_range : (0 < TIME_BITS cfg)%Z → task_in_range cfg zeroTask.
Proof.
  intros Hw. assert (0 < 2 ^ TIME_BITS cfg)%Z by (apply Z.pow_pos_nonneg; lia).
  constructor; simpl; lia.
Qed.

Lemma uintTime_range (z : Z) :
  (0 < TIME_BITS cfg)%Z → (0 ≤ uintTime cfg z < 2 ^ TIME_BITS cfg)%Z.
Proof.
  intros Hw. unfold uintTime. apply Z.mod_pos_bound. apply Z.pow_pos_nonneg; lia.
Qed.

Ltac range_fields Ht :=
  destruct Ht; constructor; simpl; try done; try lia.

Lemma serveTimers_range (time : Z) (t : task_t) :
  (0 < TIME_BITS cfg)%Z → task_in_range cfg t → task_in_range cfg (serveTimers cfg time t).
Proof.
  intros Hw Ht. unfold serveTimers.
  set (t1 := if (time =? timeDueAt t)%Z then _ else t).
  assert (Ht1 : task_in_range cfg t1).
  { unfold t1. destruct (time =? timeDueAt t)%Z; [| done].
    pose proof (lor_land_u16_range (postedEventVec t) (RTOS_EVT_ABSOLUTE_TIMER cfg)
                  (eventMask t) (rng_postedEventVec _ _ Ht) (rng_eventMask _ _ Ht)).
    range_fields Ht. }
  cbv zeta. destruct (0 <? cntDelay t1)%Z; [| done].
  pose proof (uintTime_range (cntDelay t1 - 1) Hw).
  pose proof (lor_land_u16_range (postedEventVec t1) (RTOS_EVT_DELAY_TIMER cfg)
                (eventMask t1) (rng_postedEventVec _ _ Ht1) (rng_eventMask _ _ Ht1)).
  destruct (_ =? 0)%Z; range_fields Ht1.
Qed.

Lemma forSuspendedTasks_range (body : kernel → task_t → task_t) (s : kernel) :
  (∀ x t, task_in_range cfg t → task_in_range cfg (body x t)) →
  kernel_in_range cfg s → kernel_in_range cfg (forSuspendedTasks body s).
Proof.
  intros Hbody Hs. unfold forSuspendedTasks.
  pose proof (for_loop_ind (λ _ x, kernel_in_range cfg x)
    (λ idxSuspTask s, updTask (_pSuspendedTaskAry s !!! idxSuspTask) (body s) s)
    0 (_noSuspendedTasks s) s ltac:(lia)) as Hind.
  apply Hind; [done |].
  intros i x _ Hx. apply kernel_in_range_updTask; [done |].
  apply Hbody. apply Hx.
Qed.

Lemma clockTimers_range (s : kernel) :
  (0 < TIME_BITS cfg)%Z → kernel_in_range cfg s → kernel_in_range cfg (clockTimers cfg s).
Proof.
  intros Hw Hs. unfold clockTimers. apply forSuspendedTasks_range.
  - intros x t. by apply serveTimers_range.
  - split; [apply uintTime_range; done | apply Hs].
Qed.

Lemma postEvents_range (vec : Z) (s : kernel) :
  kernel_in_range cfg s → kernel_in_range cfg (postEvents vec s).
Proof.
  intros Hs. unfold postEvents. apply forSuspendedTasks_range; [| done].
  intros _ t Ht.
  pose proof (lor_land_u16_range (postedEventVec t) vec
                (eventMask t) (rng_postedEventVec _ _ Ht) (rng_eventMask _ _ Ht)).
  range_fields Ht.
Qed.

Lemma roundRobin_range (s : kernel) :
  (0 < TIME_BITS cfg)%Z → kernel_in_range cfg s →
  kernel_in_range cfg (fst (roundRobin cfg s)).
Proof.
  intros Hw Hs. unfold roundRobin.
  destruct (RTOS_ROUND_ROBIN_MODE_SUPPORTED cfg); [| done].
  destruct (0 <? cntRoundRobin (task s (_pActiveTask s)))%Z; [| done].
  set (s1 := updTask _ _ s).
  assert (Hs1 : kernel_in_range cfg s1).
  { apply kernel_in_range_updTask; [done |].
    pose proof (proj2 Hs (_pActiveTask s)) as Ht.
    pose proof (uintTime_range (cntRoundRobin (task s (_pActiveTask s)) - 1) Hw).
    range_fields Ht. }
  cbv zeta. destruct (_ =? 0)%Z; [| done].
  set (s2 := updTask _ _ s1).
  assert (Hs2 : kernel_in_range cfg s2).
  { apply kernel_in_range_updTask; [done |].
    pose proof (proj2 Hs1 (_pActiveTask s)) as Ht. range_fields Ht. }
  destruct (1 <? _)%nat; [| done].
  simpl. by apply (kernel_in_range_ext s2).
Qed.

Lemma madeDue_range (t : task_t) :
  task_in_range cfg t → task_in_range cfg (madeDue cfg t).
Proof.
  intros Ht. unfold madeDue.
  destruct (RTOS_ROUND_ROBIN_MODE_SUPPORTED cfg); range_fields Ht.
Qed.

Lemma releaseTask_range (idx : nat) (s : kernel) :
  kernel_in_range cfg s → kernel_in_range cfg (releaseTask cfg idx s).
Proof.
  intros Hs. rewrite releaseTask_eq.
  pose proof (kernel_in_range_updTask s (_pSuspendedTaskAry s !!! idx) (madeDue cfg) Hs)
    as Hu.
  eapply kernel_in_range_ext; [| | apply Hu]; [done | done |].
  apply madeDue_range, Hs.
Qed.

Lemma scanSuspended_range (rounds idx : nat) (b : bool) (s : kernel) :
  kernel_in_range cfg s →
  kernel_in_range cfg (snd (scanSuspended cfg rounds idx b s)).
Proof.
  revert idx b s. induction rounds as [| rounds IH]; intros idx b s Hs; simpl; [done |].
  destruct (idx <? _noSuspendedTasks s); [| done].
  destruct (releaseTest cfg _).
  - apply IH. by apply releaseTask_range.
  - by apply IH.
Qed.

Lemma checkForTaskActivation_range (hint : bool) (s : kernel) :
  kernel_in_range cfg s →
  kernel_in_range cfg (fst (checkForTaskActivation cfg hint s)).
Proof.
  intros Hs. unfold checkForTaskActivation.
  pose proof (scanSuspended_range (_noSuspendedTasks s) 0 hint s Hs) as Hscan.
  destruct (scanSuspended cfg _ 0 hint s) as [[i b] s1]. simpl in Hscan.
  destruct b; [| done].
  destruct (findDueClass _ _); [| done].
  simpl. by apply (kernel_in_range_ext s1).
Qed.

Lemma storeResumeCondition_range (pT : nat) (mask : Z) (all : bool) (timeout : Z)
    (s : kernel) :
  (0 < TIME_BITS cfg)%Z →
  (0 ≤ mask < 65536)%Z → (0 ≤ timeout < 2 ^ TIME_BITS cfg)%Z →
  kernel_in_range cfg s →
  kernel_in_range cfg (storeResumeCondition cfg pT mask all timeout s).
Proof.
  intros Hw Hmask Hto Hs. unfold storeResumeCondition.
  set (s1 := if negb _ then _ else _).
  assert (Hs1 : kernel_in_range cfg s1).
  { unfold s1. destruct (negb _).
    - set (s2 := updTask pT _ s).
      assert (Hs2 : kernel_in_range cfg s2).
      { apply kernel_in_range_updTask; [done |].
        pose proof (proj2 Hs pT) as Ht.
        pose proof (uintTime_range (timeDueAt (task s pT) + timeout) Hw).
        range_fields Ht. }
      cbv zeta. destruct (_ <=? 0)%Z; [| done].
      set (s3 := if (_ <? 255)%Z then _ else s2).
      assert (Hs3 : kernel_in_range cfg s3).
      { unfold s3. destruct (Z.ltb_spec (cntOverrun (task s2 pT)) 255); [| done].
        apply kernel_in_range_updTask; [done |].
        pose proof (proj2 Hs2 pT) as Ht. range_fields Ht. }
      apply kernel_in_range_updTask; [done |].
      pose proof (proj2 Hs3 pT) as Ht.
      pose proof (uintTime_range (_time s3 + 1) Hw).
      range_fields Ht.
    - apply kernel_in_range_updTask; [done |].
      pose proof (proj2 Hs pT) as Ht.
      pose proof (uintTime_range (timeout + 1) Hw).
      destruct (negb _); range_fields Ht. }
  apply kernel_in_range_updTask.
  - apply kernel_in_range_updTask; [done |].
    pose proof (proj2 Hs1 pT) as Ht. range_fields Ht.
  - rewrite task_updTask. pose proof (proj2 Hs1 pT) as Ht.
    case_decide; range_fields Ht.
Qed.

Lemma waitForEvent_range (mask : Z) (all : bool) (timeout : Z) (s : kernel) :
  (0 < TIME_BITS cfg)%Z →
  (0 ≤ mask < 65536)%Z → (0 ≤ timeout < 2 ^ TIME_BITS cfg)%Z →
  kernel_in_range cfg s →
  kernel_in_range cfg (waitForEvent cfg mask all timeout s).
Proof.
  intros Hw Hmask Hto Hs. unfold waitForEvent. cbv zeta.
  set (s0 := set_pDueTaskAryAry _ _).
  assert (Hs0 : kernel_in_range cfg s0) by (by apply (kernel_in_range_ext s)).
  pose proof (storeResumeCondition_range (_pActiveTask s) mask all timeout s0
                Hw Hmask Hto Hs0) as Hs1.
  destruct (findDueClass _ _);
    (eapply kernel_in_range_ext; [| | exact Hs1]; done).
Qed.

Lemma PUSH_RET_CODE_OF_CONTEXT_SWITCH_range (s : kernel) :
  kernel_in_range cfg s →
  kernel_in_range cfg (fst (PUSH_RET_CODE_OF_CONTEXT_SWITCH s)).
Proof.
  intros Hs. unfold PUSH_RET_CODE_OF_CONTEXT_SWITCH.
  destruct (0 <? _)%Z; [| done]. simpl.
  apply kernel_in_range_updTask; [done |].
  pose proof (proj2 Hs (_pActiveTask s)) as Ht. range_fields Ht.
Qed.

Lemma enter_range (e : entry) (s : kernel) :
  (0 < TIME_BITS cfg)%Z → permitted cfg e s →
  kernel_in_range cfg s → kernel_in_range cfg (enter cfg e s).
Proof.
  intros Hw Hp Hs. destruct e as [| vec | mask all timeout | idx doReset]; simpl.
  - unfold ISR_SYSTEM_TIMER_TIC, onTimerTic.
    pose proof (roundRobin_range _ Hw (clockTimers_range s Hw Hs)) as H1.
    destruct (roundRobin cfg (clockTimers cfg s)) as [s1 hint]. simpl in H1.
    pose proof (checkForTaskActivation_range hint s1 H1) as H2.
    destruct (checkForTaskActivation cfg hint s1) as [s2 b]. simpl in H2.
    destruct b; [by apply PUSH_RET_CODE_OF_CONTEXT_SWITCH_range | done].
  - unfold rtos_setEvent, setEvent.
    pose proof (checkForTaskActivation_range false _
                  (postEvents_range
                     (u16 (Z.land vec (Z.lnot (Z.lor (RTOS_EVT_ABSOLUTE_TIMER cfg)
                                                 (RTOS_EVT_DELAY_TIMER cfg))))) s Hs)) as H2.
    destruct (checkForTaskActivation cfg false _) as [s2 b]. simpl in H2.
    destruct b; [by apply PUSH_RET_CODE_OF_CONTEXT_SWITCH_range | done].
  - destruct Hp as (_ & Hmask & Hto). unfold rtos_waitForEvent.
    apply PUSH_RET_CODE_OF_CONTEXT_SWITCH_range. by apply waitForEvent_range.
  - unfold rtos_getTaskOverrunCounter. destruct doReset; [| done]. simpl.
    apply kernel_in_range_updTask; [done |].
    pose proof (proj2 Hs idx) as Ht. range_fields Ht.
Qed.

(** ** Initialization *)

Lemma kernel_in_range_updTask_all (s : kernel) (p : nat) (f : task_t → task_t) :
  (∀ t, task_in_range cfg t → task_in_range cfg (f t)) →
  kernel_in_range cfg s → kernel_in_range cfg (updTask p f s).
Proof. intros Hf Hs. apply kernel_in_range_updTask; [done |]. apply Hf, Hs. Qed.

Lemma task_staticData (t : nat) : task (staticData cfg) t = zeroTask.
Proof.
  unfold task, staticData. simpl. rewrite list_lookup_total_alt.
  destruct (replicate _ zeroTask !! t) as [x |] eqn:Hx; simpl; [| done].
  by apply lookup_replicate in Hx as [-> _].
Qed.

Lemma staticData_range : (0 < TIME_BITS cfg)%Z → kernel_in_range cfg (staticData cfg).
Proof.
  intros Hw. split.
  - simpl. by apply uintTime_range.
  - intros t. rewrite task_staticData. by apply zeroTask_in_range.
Qed.

Lemma rtos_initializeTask_range (a : initArgs) (s : kernel) :
  (0 < TIME_BITS cfg)%Z → initArgs_ok cfg a →
  kernel_in_range cfg s → kernel_in_range cfg (rtos_initializeTask cfg a s).
Proof.
  intros Hw (_ & Hprio & Hrr & Hmask & Hto) Hs. unfold rtos_initializeTask. cbv zeta.
  set (s3 := updTask _ (set_timeDueAt 0) _).
  assert (Hs3 : kernel_in_range cfg s3).
  { pose proof (uintTime_range 0 Hw).
    unfold s3. repeat (apply kernel_in_range_updTask_all;
                       [intros t Ht; range_fields Ht |]). done. }
  pose proof (storeResumeCondition_range (ia_idxTask a) (ia_startEventMask a)
                (ia_startByAllEvents a) (ia_startTimeout a) s3 Hw Hmask Hto Hs3) as Hs4.
  destruct (RTOS_ROUND_ROBIN_MODE_SUPPORTED cfg); [| done].
  apply kernel_in_range_updTask_all; [| done]. intros t Ht. range_fields Ht.
Qed.

Lemma setup_range (setup : list initArgs) (s : kernel) :
  (0 < TIME_BITS cfg)%Z → Forall (initArgs_ok cfg) setup →
  kernel_in_range cfg s →
  kernel_in_range cfg (foldl (λ s a, rtos_initializeTask cfg a s) s setup).
Proof.
  intros Hw Hall. revert s. induction Hall as [| a setup Ha Hall IH]; intros s Hs; simpl.
  - done.
  - apply IH. by apply rtos_initializeTask_range.
Qed.

(** The task objects after [rtos_initRTOS], from the task objects the
    application's setup has left. *)
Lemma rtos_initRTOS_task (setup : list initArgs) (t : nat) :
  let rr := RTOS_ROUND_ROBIN_MODE_SUPPORTED cfg in
  let s0 := foldl (λ s a, rtos_initializeTask cfg a s) (staticData cfg) setup in
  let clear x :=
    set_cntOverrun 0
      (set_postedEventVec 0 (if rr then set_cntRoundRobin 0 x else x)) in
  let idle x :=
    set_cntOverrun 0
      (set_waitForAnyEvent true
         (set_eventMask 0
            (set_postedEventVec 0
               ((if rr then set_cntRoundRobin 0 else id)
                  (set_cntDelay 0 (set_timeDueAt 0 x)))))) in
  task (rtos_initRTOS cfg setup) t
  = if decide (t < RTOS_NO_TASKS cfg) then clear (task s0 t)
    else if decide (t = RTOS_NO_TASKS cfg) then idle (task s0 t)
    else task s0 t.
Proof.
  intros rr s0 clear idle. unfold rtos_initRTOS. fold s0.
  destruct (setup_frame cfg setup (staticData cfg)) as [_ Hl0]. fold s0 in Hl0.
  simpl in Hl0. rewrite length_replicate in Hl0.
  set (body := λ (idxTask : nat) (s : kernel),
         let s := if RTOS_ROUND_ROBIN_MODE_SUPPORTED cfg
                  then updTask idxTask (set_cntRoundRobin 0) s else s in
         let s := updTask idxTask (set_postedEventVec 0) s in
         let s := updTask idxTask (set_cntOverrun 0) s in
         set_pSuspendedTaskAry (<[idxTask := idxTask]> (_pSuspendedTaskAry s)) s).
  pose proof (for_loop_ind (λ i x,
      length (_taskAry x) = RTOS_NO_TASKS cfg + 1
      ∧ ∀ u, task x u = if decide (u < i) then clear (task s0 u) else task s0 u)
      body 0 (RTOS_NO_TASKS cfg) s0 ltac:(lia)) as Hind.
  cbv beta in Hind. destruct Hind as [Hl1 Ht1].
  { split; [done |]. intros u. case_decide; [lia | done]. }
  { intros i x Hi [Hl Hx]. unfold body, clear, rr.
    destruct (RTOS_ROUND_ROBIN_MODE_SUPPORTED cfg).
    - split; [simpl; by rewrite !length_alter |].
      intros u. change (task (set_pSuspendedTaskAry ?v ?y) u) with (task y u).
      rewrite !task_updTask, !length_updTask, Hl, !Hx.
      repeat case_decide; try lia; try done; naive_solver lia.
    - split; [simpl; by rewrite !length_alter |].
      intros u. change (task (set_pSuspendedTaskAry ?v ?y) u) with (task y u).
      rewrite !task_updTask, !length_updTask, Hl, !Hx.
      repeat case_decide; try lia; try done; naive_solver lia. }
  set (s1 := for_loop 0 (RTOS_NO_TASKS cfg) body s0) in *.
  set (s2 := updTask _ (set_cntOverrun 0) _).
  assert (Ht2 : task s2 t
                = if decide (t = RTOS_NO_TASKS cfg) then idle (task s1 t) else task s1 t).
  { unfold s2, idle, rr, _pIdleTask, IDLE_TASK_ID.
    destruct (RTOS_ROUND_ROBIN_MODE_SUPPORTED cfg).
    - rewrite !task_updTask, !length_updTask.
      change (task (set_noSuspendedTasks ?v ?y) t) with (task y t).
      change (_taskAry (set_noSuspendedTasks ?v ?y)) with (_taskAry y).
      rewrite Hl1. repeat case_decide; try lia; try done; naive_solver lia.
    - rewrite !task_updTask, !length_updTask.
      change (task (set_noSuspendedTasks ?v ?y) t) with (task y t).
      change (_taskAry (set_noSuspendedTasks ?v ?y)) with (_taskAry y).
      rewrite Hl1. repeat case_decide; try lia; try done; naive_solver lia. }
  pose proof (for_loop_ind (λ (i : nat) x, _taskAry x = _taskAry s2)
      (λ idxClass s, set_noDueTasksAry (<[idxClass := 0]> (_noDueTasksAry s)) s)
      0 (RTOS_NO_PRIO_CLASSES cfg) s2 ltac:(lia)) as Hind.
  simpl in Hind.
  assert (Hta : _taskAry (for_loop 0 (RTOS_NO_PRIO_CLASSES cfg)
                   (λ idxClass s, set_noDueTasksAry (<[idxClass := 0]> (_noDueTasksAry s)) s)
                   s2) = _taskAry s2) by (apply Hind; done).
  unfold task at 1. simpl. rewrite Hta. fold (task s2 t).
  rewrite Ht2, Ht1. repeat case_decide; try lia; done.
Qed.

Lemma rtos_initializeTask_other (a : initArgs) (s : kernel) (t : nat) :
  t ≠ ia_idxTask a → task (rtos_initializeTask cfg a s) t = task s t.
Proof.
  intros Hne. assert (Hne' : ia_idxTask a ≠ t) by congruence.
  unfold rtos_initializeTask. cbv zeta.
  set (s3 := updTask _ (set_timeDueAt 0) _).
  assert (H3 : task s3 t = task s t).
  { unfold s3. by rewrite !task_updTask_ne. }
  destruct (storeResumeCondition_frame cfg (ia_idxTask a) (ia_startEventMask a)
              (ia_startByAllEvents a) (ia_startTimeout a) s3) as (_ & _ & H4).
  destruct (RTOS_ROUND_ROBIN_MODE_SUPPORTED cfg).
  - rewrite task_updTask_ne by done. rewrite H4; done.
  - rewrite H4; done.
Qed.

Lemma setup_other (setup : list initArgs) (s : kernel) (t : nat) :
  t ∉ ia_idxTask <$> setup →
  task (foldl (λ s a, rtos_initializeTask cfg a s) s setup) t = task s t.
Proof.
  revert s. induction setup as [| a setup IH]; intros s Hnot; simpl; [done |].
  rewrite fmap_cons in Hnot. apply not_elem_of_cons in Hnot as [Hne Hnot].
  rewrite IH by done. by apply rtos_initializeTask_other.
Qed.

(** The task object [storeResumeCondition] leaves, when the mask is without
    the absolute-timer event. *)
Lemma storeResumeCondition_task_delay (s : kernel) (pT : nat) (mask : Z) (all : bool)
    (timeout : Z) :
  pT < length (_taskAry s) →
  Z.land mask (RTOS_EVT_ABSOLUTE_TIMER cfg) = 0%Z →
  task (storeResumeCondition cfg pT mask all timeout s) pT
  = set_waitForAnyEvent (negb all)
      (set_eventMask mask
         (set_cntDelay (if negb (uintTime cfg (timeout + 1) =? 0)%Z
                        then uintTime cfg (timeout + 1) else timeout)
            (task s pT))).
Proof.
  intros Hlt Hmask. unfold storeResumeCondition.
  rewrite Hmask. simpl.
  rewrite !task_updTask_eq by (rewrite ?length_updTask; done). done.
Qed.

(** The mask and the mode [storeResumeCondition] stores, whatever the timer. *)
Lemma storeResumeCondition_task_mask (s : kernel) (pT : nat) (mask : Z) (all : bool)
    (timeout : Z) :
  pT < length (_taskAry s) →
  let t' := task (storeResumeCondition cfg pT mask all timeout s) pT in
  eventMask t' = mask ∧ waitForAnyEvent t' = negb all
  ∧ postedEventVec t' = postedEventVec (task s pT)
  ∧ prioClass t' = prioClass (task s pT)
  ∧ timeRoundRobin t' = timeRoundRobin (task s pT)
  ∧ cntRoundRobin t' = cntRoundRobin (task s pT).
Proof.
  intros Hlt t'. unfold t', storeResumeCondition.
  set (s1 := if negb _ then _ else _).
  assert (H1 : length (_taskAry s1) = length (_taskAry s)
               ∧ postedEventVec (task s1 pT) = postedEventVec (task s pT)
               ∧ prioClass (task s1 pT) = prioClass (task s pT)
               ∧ timeRoundRobin (task s1 pT) = timeRoundRobin (task s pT)
               ∧ cntRoundRobin (task s1 pT) = cntRoundRobin (task s pT)).
  { unfold s1. destruct (negb _); cbv zeta;
      [destruct (_ <=? 0)%Z; [destruct (_ <? 255)%Z |] |];
      rewrite ?length_updTask;
      rewrite ?(task_updTask_preserved postedEventVec) by done;
      rewrite ?(task_updTask_preserved prioClass) by done;
      rewrite ?(task_updTask_preserved timeRoundRobin) by done;
      rewrite ?(task_updTask_preserved cntRoundRobin) by done;
      done. }
  destruct H1 as (Hl & Hp & Hc & Hr & Hcr).
  rewrite !task_updTask_eq by (rewrite ?length_updTask; lia).
  simpl. by rewrite Hp, Hc, Hr, Hcr.
Qed.

Lemma rtos_initializeTask_stored (a : initArgs) (s : kernel) :
  ia_idxTask a < length (_taskAry s) →
  let t' := task (rtos_initializeTask cfg a s) (ia_idxTask a) in
  prioClass t' = ia_prioClass a
  ∧ eventMask t' = ia_startEventMask a
  ∧ waitForAnyEvent t' = negb (ia_startByAllEvents a)
  ∧ (RTOS_ROUND_ROBIN_MODE_SUPPORTED cfg = true → timeRoundRobin t' = ia_timeRoundRobin a)
  ∧ (Z.land (ia_startEventMask a) (RTOS_EVT_ABSOLUTE_TIMER cfg) = 0%Z →
     cntDelay t' = if negb (uintTime cfg (ia_startTimeout a + 1) =? 0)%Z
                   then uintTime cfg (ia_startTimeout a + 1) else ia_startTimeout a).
Proof.
  intros Hlt t'. unfold t', rtos_initializeTask. cbv zeta.
  set (s3 := updTask _ (set_timeDueAt 0) _).
  assert (Hl3 : length (_taskAry s3) = length (_taskAry s))
    by (unfold s3; by rewrite !length_updTask).
  assert (Hp3 : prioClass (task s3 (ia_idxTask a)) = ia_prioClass a).
  { unfold s3. rewrite !task_updTask_eq by (rewrite ?length_updTask; lia). done. }
  destruct (storeResumeCondition_task_mask s3 (ia_idxTask a) (ia_startEventMask a)
              (ia_startByAllEvents a) (ia_startTimeout a) ltac:(lia))
    as (Hm & Hw & _ & Hc & _).
  pose proof (storeResumeCondition_task_delay s3 (ia_idxTask a) (ia_startEventMask a)
                (ia_startByAllEvents a) (ia_startTimeout a) ltac:(lia)) as Hd.
  set (s4 := storeResumeCondition _ _ _ _ _ _) in *.
  assert (Hl4 : length (_taskAry s4) = length (_taskAry s)).
  { destruct (storeResumeCondition_frame cfg (ia_idxTask a) (ia_startEventMask a)
                (ia_startByAllEvents a) (ia_startTimeout a) s3) as (_ & Hpr & _).
    fold s4 in Hpr. apply (f_equal length) in Hpr. unfold prios in Hpr.
    rewrite !length_fmap in Hpr. lia. }
  destruct (RTOS_ROUND_ROBIN_MODE_SUPPORTED cfg).
  - rewrite task_updTask_eq by lia. simpl.
    split_and!; try done; try congruence.
    intros Hmask. by rewrite (Hd Hmask).
  - split_and!; try done; try congruence.
    intros Hmask. by rewrite (Hd Hmask).
Qed.

Lemma setup_stored (setup : list initArgs) (a : initArgs) (s : kernel) :
  a ∈ setup → NoDup (ia_idxTask <$> setup) →
  ∃ s1, length (_taskAry s1) = length (_taskAry s)
        ∧ task (foldl (λ s a, rtos_initializeTask cfg a s) s setup) (ia_idxTask a)
          = task (rtos_initializeTask cfg a s1) (ia_idxTask a).
Proof.
  revert s. induction setup as [| b setup IH]; intros s Hin Hnd.
  - by apply elem_of_nil in Hin.
  - rewrite fmap_cons in Hnd. apply NoDup_cons in Hnd as [Hnot Hnd].
    apply elem_of_cons in Hin as [-> | Hin].
    + exists s. split; [done |]. simpl. by apply setup_other.
    + destruct (IH (rtos_initializeTask cfg b s) Hin Hnd) as (s1 & Hl & Ht).
      exists s1. split; [| done].
      rewrite Hl. apply (rtos_initializeTask_frame cfg b s).
Qed.

Lemma rtos_initRTOS_time (setup : list initArgs) :
  _time (rtos_initRTOS cfg setup) = uintTime cfg (-1).
Proof.
  unfold rtos_initRTOS.
  destruct (setup_frame cfg setup (staticData cfg)) as [Hfr0 _].
  set (s0 := foldl _ _ _) in *.
  assert (H0 : _time s0 = uintTime cfg (-1)) by (by rewrite Hfr0).
  set (body := λ (idxTask : nat) (s : kernel),
         let s := if RTOS_ROUND_ROBIN_MODE_SUPPORTED cfg
                  then updTask idxTask (set_cntRoundRobin 0) s else s in
         let s := updTask idxTask (set_postedEventVec 0) s in
         let s := updTask idxTask (set_cntOverrun 0) s in
         set_pSuspendedTaskAry (<[idxTask := idxTask]> (_pSuspendedTaskAry s)) s).
  pose proof (for_loop_ind (λ (i : nat) x, _time x = uintTime cfg (-1))
      body 0 (RTOS_NO_TASKS cfg) s0 ltac:(lia)) as Hind.
  cbv beta in Hind.
  assert (H1 : _time (for_loop 0 (RTOS_NO_TASKS cfg) body s0) = uintTime cfg (-1)).
  { apply Hind; [done |]. intros i x _ Hx. unfold body.
    by destruct (RTOS_ROUND_ROBIN_MODE_SUPPORTED cfg). }
  set (s1 := for_loop 0 (RTOS_NO_TASKS cfg) body s0) in *.
  set (s2 := updTask _ (set_cntOverrun 0) _).
  assert (H2 : _time s2 = uintTime cfg (-1)).
  { unfold s2. by destruct (RTOS_ROUND_ROBIN_MODE_SUPPORTED cfg). }
  pose proof (for_loop_ind (λ (i : nat) x, _time x = uintTime cfg (-1))
      (λ idxClass s, set_noDueTasksAry (<[idxClass := 0]> (_noDueTasksAry s)) s)
      0 (RTOS_NO_PRIO_CLASSES cfg) s2 ltac:(lia)) as Hind2.
  cbv beta in Hind2. simpl. apply Hind2; [done |]. by intros i x _ Hx.
Qed.

Lemma rtos_initRTOS_range (setup : list initArgs) :
  (0 < TIME_BITS cfg)%Z → Forall (initArgs_ok cfg) setup →
  kernel_in_range cfg (rtos_initRTOS cfg setup).
Proof.
  intros Hw Hall. split.
  - rewrite rtos_initRTOS_time. by apply uintTime_range.
  - intros t. rewrite rtos_initRTOS_task.
    pose proof (setup_range setup (staticData cfg) Hw Hall (staticData_range Hw)) as [_ H0].
    specialize (H0 t). set (t0 := task _ t) in *.
    pose proof (uintTime_range 0 Hw).
    repeat case_decide; [| | done];
      destruct (RTOS_ROUND_ROBIN_MODE_SUPPORTED cfg); range_fields H0.
Qed.

(** ** Runs *)

Lemma enter_reachable (setup : list initArgs) (e : entry) (s : kernel) :
  reachable cfg setup s → permitted cfg e s → reachable cfg setup (enter cfg e s).
Proof.
  intros Hr Hp. destruct e as [| vec | mask all timeout | idx doReset]; simpl.
  - by apply reachable_timerTic.
  - by apply reachable_setEvent.
  - destruct Hp as (Hidle & Hmask & Hto). by apply reachable_waitForEvent.
  - by apply reachable_getTaskOverrunCounter.
Qed.

Lemma run_reachable (setup : list initArgs) (es : list entry) (s : kernel) :
  reachable cfg setup s → permittedRun cfg es s → reachable cfg setup (run cfg es s).
Proof.
  revert s. induction es as [| e es IH]; intros s Hr Hp; simpl; [done |].
  destruct Hp as [Hp Hps]. apply IH; [| done]. by apply enter_reachable.
Qed.

Lemma reachable_range (setup : list initArgs) (s : kernel) :
  (0 < TIME_BITS cfg)%Z → Forall (initArgs_ok cfg) setup →
  reachable cfg setup s → kernel_in_range cfg s.
Proof.
  intros Hw Hall Hr. induction Hr as
    [| s Hr IH | s vec Hr IH Hvec | s mask all timeout Hr IH Hidle Hmask Hto
     | s idxTask doReset Hr IH Hidx].
  - by apply rtos_initRTOS_range.
  - by apply (enter_range TimerTic).
  - by apply (enter_range (SetEvent vec)).
  - by apply (enter_range (WaitForEvent mask all timeout)).
  - by apply (enter_range (GetTaskOverrunCounter idxTask doReset)).
Qed.

(** ** The timer tic and the posting of events, step by step *)

Lemma NoDup_suspList (s : kernel) : arrays_inv cfg s → NoDup (suspList s).
Proof. intros Hinv. by apply inv_NoDup, NoDup_app in Hinv as (_ & _ & H). Qed.

Lemma clockTimers_spec (s : kernel) :
  arrays_inv cfg s →
  let s0 := clockTimers cfg s in
  s0 = set_taskAry (_taskAry s0) (set_time (uintTime cfg (_time s + 1)) s)
  ∧ prios s0 = prios s
  ∧ arrays_inv cfg s0
  ∧ (∀ t, t ∉ suspList s → task s0 t = task s t)
  ∧ (∀ t, t ∈ suspList s →
          task s0 t = serveTimers cfg (uintTime cfg (_time s + 1)) (task s t)).
Proof.
  intros Hinv s0.
  destruct (clockTimers_frame cfg s Hinv) as (Hfr & Hpr & Hinv0 & Hother).
  split_and!; try done.
  intros t Hin. unfold s0, clockTimers.
  pose proof (forSuspendedTasks_spec (λ s, serveTimers cfg (_time s))
                (set_time (uintTime cfg (_time s + 1)) s)) as Hspec.
  cbv zeta in Hspec. destruct Hspec as (_ & _ & Htask).
  - done.
  - simpl. rewrite (inv_len_susp _ _ Hinv). apply (inv_noSusp _ _ Hinv).
  - rewrite Htask.
    + change (suspList (set_time (uintTime cfg (_time s + 1)) s)) with (suspList s).
      rewrite occurrences_NoDup; [done | by apply NoDup_suspList | done].
    + simpl. rewrite (inv_len_tasks _ _ Hinv).
      pose proof (susp_lt cfg s t Hinv Hin). lia.
Qed.

Lemma dueList_set_taskAry (s : kernel) (ts : list task_t) (c : nat) :
  dueList (set_taskAry ts s) c = dueList s c.
Proof. done. Qed.

Lemma onTimerTic_spec (s : kernel) :
  config_ok cfg → kernel_inv cfg s →
  let s0 := clockTimers cfg s in
  let s1 := fst (roundRobin cfg s0) in
  let hint := snd (roundRobin cfg s0) in
  let rel t := releaseTest cfg (task s1 t) = true in
  let s2 := fst (onTimerTic cfg s) in
  let b := snd (onTimerTic cfg s) in
  onTimerTic cfg s = checkForTaskActivation cfg hint s1
  ∧ kernel_inv cfg s2
  ∧ arrays_inv cfg s1
  ∧ _time s2 = uintTime cfg (_time s + 1)
  ∧ prios s2 = prios s
  ∧ suspList s1 = suspList s
  ∧ _pActiveTask s1 = _pActiveTask s
  ∧ (∀ t, t ≠ _pActiveTask s → task s1 t = task s0 t)
  ∧ suspList s2 = filter (λ t, ¬ rel t) (suspList s)
  ∧ (∀ c, dueList s2 c
          = dueList s1 c ++ filter (λ t, rel t ∧ prios s !!! t = c) (suspList s))
  ∧ (∀ t, task s2 t
          = if decide (t ∈ filter rel (suspList s)) then madeDue cfg (task s1 t)
            else task s1 t)
  ∧ (b = true ↔ _pActiveTask s2 ≠ _pActiveTask s)
  ∧ (b = false → _pActiveTask s2 = _pActiveTask s)
  ∧ (hint = false → ∀ c, dueList s1 c = dueList s c)
  ∧ (hint = true →
     let c := prioClass (task s (_pActiveTask s)) in
     c < RTOS_NO_PRIO_CLASSES cfg
     ∧ (∃ tl, tl ≠ [] ∧ dueList s c = _pActiveTask s :: tl
              ∧ dueList s1 c = tl ++ [_pActiveTask s])
     ∧ ∀ c', c' ≠ c → dueList s1 c' = dueList s c').
Proof.
  intros Hcfg Hk s0 s1 hint rel s2 b. pose proof Hk as [Hinv Hact].
  destruct (clockTimers_spec s Hinv) as (Hfr0 & Hpr0 & Hinv0 & Hother0 & Hsusp0).
  fold s0 in Hfr0, Hpr0, Hinv0, Hother0, Hsusp0.
  assert (Hk0 : kernel_inv cfg s0).
  { apply (kernel_inv_ext cfg s); try done; by rewrite Hfr0. }
  assert (Hsl0 : suspList s0 = suspList s) by (by rewrite Hfr0).
  assert (Ha0 : _pActiveTask s0 = _pActiveTask s) by (by rewrite Hfr0).
  assert (Hd0 : ∀ c, dueList s0 c = dueList s c) by (intros c; by rewrite Hfr0).
  assert (Ht0 : _time s0 = uintTime cfg (_time s + 1)) by (by rewrite Hfr0).
  destruct (roundRobin_spec cfg s0 Hcfg Hk0)
    as (s1' & hint' & Hrr & Hinv1 & Hpr1 & Hsl1 & Hact1 & Htime1 & Htk1 & Hquiet & Hroll).
  assert (Hs1 : s1 = s1') by (unfold s1; by rewrite Hrr).
  assert (Hh : hint = hint') by (unfold hint; by rewrite Hrr).
  rewrite <- Hs1, <- Hh in *. clear Hs1 Hh s1' hint'.
  assert (Hon : onTimerTic cfg s = checkForTaskActivation cfg hint s1).
  { unfold onTimerTic. fold s0. by rewrite Hrr. }
  destruct (checkForTaskActivation_spec cfg hint s1 Hcfg Hinv1)
    as (s2' & b' & Hchk & _ & Hinv2 & Hpr2 & Htime2 & Hsl2 & Hdl2 & Htk2 & _).
  pose proof (checkForTaskActivation_inv cfg hint s1 Hcfg Hinv1) as Hci.
  rewrite Hchk in Hci.
  assert (Hs2 : s2 = s2') by (unfold s2; by rewrite Hon, Hchk).
  assert (Hb : b = b') by (unfold b; by rewrite Hon, Hchk).
  rewrite <- Hs2, <- Hb in *. clear Hs2 Hb s2' b'.
  destruct Hci as (Hk2 & _ & Hb1 & Hb2).
  { intros Hf. rewrite Hact1. destruct Hk0 as [_ ->].
    symmetry. apply selectActive_ext; [done | done |]. intros c _. by apply Hquiet. }
  { intros Ht. destruct (Hroll Ht) as (Hc & (tl & _ & _ & Hd) & _).
    eexists. split; [exact Hc |]. rewrite Hd. by destruct tl. }
  rewrite Hsl1, Hsl0 in Hsl2, Hdl2, Htk2. rewrite Hpr1, Hpr0 in Hdl2.
  split_and!; try done.
  - congruence.
  - congruence.
  - congruence.
  - congruence.
  - intros t Ht. apply Htk1. congruence.
  - by rewrite <- Ha0, <- Hact1.
  - intros Hf. rewrite (Hb2 Hf). congruence.
  - intros Hf c. rewrite (Hquiet Hf). apply Hd0.
  - intros Ht. destruct (Hroll Ht) as (Hc & (tl & Hne & Hd & Hd') & Hoth).
    rewrite Ha0 in Hc, Hd, Hd', Hoth.
    assert (Hta : task s0 (_pActiveTask s) = task s (_pActiveTask s)).
    { apply Hother0. by apply (active_not_suspended cfg). }
    rewrite Hta in Hc, Hd, Hd', Hoth. rewrite Hd0 in Hd.
    split_and!; [done | by exists tl |].
    intros c' Hc'. rewrite (Hoth c' Hc'). apply Hd0.
Qed.

Lemma ISR_SYSTEM_TIMER_TIC_eq (s : kernel) :
  ISR_SYSTEM_TIMER_TIC cfg s
  = if snd (onTimerTic cfg s)
    then fst (PUSH_RET_CODE_OF_CONTEXT_SWITCH (fst (onTimerTic cfg s)))
    else fst (onTimerTic cfg s).
Proof. unfold ISR_SYSTEM_TIMER_TIC. by destruct (onTimerTic cfg s). Qed.

Lemma rtos_setEvent_eq (vec : Z) (s : kernel) :
  rtos_setEvent cfg vec s
  = if snd (setEvent cfg vec s)
    then fst (PUSH_RET_CODE_OF_CONTEXT_SWITCH (fst (setEvent cfg vec s)))
    else fst (setEvent cfg vec s).
Proof. unfold rtos_setEvent. by destruct (setEvent cfg vec s). Qed.

Lemma setEvent_spec (vec : Z) (s : kernel) :
  config_ok cfg → kernel_inv cfg s →
  let TM := Z.lor (RTOS_EVT_ABSOLUTE_TIMER cfg) (RTOS_EVT_DELAY_TIMER cfg) in
  let vec' := u16 (Z.land vec (Z.lnot TM)) in
  let s1 := postEvents vec' s in
  let rel t := releaseTest cfg (task s1 t) = true in
  let s2 := fst (setEvent cfg vec s) in
  let b := snd (setEvent cfg vec s) in
  setEvent cfg vec s = checkForTaskActivation cfg false s1
  ∧ kernel_inv cfg s2
  ∧ arrays_inv cfg s1
  ∧ _time s2 = _time s
  ∧ prios s2 = prios s
  ∧ (∀ t, t ∉ suspList s → task s1 t = task s t)
  ∧ (∀ t, t ∈ suspList s →
          task s1 t
          = set_postedEventVec
              (Z.lor (postedEventVec (task s t)) (Z.land vec' (eventMask (task s t))))
              (task s t))
  ∧ suspList s2 = filter (λ t, ¬ rel t) (suspList s)
  ∧ (∀ c, dueList s2 c
          = dueList s c ++ filter (λ t, rel t ∧ prios s !!! t = c) (suspList s))
  ∧ (∀ t, task s2 t
          = if decide (t ∈ filter rel (suspList s)) then madeDue cfg (task s1 t)
            else task s1 t)
  ∧ (b = true ↔ _pActiveTask s2 ≠ _pActiveTask s)
  ∧ (b = false → _pActiveTask s2 = _pActiveTask s)
  ∧ (filter rel (suspList s) = [] → s2 = s1 ∧ b = false).
Proof.
  intros Hcfg Hk TM vec' s1 rel s2 b. pose proof Hk as [Hinv Hact].
  destruct (postEvents_frame cfg vec' s Hinv) as (Hfr1 & Hpr1 & Hinv1 & Hother1).
  fold s1 in Hfr1, Hpr1, Hinv1, Hother1.
  pose proof (postEvents_spec cfg s vec) as Hpost. cbv zeta in Hpost.
  fold TM in Hpost. fold vec' in Hpost. fold s1 in Hpost.
  destruct Hpost as (Hse & _ & _ & _ & _ & Htask).
  { rewrite (inv_len_susp _ _ Hinv). apply (inv_noSusp _ _ Hinv). }
  assert (Hk1 : kernel_inv cfg s1).
  { apply (kernel_inv_ext cfg s); try done; by rewrite Hfr1. }
  assert (Hsl1 : suspList s1 = suspList s) by (by rewrite Hfr1).
  assert (Ha1 : _pActiveTask s1 = _pActiveTask s) by (by rewrite Hfr1).
  assert (Hd1 : ∀ c, dueList s1 c = dueList s c) by (intros c; by rewrite Hfr1).
  assert (Ht1 : _time s1 = _time s) by (by rewrite Hfr1).
  destruct (checkForTaskActivation_spec cfg false s1 Hcfg Hinv1)
    as (s2' & b' & Hchk & _ & Hinv2 & Hpr2 & Htime2 & Hsl2 & Hdl2 & Htk2 & Hnone & _).
  pose proof (checkForTaskActivation_inv cfg false s1 Hcfg Hinv1) as Hci.
  rewrite Hchk in Hci.
  assert (Hs2 : s2 = s2') by (unfold s2; by rewrite Hse, Hchk).
  assert (Hb : b = b') by (unfold b; by rewrite Hse, Hchk).
  rewrite <- Hs2, <- Hb in *. clear Hs2 Hb s2' b'.
  destruct Hci as (Hk2 & _ & Hb1 & Hb2).
  { intros _. by destruct Hk1. }
  { done. }
  rewrite Hsl1 in Hsl2, Hdl2, Htk2, Hnone. rewrite Hpr1 in Hdl2.
  split_and!; try done.
  - congruence.
  - congruence.
  - intros t Hin. apply Htask; [| done].
    rewrite (inv_len_tasks _ _ Hinv). pose proof (susp_lt cfg s t Hinv Hin). lia.
  - intros c. rewrite Hdl2. by rewrite Hd1.
  - by rewrite <- Ha1.
  - intros Hf. rewrite (Hb2 Hf). congruence.
  - intros Hnil. apply Hnone. simpl. apply bool_decide_eq_false. by intros H.
Qed.

Lemma PUSH_RET_CODE_OF_CONTEXT_SWITCH_spec (s : kernel) :
  let s' := fst (PUSH_RET_CODE_OF_CONTEXT_SWITCH s) in
  let ev := postedEventVec (task s (_pActiveTask s)) in
  s' = set_taskAry (_taskAry s') s
  ∧ (∀ t, t ≠ _pActiveTask s → task s' t = task s t)
  ∧ (∀ t, set_postedEventVec 0 (task s' t) = set_postedEventVec 0 (task s t))
  ∧ (∀ t, postedEventVec (task s t) = 0%Z → postedEventVec (task s' t) = 0%Z)
  ∧ (_pActiveTask s < length (_taskAry s) → (0 ≤ ev)%Z →
     postedEventVec (task s' (_pActiveTask s)) = 0%Z)
  ∧ snd (PUSH_RET_CODE_OF_CONTEXT_SWITCH s) = (if (0 <? ev)%Z then Some ev else None).
Proof.
  intros s' ev. unfold s', PUSH_RET_CODE_OF_CONTEXT_SWITCH. fold ev.
  destruct (Z.ltb_spec 0 ev) as [Hpos | Hle]; simpl.
  - split_and!; try done.
    + intros t Hne. apply task_updTask_ne. congruence.
    + intros t. rewrite task_updTask. by case_decide.
    + intros t Ht. rewrite task_updTask. by case_decide.
    + intros Hlt _. by rewrite task_updTask_eq.
  - split_and!; try done.
    + by destruct s.
    + intros _ H0. unfold ev in *. lia.
Qed.

Lemma roundRobin_preserved {X : Type} (g : task_t → X) (s : kernel) (t : nat) :
  (∀ v x, g (set_cntRoundRobin v x) = g x) →
  g (task (fst (roundRobin cfg s)) t) = g (task s t).
Proof.
  intros Hg. unfold roundRobin.
  destruct (RTOS_ROUND_ROBIN_MODE_SUPPORTED cfg); [| done].
  destruct (0 <? _)%Z; [| done]. cbv zeta.
  destruct (_ =? 0)%Z; [destruct (1 <? _)%nat |]; simpl;
    rewrite ?(task_updTask_preserved g) by (intros x; apply Hg);
    try done.
  change (task (set_pDueTaskAryAry ?v ?y) t) with (task y t).
  by rewrite !(task_updTask_preserved g) by (intros x; apply Hg).
Qed.

Lemma storeResumeCondition_preserved {X : Type} (g : task_t → X)
    (pT : nat) (mask : Z) (all : bool) (timeout : Z) (s : kernel) (t : nat) :
  (∀ v x, g (set_timeDueAt v x) = g x) →
  (∀ v x, g (set_cntOverrun v x) = g x) →
  (∀ v x, g (set_cntDelay v x) = g x) →
  (∀ v x, g (set_eventMask v x) = g x) →
  (∀ v x, g (set_waitForAnyEvent v x) = g x) →
  g (task (storeResumeCondition cfg pT mask all timeout s) t) = g (task s t).
Proof.
  intros H1 H2 H3 H4 H5. unfold storeResumeCondition.
  rewrite !(task_updTask_preserved g) by done.
  destruct (negb _); cbv zeta;
    [destruct (_ <=? 0)%Z; [destruct (_ <? 255)%Z |] |];
    by rewrite ?(task_updTask_preserved g) by done.
Qed.

Lemma onTimerTic_range (s : kernel) :
  (0 < TIME_BITS cfg)%Z → kernel_in_range cfg s →
  kernel_in_range cfg (fst (onTimerTic cfg s)).
Proof.
  intros Hw Hs. unfold onTimerTic.
  pose proof (roundRobin_range _ Hw (clockTimers_range s Hw Hs)) as H1.
  destruct (roundRobin cfg (clockTimers cfg s)) as [s1 hint]. simpl in H1.
  by apply checkForTaskActivation_range.
Qed.

Lemma setEvent_range (vec : Z) (s : kernel) :
  kernel_in_range cfg s → kernel_in_range cfg (fst (setEvent cfg vec s)).
Proof.
  intros Hs. unfold setEvent. apply checkForTaskActivation_range.
  by apply postEvents_range.
Qed.

Lemma madeDue_postedEventVec (t : task_t) :
  postedEventVec (madeDue cfg t) = postedEventVec t.
Proof. unfold madeDue. by destruct (RTOS_ROUND_ROBIN_MODE_SUPPORTED cfg). Qed.

(** Events are posted to suspended tasks only. *)
Lemma onTimerTic_postedEventVec (s : kernel) (t : nat) :
  config_ok cfg → kernel_inv cfg s → t ∉ suspList s →
  postedEventVec (task (fst (onTimerTic cfg s)) t) = postedEventVec (task s t).
Proof.
  intros Hcfg Hk Hnot.
  destruct (onTimerTic_spec s Hcfg Hk)
    as (_ & _ & _ & _ & _ & _ & _ & _ & _ & _ & Htk & _).
  rewrite Htk.
  destruct (clockTimers_spec s (proj1 Hk)) as (_ & _ & _ & Hother & _).
  case_decide as Hd.
  - apply list_elem_of_filter in Hd as [_ Hd]. done.
  - rewrite (roundRobin_preserved postedEventVec) by done. by rewrite Hother.
Qed.

Lemma setEvent_postedEventVec (vec : Z) (s : kernel) (t : nat) :
  config_ok cfg → kernel_inv cfg s → t ∉ suspList s →
  postedEventVec (task (fst (setEvent cfg vec s)) t) = postedEventVec (task s t).
Proof.
  intros Hcfg Hk Hnot.
  destruct (setEvent_spec vec s Hcfg Hk)
    as (_ & _ & _ & _ & _ & Hother & _ & _ & _ & Htk & _).
  rewrite Htk. case_decide as Hd.
  - apply list_elem_of_filter in Hd as [_ Hd]. done.
  - by rewrite Hother.
Qed.

Lemma waitForEvent_preserved {X : Type} (g : task_t → X)
    (mask : Z) (all : bool) (timeout : Z) (s : kernel) (t : nat) :
  (∀ v x, g (set_timeDueAt v x) = g x) →
  (∀ v x, g (set_cntOverrun v x) = g x) →
  (∀ v x, g (set_cntDelay v x) = g x) →
  (∀ v x, g (set_eventMask v x) = g x) →
  (∀ v x, g (set_waitForAnyEvent v x) = g x) →
  g (task (waitForEvent cfg mask all timeout s) t) = g (task s t).
Proof.
  intros H1 H2 H3 H4 H5. unfold waitForEvent. cbv zeta.
  set (s0 := set_pDueTaskAryAry _ _).
  pose proof (storeResumeCondition_preserved g (_pActiveTask s) mask all timeout s0 t
                H1 H2 H3 H4 H5) as Hst.
  change (task s0 t) with (task s t) in Hst. rewrite <- Hst.
  by destruct (findDueClass _ _).
Qed.

Lemma enter_vector_clear (e : entry) (s : kernel) :
  config_ok cfg → (0 < TIME_BITS cfg)%Z →
  kernel_inv cfg s → kernel_in_range cfg s → permitted cfg e s →
  postedEventVec (task s (_pActiveTask s)) = 0%Z
  ∧ postedEventVec (task s (_pIdleTask cfg)) = 0%Z →
  let s' := enter cfg e s in
  postedEventVec (task s' (_pActiveTask s')) = 0%Z
  ∧ postedEventVec (task s' (_pIdleTask cfg)) = 0%Z.
Proof.
  intros Hcfg Hw Hk Hrng Hp [Ha Hi] s'.
  pose proof (active_not_suspended cfg s Hk) as Hans.
  assert (Hins : _pIdleTask cfg ∉ suspList s).
  { intros Hin. apply (idle_nowhere cfg s (proj1 Hk)). apply elem_of_app. by right. }
  assert (Hpush : ∀ x, kernel_inv cfg x → kernel_in_range cfg x →
            postedEventVec (task x (_pIdleTask cfg)) = 0%Z →
            let x' := fst (PUSH_RET_CODE_OF_CONTEXT_SWITCH x) in
            postedEventVec (task x' (_pActiveTask x')) = 0%Z
            ∧ postedEventVec (task x' (_pIdleTask cfg)) = 0%Z).
  { intros x Hkx Hrx Hix x'.
    destruct (PUSH_RET_CODE_OF_CONTEXT_SWITCH_spec x) as (Hfr & _ & _ & Hz & Hact & _).
    fold x' in Hfr, Hz, Hact.
    assert (Hax : _pActiveTask x' = _pActiveTask x) by (by rewrite Hfr).
    split; [| by apply Hz].
    rewrite Hax. apply Hact.
    - rewrite (inv_len_tasks _ _ (proj1 Hkx)). pose proof (active_valid cfg x Hkx). lia.
    - apply Hrx. }
  destruct e as [| vec | mask all timeout | idx doReset]; unfold s'; simpl.
  - rewrite ISR_SYSTEM_TIMER_TIC_eq.
    destruct (onTimerTic_spec s Hcfg Hk)
      as (_ & Hk2 & _ & _ & _ & _ & _ & _ & _ & _ & _ & _ & Hb & _).
    pose proof (onTimerTic_postedEventVec s _ Hcfg Hk Hins) as Hi2.
    pose proof (onTimerTic_postedEventVec s _ Hcfg Hk Hans) as Ha2.
    destruct (snd (onTimerTic cfg s)).
    + apply Hpush; [done | by apply onTimerTic_range | congruence].
    + rewrite (Hb eq_refl). split; congruence.
  - rewrite rtos_setEvent_eq.
    destruct (setEvent_spec vec s Hcfg Hk)
      as (_ & Hk2 & _ & _ & _ & _ & _ & _ & _ & _ & _ & Hb & _).
    pose proof (setEvent_postedEventVec vec s _ Hcfg Hk Hins) as Hi2.
    pose proof (setEvent_postedEventVec vec s _ Hcfg Hk Hans) as Ha2.
    destruct (snd (setEvent cfg vec s)).
    + apply Hpush; [done | by apply setEvent_range | congruence].
    + rewrite (Hb eq_refl). split; congruence.
  - destruct Hp as (Hidle & Hmask & Hto). unfold rtos_waitForEvent.
    apply Hpush.
    + by apply waitForEvent_spec.
    + by apply waitForEvent_range.
    + by rewrite (waitForEvent_preserved postedEventVec).
  - unfold rtos_getTaskOverrunCounter. destruct doReset; [| done]. simpl.
    by rewrite !(task_updTask_preserved postedEventVec).
Qed.

Lemma rtos_initializeTask_preserved {X : Type} (g : task_t → X) (a : initArgs)
    (s : kernel) (t : nat) :
  (∀ v x, g (set_prioClass v x) = g x) →
  (∀ v x, g (set_timeRoundRobin v x) = g x) →
  (∀ v x, g (set_timeDueAt v x) = g x) →
  (∀ v x, g (set_cntOverrun v x) = g x) →
  (∀ v x, g (set_cntDelay v x) = g x) →
  (∀ v x, g (set_eventMask v x) = g x) →
  (∀ v x, g (set_waitForAnyEvent v x) = g x) →
  g (task (rtos_initializeTask cfg a s) t) = g (task s t).
Proof.
  intros H1 H2 H3 H4 H5 H6 H7. unfold rtos_initializeTask. cbv zeta.
  destruct (RTOS_ROUND_ROBIN_MODE_SUPPORTED cfg);
    rewrite ?(task_updTask_preserved g) by done;
    rewrite (storeResumeCondition_preserved g) by done;
    by rewrite !(task_updTask_preserved g) by done.
Qed.

Lemma setup_preserved {X : Type} (g : task_t → X) (setup : list initArgs)
    (s : kernel) (t : nat) :
  (∀ v x, g (set_prioClass v x) = g x) →
  (∀ v x, g (set_timeRoundRobin v x) = g x) →
  (∀ v x, g (set_timeDueAt v x) = g x) →
  (∀ v x, g (set_cntOverrun v x) = g x) →
  (∀ v x, g (set_cntDelay v x) = g x) →
  (∀ v x, g (set_eventMask v x) = g x) →
  (∀ v x, g (set_waitForAnyEvent v x) = g x) →
  g (task (foldl (λ s a, rtos_initializeTask cfg a s) s setup) t) = g (task s t).
Proof.
  intros H1 H2 H3 H4 H5 H6 H7. revert s.
  induction setup as [| a setup IH]; intros s; simpl; [done |].
  rewrite IH. by apply rtos_initializeTask_preserved.
Qed.

Lemma rtos_initRTOS_cleared (setup : list initArgs) (t : nat) :
  let x := task (rtos_initRTOS cfg setup) t in
  postedEventVec x = 0%Z ∧ cntOverrun x = 0%Z ∧ cntRoundRobin x = 0%Z.
Proof.
  intros x. unfold x. rewrite rtos_initRTOS_task.
  set (s0 := foldl _ _ _).
  assert (Hrr : cntRoundRobin (task s0 t) = 0%Z).
  { unfold s0. rewrite (setup_preserved cntRoundRobin) by done.
    by rewrite task_staticData. }
  destruct (setup_frame cfg setup (staticData cfg)) as [_ Hl0]. fold s0 in Hl0.
  simpl in Hl0. rewrite length_replicate in Hl0.
  repeat case_decide.
  - by destruct (RTOS_ROUND_ROBIN_MODE_SUPPORTED cfg).
  - by destruct (RTOS_ROUND_ROBIN_MODE_SUPPORTED cfg).
  - rewrite task_out_of_range by lia. done.
Qed.

Lemma enter_time (e : entry) (s : kernel) :
  config_ok cfg → kernel_inv cfg s →
  _time (enter cfg e s)
  = match e with TimerTic => uintTime cfg (_time s + 1) | _ => _time s end.
Proof.
  intros Hcfg Hk.
  assert (Hpush : ∀ x, _time (fst (PUSH_RET_CODE_OF_CONTEXT_SWITCH x)) = _time x).
  { intros x. destruct (PUSH_RET_CODE_OF_CONTEXT_SWITCH_spec x) as (Hfr & _).
    by rewrite Hfr. }
  destruct e as [| vec | mask all timeout | idx doReset]; simpl.
  - rewrite ISR_SYSTEM_TIMER_TIC_eq.
    destruct (onTimerTic_spec s Hcfg Hk) as (_ & _ & _ & Ht & _).
    destruct (snd (onTimerTic cfg s)); [by rewrite Hpush | done].
  - rewrite rtos_setEvent_eq.
    destruct (setEvent_spec vec s Hcfg Hk) as (_ & _ & _ & Ht & _).
    destruct (snd (setEvent cfg vec s)); [by rewrite Hpush | done].
  - unfold rtos_waitForEvent. rewrite Hpush. unfold waitForEvent. cbv zeta.
    set (s0 := set_pDueTaskAryAry _ _).
    destruct (storeResumeCondition_frame cfg (_pActiveTask s) mask all timeout s0)
      as (Hfr & _).
    assert (Ht : _time (storeResumeCondition cfg (_pActiveTask s) mask all timeout s0)
                 = _time s) by (by rewrite Hfr).
    by destruct (findDueClass _ _).
  - unfold rtos_getTaskOverrunCounter. by destruct doReset.
Qed.

Lemma run_time (setup : list initArgs) (es : list entry) (s : kernel) :
  config_ok cfg → setup_ok cfg setup → (0 < TIME_BITS cfg)%Z →
  reachable cfg setup s → permittedRun cfg es s →
  _time (run cfg es s) = uintTime cfg (_time s + Z.of_nat (tics es)).
Proof.
  intros Hcfg Hsetup Hw. revert s. induction es as [| e es IH]; intros s Hr Hp.
  - simpl. rewrite Z.add_0_r. unfold uintTime. symmetry. apply Z.mod_small.
    apply (reachable_range setup s Hw (proj1 Hsetup) Hr).
  - destruct Hp as [Hp Hps]. simpl run.
    pose proof (reachable_kernel_inv cfg setup s Hcfg Hsetup Hr) as Hk.
    rewrite (IH _ (enter_reachable setup e s Hr Hp) Hps).
    rewrite (enter_time e s Hcfg Hk). unfold uintTime.
    destruct e; simpl tics; rewrite ?Zplus_mod_idemp_l; try done.
    f_equal. lia.
Qed.

(** The state [rtos_initRTOS] leaves. *)
Lemma rtos_initRTOS_state (setup : list initArgs) :
  let s := rtos_initRTOS cfg setup in
  suspList s = seq 0 (RTOS_NO_TASKS cfg)
  ∧ (∀ c, dueList s c = [])
  ∧ _pActiveTask s = _pIdleTask cfg
  ∧ (∀ t, postedEventVec (task s t) = 0%Z ∧ cntOverrun (task s t) = 0%Z).
Proof.
  intros s.
  destruct (rtos_initRTOS_arrays cfg setup) as (Hl & Hsusp & Hns & Hdue & Hnd & Hact).
  fold s in Hl, Hsusp, Hns, Hdue, Hnd, Hact.
  split_and!.
  - unfold suspList. rewrite Hsusp, Hns. apply take_ge. by rewrite length_seq.
  - intros c. unfold dueList. rewrite Hnd.
    rewrite (list_lookup_total_alt (replicate _ 0)).
    destruct (replicate _ 0 !! c) as [x |] eqn:Hx; simpl; [| done].
    apply lookup_replicate in Hx as [-> _]. done.
  - done.
  - intros t. destruct (rtos_initRTOS_cleared setup t) as (H1 & H2 & _). done.
Qed.

(** X1: [rtos_initRTOS] leaves every task suspended, in the order of the
    task indices, no task due and the idle task active; no event is posted
    to any task and no overrun is counted. *)
Theorem rtos_initRTOS_start (setup : list initArgs) :
  let s := rtos_initRTOS cfg setup in
  suspList s = seq 0 (RTOS_NO_TASKS cfg)
  ∧ (∀ c, dueList s c = [])
  ∧ _pActiveTask s = _pIdleTask cfg
  ∧ (∀ t, postedEventVec (task s t) = 0%Z ∧ cntOverrun (task s t) = 0%Z).
Proof. apply rtos_initRTOS_state. Qed.

(** What [rtos_initRTOS] leaves of a call of [rtos_initializeTask]. *)
Lemma rtos_initRTOS_stored (setup : list initArgs) (a : initArgs) :
  a ∈ setup → NoDup (ia_idxTask <$> setup) → ia_idxTask a < RTOS_NO_TASKS cfg →
  let t := task (rtos_initRTOS cfg setup) (ia_idxTask a) in
  prioClass t = ia_prioClass a
  ∧ eventMask t = ia_startEventMask a
  ∧ waitForAnyEvent t = negb (ia_startByAllEvents a)
  ∧ (RTOS_ROUND_ROBIN_MODE_SUPPORTED cfg = true → timeRoundRobin t = ia_timeRoundRobin a)
  ∧ (Z.land (ia_startEventMask a) (RTOS_EVT_ABSOLUTE_TIMER cfg) = 0%Z →
     cntDelay t = if negb (uintTime cfg (ia_startTimeout a + 1) =? 0)%Z
                  then uintTime cfg (ia_startTimeout a + 1) else ia_startTimeout a).
Proof.
  intros Hin Hnd Hlt t. unfold t. rewrite rtos_initRTOS_task.
  rewrite decide_True by done.
  destruct (setup_stored setup a (staticData cfg) Hin Hnd) as (s1 & Hl1 & ->).
  simpl in Hl1. rewrite length_replicate in Hl1.
  destruct (rtos_initializeTask_stored a s1 ltac:(lia)) as (H1 & H2 & H3 & H4 & H5).
  destruct (RTOS_ROUND_ROBIN_MODE_SUPPORTED cfg); simpl; done.
Qed.

(** X2: a task that the application's setup has initialized by one call of
    [rtos_initializeTask] starts with the priority class, the event mask,
    the mode and, if round robin is compiled, the time slice of that call,
    and, if the mask is without the absolute-timer event, with the delay
    counter at the start timeout plus one. *)
Theorem rtos_initRTOS_setup (setup : list initArgs) (a : initArgs) :
  a ∈ setup → NoDup (ia_idxTask <$> setup) → ia_idxTask a < RTOS_NO_TASKS cfg →
  let t := task (rtos_initRTOS cfg setup) (ia_idxTask a) in
  prioClass t = ia_prioClass a
  ∧ eventMask t = ia_startEventMask a
  ∧ waitForAnyEvent t = negb (ia_startByAllEvents a)
  ∧ (RTOS_ROUND_ROBIN_MODE_SUPPORTED cfg = true → timeRoundRobin t = ia_timeRoundRobin a)
  ∧ (Z.land (ia_startEventMask a) (RTOS_EVT_ABSOLUTE_TIMER cfg) = 0%Z →
     cntDelay t = if negb (uintTime cfg (ia_startTimeout a + 1) =? 0)%Z
                  then uintTime cfg (ia_startTimeout a + 1) else ia_startTimeout a).
Proof. apply rtos_initRTOS_stored. Qed.

(** X3: in every reachable state the members of all task objects and the
    system time are within the ranges of their C types: the timer values
    within [uintTime_t], the event vectors within sixteen bit, the overrun
    counter within 0..255. *)
Theorem reachable_in_range (setup : list initArgs) (s : kernel) :
  (0 < TIME_BITS cfg)%Z → Forall (initArgs_ok cfg) setup →
  reachable cfg setup s →
  (0 ≤ _time s < 2 ^ TIME_BITS cfg)%Z ∧ ∀ t, task_in_range cfg (task s t).
Proof. apply reachable_range. Qed.

(** X4: the system time counts the timer tics cyclically, and nothing but
    a timer tic changes it; it is 0 in the first tic after
    initialization. *)
Theorem system_time_counts_tics (setup : list initArgs) (es : list entry) :
  config_ok cfg → setup_ok cfg setup → (0 < TIME_BITS cfg)%Z →
  permittedRun cfg es (rtos_initRTOS cfg setup) →
  _time (run cfg es (rtos_initRTOS cfg setup))
  = ((Z.of_nat (tics es) - 1) mod 2 ^ TIME_BITS cfg)%Z.
Proof.
  intros Hcfg Hsetup Hw Hp.
  rewrite (run_time setup es _ Hcfg Hsetup Hw (reachable_init cfg setup) Hp).
  rewrite rtos_initRTOS_time. unfold uintTime. rewrite Zplus_mod_idemp_l.
  f_equal. lia.
Qed.

Lemma reachable_vector_clear (setup : list initArgs) (s : kernel) :
  config_ok cfg → setup_ok cfg setup → (0 < TIME_BITS cfg)%Z →
  reachable cfg setup s →
  postedEventVec (task s (_pActiveTask s)) = 0%Z
  ∧ postedEventVec (task s (_pIdleTask cfg)) = 0%Z.
Proof.
  intros Hcfg Hsetup Hw Hr.
  assert (Hstep : ∀ e x, reachable cfg setup x → permitted cfg e x →
            postedEventVec (task x (_pActiveTask x)) = 0%Z
            ∧ postedEventVec (task x (_pIdleTask cfg)) = 0%Z →
            postedEventVec (task (enter cfg e x) (_pActiveTask (enter cfg e x))) = 0%Z
            ∧ postedEventVec (task (enter cfg e x) (_pIdleTask cfg)) = 0%Z).
  { intros e x Hx Hp Hz. apply enter_vector_clear; try done.
    - by apply (reachable_kernel_inv cfg setup).
    - by apply (reachable_range setup x Hw (proj1 Hsetup)). }
  induction Hr as
    [| s Hr IH | s vec Hr IH Hvec | s mask all timeout Hr IH Hidle Hmask Hto
     | s idxTask doReset Hr IH Hidx].
  - split; apply rtos_initRTOS_cleared.
  - by apply (Hstep TimerTic).
  - by apply (Hstep (SetEvent vec)).
  - by apply (Hstep (WaitForEvent mask all timeout)).
  - by apply (Hstep (GetTaskOverrunCounter idxTask doReset)).
Qed.

(** X5: in every reachable state the vector of posted events of the active
    task is empty, and so is that of the idle task: a return code of a
    suspend command is handed over once, when the task is activated, and the
    idle task never gets one. *)
Theorem active_vector_clear (setup : list initArgs) (s : kernel) :
  config_ok cfg → setup_ok cfg setup → (0 < TIME_BITS cfg)%Z →
  reachable cfg setup s →
  postedEventVec (task s (_pActiveTask s)) = 0%Z
  ∧ postedEventVec (task s (_pIdleTask cfg)) = 0%Z.
Proof. apply reachable_vector_clear. Qed.

(** ** Waiting for the delay timer *)

Lemma PUSH_RET_CODE_OF_CONTEXT_SWITCH_suspended (s : kernel) (a : nat) :
  kernel_inv cfg s → a ∈ suspList s →
  let s' := fst (PUSH_RET_CODE_OF_CONTEXT_SWITCH s) in
  task s' a = task s a ∧ suspList s' = suspList s ∧ ∀ c, dueList s' c = dueList s c.
Proof.
  intros Hk Hin s'.
  destruct (PUSH_RET_CODE_OF_CONTEXT_SWITCH_spec s) as (Hfr & Hne & _).
  fold s' in Hfr, Hne. split_and!.
  - apply Hne. intros ->. by apply (active_not_suspended cfg s Hk).
  - by rewrite Hfr.
  - intros c. by rewrite Hfr.
Qed.

Lemma PUSH_RET_CODE_OF_CONTEXT_SWITCH_lists (s : kernel) :
  let s' := fst (PUSH_RET_CODE_OF_CONTEXT_SWITCH s) in
  suspList s' = suspList s ∧ (∀ c, dueList s' c = dueList s c)
  ∧ allDue cfg s' = allDue cfg s ∧ _pActiveTask s' = _pActiveTask s.
Proof.
  intros s'. destruct (PUSH_RET_CODE_OF_CONTEXT_SWITCH_spec s) as (Hfr & _).
  fold s' in Hfr. rewrite Hfr. done.
Qed.

Lemma land_timer_free (vec d : Z) :
  let TM := Z.lor (RTOS_EVT_ABSOLUTE_TIMER cfg) (RTOS_EVT_DELAY_TIMER cfg) in
  Z.land d (Z.lnot TM) = 0%Z →
  Z.land (u16 (Z.land vec (Z.lnot TM))) d = 0%Z.
Proof.
  intros TM Hd. apply Z.bits_inj'. intros i Hi. rewrite Z.bits_0, Z.land_spec.
  apply (f_equal (λ z, Z.testbit z i)) in Hd.
  rewrite Z.bits_0, Z.land_spec, Z.lnot_spec in Hd by done.
  unfold u16. change 65536%Z with (2 ^ 16)%Z.
  destruct (Z.lt_ge_cases i 16).
  - rewrite Z.mod_pow2_bits_low by done.
    rewrite Z.land_spec, Z.lnot_spec by done.
    destruct (Z.testbit vec i), (Z.testbit TM i), (Z.testbit d i); done.
  - by rewrite Z.mod_pow2_bits_high by lia.
Qed.

Lemma delay_timer_free :
  let TM := Z.lor (RTOS_EVT_ABSOLUTE_TIMER cfg) (RTOS_EVT_DELAY_TIMER cfg) in
  Z.land (RTOS_EVT_DELAY_TIMER cfg) (Z.lnot TM) = 0%Z.
Proof.
  intros TM. apply Z.bits_inj'. intros i Hi.
  rewrite Z.bits_0, Z.land_spec, Z.lnot_spec by done. unfold TM.
  rewrite Z.lor_spec. by destruct (Z.testbit _ i), (Z.testbit _ i).
Qed.

Lemma releaseTest_any (t : task_t) :
  waitForAnyEvent t = true →
  releaseTest cfg t = negb (postedEventVec t =? 0)%Z.
Proof.
  intros Hany. unfold releaseTest. rewrite Hany. simpl. by rewrite orb_false_r.
Qed.

(** What the timer loop of a tic does to a task that waits for the delay
    timer only. *)
Lemma serveTimers_delay (time : Z) (t : task_t) (k : Z) :
  (0 < TIME_BITS cfg)%Z → timer_events_ok cfg →
  eventMask t = RTOS_EVT_DELAY_TIMER cfg → postedEventVec t = 0%Z →
  cntDelay t = k → (1 ≤ k < 2 ^ TIME_BITS cfg)%Z →
  let t' := serveTimers cfg time t in
  eventMask t' = RTOS_EVT_DELAY_TIMER cfg
  ∧ waitForAnyEvent t' = waitForAnyEvent t
  ∧ cntDelay t' = (k - 1)%Z
  ∧ postedEventVec t' = (if (k =? 1)%Z then RTOS_EVT_DELAY_TIMER cfg else 0%Z).
Proof.
  intros Hw (_ & HD & Hdisj) Hm Hp Hk Hrange t'. unfold t', serveTimers.
  set (t1 := if (time =? timeDueAt t)%Z then _ else t).
  assert (H1 : eventMask t1 = RTOS_EVT_DELAY_TIMER cfg
               ∧ waitForAnyEvent t1 = waitForAnyEvent t
               ∧ cntDelay t1 = k ∧ postedEventVec t1 = 0%Z).
  { unfold t1. destruct (time =? timeDueAt t)%Z; [| done]. simpl.
    split_and!; try done. by rewrite Hp, Hm, Hdisj. }
  destruct H1 as (Hm1 & Ha1 & Hk1 & Hp1). cbv zeta. rewrite Hk1.
  destruct (Z.ltb_spec 0 k); [| lia].
  change (cntDelay (set_cntDelay ?v ?x)) with v.
  assert (Hu : uintTime cfg (k - 1) = (k - 1)%Z).
  { unfold uintTime. apply Z.mod_small. lia. }
  rewrite Hu.
  destruct (Z.eqb_spec (k - 1) 0) as [H0 | H0]; destruct (Z.eqb_spec k 1); try lia; simpl.
  - split_and!; try done. rewrite Hp1, Hm1, Z.land_diag. done.
  - done.
Qed.

Lemma enter_waiting_delay (e : entry) (s : kernel) (a : nat) (k : Z) :
  config_ok cfg → (0 < TIME_BITS cfg)%Z → timer_events_ok cfg →
  kernel_inv cfg s → permitted cfg e s →
  a ∈ suspList s →
  eventMask (task s a) = RTOS_EVT_DELAY_TIMER cfg →
  waitForAnyEvent (task s a) = true →
  postedEventVec (task s a) = 0%Z →
  cntDelay (task s a) = k → (1 ≤ k < 2 ^ TIME_BITS cfg)%Z →
  let s' := enter cfg e s in
  let k' := match e with TimerTic => (k - 1)%Z | _ => k end in
  if (k' =? 0)%Z then
    (a ∉ suspList s') ∧ a ∈ allDue cfg s'
  else
    a ∈ suspList s'
    ∧ eventMask (task s' a) = RTOS_EVT_DELAY_TIMER cfg
    ∧ waitForAnyEvent (task s' a) = true
    ∧ postedEventVec (task s' a) = 0%Z
    ∧ cntDelay (task s' a) = k'.
Proof.
  intros Hcfg Hw Hev Hk Hp Hin Hm Hany Hpost Hcnt Hrange s' k'.
  pose proof Hk as [Hinv _].
  assert (Hanot : a ≠ _pActiveTask s).
  { intros ->. by apply (active_not_suspended cfg s Hk). }
  assert (Halt : a < length (_taskAry s)).
  { rewrite (inv_len_tasks _ _ Hinv). pose proof (susp_lt cfg s a Hinv Hin). lia. }
  destruct e as [| vec | mask all timeout | idx doReset]; unfold s', k'; simpl enter.
  - (* timer tic *)
    rewrite ISR_SYSTEM_TIMER_TIC_eq.
    destruct (onTimerTic_spec s Hcfg Hk)
      as (_ & Hk2 & Hinv1 & _ & Hpr2 & _ & _ & Hs1 & Hsl2 & Hdl2 & Htk2 & _).
    destruct (clockTimers_spec s Hinv) as (_ & _ & _ & _ & Hsusp0).
    set (s1 := fst (roundRobin cfg (clockTimers cfg s))) in *.
    set (s2 := fst (onTimerTic cfg s)) in *.
    destruct (serveTimers_delay (uintTime cfg (_time s + 1)) (task s a) k
                Hw Hev Hm Hpost Hcnt Hrange) as (Hm' & Ha' & Hc' & Hp').
    rewrite <- (Hsusp0 a Hin), <- (Hs1 a Hanot) in Hm', Ha', Hc', Hp'.
    rewrite Hany in Ha'.
    assert (Hrel : releaseTest cfg (task s1 a) = (k =? 1)%Z).
    { rewrite (releaseTest_any _ Ha'), Hp'. destruct Hev as (_ & HD & _).
      destruct (k =? 1)%Z; [| done].
      destruct (Z.eqb_spec (RTOS_EVT_DELAY_TIMER cfg) 0); [lia | done]. }
    assert (Hlists : ∀ x, suspList x = suspList s2 →
              (∀ c, dueList x c = dueList s2 c) →
              (a ∈ suspList s2 → task x a = task s2 a) →
              if (k - 1 =? 0)%Z then (a ∉ suspList x) ∧ a ∈ allDue cfg x
              else a ∈ suspList x
                   ∧ eventMask (task x a) = RTOS_EVT_DELAY_TIMER cfg
                   ∧ waitForAnyEvent (task x a) = true
                   ∧ postedEventVec (task x a) = 0%Z
                   ∧ cntDelay (task x a) = (k - 1)%Z).
    { intros x Hxs Hxd Hxt.
      destruct (Z.eqb_spec (k - 1) 0) as [H0 | H0].
      - assert (Hk1 : (k =? 1)%Z = true) by (apply Z.eqb_eq; lia).
        rewrite Hk1 in Hrel. split.
        + rewrite Hxs, Hsl2, list_elem_of_filter. intros [Hn _]. by apply Hn.
        + apply elem_of_allDue.
          exists (prios s !!! a). split.
          * apply (inv_prio _ _ Hinv). by apply (susp_lt cfg s a Hinv).
          * rewrite Hxd, Hdl2. apply elem_of_app. right.
            by apply list_elem_of_filter.
      - assert (Hk1 : (k =? 1)%Z = false) by (apply Z.eqb_neq; lia).
        rewrite Hk1 in Hrel, Hp'.
        assert (Hnr : a ∉ filter (λ t, releaseTest cfg (task s1 t) = true) (suspList s)).
        { rewrite list_elem_of_filter. intros [Hr _]. congruence. }
        assert (Hin2 : a ∈ suspList s2).
        { rewrite Hsl2. apply list_elem_of_filter. split; [congruence | done]. }
        rewrite (Hxt Hin2), Htk2, decide_False by done.
        split_and!; try done. by rewrite Hxs. }
    destruct (snd (onTimerTic cfg s)).
    + destruct (PUSH_RET_CODE_OF_CONTEXT_SWITCH_spec s2) as (Hfr & Hne & _).
      apply Hlists.
      * by rewrite Hfr.
      * intros c. by rewrite Hfr.
      * intros Hin2. apply Hne. intros ->.
        by apply (active_not_suspended cfg s2 Hk2).
    + by apply Hlists.
  - (* posted events *)
    rewrite rtos_setEvent_eq.
    destruct (setEvent_spec vec s Hcfg Hk)
      as (_ & Hk2 & _ & _ & _ & _ & Hsusp1 & Hsl2 & _ & Htk2 & _).
    set (s1 := postEvents _ s) in *.
    set (s2 := fst (setEvent cfg vec s)) in *.
    pose proof (Hsusp1 a Hin) as Ht1.
    rewrite Hm, (land_timer_free vec _ delay_timer_free), Hpost in Ht1. simpl in Ht1.
    assert (Hrel : releaseTest cfg (task s1 a) = false).
    { rewrite releaseTest_any; by rewrite Ht1. }
    assert (Hnr : a ∉ filter (λ t, releaseTest cfg (task s1 t) = true) (suspList s)).
    { rewrite list_elem_of_filter. intros [Hr _]. congruence. }
    assert (Hin2 : a ∈ suspList s2).
    { rewrite Hsl2. apply list_elem_of_filter. split; [congruence | done]. }
    assert (Ht2 : task s2 a = task s1 a) by (by rewrite Htk2, decide_False).
    assert (Hres : ∀ x, suspList x = suspList s2 → task x a = task s2 a →
              if (k =? 0)%Z then (a ∉ suspList x) ∧ a ∈ allDue cfg x
              else a ∈ suspList x
                   ∧ eventMask (task x a) = RTOS_EVT_DELAY_TIMER cfg
                   ∧ waitForAnyEvent (task x a) = true
                   ∧ postedEventVec (task x a) = 0%Z
                   ∧ cntDelay (task x a) = k).
    { intros x Hxs Hxt. destruct (Z.eqb_spec k 0); [lia |].
      rewrite Hxs, Hxt, Ht2, Ht1. done. }
    destruct (snd (setEvent cfg vec s)); [| by apply Hres].
    destruct (PUSH_RET_CODE_OF_CONTEXT_SWITCH_suspended s2 a Hk2 Hin2) as (H1 & H2 & _).
    by apply Hres.
  - (* another task suspends itself *)
    destruct Hp as (Hidle & _). unfold rtos_waitForEvent.
    destruct (waitForEvent_spec cfg s mask all timeout Hcfg Hk Hidle)
      as (_ & _ & _ & Hta & Hsl & _ & _ & _ & Hk').
    set (sw := waitForEvent cfg mask all timeout s) in *.
    assert (Hinw : a ∈ suspList sw) by (rewrite Hsl, elem_of_app; by left).
    assert (Htw : task sw a = task s a).
    { unfold task at 1. rewrite Hta.
      by apply (storeResumeCondition_frame cfg (_pActiveTask s) mask all timeout s). }
    destruct (PUSH_RET_CODE_OF_CONTEXT_SWITCH_suspended sw a Hk' Hinw) as (H1 & H2 & _).
    destruct (Z.eqb_spec k 0); [lia |].
    rewrite H2, H1, Htw. done.
  - (* an overrun counter is read *)
    destruct (Z.eqb_spec k 0); [lia |].
    unfold rtos_getTaskOverrunCounter. destruct doReset; [| done]. simpl.
    rewrite (task_updTask_preserved eventMask), (task_updTask_preserved waitForAnyEvent),
      (task_updTask_preserved postedEventVec), (task_updTask_preserved cntDelay) by done.
    done.
Qed.

Lemma run_waiting_delay (setup : list initArgs) (es : list entry) (s : kernel)
    (a : nat) (k : Z) :
  config_ok cfg → setup_ok cfg setup → (0 < TIME_BITS cfg)%Z → timer_events_ok cfg →
  reachable cfg setup s → permittedRun cfg es s →
  a ∈ suspList s →
  eventMask (task s a) = RTOS_EVT_DELAY_TIMER cfg →
  waitForAnyEvent (task s a) = true →
  postedEventVec (task s a) = 0%Z →
  cntDelay (task s a) = k → (1 ≤ k < 2 ^ TIME_BITS cfg)%Z →
  (Z.of_nat (tics es) < k)%Z →
  let s' := run cfg es s in
  a ∈ suspList s'
  ∧ eventMask (task s' a) = RTOS_EVT_DELAY_TIMER cfg
  ∧ waitForAnyEvent (task s' a) = true
  ∧ postedEventVec (task s' a) = 0%Z
  ∧ cntDelay (task s' a) = (k - Z.of_nat (tics es))%Z.
Proof.
  intros Hcfg Hsetup Hw Hev. revert s k.
  induction es as [| e es IH]; intros s k Hr Hp Hin Hm Hany Hpost Hcnt Hrange Htics.
  - simpl. rewrite Z.sub_0_r. done.
  - destruct Hp as [Hp Hps]. simpl run.
    pose proof (reachable_kernel_inv cfg setup s Hcfg Hsetup Hr) as Hk.
    pose proof (enter_waiting_delay e s a k Hcfg Hw Hev Hk Hp Hin Hm Hany Hpost Hcnt Hrange)
      as Hstep. cbv zeta in Hstep.
    set (k' := match e with TimerTic => (k - 1)%Z | _ => k end) in *.
    assert (Hk' : (k' = k - Z.of_nat (tics (e :: es)) + Z.of_nat (tics es))%Z).
    { unfold k'. destruct e; simpl tics; lia. }
    assert (Hpos : (Z.of_nat (tics es) < k')%Z) by lia.
    assert (Hrange' : (1 ≤ k' < 2 ^ TIME_BITS cfg)%Z).
    { split; [lia |]. unfold k'. destruct e; lia. }
    destruct (Z.eqb_spec k' 0); [lia |].
    destruct Hstep as (Hin' & Hm' & Hany' & Hpost' & Hcnt').
    pose proof (IH (enter cfg e s) k' (enter_reachable setup e s Hr Hp) Hps
                  Hin' Hm' Hany' Hpost' Hcnt' Hrange' Hpos) as H.
    cbv zeta in H. destruct H as (H1 & H2 & H3 & H4 & H5).
    split_and!; try done. rewrite H5. lia.
Qed.

Lemma run_delay_elapses (setup : list initArgs) (es : list entry) (s : kernel)
    (a : nat) (k : Z) :
  config_ok cfg → setup_ok cfg setup → (0 < TIME_BITS cfg)%Z → timer_events_ok cfg →
  reachable cfg setup s → permittedRun cfg es s →
  a ∈ suspList s →
  eventMask (task s a) = RTOS_EVT_DELAY_TIMER cfg →
  waitForAnyEvent (task s a) = true →
  postedEventVec (task s a) = 0%Z →
  cntDelay (task s a) = k → (1 ≤ k < 2 ^ TIME_BITS cfg)%Z →
  (Z.of_nat (tics es) < k)%Z →
  a ∈ suspList (run cfg es s)
  ∧ ((Z.of_nat (tics es) = k - 1)%Z →
     (a ∉ suspList (ISR_SYSTEM_TIMER_TIC cfg (run cfg es s)))
     ∧ a ∈ allDue cfg (ISR_SYSTEM_TIMER_TIC cfg (run cfg es s))).
Proof.
  intros Hcfg Hsetup Hw Hev Hr Hp Hin Hm Hany Hpost Hcnt Hrange Htics.
  destruct (run_waiting_delay setup es s a k Hcfg Hsetup Hw Hev Hr Hp
              Hin Hm Hany Hpost Hcnt Hrange Htics) as (H1 & H2 & H3 & H4 & H5).
  split; [done |]. intros Hlast.
  pose proof (run_reachable setup es s Hr Hp) as Hr'.
  pose proof (reachable_kernel_inv cfg setup _ Hcfg Hsetup Hr') as Hk'.
  pose proof (enter_waiting_delay TimerTic (run cfg es s) a 1 Hcfg Hw Hev Hk' I
                H1 H2 H3 H4 ltac:(lia)) as Hstep.
  cbv zeta in Hstep. simpl in Hstep. apply Hstep.
  assert (1 < 2 ^ TIME_BITS cfg)%Z by (apply Z.pow_gt_1; lia). lia.
Qed.



(** ** Waiting for all events of a mask without postable events *)

Lemma releaseTest_timer_only (t : task_t) :
  let TM := Z.lor (RTOS_EVT_ABSOLUTE_TIMER cfg) (RTOS_EVT_DELAY_TIMER cfg) in
  waitForAnyEvent t = false →
  Z.land (eventMask t) (Z.lnot TM) = 0%Z →
  Z.land (postedEventVec t) (Z.lnot TM) = 0%Z →
  releaseTest cfg t = true.
Proof.
  intros TM Hany Hm Hp. unfold releaseTest. rewrite Hany. simpl.
  apply orb_true_iff. left. apply Z.eqb_eq.
  apply Z.bits_inj'. intros i Hi. rewrite Z.bits_0, Z.land_spec, Z.lxor_spec.
  apply (f_equal (λ z, Z.testbit z i)) in Hm, Hp.
  rewrite Z.bits_0, Z.land_spec, Z.lnot_spec in Hm, Hp by done.
  unfold u16. change 65536%Z with (2 ^ 16)%Z.
  destruct (Z.lt_ge_cases i 16).
  - rewrite Z.mod_pow2_bits_low by done. rewrite Z.lnot_spec by done.
    change (TIMER_EVT_MASK cfg) with TM.
    destruct (Z.testbit (postedEventVec t) i), (Z.testbit (eventMask t) i),
      (Z.testbit TM i); done.
  - rewrite Z.mod_pow2_bits_high by lia. by rewrite andb_false_r.
Qed.

Lemma land_lor_0 (a b m : Z) :
  Z.land a m = 0%Z → Z.land b m = 0%Z → Z.land (Z.lor a b) m = 0%Z.
Proof. intros Ha Hb. by rewrite Z.land_lor_distr_l, Ha, Hb. Qed.

Lemma land_land_0 (x a m : Z) : Z.land a m = 0%Z → Z.land (Z.land x a) m = 0%Z.
Proof. intros Ha. by rewrite <- Z.land_assoc, Ha, Z.land_0_r. Qed.

Lemma serveTimers_timer_only (time : Z) (t : task_t) :
  let TM := Z.lor (RTOS_EVT_ABSOLUTE_TIMER cfg) (RTOS_EVT_DELAY_TIMER cfg) in
  Z.land (eventMask t) (Z.lnot TM) = 0%Z →
  Z.land (postedEventVec t) (Z.lnot TM) = 0%Z →
  let t' := serveTimers cfg time t in
  eventMask t' = eventMask t
  ∧ waitForAnyEvent t' = waitForAnyEvent t
  ∧ Z.land (postedEventVec t') (Z.lnot TM) = 0%Z.
Proof.
  intros TM Hm Hp t'. unfold t', serveTimers.
  set (t1 := if (time =? timeDueAt t)%Z then _ else t).
  assert (H1 : eventMask t1 = eventMask t ∧ waitForAnyEvent t1 = waitForAnyEvent t
               ∧ Z.land (postedEventVec t1) (Z.lnot TM) = 0%Z).
  { unfold t1. destruct (time =? timeDueAt t)%Z; [| done]. simpl.
    split_and!; try done. apply land_lor_0; [done |]. by apply land_land_0. }
  destruct H1 as (Hm1 & Ha1 & Hp1). cbv zeta.
  destruct (0 <? cntDelay t1)%Z; [| done].
  destruct (_ =? 0)%Z; simpl; [| done].
  split_and!; try done. apply land_lor_0; [done |]. apply land_land_0. by rewrite Hm1.
Qed.

(** X8: a suspend command that waits for all events of a mask which holds
    timer events only does not wait for the timer.  The release test holds
    for the caller at once, with no event posted, so the next timer tic and
    the next call of [rtos_setEvent], whatever it posts, make the task due
    again; after a posted event its vector is still empty, so that no
    return code is handed to it when it is activated. *)
Theorem all_mode_timer_only_mask (setup : list initArgs) (s : kernel)
    (mask timeout : Z) :
  let TM := Z.lor (RTOS_EVT_ABSOLUTE_TIMER cfg) (RTOS_EVT_DELAY_TIMER cfg) in
  config_ok cfg → setup_ok cfg setup → (0 < TIME_BITS cfg)%Z →
  reachable cfg setup s → _pActiveTask s ≠ _pIdleTask cfg →
  (0 ≤ mask < 65536)%Z → (0 ≤ timeout < 2 ^ TIME_BITS cfg)%Z →
  Z.land mask (Z.lnot TM) = 0%Z →
  let a := _pActiveTask s in
  let s0 := rtos_waitForEvent cfg mask true timeout s in
  a ∈ suspList s0
  ∧ postedEventVec (task s0 a) = 0%Z
  ∧ releaseTest cfg (task s0 a) = true
  ∧ a ∈ allDue cfg (ISR_SYSTEM_TIMER_TIC cfg s0)
  ∧ ∀ vec, a ∈ allDue cfg (rtos_setEvent cfg vec s0)
           ∧ postedEventVec (task (fst (setEvent cfg vec s0)) a) = 0%Z.
Proof.
  intros TM Hcfg Hsetup Hw Hr Hidle Hmask Hto Hfree a s0.
  pose proof (reachable_kernel_inv cfg setup s Hcfg Hsetup Hr) as Hk.
  assert (Hperm : permitted cfg (WaitForEvent mask true timeout) s) by done.
  pose proof (enter_reachable setup _ s Hr Hperm) as Hr0. simpl in Hr0. fold s0 in Hr0.
  pose proof (reachable_kernel_inv cfg setup s0 Hcfg Hsetup Hr0) as Hk0.
  pose proof Hk0 as [Hinv0 _].
  destruct (waitForEvent_spec cfg s mask true timeout Hcfg Hk Hidle)
    as (_ & _ & _ & Hta & Hsl & _ & _ & _ & Hk').
  set (sw := waitForEvent cfg mask true timeout s) in *.
  assert (Hinw : a ∈ suspList sw) by (rewrite Hsl, elem_of_app; right; left).
  destruct (PUSH_RET_CODE_OF_CONTEXT_SWITCH_suspended sw a Hk' Hinw) as (H1 & H2 & _).
  change (fst (PUSH_RET_CODE_OF_CONTEXT_SWITCH sw)) with s0 in H1, H2.
  assert (Halt : a < length (_taskAry s)).
  { rewrite (inv_len_tasks _ _ (proj1 Hk)). pose proof (active_valid cfg s Hk). unfold a. lia. }
  destruct (storeResumeCondition_task_mask s a mask true timeout Halt)
    as (Hm & Hany & Hp & _).
  destruct (reachable_vector_clear setup s Hcfg Hsetup Hw Hr) as [Hclear _].
  assert (Htw : task sw a = task (storeResumeCondition cfg a mask true timeout s) a).
  { unfold task at 1. by rewrite Hta. }
  rewrite <- Htw, <- H1 in Hm, Hany, Hp. fold a in Hclear. rewrite Hclear in Hp.
  simpl in Hany.
  assert (Hin0 : a ∈ suspList s0) by (by rewrite H2).
  assert (Hrel0 : releaseTest cfg (task s0 a) = true).
  { apply releaseTest_timer_only; [done | by rewrite Hm | by rewrite Hp]. }
  assert (Hprio : prios s0 !!! a < RTOS_NO_PRIO_CLASSES cfg).
  { apply (inv_prio _ _ Hinv0). by apply (susp_lt cfg s0 a Hinv0). }
  split_and!; try done.
  - rewrite ISR_SYSTEM_TIMER_TIC_eq.
    destruct (onTimerTic_spec s0 Hcfg Hk0)
      as (_ & _ & _ & _ & _ & _ & _ & Hs1 & _ & Hdl2 & _).
    destruct (clockTimers_spec s0 Hinv0) as (_ & _ & _ & _ & Hsusp0).
    set (s1 := fst (roundRobin cfg (clockTimers cfg s0))) in *.
    set (s2 := fst (onTimerTic cfg s0)) in *.
    assert (Hanot : a ≠ _pActiveTask s0).
    { intros Heq. apply (active_not_suspended cfg s0 Hk0). by rewrite <- Heq. }
    destruct (serveTimers_timer_only (uintTime cfg (_time s0 + 1)) (task s0 a))
      as (Hm' & Ha' & Hp'); [by rewrite Hm | by rewrite Hp |].
    rewrite <- (Hsusp0 a Hin0), <- (Hs1 a Hanot) in Hm', Ha', Hp'.
    assert (Hrel : releaseTest cfg (task s1 a) = true).
    { apply releaseTest_timer_only; [congruence | | done]. by rewrite Hm', Hm. }
    assert (Hdue2 : a ∈ allDue cfg s2).
    { apply elem_of_allDue. exists (prios s0 !!! a). split; [done |].
      rewrite Hdl2. apply elem_of_app. right. by apply list_elem_of_filter. }
    destruct (snd (onTimerTic cfg s0)); [| done].
    by destruct (PUSH_RET_CODE_OF_CONTEXT_SWITCH_lists s2) as (_ & _ & -> & _).
  - intros vec. rewrite rtos_setEvent_eq.
    destruct (setEvent_spec vec s0 Hcfg Hk0)
      as (_ & _ & _ & _ & _ & _ & Hsusp1 & _ & Hdl2 & Htk2 & _).
    set (s1 := postEvents _ s0) in *.
    set (s2 := fst (setEvent cfg vec s0)) in *.
    pose proof (Hsusp1 a Hin0) as Ht1.
    rewrite Hm, (land_timer_free vec mask Hfree), Hp in Ht1. simpl in Ht1.
    assert (Hrel : releaseTest cfg (task s1 a) = true).
    { rewrite Ht1. apply releaseTest_timer_only; simpl; [done | by rewrite Hm | done]. }
    assert (Hfil : a ∈ filter (λ t, releaseTest cfg (task s1 t) = true) (suspList s0))
      by (by apply list_elem_of_filter).
    assert (Hdue2 : a ∈ allDue cfg s2).
    { apply elem_of_allDue. exists (prios s0 !!! a). split; [done |].
      rewrite Hdl2. apply elem_of_app. right. by apply list_elem_of_filter. }
    split.
    + destruct (snd (setEvent cfg vec s0)); [| done].
      by destruct (PUSH_RET_CODE_OF_CONTEXT_SWITCH_lists s2) as (_ & _ & -> & _).
    + rewrite Htk2, decide_True by done. by rewrite madeDue_postedEventVec, Ht1.
Qed.

(** ** The order of the due tasks *)

(** X9: a posted event takes no task out of the due state and keeps the
    order of the due tasks: in every priority class the tasks that were due
    stay where they are, and the tasks that leave the suspended array follow
    them in the order they had in the suspended array; the tasks that stay
    suspended keep their order. *)
Theorem setEvent_appends (setup : list initArgs) (s : kernel) (vec : Z) :
  config_ok cfg → setup_ok cfg setup → reachable cfg setup s →
  let s' := rtos_setEvent cfg vec s in
  (∀ c, dueList s' c
        = dueList s c
          ++ filter (λ t, (t ∉ suspList s') ∧ prioClass (task s t) = c) (suspList s))
  ∧ suspList s' `sublist_of` suspList s.
Proof.
  intros Hcfg Hsetup Hr s'.
  pose proof (reachable_kernel_inv cfg setup s Hcfg Hsetup Hr) as Hk.
  destruct (setEvent_spec vec s Hcfg Hk)
    as (_ & Hk2 & _ & _ & _ & _ & _ & Hsl2 & Hdl2 & _).
  set (s1 := postEvents _ s) in *.
  set (s2 := fst (setEvent cfg vec s)) in *.
  assert (Hlists : suspList s' = suspList s2 ∧ ∀ c, dueList s' c = dueList s2 c).
  { unfold s'. rewrite rtos_setEvent_eq. fold s2.
    destruct (snd (setEvent cfg vec s)); [| done].
    by destruct (PUSH_RET_CODE_OF_CONTEXT_SWITCH_lists s2) as (-> & Hd & _). }
  destruct Hlists as [Hs' Hd'].
  split.
  - intros c. rewrite Hd', Hdl2. f_equal. apply filter_ext_elem.
    intros x Hx. rewrite Hs', Hsl2, list_elem_of_filter, prios_lookup.
    split.
    + intros [Hrel Hc]. split; [| done]. intros [Hn _]. by apply Hn.
    + intros [Hn Hc]. split; [| done].
      destruct (releaseTest cfg (task s1 x)) eqn:Hrel; [done |].
      exfalso. apply Hn. split; [congruence | done].
  - rewrite Hs', Hsl2. apply sublist_filter.
Qed.

Lemma enter_due_stays (e : entry) (s : kernel) (c t : nat) :
  config_ok cfg → kernel_inv cfg s → permitted cfg e s →
  t ∈ dueList s c →
  (∀ m al to, e = WaitForEvent m al to → t ≠ _pActiveTask s) →
  t ∈ dueList (enter cfg e s) c.
Proof.
  intros Hcfg Hk Hp Hin Hne.
  destruct e as [| vec | mask all timeout | idx doReset]; simpl enter.
  - rewrite ISR_SYSTEM_TIMER_TIC_eq.
    destruct (onTimerTic_spec s Hcfg Hk)
      as (_ & _ & _ & _ & _ & _ & _ & _ & _ & Hdl2 & _ & _ & _ & Hquiet & Hroll).
    set (s1 := fst (roundRobin cfg (clockTimers cfg s))) in *.
    set (s2 := fst (onTimerTic cfg s)) in *.
    assert (H1 : t ∈ dueList s1 c).
    { destruct (snd (roundRobin cfg (clockTimers cfg s))).
      - destruct (Hroll eq_refl) as (_ & (tl & _ & Hd & Hd') & Hoth).
        destruct (decide (c = prioClass (task s (_pActiveTask s)))) as [-> | Hc].
        + rewrite Hd in Hin. rewrite Hd'.
          apply elem_of_cons in Hin as [-> | Hin]; apply elem_of_app;
            [right; left | by left].
        + by rewrite Hoth.
      - by rewrite Hquiet. }
    assert (H2 : t ∈ dueList s2 c) by (rewrite Hdl2, elem_of_app; by left).
    destruct (snd (onTimerTic cfg s)); [| done].
    destruct (PUSH_RET_CODE_OF_CONTEXT_SWITCH_lists s2) as (_ & Hd & _). by rewrite Hd.
  - rewrite rtos_setEvent_eq.
    destruct (setEvent_spec vec s Hcfg Hk)
      as (_ & _ & _ & _ & _ & _ & _ & _ & Hdl2 & _).
    set (s2 := fst (setEvent cfg vec s)) in *.
    assert (H2 : t ∈ dueList s2 c) by (rewrite Hdl2, elem_of_app; by left).
    destruct (snd (setEvent cfg vec s)); [| done].
    destruct (PUSH_RET_CODE_OF_CONTEXT_SWITCH_lists s2) as (_ & Hd & _). by rewrite Hd.
  - destruct Hp as (Hidle & _). unfold rtos_waitForEvent.
    destruct (waitForEvent_spec cfg s mask all timeout Hcfg Hk Hidle)
      as (_ & (tl & Hd & Hd') & Hoth & _).
    destruct (PUSH_RET_CODE_OF_CONTEXT_SWITCH_lists (waitForEvent cfg mask all timeout s))
      as (_ & Hdp & _).
    rewrite Hdp.
    destruct (decide (c = prioClass (task s (_pActiveTask s)))) as [-> | Hc].
    + rewrite Hd in Hin. rewrite Hd'.
      apply elem_of_cons in Hin as [-> | Hin]; [| done].
      by destruct (Hne mask all timeout eq_refl).
    + by rewrite Hoth.
  - unfold rtos_getTaskOverrunCounter. by destruct doReset.
Qed.

(** X10: only its own suspend command takes a task out of the due state: a
    task that is due stays due, in its priority class, over every timer tic,
    every posted event, every reading of an overrun counter and every
    suspend command of another task. *)
Theorem due_stays_due (setup : list initArgs) (s : kernel) (e : entry) (c t : nat) :
  config_ok cfg → setup_ok cfg setup → reachable cfg setup s →
  permitted cfg e s →
  t ∈ dueList s c →
  (∀ m al to, e = WaitForEvent m al to → t ≠ _pActiveTask s) →
  t ∈ dueList (enter cfg e s) c ∧ t ∉ suspList (enter cfg e s).
Proof.
  intros Hcfg Hsetup Hr Hp Hin Hne.
  pose proof (reachable_kernel_inv cfg setup s Hcfg Hsetup Hr) as Hk.
  pose proof (enter_due_stays e s c t Hcfg Hk Hp Hin Hne) as Hin'.
  split; [done |].
  pose proof (reachable_kernel_inv cfg setup _ Hcfg Hsetup
                (enter_reachable setup e s Hr Hp)) as [Hinv' _].
  pose proof (inv_NoDup cfg _ Hinv') as HND.
  apply NoDup_app in HND as (_ & Hdisj & _). apply Hdisj.
  destruct (decide (c < RTOS_NO_PRIO_CLASSES cfg)) as [Hc | Hc].
  - apply elem_of_allDue. by exists c.
  - rewrite dueList_out_of_range in Hin'; [by apply elem_of_nil in Hin' |].
    rewrite (inv_len_noDue _ _ Hinv'). lia.
Qed.

(** X11: a posted event does not take the processor from the active task
    unless it releases a task of a higher priority class: if every task the
    event releases is of the class of the active task or of a lower one, the
    active task stays active and no context is switched. *)
Theorem setEvent_no_preemption (setup : list initArgs) (s : kernel) (vec : Z) :
  let TM := Z.lor (RTOS_EVT_ABSOLUTE_TIMER cfg) (RTOS_EVT_DELAY_TIMER cfg) in
  let s1 := postEvents (u16 (Z.land vec (Z.lnot TM))) s in
  config_ok cfg → setup_ok cfg setup → reachable cfg setup s →
  _pActiveTask s ≠ _pIdleTask cfg →
  (∀ t, t ∈ suspList s → releaseTest cfg (task s1 t) = true →
        prioClass (task s t) ≤ prioClass (task s (_pActiveTask s))) →
  snd (setEvent cfg vec s) = false
  ∧ _pActiveTask (rtos_setEvent cfg vec s) = _pActiveTask s
  ∧ rtos_setEvent cfg vec s = fst (setEvent cfg vec s).
Proof.
  intros TM s1 Hcfg Hsetup Hr Hidle Hlow.
  pose proof (reachable_kernel_inv cfg setup s Hcfg Hsetup Hr) as Hk.
  destruct (setEvent_spec vec s Hcfg Hk)
    as (_ & Hk2 & _ & _ & _ & _ & _ & _ & Hdl2 & _ & Hb1 & Hb2 & _).
  fold TM in Hdl2. fold s1 in Hdl2.
  set (s2 := fst (setEvent cfg vec s)) in *.
  destruct (active_due cfg s Hk Hidle) as (Hc & (tl & Hd) & Hup).
  assert (Hh : highestDue cfg s2 (_pActiveTask s)).
  { left. exists (prios s !!! _pActiveTask s). split_and!; [done | |].
    - by rewrite Hdl2, Hd.
    - intros c' Hc'. rewrite Hdl2, Hup by done. simpl.
      apply filter_none. intros t Ht [Hrel Hpr].
      pose proof (Hlow t Ht Hrel) as Hle. rewrite <- !prios_lookup in Hle. lia. }
  assert (Hsame : _pActiveTask s2 = _pActiveTask s).
  { apply (highestDue_unique cfg s2); [| done].
    destruct Hk2 as [Hinv2 ->]. by apply selectActive_highestDue. }
  assert (Hb : snd (setEvent cfg vec s) = false).
  { destruct (snd (setEvent cfg vec s)); [| done].
    by destruct (proj1 Hb1 eq_refl). }
  rewrite rtos_setEvent_eq, Hb. done.
Qed.

(** ** What the kernel entries do to the task objects *)

Section TaskInvariant.

(** A property of the task objects, one for each task index, that the
    writes of the kernel entries keep. *)
Variable Q : nat → task_t → Prop.

Hypothesis Q_timeDueAt : ∀ t x v, Q t x → Q t (set_timeDueAt v x).
Hypothesis Q_cntOverrun : ∀ t x v, Q t x → Q t (set_cntOverrun v x).
Hypothesis Q_cntDelay : ∀ t x v, Q t x → Q t (set_cntDelay v x).
Hypothesis Q_eventMask : ∀ t x v, Q t x → Q t (set_eventMask v x).
Hypothesis Q_waitForAnyEvent : ∀ t x v, Q t x → Q t (set_waitForAnyEvent v x).
Hypothesis Q_postedEventVec : ∀ t x v, Q t x → Q t (set_postedEventVec v x).
Hypothesis Q_reload : ∀ t x, Q t x → Q t (set_cntRoundRobin (timeRoundRobin x) x).
Hypothesis Q_count : ∀ t x, Q t x → (0 < cntRoundRobin x)%Z →
  Q t (set_cntRoundRobin (uintTime cfg (cntRoundRobin x - 1)) x).

Lemma tasks_ok_updTask (s : kernel) (p : nat) (f : task_t → task_t) :
  tasks_ok Q s → Q p (f (task s p)) → tasks_ok Q (updTask p f s).
Proof.
  intros Hs Hf t. rewrite task_updTask. case_decide as Hd; [| apply Hs].
  by destruct Hd as [<- _].
Qed.

Lemma tasks_ok_ext (s s' : kernel) :
  _taskAry s' = _taskAry s → tasks_ok Q s → tasks_ok Q s'.
Proof. intros Hta Hs t. unfold task. rewrite Hta. apply Hs. Qed.

Lemma tasks_ok_forSuspendedTasks (body : kernel → task_t → task_t) (s : kernel) :
  (∀ x t y, Q t y → Q t (body x y)) →
  tasks_ok Q s → tasks_ok Q (forSuspendedTasks body s).
Proof.
  intros Hbody Hs. unfold forSuspendedTasks.
  pose proof (for_loop_ind (λ _ x, tasks_ok Q x)
    (λ idxSuspTask s, updTask (_pSuspendedTaskAry s !!! idxSuspTask) (body s) s)
    0 (_noSuspendedTasks s) s ltac:(lia)) as Hind.
  apply Hind; [done |].
  intros i x _ Hx. apply tasks_ok_updTask; [done |]. apply Hbody, Hx.
Qed.

Lemma tasks_ok_serveTimers (time : Z) (t : nat) (y : task_t) :
  Q t y → Q t (serveTimers cfg time y).
Proof.
  intros Hy. unfold serveTimers.
  set (y1 := if (time =? timeDueAt y)%Z then _ else y).
  assert (H1 : Q t y1) by (unfold y1; destruct (_ =? _)%Z; auto).
  cbv zeta. destruct (0 <? cntDelay y1)%Z; [| done].
  destruct (_ =? 0)%Z; auto.
Qed.

Lemma tasks_ok_roundRobin (s : kernel) :
  tasks_ok Q s → tasks_ok Q (fst (roundRobin cfg s)).
Proof.
  intros Hs. unfold roundRobin.
  destruct (RTOS_ROUND_ROBIN_MODE_SUPPORTED cfg); [| done].
  destruct (Z.ltb_spec 0 (cntRoundRobin (task s (_pActiveTask s)))); [| done].
  set (s1 := updTask _ _ s).
  assert (Hs1 : tasks_ok Q s1) by (apply tasks_ok_updTask; auto).
  cbv zeta. destruct (_ =? 0)%Z; [| done].
  set (s2 := updTask _ _ s1).
  assert (Hs2 : tasks_ok Q s2) by (apply tasks_ok_updTask; auto).
  destruct (1 <? _)%nat; [| done].
  simpl. by apply (tasks_ok_ext s2).
Qed.

Lemma tasks_ok_releaseTask (idx : nat) (s : kernel) :
  tasks_ok Q s → tasks_ok Q (releaseTask cfg idx s).
Proof.
  intros Hs. rewrite releaseTask_eq.
  apply (tasks_ok_ext (updTask (_pSuspendedTaskAry s !!! idx) (madeDue cfg) s)); [done |].
  apply tasks_ok_updTask; [done |]. unfold madeDue.
  destruct (RTOS_ROUND_ROBIN_MODE_SUPPORTED cfg); auto.
Qed.

Lemma tasks_ok_scanSuspended (rounds idx : nat) (b : bool) (s : kernel) :
  tasks_ok Q s → tasks_ok Q (snd (scanSuspended cfg rounds idx b s)).
Proof.
  revert idx b s. induction rounds as [| rounds IH]; intros idx b s Hs; simpl; [done |].
  destruct (idx <? _noSuspendedTasks s); [| done].
  destruct (releaseTest cfg _).
  - apply IH. by apply tasks_ok_releaseTask.
  - by apply IH.
Qed.

Lemma tasks_ok_checkForTaskActivation (hint : bool) (s : kernel) :
  tasks_ok Q s → tasks_ok Q (fst (checkForTaskActivation cfg hint s)).
Proof.
  intros Hs. unfold checkForTaskActivation.
  pose proof (tasks_ok_scanSuspended (_noSuspendedTasks s) 0 hint s Hs) as Hscan.
  destruct (scanSuspended cfg _ 0 hint s) as [[i b] s1]. simpl in Hscan.
  destruct b; [| done].
  destruct (findDueClass _ _); [| done].
  simpl. by apply (tasks_ok_ext s1).
Qed.

Lemma tasks_ok_storeResumeCondition (pT : nat) (mask : Z) (all : bool) (timeout : Z)
    (s : kernel) :
  tasks_ok Q s → tasks_ok Q (storeResumeCondition cfg pT mask all timeout s).
Proof.
  intros Hs. unfold storeResumeCondition.
  set (s1 := if negb _ then _ else _).
  assert (Hs1 : tasks_ok Q s1).
  { unfold s1. destruct (negb _).
    - set (s2 := updTask pT _ s).
      assert (Hs2 : tasks_ok Q s2) by (apply tasks_ok_updTask; auto).
      cbv zeta. destruct (_ <=? 0)%Z; [| done].
      set (s3 := if (_ <? 255)%Z then _ else s2).
      assert (Hs3 : tasks_ok Q s3).
      { unfold s3. destruct (_ <? 255)%Z; [| done]. apply tasks_ok_updTask; auto. }
      apply tasks_ok_updTask; auto.
    - apply tasks_ok_updTask; auto. }
  apply tasks_ok_updTask; [apply tasks_ok_updTask; auto |].
  apply Q_waitForAnyEvent. apply tasks_ok_updTask; auto.
Qed.

Lemma tasks_ok_PUSH_RET_CODE_OF_CONTEXT_SWITCH (s : kernel) :
  tasks_ok Q s → tasks_ok Q (fst (PUSH_RET_CODE_OF_CONTEXT_SWITCH s)).
Proof.
  intros Hs. unfold PUSH_RET_CODE_OF_CONTEXT_SWITCH.
  destruct (0 <? _)%Z; [| done]. simpl. apply tasks_ok_updTask; auto.
Qed.

Lemma tasks_ok_enter (e : entry) (s : kernel) :
  tasks_ok Q s → tasks_ok Q (enter cfg e s).
Proof.
  intros Hs. destruct e as [| vec | mask all timeout | idx doReset]; simpl.
  - unfold ISR_SYSTEM_TIMER_TIC, onTimerTic.
    assert (H0 : tasks_ok Q (clockTimers cfg s)).
    { unfold clockTimers. apply tasks_ok_forSuspendedTasks.
      - intros x t y. apply tasks_ok_serveTimers.
      - by apply (tasks_ok_ext s). }
    pose proof (tasks_ok_roundRobin _ H0) as H1.
    destruct (roundRobin cfg (clockTimers cfg s)) as [s1 hint]. simpl in H1.
    pose proof (tasks_ok_checkForTaskActivation hint s1 H1) as H2.
    destruct (checkForTaskActivation cfg hint s1) as [s2 b]. simpl in H2.
    destruct b; [by apply tasks_ok_PUSH_RET_CODE_OF_CONTEXT_SWITCH | done].
  - unfold rtos_setEvent, setEvent.
    set (s1 := postEvents _ s).
    assert (H1 : tasks_ok Q s1).
    { unfold s1, postEvents. apply tasks_ok_forSuspendedTasks; [| done].
      intros x t y. apply Q_postedEventVec. }
    pose proof (tasks_ok_checkForTaskActivation false s1 H1) as H2.
    destruct (checkForTaskActivation cfg false s1) as [s2 b]. simpl in H2.
    destruct b; [by apply tasks_ok_PUSH_RET_CODE_OF_CONTEXT_SWITCH | done].
  - unfold rtos_waitForEvent. apply tasks_ok_PUSH_RET_CODE_OF_CONTEXT_SWITCH.
    unfold waitForEvent. cbv zeta.
    set (s0 := set_pDueTaskAryAry _ _).
    assert (Hs0 : tasks_ok Q s0) by (by apply (tasks_ok_ext s)).
    pose proof (tasks_ok_storeResumeCondition (_pActiveTask s) mask all timeout s0 Hs0)
      as Hs1.
    destruct (findDueClass _ _); (eapply tasks_ok_ext; [| exact Hs1]; done).
  - unfold rtos_getTaskOverrunCounter. destruct doReset; [| done]. simpl.
    apply tasks_ok_updTask; auto.
Qed.

End TaskInvariant.

Lemma enter_preserved {X : Type} (g : task_t → X) (e : entry) (s : kernel) (t : nat) :
  (∀ v x, g (set_timeDueAt v x) = g x) →
  (∀ v x, g (set_cntOverrun v x) = g x) →
  (∀ v x, g (set_cntDelay v x) = g x) →
  (∀ v x, g (set_eventMask v x) = g x) →
  (∀ v x, g (set_waitForAnyEvent v x) = g x) →
  (∀ v x, g (set_postedEventVec v x) = g x) →
  (∀ v x, g (set_cntRoundRobin v x) = g x) →
  g (task (enter cfg e s) t) = g (task s t).
Proof.
  intros H1 H2 H3 H4 H5 H6 H7.
  apply (tasks_ok_enter (λ u x, g x = g (task s u))); try done;
    intros; congruence.
Qed.

Lemma reachable_preserved {X : Type} (g : task_t → X) (setup : list initArgs)
    (s : kernel) (t : nat) :
  (∀ v x, g (set_timeDueAt v x) = g x) →
  (∀ v x, g (set_cntOverrun v x) = g x) →
  (∀ v x, g (set_cntDelay v x) = g x) →
  (∀ v x, g (set_eventMask v x) = g x) →
  (∀ v x, g (set_waitForAnyEvent v x) = g x) →
  (∀ v x, g (set_postedEventVec v x) = g x) →
  (∀ v x, g (set_cntRoundRobin v x) = g x) →
  reachable cfg setup s →
  g (task s t) = g (task (rtos_initRTOS cfg setup) t).
Proof.
  intros H1 H2 H3 H4 H5 H6 H7 Hr.
  induction Hr as
    [| s Hr IH | s vec Hr IH Hvec | s mask all timeout Hr IH Hidle Hmask Hto
     | s idxTask doReset Hr IH Hidx].
  - done.
  - rewrite <- IH. by apply (enter_preserved g TimerTic).
  - rewrite <- IH. by apply (enter_preserved g (SetEvent vec)).
  - rewrite <- IH. by apply (enter_preserved g (WaitForEvent mask all timeout)).
  - rewrite <- IH. by apply (enter_preserved g (GetTaskOverrunCounter idxTask doReset)).
Qed.

(** X12: the priority class and the round robin time slice of a task are
    those its initialization has set, in every reachable state: no kernel
    entry changes them. *)
Theorem task_configuration_static (setup : list initArgs) (a : initArgs) (s : kernel) :
  a ∈ setup → NoDup (ia_idxTask <$> setup) → ia_idxTask a < RTOS_NO_TASKS cfg →
  reachable cfg setup s →
  prioClass (task s (ia_idxTask a)) = ia_prioClass a
  ∧ (RTOS_ROUND_ROBIN_MODE_SUPPORTED cfg = true →
     timeRoundRobin (task s (ia_idxTask a)) = ia_timeRoundRobin a).
Proof.
  intros Hin Hnd Hlt Hr.
  destruct (rtos_initRTOS_stored setup a Hin Hnd Hlt) as (Hp & _ & _ & Hrr & _).
  rewrite (reachable_preserved prioClass setup s) by done.
  rewrite (reachable_preserved timeRoundRobin setup s) by done.
  done.
Qed.

Lemma reachable_time_slice (setup : list initArgs) (s : kernel) (t : nat) :
  (0 < TIME_BITS cfg)%Z → Forall (initArgs_ok cfg) setup →
  reachable cfg setup s →
  (0 ≤ cntRoundRobin (task s t) ≤ timeRoundRobin (task s t))%Z
  ∧ (timeRoundRobin (task s t) < 2 ^ TIME_BITS cfg)%Z.
Proof.
  intros Hw Hall Hr. revert t.
  change (tasks_ok (λ _ x, (0 ≤ cntRoundRobin x ≤ timeRoundRobin x)%Z
                           ∧ (timeRoundRobin x < 2 ^ TIME_BITS cfg)%Z) s).
  assert (Hstep : ∀ e x,
            tasks_ok (λ _ x, (0 ≤ cntRoundRobin x ≤ timeRoundRobin x)%Z
                             ∧ (timeRoundRobin x < 2 ^ TIME_BITS cfg)%Z) x →
            tasks_ok (λ _ x, (0 ≤ cntRoundRobin x ≤ timeRoundRobin x)%Z
                             ∧ (timeRoundRobin x < 2 ^ TIME_BITS cfg)%Z) (enter cfg e x)).
  { intros e x. apply tasks_ok_enter; try done.
    - intros _ x0 [H1 H2]. simpl. lia.
    - intros _ x0 [H1 H2] Hpos. simpl. unfold uintTime.
      rewrite Z.mod_small by lia. lia. }
  induction Hr as
    [| s Hr IH | s vec Hr IH Hvec | s mask all timeout Hr IH Hidle Hmask Hto
     | s idxTask doReset Hr IH Hidx].
  - intros t. destruct (rtos_initRTOS_cleared setup t) as (_ & _ & ->).
    pose proof (rtos_initRTOS_range setup Hw Hall) as [_ Hrng].
    pose proof (rng_timeRoundRobin _ _ (Hrng t)). lia.
  - by apply (Hstep TimerTic).
  - by apply (Hstep (SetEvent vec)).
  - by apply (Hstep (WaitForEvent mask all timeout)).
  - by apply (Hstep (GetTaskOverrunCounter idxTask doReset)).
Qed.

(** X13: the round robin counter of a task never exceeds its time slice,
    and a task with a time slice of zero is not subject to round robin:
    while it is active a timer tic rolls no priority class, every due task
    keeps its place and the released tasks are appended. *)
Theorem round_robin_off (setup : list initArgs) (s : kernel) :
  config_ok cfg → setup_ok cfg setup → (0 < TIME_BITS cfg)%Z →
  reachable cfg setup s →
  (∀ t, (0 ≤ cntRoundRobin (task s t) ≤ timeRoundRobin (task s t))%Z)
  ∧ (timeRoundRobin (task s (_pActiveTask s)) = 0%Z →
     roundRobin cfg (clockTimers cfg s) = (clockTimers cfg s, false)
     ∧ ∀ c, dueList s c `prefix_of` dueList (ISR_SYSTEM_TIMER_TIC cfg s) c).
Proof.
  intros Hcfg Hsetup Hw Hr.
  pose proof (reachable_kernel_inv cfg setup s Hcfg Hsetup Hr) as Hk.
  split; [intros t; apply (reachable_time_slice setup s t Hw (proj1 Hsetup) Hr) |].
  intros Hoff.
  destruct (reachable_time_slice setup s (_pActiveTask s) Hw (proj1 Hsetup) Hr)
    as [Hcnt _].
  assert (H0 : cntRoundRobin (task s (_pActiveTask s)) = 0%Z) by lia.
  destruct (clockTimers_spec s (proj1 Hk)) as (Hfr & _ & _ & Hother & _).
  assert (Ha0 : _pActiveTask (clockTimers cfg s) = _pActiveTask s) by (by rewrite Hfr).
  assert (Hrr : roundRobin cfg (clockTimers cfg s) = (clockTimers cfg s, false)).
  { unfold roundRobin. destruct (RTOS_ROUND_ROBIN_MODE_SUPPORTED cfg); [| done].
    rewrite Ha0, (Hother _ (active_not_suspended cfg s Hk)), H0. done. }
  split; [done |]. intros c.
  destruct (onTimerTic_spec s Hcfg Hk)
    as (_ & _ & _ & _ & _ & _ & _ & _ & _ & Hdl2 & _ & _ & _ & Hquiet & _).
  rewrite Hrr in Hquiet, Hdl2. simpl in Hquiet, Hdl2.
  rewrite ISR_SYSTEM_TIMER_TIC_eq.
  set (s2 := fst (onTimerTic cfg s)) in *.
  assert (H2 : dueList s c `prefix_of` dueList s2 c).
  { rewrite Hdl2, (Hquiet eq_refl). by apply prefix_app_r. }
  destruct (snd (onTimerTic cfg s)); [| done].
  destruct (PUSH_RET_CODE_OF_CONTEXT_SWITCH_lists s2) as (_ & Hd & _). by rewrite Hd.
Qed.

(** ** Events nobody waits for *)

Lemma taskAry_ext (s s' : kernel) :
  length (_taskAry s') = length (_taskAry s) →
  (∀ t, task s' t = task s t) → _taskAry s' = _taskAry s.
Proof.
  intros Hl Ht. apply list_eq. intros i.
  destruct (decide (i < length (_taskAry s))) as [Hlt | Hge].
  - specialize (Ht i). unfold task in Ht.
    rewrite !list_lookup_total_alt in Ht.
    destruct (lookup_lt_is_Some_2 (_taskAry s) i Hlt) as [x Hx].
    destruct (lookup_lt_is_Some_2 (_taskAry s') i ltac:(lia)) as [x' Hx'].
    rewrite Hx, Hx' in *. simpl in Ht. by rewrite Ht.
  - rewrite !lookup_ge_None_2 by lia. done.
Qed.

Lemma land_u16_timer_free_sub (vec m : Z) :
  let TM := Z.lor (RTOS_EVT_ABSOLUTE_TIMER cfg) (RTOS_EVT_DELAY_TIMER cfg) in
  Z.land vec m = 0%Z → Z.land (u16 (Z.land vec (Z.lnot TM))) m = 0%Z.
Proof.
  intros TM Hv. apply Z.bits_inj'. intros i Hi. rewrite Z.bits_0, Z.land_spec.
  apply (f_equal (λ z, Z.testbit z i)) in Hv.
  rewrite Z.bits_0, Z.land_spec in Hv.
  unfold u16. change 65536%Z with (2 ^ 16)%Z.
  destruct (Z.lt_ge_cases i 16).
  - rewrite Z.mod_pow2_bits_low by done. rewrite Z.land_spec.
    destruct (Z.testbit vec i), (Z.testbit m i); try done. by rewrite andb_false_r.
  - by rewrite Z.mod_pow2_bits_high by lia.
Qed.

(** X14: an event is not stored.  If no suspended task has one of the
    posted events in its mask (and no suspended task is releasable as it
    is), [rtos_setEvent] leaves the state of the kernel as it is: a task
    that suspends itself later to wait for the event does not see it. *)
Theorem setEvent_not_stored (setup : list initArgs) (s : kernel) (vec : Z) :
  config_ok cfg → setup_ok cfg setup → reachable cfg setup s →
  (∀ t, t ∈ suspList s → Z.land vec (eventMask (task s t)) = 0%Z) →
  (∀ t, t ∈ suspList s → releaseTest cfg (task s t) = false) →
  rtos_setEvent cfg vec s = s.
Proof.
  intros Hcfg Hsetup Hr Hmask Hrel.
  pose proof (reachable_kernel_inv cfg setup s Hcfg Hsetup Hr) as Hk.
  destruct (setEvent_spec vec s Hcfg Hk)
    as (_ & _ & _ & _ & _ & Hother & Hsusp & _ & _ & _ & _ & _ & Hnone).
  destruct (postEvents_frame cfg
              (u16 (Z.land vec (Z.lnot (Z.lor (RTOS_EVT_ABSOLUTE_TIMER cfg)
                                          (RTOS_EVT_DELAY_TIMER cfg))))) s (proj1 Hk))
    as (Hfr & Hpr & _).
  set (s1 := postEvents _ s) in *.
  assert (Htasks : ∀ t, task s1 t = task s t).
  { intros t. destruct (decide (t ∈ suspList s)) as [Hin | Hnot]; [| by apply Hother].
    rewrite (Hsusp t Hin), (land_u16_timer_free_sub vec _ (Hmask t Hin)), Z.lor_0_r.
    by destruct (task s t). }
  assert (Hs1 : s1 = s).
  { rewrite Hfr. rewrite (taskAry_ext s s1).
    - by destruct s.
    - apply (f_equal length) in Hpr. unfold prios in Hpr. by rewrite !length_fmap in Hpr.
    - done. }
  destruct Hnone as [Hs2 Hb].
  { apply filter_none. intros t Ht. rewrite Htasks, (Hrel t Ht). done. }
  rewrite rtos_setEvent_eq, Hb, Hs2. done.
Qed.

(** ** The suspend command in the idle task *)

Lemma idle_prioClass (setup : list initArgs) (s : kernel) :
  Forall (initArgs_ok cfg) setup → reachable cfg setup s →
  prioClass (task s (_pIdleTask cfg)) = 0.
Proof.
  intros Hall Hr. rewrite (reachable_preserved prioClass setup s) by done.
  rewrite rtos_initRTOS_task. unfold _pIdleTask, IDLE_TASK_ID.
  rewrite decide_False by lia. rewrite decide_True by done.
  destruct (RTOS_ROUND_ROBIN_MODE_SUPPORTED cfg); simpl;
    (rewrite setup_other; [by rewrite task_staticData |]);
    (intros Hin; apply list_elem_of_fmap in Hin as (a & Heq & Hin);
     rewrite Forall_forall in Hall; destruct (Hall a Hin) as (Hlt & _); lia).
Qed.

(** X15: a suspend command of the idle task corrupts the due counters.
    When the idle task is active no task is due; [waitForEvent] then
    decrements the due counter of priority class 0, which is 0, so that it
    wraps to 255. *)
Theorem idle_suspend_underflow (setup : list initArgs) (s : kernel)
    (mask : Z) (all : bool) (timeout : Z) :
  config_ok cfg → setup_ok cfg setup → reachable cfg setup s →
  0 < RTOS_NO_PRIO_CLASSES cfg →
  _pActiveTask s = _pIdleTask cfg →
  (∀ c, c < RTOS_NO_PRIO_CLASSES cfg → _noDueTasksAry s !!! c = 0)
  ∧ _noDueTasksAry (waitForEvent cfg mask all timeout s) !!! 0 = 255.
Proof.
  intros Hcfg Hsetup Hr Hcls Hidle.
  pose proof (reachable_kernel_inv cfg setup s Hcfg Hsetup Hr) as Hk.
  pose proof Hk as [Hinv Hact].
  assert (Hempty : ∀ c, c < RTOS_NO_PRIO_CLASSES cfg → _noDueTasksAry s !!! c = 0).
  { intros c Hc. apply (dueList_nil_iff cfg s c Hinv Hc).
    pose proof (selectActive_highestDue cfg s Hinv) as Hh.
    rewrite <- Hact, Hidle in Hh.
    destruct Hh as [(c0 & Hc0 & Hhead & _) | [Hall _]]; [| by apply Hall].
    exfalso. apply (idle_nowhere cfg s Hinv). apply elem_of_app. left.
    apply elem_of_allDue. exists c0. split; [done |].
    destruct (dueList s c0); [done |]. simpl in Hhead. injection Hhead as ->. left. }
  split; [done |].
  assert (Hprio : prioClass (task s (_pActiveTask s)) = 0).
  { rewrite Hidle. by apply (idle_prioClass setup s (proj1 Hsetup)). }
  unfold waitForEvent. cbv zeta. rewrite Hprio, (Hempty 0 Hcls).
  set (s0 := set_pDueTaskAryAry _ _).
  destruct (storeResumeCondition_frame cfg (_pActiveTask s) mask all timeout s0)
    as (Hfr & _).
  assert (Hnd : _noDueTasksAry (storeResumeCondition cfg (_pActiveTask s) mask all timeout s0)
                = <[0 := u8_dec 0]> (_noDueTasksAry s)) by (by rewrite Hfr).
  assert (Hres : <[0 := u8_dec 0]> (_noDueTasksAry s) !!! 0 = 255).
  { rewrite list_lookup_total_insert_eq; [done |].
    rewrite (inv_len_noDue _ _ Hinv). done. }
  destruct (findDueClass _ _);
    unfold set_pActiveTask, set_pSuspendedTask, set_noSuspendedTasks,
      set_pSuspendedTaskAry; cbn [_noDueTasksAry]; by rewrite Hnd.
Qed.

(** ** Waiting for the absolute timer *)

Lemma serveTimers_absolute (time : Z) (t : task_t) :
  timer_events_ok cfg →
  eventMask t = RTOS_EVT_ABSOLUTE_TIMER cfg → postedEventVec t = 0%Z →
  let t' := serveTimers cfg time t in
  eventMask t' = RTOS_EVT_ABSOLUTE_TIMER cfg
  ∧ waitForAnyEvent t' = waitForAnyEvent t
  ∧ timeDueAt t' = timeDueAt t
  ∧ postedEventVec t'
    = (if (time =? timeDueAt t)%Z then RTOS_EVT_ABSOLUTE_TIMER cfg else 0%Z).
Proof.
  intros (_ & _ & Hdisj) Hm Hp t'. unfold t', serveTimers.
  set (t1 := if (time =? timeDueAt t)%Z then _ else t).
  assert (H1 : eventMask t1 = RTOS_EVT_ABSOLUTE_TIMER cfg
               ∧ waitForAnyEvent t1 = waitForAnyEvent t
               ∧ timeDueAt t1 = timeDueAt t
               ∧ postedEventVec t1
                 = (if (time =? timeDueAt t)%Z then RTOS_EVT_ABSOLUTE_TIMER cfg else 0%Z)).
  { unfold t1. destruct (time =? timeDueAt t)%Z; [| done]. simpl.
    split_and!; try done. by rewrite Hp, Hm, Z.land_diag. }
  destruct H1 as (Hm1 & Ha1 & Hd1 & Hp1). cbv zeta.
  destruct (0 <? cntDelay t1)%Z; [| done].
  destruct (_ =? 0)%Z; simpl; [| done].
  split_and!; try done.
  by rewrite Hm1, (Z.land_comm (RTOS_EVT_DELAY_TIMER cfg)), Hdisj, Z.lor_0_r.
Qed.

Lemma enter_waiting_absolute (e : entry) (s : kernel) (a : nat) (j : Z) :
  config_ok cfg → (0 < TIME_BITS cfg)%Z → timer_events_ok cfg →
  kernel_inv cfg s → permitted cfg e s →
  a ∈ suspList s →
  eventMask (task s a) = RTOS_EVT_ABSOLUTE_TIMER cfg →
  waitForAnyEvent (task s a) = true →
  postedEventVec (task s a) = 0%Z →
  (0 ≤ timeDueAt (task s a) < 2 ^ TIME_BITS cfg)%Z →
  ((timeDueAt (task s a) - _time s) mod 2 ^ TIME_BITS cfg)%Z = j →
  (1 ≤ j)%Z →
  let s' := enter cfg e s in
  let j' := match e with TimerTic => (j - 1)%Z | _ => j end in
  if (j' =? 0)%Z then
    (a ∉ suspList s') ∧ a ∈ allDue cfg s' ∧ _time s' = timeDueAt (task s a)
  else
    a ∈ suspList s'
    ∧ eventMask (task s' a) = RTOS_EVT_ABSOLUTE_TIMER cfg
    ∧ waitForAnyEvent (task s' a) = true
    ∧ postedEventVec (task s' a) = 0%Z
    ∧ timeDueAt (task s' a) = timeDueAt (task s a)
    ∧ ((timeDueAt (task s' a) - _time s') mod 2 ^ TIME_BITS cfg)%Z = j'.
Proof.
  intros Hcfg Hw Hev Hk Hp Hin Hm Hany Hpost Hdue Hj Hj1 s' j'.
  pose proof Hk as [Hinv _].
  assert (H2w : (0 < 2 ^ TIME_BITS cfg)%Z) by (apply Z.pow_pos_nonneg; lia).
  assert (Hjlt : (j < 2 ^ TIME_BITS cfg)%Z).
  { rewrite <- Hj. by apply Z.mod_pos_bound. }
  assert (Hanot : a ≠ _pActiveTask s).
  { intros ->. by apply (active_not_suspended cfg s Hk). }
  pose proof (enter_time e s Hcfg Hk) as Htime. fold s' in Htime.
  destruct e as [| vec | mask all timeout | idx doReset]; unfold s', j' in *; simpl enter in *.
  - (* timer tic *)
    rewrite ISR_SYSTEM_TIMER_TIC_eq.
    rewrite ISR_SYSTEM_TIMER_TIC_eq in Htime.
    destruct (onTimerTic_spec s Hcfg Hk)
      as (_ & Hk2 & Hinv1 & _ & Hpr2 & _ & _ & Hs1 & Hsl2 & Hdl2 & Htk2 & _).
    destruct (clockTimers_spec s Hinv) as (_ & _ & _ & _ & Hsusp0).
    set (s1 := fst (roundRobin cfg (clockTimers cfg s))) in *.
    set (s2 := fst (onTimerTic cfg s)) in *.
    destruct (serveTimers_absolute (uintTime cfg (_time s + 1)) (task s a) Hev Hm Hpost)
      as (Hm' & Ha' & Hd' & Hp').
    rewrite <- (Hsusp0 a Hin), <- (Hs1 a Hanot) in Hm', Ha', Hd', Hp'.
    rewrite Hany in Ha'.
    assert (Hnow : (uintTime cfg (_time s + 1) =? timeDueAt (task s a))%Z = (j =? 1)%Z).
    { unfold uintTime.
      assert (Hmod : ((timeDueAt (task s a) - (_time s + 1) mod 2 ^ TIME_BITS cfg)
                      mod 2 ^ TIME_BITS cfg = (j - 1) mod 2 ^ TIME_BITS cfg)%Z).
      { rewrite Zminus_mod_idemp_r. rewrite <- Hj, Zminus_mod_idemp_l. f_equal. lia. }
      rewrite (Z.mod_small (j - 1)) in Hmod by lia.
      destruct (Z.eqb_spec ((_time s + 1) mod 2 ^ TIME_BITS cfg) (timeDueAt (task s a)))
        as [Heq | Hne]; destruct (Z.eqb_spec j 1) as [Hj' | Hj']; try done.
      - rewrite Heq, Z.sub_diag, Z.mod_0_l in Hmod by lia. lia.
      - subst j. rewrite Hj' in Hmod. simpl in Hmod.
        pose proof (Z.mod_pos_bound (_time s + 1) (2 ^ TIME_BITS cfg) H2w) as Hb.
        apply Z.mod_divide in Hmod; [| lia]. destruct Hmod as [q Hq].
        assert (q = 0)%Z by nia. lia. }
    rewrite Hnow in Hp'.
    assert (Hrel : releaseTest cfg (task s1 a) = (j =? 1)%Z).
    { rewrite (releaseTest_any _ Ha'), Hp'. destruct Hev as (HA & _ & _).
      destruct (j =? 1)%Z; [| done].
      destruct (Z.eqb_spec (RTOS_EVT_ABSOLUTE_TIMER cfg) 0); [lia | done]. }
    assert (Hlists : ∀ x, suspList x = suspList s2 →
              (∀ c, dueList x c = dueList s2 c) →
              (a ∈ suspList s2 → task x a = task s2 a) →
              _time x = uintTime cfg (_time s + 1) →
              if (j - 1 =? 0)%Z
              then (a ∉ suspList x) ∧ a ∈ allDue cfg x ∧ _time x = timeDueAt (task s a)
              else a ∈ suspList x
                   ∧ eventMask (task x a) = RTOS_EVT_ABSOLUTE_TIMER cfg
                   ∧ waitForAnyEvent (task x a) = true
                   ∧ postedEventVec (task x a) = 0%Z
                   ∧ timeDueAt (task x a) = timeDueAt (task s a)
                   ∧ ((timeDueAt (task x a) - _time x) mod 2 ^ TIME_BITS cfg)%Z
                     = (j - 1)%Z).
    { intros x Hxs Hxd Hxt Hxtime.
      destruct (Z.eqb_spec (j - 1) 0) as [H0 | H0].
      - assert (Hk1 : (j =? 1)%Z = true) by (apply Z.eqb_eq; lia).
        rewrite Hk1 in Hrel, Hnow. split_and!.
        + rewrite Hxs, Hsl2, list_elem_of_filter. intros [Hn _]. by apply Hn.
        + apply elem_of_allDue.
          exists (prios s !!! a). split.
          * apply (inv_prio _ _ Hinv). by apply (susp_lt cfg s a Hinv).
          * rewrite Hxd, Hdl2. apply elem_of_app. right.
            by apply list_elem_of_filter.
        + rewrite Hxtime. by apply Z.eqb_eq.
      - assert (Hk1 : (j =? 1)%Z = false) by (apply Z.eqb_neq; lia).
        rewrite Hk1 in Hrel, Hp'.
        assert (Hnr : a ∉ filter (λ t, releaseTest cfg (task s1 t) = true) (suspList s)).
        { rewrite list_elem_of_filter. intros [Hr _]. congruence. }
        assert (Hin2 : a ∈ suspList s2).
        { rewrite Hsl2. apply list_elem_of_filter. split; [congruence | done]. }
        rewrite (Hxt Hin2), Htk2, decide_False by done.
        split_and!; try done; [by rewrite Hxs |].
        rewrite Hd', Hxtime. unfold uintTime.
        rewrite Zminus_mod_idemp_r. rewrite <- (Z.mod_small (j - 1) (2 ^ TIME_BITS cfg)) by lia.
        rewrite <- Hj, Zminus_mod_idemp_l. f_equal. lia. }
    destruct (snd (onTimerTic cfg s)).
    + destruct (PUSH_RET_CODE_OF_CONTEXT_SWITCH_spec s2) as (Hfr & Hne & _).
      apply Hlists; try done.
      * by rewrite Hfr.
      * intros c. by rewrite Hfr.
      * intros Hin2. apply Hne. intros ->.
        by apply (active_not_suspended cfg s2 Hk2).
    + by apply Hlists.
  - (* posted events *)
    rewrite rtos_setEvent_eq. rewrite rtos_setEvent_eq in Htime.
    destruct (setEvent_spec vec s Hcfg Hk)
      as (_ & Hk2 & _ & _ & _ & _ & Hsusp1 & Hsl2 & _ & Htk2 & _).
    set (s1 := postEvents _ s) in *.
    set (s2 := fst (setEvent cfg vec s)) in *.
    pose proof (Hsusp1 a Hin) as Ht1.
    assert (Hfree : Z.land (RTOS_EVT_ABSOLUTE_TIMER cfg)
                      (Z.lnot (Z.lor (RTOS_EVT_ABSOLUTE_TIMER cfg)
                                 (RTOS_EVT_DELAY_TIMER cfg))) = 0%Z).
    { apply Z.bits_inj'. intros i Hi.
      rewrite Z.bits_0, Z.land_spec, Z.lnot_spec, Z.lor_spec by done.
      by destruct (Z.testbit _ i), (Z.testbit _ i). }
    rewrite Hm, (land_timer_free vec _ Hfree), Hpost in Ht1. simpl in Ht1.
    assert (Hrel : releaseTest cfg (task s1 a) = false).
    { rewrite releaseTest_any; by rewrite Ht1. }
    assert (Hnr : a ∉ filter (λ t, releaseTest cfg (task s1 t) = true) (suspList s)).
    { rewrite list_elem_of_filter. intros [Hr _]. congruence. }
    assert (Hin2 : a ∈ suspList s2).
    { rewrite Hsl2. apply list_elem_of_filter. split; [congruence | done]. }
    assert (Ht2 : task s2 a = task s1 a) by (by rewrite Htk2, decide_False).
    destruct (Z.eqb_spec j 0); [lia |].
    assert (Hres : ∀ x, suspList x = suspList s2 → task x a = task s2 a →
              _time x = _time s →
              a ∈ suspList x
              ∧ eventMask (task x a) = RTOS_EVT_ABSOLUTE_TIMER cfg
              ∧ waitForAnyEvent (task x a) = true
              ∧ postedEventVec (task x a) = 0%Z
              ∧ timeDueAt (task x a) = timeDueAt (task s a)
              ∧ ((timeDueAt (task x a) - _time x) mod 2 ^ TIME_BITS cfg)%Z = j).
    { intros x Hxs Hxt Hxtime. rewrite Hxs, Hxt, Ht2, Ht1, Hxtime. done. }
    destruct (snd (setEvent cfg vec s)); [| by apply Hres].
    destruct (PUSH_RET_CODE_OF_CONTEXT_SWITCH_suspended s2 a Hk2 Hin2) as (H1 & H2 & _).
    by apply Hres.
  - (* another task suspends itself *)
    destruct Hp as (Hidle & _). unfold rtos_waitForEvent in *.
    destruct (waitForEvent_spec cfg s mask all timeout Hcfg Hk Hidle)
      as (_ & _ & _ & Hta & Hsl & _ & _ & _ & Hk').
    set (sw := waitForEvent cfg mask all timeout s) in *.
    assert (Hinw : a ∈ suspList sw) by (rewrite Hsl, elem_of_app; by left).
    assert (Htw : task sw a = task s a).
    { unfold task at 1. rewrite Hta.
      by apply (storeResumeCondition_frame cfg (_pActiveTask s) mask all timeout s). }
    destruct (PUSH_RET_CODE_OF_CONTEXT_SWITCH_suspended sw a Hk' Hinw) as (H1 & H2 & _).
    destruct (Z.eqb_spec j 0); [lia |].
    rewrite H2, H1, Htw, Htime. done.
  - (* an overrun counter is read *)
    destruct (Z.eqb_spec j 0); [lia |].
    unfold rtos_getTaskOverrunCounter in *. destruct doReset; [| done]. simpl in *.
    rewrite (task_updTask_preserved eventMask), (task_updTask_preserved waitForAnyEvent),
      (task_updTask_preserved postedEventVec), (task_updTask_preserved timeDueAt) by done.
    done.
Qed.

Lemma run_absolute_elapses (setup : list initArgs) (es : list entry) (s : kernel)
    (a : nat) (j : Z) :
  config_ok cfg → setup_ok cfg setup → (0 < TIME_BITS cfg)%Z → timer_events_ok cfg →
  reachable cfg setup s → permittedRun cfg es s →
  a ∈ suspList s →
  eventMask (task s a) = RTOS_EVT_ABSOLUTE_TIMER cfg →
  waitForAnyEvent (task s a) = true →
  postedEventVec (task s a) = 0%Z →
  (0 ≤ timeDueAt (task s a) < 2 ^ TIME_BITS cfg)%Z →
  ((timeDueAt (task s a) - _time s) mod 2 ^ TIME_BITS cfg)%Z = j →
  (Z.of_nat (tics es) < j)%Z →
  a ∈ suspList (run cfg es s)
  ∧ ((Z.of_nat (tics es) = j - 1)%Z →
     (a ∉ suspList (ISR_SYSTEM_TIMER_TIC cfg (run cfg es s)))
     ∧ a ∈ allDue cfg (ISR_SYSTEM_TIMER_TIC cfg (run cfg es s))
     ∧ _time (ISR_SYSTEM_TIMER_TIC cfg (run cfg es s)) = timeDueAt (task s a)).
Proof.
  intros Hcfg Hsetup Hw Hev. revert s j.
  induction es as [| e es IH]; intros s j Hr Hp Hin Hm Hany Hpost Hdue Hj Htics.
  - simpl run. split; [done |]. intros Hlast. simpl in Hlast.
    pose proof (reachable_kernel_inv cfg setup s Hcfg Hsetup Hr) as Hk.
    pose proof (enter_waiting_absolute TimerTic s a j Hcfg Hw Hev Hk I
                  Hin Hm Hany Hpost Hdue Hj ltac:(lia)) as Hstep.
    cbv zeta iota in Hstep.
    change (enter cfg TimerTic s) with (ISR_SYSTEM_TIMER_TIC cfg s) in Hstep.
    replace (j - 1 =? 0)%Z with true in Hstep; [done |].
    symmetry. apply Z.eqb_eq. lia.
  - destruct Hp as [Hp Hps]. simpl run.
    pose proof (reachable_kernel_inv cfg setup s Hcfg Hsetup Hr) as Hk.
    assert (Hj1 : (1 ≤ j)%Z) by lia.
    pose proof (enter_waiting_absolute e s a j Hcfg Hw Hev Hk Hp
                  Hin Hm Hany Hpost Hdue Hj Hj1) as Hstep.
    cbv zeta in Hstep.
    set (j' := match e with TimerTic => (j - 1)%Z | _ => j end) in *.
    assert (Hj' : (j' = j - Z.of_nat (tics (e :: es)) + Z.of_nat (tics es))%Z).
    { unfold j'. destruct e; simpl tics; lia. }
    destruct (Z.eqb_spec j' 0); [lia |].
    destruct Hstep as (Hin' & Hm' & Hany' & Hpost' & Hdue' & Hjj).
    destruct (IH (enter cfg e s) j' (enter_reachable setup e s Hr Hp) Hps
                Hin' Hm' Hany' Hpost' ltac:(by rewrite Hdue') Hjj ltac:(lia))
      as [H1 H2].
    split; [done |]. intros Hlast. rewrite <- Hdue'. apply H2. lia.
Qed.

Lemma storeResumeCondition_timeDueAt (s : kernel) (pT : nat) (mask : Z) (all : bool)
    (timeout : Z) :
  pT < length (_taskAry s) →
  Z.land mask (RTOS_EVT_ABSOLUTE_TIMER cfg) ≠ 0%Z →
  let due := uintTime cfg (timeDueAt (task s pT) + timeout) in
  timeDueAt (task (storeResumeCondition cfg pT mask all timeout s) pT)
  = if (intTime cfg (due - _time s) <=? 0)%Z then uintTime cfg (_time s + 1) else due.
Proof.
  intros Hlt Hmask due. unfold storeResumeCondition.
  destruct (Z.eqb_spec (Z.land mask (RTOS_EVT_ABSOLUTE_TIMER cfg)) 0); [done |].
  simpl negb. cbv iota zeta.
  set (s1 := updTask pT (λ t, set_timeDueAt (uintTime cfg (timeDueAt t + timeout)) t) s).
  assert (Ht1 : task s1 pT = set_timeDueAt due (task s pT)).
  { unfold s1. by rewrite task_updTask_eq. }
  assert (Hl1 : length (_taskAry s1) = length (_taskAry s))
    by (unfold s1; by rewrite length_updTask).
  rewrite Ht1. change (_time s1) with (_time s).
  change (timeDueAt (set_timeDueAt due (task s pT))) with due.
  destruct (_ <=? 0)%Z.
  - set (s2 := if (_ <? 255)%Z then _ else s1).
    assert (H2 : length (_taskAry s2) = length (_taskAry s) ∧ _time s2 = _time s).
    { unfold s2. destruct (_ <? 255)%Z; [| done]. by rewrite length_updTask. }
    destruct H2 as [Hl2 Htime2].
    rewrite !task_updTask_eq by (rewrite ?length_updTask; lia).
    simpl. by rewrite Htime2.
  - rewrite !task_updTask_eq by (rewrite ?length_updTask; lia).
    simpl. by rewrite Ht1.
Qed.

(** X16: a task that suspends itself for the absolute timer alone is made
    due by the very timer tic in which the system time reaches its due time,
    and by no entry before, whatever else happens: if the due time, the last
    one advanced by the timeout, is [d] tics ahead of the system time (in
    the signed reading), by the tic number [d]; if it is not ahead, which is
    counted as an overrun, by the next timer tic. *)
Theorem absolute_timer_elapses (setup : list initArgs) (s : kernel) (timeout : Z)
    (es : list entry) :
  config_ok cfg → setup_ok cfg setup → (0 < TIME_BITS cfg)%Z → timer_events_ok cfg →
  reachable cfg setup s → _pActiveTask s ≠ _pIdleTask cfg →
  (0 ≤ timeout < 2 ^ TIME_BITS cfg)%Z →
  let a := _pActiveTask s in
  let due := uintTime cfg (timeDueAt (task s a) + timeout) in
  let d := intTime cfg (due - _time s) in
  let j := if (0 <? d)%Z then d else 1%Z in
  let s0 := rtos_waitForEvent cfg (RTOS_EVT_ABSOLUTE_TIMER cfg) false timeout s in
  permittedRun cfg es s0 →
  (Z.of_nat (tics es) < j)%Z →
  a ∈ suspList (run cfg es s0)
  ∧ ((Z.of_nat (tics es) = j - 1)%Z →
     (a ∉ suspList (ISR_SYSTEM_TIMER_TIC cfg (run cfg es s0)))
     ∧ a ∈ allDue cfg (ISR_SYSTEM_TIMER_TIC cfg (run cfg es s0))
     ∧ ((0 < d)%Z → _time (ISR_SYSTEM_TIMER_TIC cfg (run cfg es s0)) = due)).
Proof.
  intros Hcfg Hsetup Hw Hev Hr Hidle Hto a due d j s0 Hp Htics.
  pose proof (reachable_kernel_inv cfg setup s Hcfg Hsetup Hr) as Hk.
  pose proof Hev as (HA & _ & Hdisj).
  assert (H2w : (1 < 2 ^ TIME_BITS cfg)%Z) by (apply Z.pow_gt_1; lia).
  assert (Hperm : permitted cfg (WaitForEvent (RTOS_EVT_ABSOLUTE_TIMER cfg) false timeout) s).
  { simpl. split_and!; try done; lia. }
  pose proof (enter_reachable setup _ s Hr Hperm) as Hr0. simpl in Hr0. fold s0 in Hr0.
  destruct (waitForEvent_spec cfg s (RTOS_EVT_ABSOLUTE_TIMER cfg) false timeout Hcfg Hk Hidle)
    as (_ & _ & _ & Hta & Hsl & _ & _ & _ & Hk').
  set (sw := waitForEvent cfg (RTOS_EVT_ABSOLUTE_TIMER cfg) false timeout s) in *.
  assert (Hinw : a ∈ suspList sw) by (rewrite Hsl, elem_of_app; right; left).
  destruct (PUSH_RET_CODE_OF_CONTEXT_SWITCH_suspended sw a Hk' Hinw) as (H1 & H2 & _).
  change (fst (PUSH_RET_CODE_OF_CONTEXT_SWITCH sw)) with s0 in H1, H2.
  assert (Htime0 : _time s0 = _time s).
  { apply (enter_time (WaitForEvent (RTOS_EVT_ABSOLUTE_TIMER cfg) false timeout) s Hcfg Hk). }
  assert (Halt : a < length (_taskAry s)).
  { rewrite (inv_len_tasks _ _ (proj1 Hk)). pose proof (active_valid cfg s Hk). unfold a. lia. }
  assert (Htw : task sw a
                = task (storeResumeCondition cfg a (RTOS_EVT_ABSOLUTE_TIMER cfg) false
                          timeout s) a).
  { unfold task at 1. by rewrite Hta. }
  destruct (storeResumeCondition_task_mask s a (RTOS_EVT_ABSOLUTE_TIMER cfg) false timeout
              Halt) as (Hm & Hany & Hpost & _).
  pose proof (storeResumeCondition_timeDueAt s a (RTOS_EVT_ABSOLUTE_TIMER cfg) false timeout
                Halt) as Hdue.
  cbv zeta in Hdue. fold due in Hdue. fold d in Hdue.
  rewrite <- Htw, <- H1 in Hm, Hany, Hpost, Hdue.
  destruct (reachable_vector_clear setup s Hcfg Hsetup Hw Hr) as [Hclear _].
  fold a in Hclear. rewrite Hclear in Hpost.
  rewrite Z.land_diag in Hdue. specialize (Hdue ltac:(lia)).
  assert (Hdrange : (0 ≤ timeDueAt (task s0 a) < 2 ^ TIME_BITS cfg)%Z).
  { rewrite Hdue. destruct (d <=? 0)%Z; by apply uintTime_range. }
  assert (Hj : ((timeDueAt (task s0 a) - _time s0) mod 2 ^ TIME_BITS cfg)%Z = j).
  { rewrite Hdue, Htime0. unfold j.
    destruct (Z.leb_spec d 0) as [Hle | Hgt]; destruct (Z.ltb_spec 0 d); try lia.
    - unfold uintTime. rewrite Zminus_mod_idemp_l.
      replace (_time s + 1 - _time s)%Z with 1%Z by lia. by apply Z.mod_small.
    - unfold d, intTime in *. cbv zeta in *.
      destruct (_ <? 2 ^ (TIME_BITS cfg - 1))%Z; [done |].
      pose proof (Z.mod_pos_bound (due - _time s) (2 ^ TIME_BITS cfg) ltac:(lia)). lia. }
  destruct (run_absolute_elapses setup es s0 a j Hcfg Hsetup Hw Hev Hr0 Hp
              ltac:(by rewrite H2) Hm Hany Hpost Hdrange Hj Htics) as [Ha Hb].
  split; [done |]. intros Hlast. destruct (Hb Hlast) as (Hb1 & Hb2 & Hb3).
  split_and!; try done. intros Hpos. rewrite Hb3, Hdue.
  destruct (Z.leb_spec d 0); [lia | done].
Qed.

(** ** The return code of the suspend command *)

Lemma land_mask_sub (p v mask : Z) :
  Z.land p (Z.lnot mask) = 0%Z →
  Z.land (Z.lor p (Z.land v mask)) (Z.lnot mask) = 0%Z.
Proof.
  intros Hp. apply land_lor_0; [done |].
  by rewrite <- Z.land_assoc, Z.land_lnot_diag, Z.land_0_r.
Qed.

Lemma serveTimers_awaits (time : Z) (t : task_t) :
  Z.land (postedEventVec t) (Z.lnot (eventMask t)) = 0%Z →
  eventMask (serveTimers cfg time t) = eventMask t
  ∧ waitForAnyEvent (serveTimers cfg time t) = waitForAnyEvent t
  ∧ Z.land (postedEventVec (serveTimers cfg time t)) (Z.lnot (eventMask t)) = 0%Z.
Proof.
  intros Hp. unfold serveTimers.
  destruct (time =? timeDueAt t)%Z; cbv zeta;
    repeat match goal with
           | |- context [if ?b then _ else _] => destruct b
           end;
    destruct t; simpl in *; split_and!; try done;
    repeat apply land_mask_sub; done.
Qed.

Lemma releaseTest_empty (t : task_t) :
  releaseTest cfg t = true → postedEventVec t = 0%Z →
  (0 ≤ eventMask t < 65536)%Z →
  waitForAnyEvent t = false
  ∧ Z.land (eventMask t) (Z.lnot (TIMER_EVT_MASK cfg)) = 0%Z.
Proof.
  unfold releaseTest. intros Hrel Hp Hm. rewrite Hp in Hrel.
  rewrite Z.lxor_0_l in Hrel.
  change (Z.land (Z.land 0 (eventMask t)) (TIMER_EVT_MASK cfg)) with 0%Z in Hrel.
  cbn [Z.eqb negb] in Hrel.
  rewrite andb_false_r, orb_false_l, orb_false_r in Hrel.
  apply andb_true_iff in Hrel as [Hw Hz]. apply negb_true_iff in Hw.
  split; [done |]. apply Z.eqb_eq in Hz.
  apply u16_range_bits in Hm as [_ Hhigh].
  apply Z.bits_inj'. intros i Hi. rewrite Z.bits_0, Z.land_spec.
  destruct (Z.ltb_spec i 16) as [Hlt | Hge].
  - assert (Hb : Z.testbit (Z.land (eventMask t) (u16 (Z.lnot (TIMER_EVT_MASK cfg)))) i
                 = false) by (by rewrite Hz, Z.bits_0).
    rewrite Z.land_spec in Hb. unfold u16 in Hb.
    change 65536%Z with (2 ^ 16)%Z in Hb.
    by rewrite Z.mod_pow2_bits_low in Hb by lia.
  - by rewrite Hhigh.
Qed.

Lemma PUSH_RET_CODE_OF_CONTEXT_SWITCH_awaits (x : kernel) (a : nat) (mask : Z)
    (all : bool) :
  kernel_inv cfg x → (0 ≤ postedEventVec (task x a))%Z →
  awaits cfg a mask all x →
  (_pActiveTask x ≠ a → awaits cfg a mask all (fst (PUSH_RET_CODE_OF_CONTEXT_SWITCH x)))
  ∧ (_pActiveTask x = a →
     match snd (PUSH_RET_CODE_OF_CONTEXT_SWITCH x) with
     | Some ev => (0 < ev)%Z ∧ Z.land ev (Z.lnot mask) = 0%Z
     | None => all = true ∧ Z.land mask (Z.lnot (TIMER_EVT_MASK cfg)) = 0%Z
     end).
Proof.
  intros Hk H0 [Hsub Hph].
  destruct (PUSH_RET_CODE_OF_CONTEXT_SWITCH_spec x) as (_ & Hne & _ & _ & _ & Hsnd).
  destruct (PUSH_RET_CODE_OF_CONTEXT_SWITCH_lists x) as (Hsl & _ & Had & _).
  split.
  - intros Hna. unfold awaits. rewrite (Hne a) by congruence. by rewrite Hsl, Had.
  - intros Hact. rewrite Hsnd, Hact.
    destruct Hph as [(Hin & _) | (_ & Hz)].
    { exfalso. apply (active_not_suspended cfg x Hk). by rewrite Hact. }
    destruct (Z.ltb_spec 0 (postedEventVec (task x a))); [done |].
    apply Hz. lia.
Qed.

Lemma due_not_suspended (s : kernel) (a : nat) :
  arrays_inv cfg s → a ∈ allDue cfg s → a ∉ suspList s.
Proof.
  intros Hinv Hd Hs. pose proof (inv_NoDup cfg s Hinv) as Hnd.
  apply NoDup_app in Hnd as (_ & Hdis & _). by apply (Hdis a).
Qed.

Lemma onTimerTic_awaits (s : kernel) (a : nat) (mask : Z) (all : bool) :
  config_ok cfg → kernel_inv cfg s → (0 ≤ mask < 65536)%Z →
  awaits cfg a mask all s → awaits cfg a mask all (fst (onTimerTic cfg s)).
Proof.
  intros Hcfg Hk Hmask [Hsub Hph]. pose proof Hk as [Hinv _].
  destruct (onTimerTic_spec s Hcfg Hk)
    as (_ & Hk2 & Hinv1 & _ & Hpr2 & _ & _ & Hs1 & Hsl2 & Hdl2 & Htk2 & _ & _ & Hh0 & Hh1).
  destruct (clockTimers_spec s Hinv) as (_ & _ & _ & _ & Hsusp0).
  set (s1 := fst (roundRobin cfg (clockTimers cfg s))) in *.
  set (s2 := fst (onTimerTic cfg s)) in *.
  destruct Hph as [(Hin & Hm & Hw) | (Hin & Hz)].
  - (* suspended: the timer events of the mask are posted *)
    assert (Hanot : a ≠ _pActiveTask s).
    { intros ->. by apply (active_not_suspended cfg s Hk). }
    rewrite <- Hm in Hsub.
    destruct (serveTimers_awaits (uintTime cfg (_time s + 1)) (task s a) Hsub)
      as (Hm' & Hw' & Hp').
    rewrite <- (Hsusp0 a Hin), <- (Hs1 a Hanot) in Hm', Hw', Hp'.
    rewrite Hm in Hm', Hp'. rewrite Hw in Hw'.
    destruct (releaseTest cfg (task s1 a)) eqn:Hrel.
    + assert (Hr : a ∈ filter (λ t, releaseTest cfg (task s1 t) = true) (suspList s))
        by (by apply list_elem_of_filter).
      assert (Ht2 : task s2 a = madeDue cfg (task s1 a)) by (by rewrite Htk2, decide_True).
      split; [by rewrite Ht2, madeDue_postedEventVec |]. right. split.
      * apply elem_of_allDue. exists (prios s !!! a). split.
        -- apply (inv_prio _ _ Hinv). by apply (susp_lt cfg s a Hinv).
        -- rewrite Hdl2. apply elem_of_app. right. by apply list_elem_of_filter.
      * rewrite Ht2, madeDue_postedEventVec. intros Hp0.
        destruct (releaseTest_empty (task s1 a) Hrel Hp0) as [Hw0 Hm0];
          [by rewrite Hm' |].
        rewrite Hw' in Hw0. rewrite Hm' in Hm0. by destruct all.
    + assert (Hnr : a ∉ filter (λ t, releaseTest cfg (task s1 t) = true) (suspList s)).
      { rewrite list_elem_of_filter. intros [Hr _]. congruence. }
      assert (Ht2 : task s2 a = task s1 a) by (by rewrite Htk2, decide_False).
      split; [by rewrite Ht2 |]. left. rewrite Ht2. split_and!; try done.
      rewrite Hsl2. apply list_elem_of_filter. split; [congruence | done].
  - (* due: the task object is not touched *)
    pose proof (due_not_suspended s a Hinv Hin) as Hns.
    pose proof (onTimerTic_postedEventVec s a Hcfg Hk Hns) as Hp. fold s2 in Hp.
    split; [by rewrite Hp |]. right. split; [| by rewrite Hp].
    apply elem_of_allDue in Hin as (c & Hc & Hin). apply elem_of_allDue.
    exists c. split; [done |]. rewrite Hdl2. apply elem_of_app. left.
    destruct (snd (roundRobin cfg (clockTimers cfg s))) eqn:Hh.
    + destruct (Hh1 eq_refl) as (_ & (tl & _ & Hd & Hd1) & Hother).
      destruct (decide (c = prioClass (task s (_pActiveTask s)))) as [-> | Hne].
      * rewrite Hd1. rewrite Hd in Hin. apply elem_of_cons in Hin.
        apply elem_of_app. destruct Hin as [-> | Hin]; [right | left]; [| done].
        by apply list_elem_of_singleton.
      * by rewrite Hother.
    + by rewrite Hh0.
Qed.

Lemma setEvent_awaits (vec : Z) (s : kernel) (a : nat) (mask : Z) (all : bool) :
  config_ok cfg → kernel_inv cfg s → (0 ≤ mask < 65536)%Z →
  awaits cfg a mask all s → awaits cfg a mask all (fst (setEvent cfg vec s)).
Proof.
  intros Hcfg Hk Hmask [Hsub Hph]. pose proof Hk as [Hinv _].
  destruct (setEvent_spec vec s Hcfg Hk)
    as (_ & Hk2 & _ & _ & _ & _ & Hsusp1 & Hsl2 & Hdl2 & Htk2 & _).
  set (s1 := postEvents _ s) in *.
  set (s2 := fst (setEvent cfg vec s)) in *.
  destruct Hph as [(Hin & Hm & Hw) | (Hin & Hz)].
  - pose proof (Hsusp1 a Hin) as Ht1. rewrite Hm in Ht1.
    assert (Hm' : eventMask (task s1 a) = mask) by (by rewrite Ht1).
    assert (Hw' : waitForAnyEvent (task s1 a) = negb all) by (by rewrite Ht1).
    assert (Hp' : Z.land (postedEventVec (task s1 a)) (Z.lnot mask) = 0%Z).
    { rewrite Ht1. simpl. by apply land_mask_sub. }
    destruct (releaseTest cfg (task s1 a)) eqn:Hrel.
    + assert (Hr : a ∈ filter (λ t, releaseTest cfg (task s1 t) = true) (suspList s))
        by (by apply list_elem_of_filter).
      assert (Ht2 : task s2 a = madeDue cfg (task s1 a)) by (by rewrite Htk2, decide_True).
      split; [by rewrite Ht2, madeDue_postedEventVec |]. right. split.
      * apply elem_of_allDue. exists (prios s !!! a). split.
        -- apply (inv_prio _ _ Hinv). by apply (susp_lt cfg s a Hinv).
        -- rewrite Hdl2. apply elem_of_app. right. by apply list_elem_of_filter.
      * rewrite Ht2, madeDue_postedEventVec. intros Hp0.
        destruct (releaseTest_empty (task s1 a) Hrel Hp0) as [Hw0 Hm0];
          [by rewrite Hm' |].
        rewrite Hw' in Hw0. rewrite Hm' in Hm0. by destruct all.
    + assert (Hnr : a ∉ filter (λ t, releaseTest cfg (task s1 t) = true) (suspList s)).
      { rewrite list_elem_of_filter. intros [Hr _]. congruence. }
      assert (Ht2 : task s2 a = task s1 a) by (by rewrite Htk2, decide_False).
      split; [by rewrite Ht2 |]. left. rewrite Ht2. split_and!; try done.
      rewrite Hsl2. apply list_elem_of_filter. split; [congruence | done].
  - pose proof (due_not_suspended s a Hinv Hin) as Hns.
    pose proof (setEvent_postedEventVec vec s a Hcfg Hk Hns) as Hp. fold s2 in Hp.
    split; [by rewrite Hp |]. right. split; [| by rewrite Hp].
    apply elem_of_allDue in Hin as (c & Hc & Hin). apply elem_of_allDue.
    exists c. split; [done |]. rewrite Hdl2. apply elem_of_app. by left.
Qed.

Lemma waitForEvent_awaits (m : Z) (al : bool) (to : Z) (s : kernel) (a : nat)
    (mask : Z) (all : bool) :
  config_ok cfg → kernel_inv cfg s →
  _pActiveTask s ≠ _pIdleTask cfg → _pActiveTask s ≠ a →
  awaits cfg a mask all s → awaits cfg a mask all (waitForEvent cfg m al to s).
Proof.
  intros Hcfg Hk Hidle Hna [Hsub Hph].
  destruct (waitForEvent_spec cfg s m al to Hcfg Hk Hidle)
    as (Hc & (tl & Hd & Hd') & Hother & Hta & Hsl & _).
  set (sw := waitForEvent cfg m al to s) in *.
  assert (Htw : task sw a = task s a).
  { unfold task at 1. rewrite Hta.
    apply (storeResumeCondition_frame cfg (_pActiveTask s) m al to s). congruence. }
  unfold awaits. rewrite Htw. split; [done |].
  destruct Hph as [(Hin & Hm & Hw) | (Hin & Hz)].
  - left. split_and!; try done. rewrite Hsl. apply elem_of_app. by left.
  - right. split; [| done].
    apply elem_of_allDue in Hin as (c & Hlt & Hin). apply elem_of_allDue.
    exists c. split; [done |].
    destruct (decide (c = prioClass (task s (_pActiveTask s)))) as [-> | Hne].
    + rewrite Hd'. rewrite Hd in Hin. apply elem_of_cons in Hin.
      destruct Hin as [-> | Hin]; [done | done].
    + by rewrite Hother.
Qed.

Lemma enter_awaits (e : entry) (s : kernel) (a : nat) (mask : Z) (all : bool) :
  config_ok cfg → (0 < TIME_BITS cfg)%Z →
  kernel_inv cfg s → kernel_in_range cfg s → permitted cfg e s →
  (0 ≤ mask < 65536)%Z →
  awaits cfg a mask all s → _pActiveTask s ≠ a →
  (_pActiveTask (enter cfg e s) ≠ a → awaits cfg a mask all (enter cfg e s))
  ∧ (_pActiveTask (enter cfg e s) = a →
     match returnCode cfg e s with
     | Some ev => (0 < ev)%Z ∧ Z.land ev (Z.lnot mask) = 0%Z
     | None => all = true ∧ Z.land mask (Z.lnot (TIMER_EVT_MASK cfg)) = 0%Z
     end).
Proof.
  intros Hcfg Hw Hk Hr Hp Hmask Ha Hna.
  destruct e as [| vec | m al to | idx doReset]; simpl enter; unfold returnCode.
  - rewrite ISR_SYSTEM_TIMER_TIC_eq.
    destruct (onTimerTic_spec s Hcfg Hk)
      as (_ & Hk2 & _ & _ & _ & _ & _ & _ & _ & _ & _ & _ & Hb0 & _).
    pose proof (onTimerTic_awaits s a mask all Hcfg Hk Hmask Ha) as Ha2.
    pose proof (onTimerTic_range s Hw Hr) as [_ Hr2].
    destruct (onTimerTic cfg s) as [s2 b]. cbn [fst snd] in *.
    destruct b; cbv iota.
    + destruct (PUSH_RET_CODE_OF_CONTEXT_SWITCH_lists s2) as (_ & _ & _ & Hact2).
      rewrite Hact2. apply PUSH_RET_CODE_OF_CONTEXT_SWITCH_awaits; try done.
      apply (rng_postedEventVec _ _ (Hr2 a)).
    + split; [done |]. intros Hact. rewrite (Hb0 eq_refl) in Hact. done.
  - rewrite rtos_setEvent_eq.
    destruct (setEvent_spec vec s Hcfg Hk)
      as (_ & Hk2 & _ & _ & _ & _ & _ & _ & _ & _ & _ & Hb0 & _).
    pose proof (setEvent_awaits vec s a mask all Hcfg Hk Hmask Ha) as Ha2.
    pose proof (setEvent_range vec s Hr) as [_ Hr2].
    destruct (setEvent cfg vec s) as [s2 b]. cbn [fst snd] in *.
    destruct b; cbv iota.
    + destruct (PUSH_RET_CODE_OF_CONTEXT_SWITCH_lists s2) as (_ & _ & _ & Hact2).
      rewrite Hact2. apply PUSH_RET_CODE_OF_CONTEXT_SWITCH_awaits; try done.
      apply (rng_postedEventVec _ _ (Hr2 a)).
    + split; [done |]. intros Hact. rewrite (Hb0 eq_refl) in Hact. done.
  - destruct Hp as (Hidle & Hm & Hto). unfold rtos_waitForEvent.
    destruct (waitForEvent_spec cfg s m al to Hcfg Hk Hidle)
      as (_ & _ & _ & _ & _ & _ & _ & _ & Hk').
    pose proof (waitForEvent_awaits m al to s a mask all Hcfg Hk Hidle Hna Ha) as Ha2.
    pose proof (waitForEvent_range m al to s Hw Hm Hto Hr) as [_ Hr2].
    destruct (PUSH_RET_CODE_OF_CONTEXT_SWITCH_lists (waitForEvent cfg m al to s))
      as (_ & _ & _ & Hact2).
    rewrite Hact2. apply PUSH_RET_CODE_OF_CONTEXT_SWITCH_awaits; try done.
    apply (rng_postedEventVec _ _ (Hr2 a)).
  - assert (Hact : _pActiveTask (fst (rtos_getTaskOverrunCounter idx doReset s))
                   = _pActiveTask s).
    { unfold rtos_getTaskOverrunCounter. by destruct doReset. }
    rewrite Hact. split; [| done]. intros _.
    destruct Ha as [Hsub Hph]. unfold awaits, rtos_getTaskOverrunCounter.
    destruct doReset; [| done]. cbn [fst].
    rewrite !(task_updTask_preserved postedEventVec), !(task_updTask_preserved eventMask),
      !(task_updTask_preserved waitForAnyEvent) by done.
    done.
Qed.

Lemma neverActive_now (a : nat) (es : list entry) (s : kernel) :
  neverActive cfg a es s → _pActiveTask s ≠ a.
Proof. destruct es; by intros [H _]. Qed.

Lemma neverActive_end (a : nat) (es : list entry) (s : kernel) :
  neverActive cfg a es s → _pActiveTask (run cfg es s) ≠ a.
Proof.
  revert s. induction es as [| e es IH]; intros s [Hna Hnever]; [done |].
  by apply IH.
Qed.

Lemma permittedRun_app (es : list entry) (e : entry) (s : kernel) :
  permittedRun cfg (es ++ [e]) s →
  permittedRun cfg es s ∧ permitted cfg e (run cfg es s).
Proof.
  revert s. induction es as [| e' es IH]; intros s [Hp Hperm]; [done |].
  destruct (IH _ Hperm) as [H1 H2]. done.
Qed.

Lemma run_awaits (setup : list initArgs) (es : list entry) (s : kernel) (a : nat)
    (mask : Z) (all : bool) :
  config_ok cfg → setup_ok cfg setup → (0 < TIME_BITS cfg)%Z →
  (0 ≤ mask < 65536)%Z →
  reachable cfg setup s → permittedRun cfg es s →
  awaits cfg a mask all s → neverActive cfg a es s →
  awaits cfg a mask all (run cfg es s).
Proof.
  intros Hcfg Hsetup Hw Hmask. revert s.
  induction es as [| e es IH]; intros s Hreach Hperm Ha Hnever; [done |].
  destruct Hperm as [Hp Hperm]. destruct Hnever as [Hna Hnever].
  cbn [run]. apply IH; try done.
  - by apply enter_reachable.
  - apply enter_awaits; try done.
    + by apply (reachable_kernel_inv cfg setup).
    + apply (reachable_range setup); [done | apply Hsetup | done].
    + by apply (neverActive_now a es).
Qed.

(** X17: the return code of the suspend command.  After a task has called
    [rtos_waitForEvent], the entry that activates it again for the first
    time hands it a return code that is not empty and holds events of the
    mask only; it hands no return code only if the task waited for all
    events of a mask that holds timer events only. *)
Theorem suspend_return_code (setup : list initArgs) (s : kernel) (mask : Z)
    (all : bool) (timeout : Z) (es : list entry) (e : entry) :
  config_ok cfg → setup_ok cfg setup → (0 < TIME_BITS cfg)%Z →
  reachable cfg setup s →
  _pActiveTask s ≠ _pIdleTask cfg →
  (0 ≤ mask < 65536)%Z → (0 ≤ timeout < 2 ^ TIME_BITS cfg)%Z →
  let a := _pActiveTask s in
  let s0 := rtos_waitForEvent cfg mask all timeout s in
  permittedRun cfg (es ++ [e]) s0 →
  neverActive cfg a es s0 →
  _pActiveTask (enter cfg e (run cfg es s0)) = a →
  match returnCode cfg e (run cfg es s0) with
  | Some ev => (0 < ev)%Z ∧ Z.land ev (Z.lnot mask) = 0%Z
  | None => all = true ∧ Z.land mask (Z.lnot (TIMER_EVT_MASK cfg)) = 0%Z
  end.
Proof.
  intros Hcfg Hsetup Hw Hreach Hidle Hmask Hto a s0 Hperm Hnever Hact.
  pose proof (reachable_kernel_inv cfg setup s Hcfg Hsetup Hreach) as Hk.
  assert (Hreach0 : reachable cfg setup s0) by (by apply reachable_waitForEvent).
  assert (Ha0 : awaits cfg a mask all s0).
  { unfold s0, rtos_waitForEvent.
    destruct (waitForEvent_spec cfg s mask all timeout Hcfg Hk Hidle)
      as (_ & _ & _ & Hta & Hsl & _ & _ & _ & Hk').
    set (sw := waitForEvent cfg mask all timeout s) in *.
    assert (Hinw : a ∈ suspList sw).
    { rewrite Hsl. apply elem_of_app. right. by apply list_elem_of_singleton. }
    destruct (PUSH_RET_CODE_OF_CONTEXT_SWITCH_suspended sw a Hk' Hinw) as (H1 & H2 & _).
    assert (Hvalid : a < length (_taskAry s)).
    { pose proof (active_valid cfg s Hk) as Hv. destruct Hk as [Hinv _].
      rewrite (inv_len_tasks _ _ Hinv). unfold a. lia. }
    destruct (storeResumeCondition_task_mask s a mask all timeout Hvalid)
      as (Hm & Hwa & Hpost & _).
    destruct (reachable_vector_clear setup s Hcfg Hsetup Hw Hreach) as [Hclear _].
    fold a in Hclear. rewrite Hclear in Hpost.
    assert (Htw : task sw a = task (storeResumeCondition cfg a mask all timeout s) a).
    { unfold task. by rewrite Hta. }
    unfold awaits. rewrite H1, H2, Htw, Hpost, Hm, Hwa.
    split; [done |]. left. split_and!; done. }
  destruct (permittedRun_app es e s0 Hperm) as [Hperm1 Hperm2].
  pose proof (run_awaits setup es s0 a mask all Hcfg Hsetup Hw Hmask Hreach0 Hperm1
                Ha0 Hnever) as Ha1.
  pose proof (run_reachable setup es s0 Hreach0 Hperm1) as Hreach1.
  apply (enter_awaits e (run cfg es s0) a mask all); try done.
  - by apply (reachable_kernel_inv cfg setup).
  - apply (reachable_range setup); [done | apply Hsetup | done].
  - by apply neverActive_end.
Qed.

(** ** Preemption by a posted event *)

Lemma idle_no_due (s : kernel) (c : nat) :
  kernel_inv cfg s → _pActiveTask s = _pIdleTask cfg →
  c < RTOS_NO_PRIO_CLASSES cfg → dueList s c = [].
Proof.
  intros [Hinv Hact] Hidle Hc.
  pose proof (selectActive_highestDue cfg s Hinv) as Hh. rewrite <- Hact, Hidle in Hh.
  destruct Hh as [(c0 & Hc0 & Hhead & _) | [Hnil _]]; [| by apply Hnil].
  exfalso. apply (idle_nowhere cfg s Hinv). apply elem_of_app. left.
  apply elem_of_allDue. exists c0. split; [done |].
  destruct (dueList s c0) as [| x l]; [done |]. injection Hhead as ->. left.
Qed.

(** X18: a posted event that releases a task of a higher priority class
    than the active task switches the context: the new active task is, of
    the released tasks of the highest class, the one that was first in the
    suspended array, and the task that was active is the one left. *)
Theorem setEvent_preemption (setup : list initArgs) (s : kernel) (vec : Z) (h : nat) :
  config_ok cfg → setup_ok cfg setup → reachable cfg setup s →
  let s' := rtos_setEvent cfg vec s in
  let c := prioClass (task s h) in
  h ∈ suspList s → h ∉ suspList s' →
  (∀ t, t ∈ suspList s → t ∉ suspList s' → prioClass (task s t) ≤ c) →
  _pActiveTask s = _pIdleTask cfg ∨ prioClass (task s (_pActiveTask s)) < c →
  head (filter (λ t, (t ∉ suspList s') ∧ prioClass (task s t) = c) (suspList s))
  = Some (_pActiveTask s')
  ∧ _pActiveTask s' ≠ _pActiveTask s
  ∧ snd (setEvent cfg vec s) = true
  ∧ _pSuspendedTask s' = _pActiveTask s.
Proof.
  intros Hcfg Hsetup Hr s' c Hin Hout Hhigh Hact.
  pose proof (reachable_kernel_inv cfg setup s Hcfg Hsetup Hr) as Hk.
  pose proof Hk as [Hinv _].
  destruct (setEvent_spec vec s Hcfg Hk)
    as (Heq & Hk2 & Hinv1 & _ & _ & _ & _ & Hsl2 & Hdl2 & _ & Hb1 & _).
  set (s1 := postEvents _ s) in *.
  set (s2 := fst (setEvent cfg vec s)) in *.
  assert (Hlists : suspList s' = suspList s2 ∧ _pActiveTask s' = _pActiveTask s2
                   ∧ _pSuspendedTask s' = _pSuspendedTask s2).
  { unfold s'. rewrite rtos_setEvent_eq. fold s2.
    destruct (snd (setEvent cfg vec s)); [| done].
    destruct (PUSH_RET_CODE_OF_CONTEXT_SWITCH_spec s2) as (Hfr & _).
    destruct (PUSH_RET_CODE_OF_CONTEXT_SWITCH_lists s2) as (-> & _ & _ & ->).
    split_and!; try done. by rewrite Hfr. }
  destruct Hlists as (Hs' & Ha' & Hp').
  assert (Hrel : ∀ t, t ∈ suspList s →
            (t ∉ suspList s') ↔ releaseTest cfg (task s1 t) = true).
  { intros t Ht. rewrite Hs', Hsl2, list_elem_of_filter. split.
    - intros Hn. destruct (releaseTest cfg (task s1 t)) eqn:Hrt; [done |].
      exfalso. apply Hn. split; [congruence | done].
    - intros Hrt [Hn _]. by apply Hn. }
  assert (Hfil : ∀ c', filter (λ t, releaseTest cfg (task s1 t) = true ∧ prios s !!! t = c')
                         (suspList s)
                       = filter (λ t, (t ∉ suspList s') ∧ prioClass (task s t) = c')
                           (suspList s)).
  { intros c'. apply filter_ext_elem. intros x Hx.
    rewrite (Hrel x Hx), prios_lookup. done. }
  assert (Hc : c < RTOS_NO_PRIO_CLASSES cfg).
  { unfold c. rewrite <- prios_lookup. apply (inv_prio _ _ Hinv).
    by apply (susp_lt cfg s h Hinv). }
  assert (Hempty : ∀ c', c ≤ c' < RTOS_NO_PRIO_CLASSES cfg → dueList s c' = []).
  { intros c' Hc'. destruct Hact as [Hidle | Hlt].
    - apply idle_no_due; [done | done | lia].
    - destruct (decide (_pActiveTask s = _pIdleTask cfg)) as [Hidle | Hidle].
      + apply idle_no_due; [done | done | lia].
      + destruct (active_due cfg s Hk Hidle) as (_ & _ & Hup).
        apply Hup. rewrite prios_lookup. lia. }
  set (F := filter (λ t, (t ∉ suspList s') ∧ prioClass (task s t) = c) (suspList s)).
  assert (HhF : h ∈ F) by (by apply list_elem_of_filter).
  destruct F as [| x F'] eqn:HF; [by apply elem_of_nil in HhF |].
  assert (Hx : x ∈ suspList s).
  { assert (Hx : x ∈ F) by (rewrite HF; left).
    apply list_elem_of_filter in Hx. apply Hx. }
  assert (Hh : highestDue cfg s2 x).
  { left. exists c. split_and!; [done | |].
    - rewrite Hdl2, Hfil, Hempty by lia. fold F. by rewrite HF.
    - intros c' Hc'. rewrite Hdl2, Hfil, Hempty by lia. simpl.
      apply filter_none. intros t Ht [Hn Hpr].
      pose proof (Hhigh t Ht Hn) as Hle. lia. }
  assert (Hnew : _pActiveTask s2 = x).
  { apply (highestDue_unique cfg s2); [| done].
    destruct Hk2 as [Hinv2 ->]. by apply selectActive_highestDue. }
  assert (Hne : _pActiveTask s2 ≠ _pActiveTask s).
  { rewrite Hnew. intros ->. by apply (active_not_suspended cfg s Hk). }
  rewrite Ha', Hp'. split_and!; [by rewrite Hnew | done | by apply Hb1 |].
  destruct (checkForTaskActivation_spec cfg false s1 Hcfg Hinv1)
    as (s3 & b3 & Hcheck & _ & _ & _ & _ & _ & _ & _ & _ & Hsw & Hcls).
  rewrite <- Heq in Hcheck.
  assert (Hs3 : s2 = s3) by (unfold s2; by rewrite Hcheck).
  destruct (postEvents_frame cfg (u16 (Z.land vec (Z.lnot (Z.lor (RTOS_EVT_ABSOLUTE_TIMER cfg)
              (RTOS_EVT_DELAY_TIMER cfg))))) s Hinv) as (Hfr1 & _).
  fold s1 in Hfr1.
  assert (Hsl1 : suspList s1 = suspList s) by (by rewrite Hfr1).
  assert (Hact1 : _pActiveTask s1 = _pActiveTask s) by (by rewrite Hfr1).
  assert (Hnonempty :
            filter (λ t, releaseTest cfg (task s1 t) = true) (suspList s1) ≠ []).
  { intros Hnil.
    assert (Hin1 : h ∈ filter (λ t, releaseTest cfg (task s1 t) = true) (suspList s1)).
    { apply list_elem_of_filter. split; [by apply Hrel | by rewrite Hsl1]. }
    rewrite Hnil in Hin1. by apply elem_of_nil in Hin1. }
  destruct Hsw as (_ & Hps & _).
  - rewrite orb_false_l. by apply bool_decide_eq_true.
  - by apply Hcls.
  - by rewrite Hs3, Hps.
Qed.

(** ** The overrun counter *)

Lemma serveTimers_cntOverrun (time : Z) (t : task_t) :
  cntOverrun (serveTimers cfg time t) = cntOverrun t.
Proof.
  unfold serveTimers.
  repeat match goal with
         | |- context [if ?b then _ else _] => destruct b
         end; by destruct t.
Qed.

Lemma madeDue_cntOverrun (t : task_t) : cntOverrun (madeDue cfg t) = cntOverrun t.
Proof. unfold madeDue. by destruct (RTOS_ROUND_ROBIN_MODE_SUPPORTED cfg). Qed.

Lemma PUSH_RET_CODE_OF_CONTEXT_SWITCH_cntOverrun (s : kernel) (t : nat) :
  cntOverrun (task (fst (PUSH_RET_CODE_OF_CONTEXT_SWITCH s)) t) = cntOverrun (task s t).
Proof.
  destruct (PUSH_RET_CODE_OF_CONTEXT_SWITCH_spec s) as (_ & _ & Heq & _).
  change (cntOverrun (set_postedEventVec 0 (task (fst (PUSH_RET_CODE_OF_CONTEXT_SWITCH s)) t))
          = cntOverrun (set_postedEventVec 0 (task s t))).
  by rewrite Heq.
Qed.

Lemma storeResumeCondition_cntOverrun (pT : nat) (mask : Z) (all : bool) (timeout : Z)
    (s : kernel) :
  let old := cntOverrun (task s pT) in
  let new := cntOverrun (task (storeResumeCondition cfg pT mask all timeout s) pT) in
  new = old
  ∨ (Z.land mask (RTOS_EVT_ABSOLUTE_TIMER cfg) ≠ 0%Z ∧ (old < 255)%Z ∧ new = (old + 1)%Z).
Proof.
  intros old new. unfold new, storeResumeCondition.
  rewrite !(task_updTask_preserved cntOverrun) by done.
  destruct (Z.eqb_spec (Z.land mask (RTOS_EVT_ABSOLUTE_TIMER cfg)) 0) as [H0 | H0];
    cbn [negb]; cbv zeta.
  - left. by rewrite (task_updTask_preserved cntOverrun).
  - destruct (_ <=? 0)%Z.
    + rewrite !(task_updTask_preserved cntOverrun) by done.
      destruct (Z.ltb_spec (cntOverrun (task s pT)) 255) as [Hlt | Hge].
      * rewrite task_updTask. case_decide as Hd.
        -- right. split_and!; [done | done |]. simpl.
           by rewrite (task_updTask_preserved cntOverrun).
        -- left. by rewrite (task_updTask_preserved cntOverrun).
      * left. by rewrite (task_updTask_preserved cntOverrun).
    + left. by rewrite (task_updTask_preserved cntOverrun).
Qed.

(** X19: the overrun counter of a task changes in two ways only: the task
    itself calls the suspend command with the absolute timer event, which
    adds at most one to a counter below 255, or the counter is reset to zero
    on request.  Timer tics and posted events leave all overrun counters as
    they are. *)
Theorem overrun_counter_steps (setup : list initArgs) (s : kernel) (e : entry)
    (t : nat) :
  config_ok cfg → setup_ok cfg setup → reachable cfg setup s → permitted cfg e s →
  let old := cntOverrun (task s t) in
  let new := cntOverrun (task (enter cfg e s) t) in
  new = old
  ∨ (∃ mask all timeout,
        e = WaitForEvent mask all timeout ∧ t = _pActiveTask s
        ∧ Z.land mask (RTOS_EVT_ABSOLUTE_TIMER cfg) ≠ 0%Z
        ∧ (old < 255)%Z ∧ new = (old + 1)%Z)
  ∨ (e = GetTaskOverrunCounter t true ∧ new = 0%Z).
Proof.
  intros Hcfg Hsetup Hr Hp old new.
  pose proof (reachable_kernel_inv cfg setup s Hcfg Hsetup Hr) as Hk.
  pose proof Hk as [Hinv _].
  destruct e as [| vec | mask all timeout | idx doReset]; unfold new, old; simpl enter.
  - left. rewrite ISR_SYSTEM_TIMER_TIC_eq.
    destruct (onTimerTic_spec s Hcfg Hk)
      as (_ & _ & _ & _ & _ & _ & _ & _ & _ & _ & Htk2 & _).
    destruct (clockTimers_spec s Hinv) as (_ & _ & _ & Hns0 & Hsusp0).
    assert (H2 : cntOverrun (task (fst (onTimerTic cfg s)) t) = cntOverrun (task s t)).
    { rewrite Htk2.
      assert (H1 : cntOverrun (task (fst (roundRobin cfg (clockTimers cfg s))) t)
                   = cntOverrun (task s t)).
      { rewrite (roundRobin_preserved cntOverrun) by done.
        destruct (decide (t ∈ suspList s)) as [Hin | Hin].
        - by rewrite (Hsusp0 t Hin), serveTimers_cntOverrun.
        - by rewrite (Hns0 t Hin). }
      case_decide; by rewrite ?madeDue_cntOverrun. }
    destruct (snd (onTimerTic cfg s)); [| done].
    by rewrite PUSH_RET_CODE_OF_CONTEXT_SWITCH_cntOverrun.
  - left. rewrite rtos_setEvent_eq.
    destruct (setEvent_spec vec s Hcfg Hk)
      as (_ & _ & _ & _ & _ & Hns1 & Hsusp1 & _ & _ & Htk2 & _).
    assert (H2 : cntOverrun (task (fst (setEvent cfg vec s)) t) = cntOverrun (task s t)).
    { rewrite Htk2.
      assert (H1 : cntOverrun (task (postEvents (u16 (Z.land vec (Z.lnot (Z.lor
                      (RTOS_EVT_ABSOLUTE_TIMER cfg) (RTOS_EVT_DELAY_TIMER cfg))))) s) t)
                   = cntOverrun (task s t)).
      { destruct (decide (t ∈ suspList s)) as [Hin | Hin].
        - by rewrite (Hsusp1 t Hin).
        - by rewrite (Hns1 t Hin). }
      case_decide; by rewrite ?madeDue_cntOverrun. }
    destruct (snd (setEvent cfg vec s)); [| done].
    by rewrite PUSH_RET_CODE_OF_CONTEXT_SWITCH_cntOverrun.
  - destruct Hp as (Hidle & _). unfold rtos_waitForEvent.
    rewrite PUSH_RET_CODE_OF_CONTEXT_SWITCH_cntOverrun.
    destruct (waitForEvent_spec cfg s mask all timeout Hcfg Hk Hidle)
      as (_ & _ & _ & Hta & _).
    assert (Htw : task (waitForEvent cfg mask all timeout s) t
                  = task (storeResumeCondition cfg (_pActiveTask s) mask all timeout s) t).
    { unfold task. by rewrite Hta. }
    rewrite !Htw.
    destruct (decide (t = _pActiveTask s)) as [-> | Hne].
    + destruct (storeResumeCondition_cntOverrun (_pActiveTask s) mask all timeout s)
        as [Heq | (Habs & Hlt & Heq)]; [by left |].
      right. left. by exists mask, all, timeout.
    + left. f_equal.
      by apply (storeResumeCondition_frame cfg (_pActiveTask s) mask all timeout s).
  - unfold rtos_getTaskOverrunCounter. destruct doReset; [| by left]. cbn [fst].
    rewrite task_updTask. case_decide as Hd; [| by left].
    destruct Hd as [-> _]. right. right. done.
Qed.

(** ** Events are broadcast *)

(** X20: an event is delivered to every task that waits for it.  A task
    that is suspended waiting for any event of its mask is released by
    [rtos_setEvent] if the posted vector holds an event of the mask that is
    not a timer event: it leaves the suspended array and is due in its
    priority class. *)
Theorem setEvent_broadcast (setup : list initArgs) (s : kernel) (vec : Z) (h : nat) :
  let TM := Z.lor (RTOS_EVT_ABSOLUTE_TIMER cfg) (RTOS_EVT_DELAY_TIMER cfg) in
  config_ok cfg → setup_ok cfg setup → reachable cfg setup s →
  (0 ≤ vec < 65536)%Z →
  h ∈ suspList s → waitForAnyEvent (task s h) = true →
  Z.land (Z.land vec (Z.lnot TM)) (eventMask (task s h)) ≠ 0%Z →
  let s' := rtos_setEvent cfg vec s in
  (h ∉ suspList s') ∧ h ∈ dueList s' (prioClass (task s h)).
Proof.
  intros TM Hcfg Hsetup Hr Hvec Hin Hany Hbit s'.
  pose proof (reachable_kernel_inv cfg setup s Hcfg Hsetup Hr) as Hk.
  destruct (setEvent_spec vec s Hcfg Hk)
    as (_ & Hk2 & _ & _ & _ & _ & Hsusp1 & Hsl2 & Hdl2 & _).
  fold TM in Hsusp1, Hsl2, Hdl2.
  set (s1 := postEvents _ s) in *.
  set (s2 := fst (setEvent cfg vec s)) in *.
  assert (Hlists : suspList s' = suspList s2 ∧ ∀ c, dueList s' c = dueList s2 c).
  { unfold s'. rewrite rtos_setEvent_eq. fold s2.
    destruct (snd (setEvent cfg vec s)); [| done].
    by destruct (PUSH_RET_CODE_OF_CONTEXT_SWITCH_lists s2) as (-> & Hd & _). }
  destruct Hlists as [Hs' Hd'].
  assert (Hu : u16 (Z.land vec (Z.lnot TM)) = Z.land vec (Z.lnot TM)).
  { unfold u16. apply Z.mod_small. apply u16_range_bits.
    apply u16_range_bits in Hvec as [Hnn Hhigh]. split.
    - apply Z.land_nonneg. by left.
    - intros i Hi. by rewrite Z.land_spec, Hhigh. }
  assert (Hrel : releaseTest cfg (task s1 h) = true).
  { rewrite releaseTest_any by (by rewrite (Hsusp1 h Hin)).
    rewrite (Hsusp1 h Hin), Hu. simpl. apply negb_true_iff, Z.eqb_neq.
    intros H0. apply Z.lor_eq_0_iff in H0 as [_ H0]. done. }
  split.
  - rewrite Hs', Hsl2, list_elem_of_filter. intros [Hn _]. by apply Hn.
  - rewrite Hd', Hdl2. apply elem_of_app. right.
    apply list_elem_of_filter. by rewrite prios_lookup.
Qed.

End Coverage.

(** ** The further properties on the example system *)

Lemma exTimerEvents_ok : timer_events_ok exConfig.
Proof. unfold timer_events_ok. simpl. split_and!; try lia. done. Qed.

Lemma exSetup_NoDup : NoDup (ia_idxTask <$> exSetup).
Proof.
  simpl. repeat (apply NoDup_cons; split;
                 [rewrite ?elem_of_cons, elem_of_nil; intuition lia |]).
  apply NoDup_nil_2.
Qed.

Lemma rtos_initRTOS_setup_witness :
  prioClass (task (rtos_initRTOS exConfig exSetup)
               (ia_idxTask (mkInitArgs 2 1 0 32768 false 2)))
  = ia_prioClass (mkInitArgs 2 1 0 32768 false 2).
Proof.
  assert (Hin : mkInitArgs 2 1 0 32768 false 2 ∈ exSetup).
  { unfold exSetup. rewrite !elem_of_cons. auto. }
  assert (Hlt : ia_idxTask (mkInitArgs 2 1 0 32768 false 2) < RTOS_NO_TASKS exConfig)
    by (simpl; lia).
  exact (proj1 (rtos_initRTOS_setup exConfig exSetup (mkInitArgs 2 1 0 32768 false 2)
                  Hin exSetup_NoDup Hlt)).
Defined.

Lemma reachable_in_range_witness :
  (0 ≤ _time exTic3 < 2 ^ TIME_BITS exConfig)%Z.
Proof.
  assert (Hw : (0 < TIME_BITS exConfig)%Z) by (simpl; lia).
  exact (proj1 (reachable_in_range exConfig exSetup exTic3 Hw (proj1 exSetup_ok)
                  exTic3_reachable)).
Defined.

Lemma system_time_counts_tics_witness :
  _time (run exConfig [TimerTic; SetEvent 1; TimerTic] (rtos_initRTOS exConfig exSetup))
  = ((Z.of_nat (tics [TimerTic; SetEvent 1; TimerTic]) - 1) mod 2 ^ TIME_BITS exConfig)%Z.
Proof.
  assert (Hw : (0 < TIME_BITS exConfig)%Z) by (simpl; lia).
  apply (system_time_counts_tics exConfig exSetup [TimerTic; SetEvent 1; TimerTic]
           exConfig_ok exSetup_ok Hw).
  split; [exact I |]. split; [simpl; lia |]. split; [exact I |]. exact I.
Defined.

Lemma active_vector_clear_witness :
  postedEventVec (task exTic3 (_pActiveTask exTic3)) = 0%Z.
Proof.
  assert (Hw : (0 < TIME_BITS exConfig)%Z) by (simpl; lia).
  exact (proj1 (active_vector_clear exConfig exSetup exTic3 exConfig_ok exSetup_ok Hw
                  exTic3_reachable)).
Defined.


Lemma exInit_reachable : reachable exConfig exSetup exInit.
Proof. apply reachable_init. Qed.

Lemma exWait_reachable : reachable exConfig exSetup exWait.
Proof.
  apply reachable_waitForEvent; [apply exTic3_reachable | | |].
  - vm_compute. lia.
  - lia.
  - simpl. lia.
Qed.

Lemma exTic1_suspList : suspList exTic1 = [2].
Proof. vm_compute. reflexivity. Qed.

Lemma exWait_suspList : suspList exWait = [2].
Proof. vm_compute. reflexivity. Qed.

Lemma all_mode_timer_only_mask_witness :
  _pActiveTask exTic1 ∈ suspList (rtos_waitForEvent exConfig 32768 true 5 exTic1).
Proof.
  assert (Hw : (0 < TIME_BITS exConfig)%Z) by (simpl; lia).
  assert (Hidle : _pActiveTask exTic1 ≠ _pIdleTask exConfig) by (vm_compute; lia).
  assert (Hto : (0 ≤ 5 < 2 ^ TIME_BITS exConfig)%Z) by (simpl; lia).
  assert (Hm : Z.land 32768 (Z.lnot (Z.lor (RTOS_EVT_ABSOLUTE_TIMER exConfig)
                                       (RTOS_EVT_DELAY_TIMER exConfig))) = 0%Z)
    by reflexivity.
  exact (proj1 (all_mode_timer_only_mask exConfig exSetup exTic1 32768 5
                  exConfig_ok exSetup_ok Hw exTic1_reachable Hidle ltac:(lia) Hto Hm)).
Defined.

Lemma setEvent_appends_witness :
  suspList (rtos_setEvent exConfig 1 exTic1) `sublist_of` suspList exTic1.
Proof.
  exact (proj2 (setEvent_appends exConfig exSetup exTic1 1 exConfig_ok exSetup_ok
                  exTic1_reachable)).
Defined.

Lemma due_stays_due_witness :
  1 ∈ dueList (enter exConfig TimerTic exTic1) 0.
Proof.
  assert (Hd : 1 ∈ dueList exTic1 0).
  { replace (dueList exTic1 0) with [0; 1] by (vm_compute; reflexivity).
    rewrite !elem_of_cons. auto. }
  refine (proj1 (due_stays_due exConfig exSetup exTic1 TimerTic 0 1 exConfig_ok exSetup_ok
                   exTic1_reachable I Hd _)).
  intros m al to He. discriminate He.
Defined.

Lemma setEvent_no_preemption_witness :
  snd (setEvent exConfig 1 exTic1) = false.
Proof.
  assert (Hidle : _pActiveTask exTic1 ≠ _pIdleTask exConfig) by (vm_compute; lia).
  refine (proj1 (setEvent_no_preemption exConfig exSetup exTic1 1 exConfig_ok exSetup_ok
                   exTic1_reachable Hidle _)).
  intros t Ht Hrel. rewrite exTic1_suspList in Ht.
  apply list_elem_of_singleton in Ht. subst t.
  vm_compute in Hrel. discriminate Hrel.
Defined.

Lemma task_configuration_static_witness :
  prioClass (task exTic3 (ia_idxTask (mkInitArgs 2 1 0 32768 false 2)))
  = ia_prioClass (mkInitArgs 2 1 0 32768 false 2).
Proof.
  assert (Hin : mkInitArgs 2 1 0 32768 false 2 ∈ exSetup).
  { unfold exSetup. rewrite !elem_of_cons. auto. }
  assert (Hlt : ia_idxTask (mkInitArgs 2 1 0 32768 false 2) < RTOS_NO_TASKS exConfig)
    by (simpl; lia).
  exact (proj1 (task_configuration_static exConfig exSetup (mkInitArgs 2 1 0 32768 false 2)
                  exTic3 Hin exSetup_NoDup Hlt exTic3_reachable)).
Defined.

Lemma round_robin_off_witness :
  roundRobin exConfig (clockTimers exConfig exTic3) = (clockTimers exConfig exTic3, false).
Proof.
  assert (Hw : (0 < TIME_BITS exConfig)%Z) by (simpl; lia).
  assert (Hoff : timeRoundRobin (task exTic3 (_pActiveTask exTic3)) = 0%Z)
    by (vm_compute; reflexivity).
  exact (proj1 (proj2 (round_robin_off exConfig exSetup exTic3 exConfig_ok exSetup_ok Hw
                         exTic3_reachable) Hoff)).
Defined.

Lemma setEvent_not_stored_witness :
  rtos_setEvent exConfig 1 exTic1 = exTic1.
Proof.
  refine (setEvent_not_stored exConfig exSetup exTic1 1 exConfig_ok exSetup_ok
            exTic1_reachable _ _).
  - intros t Ht. rewrite exTic1_suspList in Ht.
    apply list_elem_of_singleton in Ht. subst t. vm_compute. reflexivity.
  - intros t Ht. rewrite exTic1_suspList in Ht.
    apply list_elem_of_singleton in Ht. subst t. vm_compute. reflexivity.
Defined.

Lemma idle_suspend_underflow_witness :
  _noDueTasksAry (waitForEvent exConfig 1 false 0 exInit) !!! 0 = 255.
Proof.
  assert (Hp : 0 < RTOS_NO_PRIO_CLASSES exConfig) by (simpl; lia).
  assert (Hidle : _pActiveTask exInit = _pIdleTask exConfig) by (vm_compute; reflexivity).
  exact (proj2 (idle_suspend_underflow exConfig exSetup exInit 1 false 0
                  exConfig_ok exSetup_ok exInit_reachable Hp Hidle)).
Defined.

Lemma absolute_timer_elapses_witness :
  _pActiveTask exTic1
  ∈ suspList (run exConfig [TimerTic]
                (rtos_waitForEvent exConfig (RTOS_EVT_ABSOLUTE_TIMER exConfig) false 3
                   exTic1)).
Proof.
  assert (Hw : (0 < TIME_BITS exConfig)%Z) by (simpl; lia).
  assert (Hidle : _pActiveTask exTic1 ≠ _pIdleTask exConfig) by (vm_compute; lia).
  assert (Hto : (0 ≤ 3 < 2 ^ TIME_BITS exConfig)%Z) by (simpl; lia).
  refine (proj1 (absolute_timer_elapses exConfig exSetup exTic1 3 [TimerTic]
                   exConfig_ok exSetup_ok Hw exTimerEvents_ok exTic1_reachable Hidle
                   Hto _ _)).
  - split; [exact I |]. exact I.
  - vm_compute. reflexivity.
Defined.

Lemma suspend_return_code_witness :
  returnCode exConfig (SetEvent 1)
    (run exConfig [] (rtos_waitForEvent exConfig 1 false 0 exTic3)) ≠ None.
Proof.
  assert (Hw : (0 < TIME_BITS exConfig)%Z) by (simpl; lia).
  assert (Hidle : _pActiveTask exTic3 ≠ _pIdleTask exConfig) by (vm_compute; lia).
  assert (Hto : (0 ≤ 0 < 2 ^ TIME_BITS exConfig)%Z) by (simpl; lia).
  assert (Hperm : permittedRun exConfig ([] ++ [SetEvent 1])
                    (rtos_waitForEvent exConfig 1 false 0 exTic3)).
  { split; [simpl; lia | exact I]. }
  assert (Hnever : neverActive exConfig (_pActiveTask exTic3) []
                     (rtos_waitForEvent exConfig 1 false 0 exTic3)).
  { split; [vm_compute; lia | exact I]. }
  assert (Hact : _pActiveTask (enter exConfig (SetEvent 1)
                                 (run exConfig []
                                    (rtos_waitForEvent exConfig 1 false 0 exTic3)))
                 = _pActiveTask exTic3) by (vm_compute; reflexivity).
  pose proof (suspend_return_code exConfig exSetup exTic3 1 false 0 [] (SetEvent 1)
                exConfig_ok exSetup_ok Hw exTic3_reachable Hidle ltac:(lia) Hto
                Hperm Hnever Hact) as H.
  intros Hnone. rewrite Hnone in H. destruct H as [H _]. discriminate H.
Defined.

Lemma setEvent_preemption_witness :
  snd (setEvent exConfig 1 exWait) = true.
Proof.
  assert (Hin : 2 ∈ suspList exWait).
  { rewrite exWait_suspList. by apply list_elem_of_singleton. }
  assert (Hout : 2 ∉ suspList (rtos_setEvent exConfig 1 exWait)).
  { replace (suspList (rtos_setEvent exConfig 1 exWait)) with (@nil nat)
      by (vm_compute; reflexivity).
    apply not_elem_of_nil. }
  refine (proj1 (proj2 (proj2 (setEvent_preemption exConfig exSetup exWait 1 2
                                 exConfig_ok exSetup_ok exWait_reachable Hin Hout _ _)))).
  - intros t Ht _. rewrite exWait_suspList in Ht.
    apply list_elem_of_singleton in Ht. subst t. lia.
  - right. vm_compute. lia.
Defined.

Lemma overrun_counter_steps_witness :
  cntOverrun (task (enter exConfig TimerTic exTic1) 0) = cntOverrun (task exTic1 0).
Proof.
  destruct (overrun_counter_steps exConfig exSetup exTic1 TimerTic 0 exConfig_ok
              exSetup_ok exTic1_reachable I)
    as [H | [(m & al & to & He & _) | (He & _)]];
    [exact H | discriminate He | discriminate He].
Defined.

Lemma setEvent_broadcast_witness :
  2 ∈ dueList (rtos_setEvent exConfig 1 exWait) (prioClass (task exWait 2)).
Proof.
  assert (Hin : 2 ∈ suspList exWait).
  { rewrite exWait_suspList. by apply list_elem_of_singleton. }
  assert (Hany : waitForAnyEvent (task exWait 2) = true) by (vm_compute; reflexivity).
  assert (Hbit : Z.land (Z.land 1 (Z.lnot (Z.lor (RTOS_EVT_ABSOLUTE_TIMER exConfig)
                                             (RTOS_EVT_DELAY_TIMER exConfig))))
                   (eventMask (task exWait 2)) ≠ 0%Z) by (vm_compute; discriminate).
  exact (proj2 (setEvent_broadcast exConfig exSetup exWait 1 2 exConfig_ok exSetup_ok
                  exWait_reachable ltac:(lia) Hin Hany Hbit)).
Defined.

(** ** The stack of a task *)

Lemma pushByte_in (area : list Z) (sp : nat) (v : Z) :
  pushByte v (area, Z.of_nat sp) = (<[sp := v]> area, (Z.of_nat sp - 1)%Z).
Proof.
  unfold pushByte. cbn [fst snd].
  replace (0 <=? Z.of_nat sp)%Z with true by (symmetry; apply Z.leb_le; lia).
  by rewrite Nat2Z.id.
Qed.

(** Pushing the bytes [vs] one after the other fills the area downwards
    from the stack pointer. *)
Lemma pushBytes_spec (vs : list Z) (area : list Z) (sp : nat) :
  length vs ≤ sp + 1 → sp < length area →
  foldl (λ st v, pushByte v st) (area, Z.of_nat sp) vs
  = (take (sp + 1 - length vs) area ++ reverse vs ++ drop (sp + 1) area,
     (Z.of_nat sp - Z.of_nat (length vs))%Z).
Proof.
  revert area sp. induction vs as [|v vs IH]; intros area sp Hn Hsp.
  - cbn [foldl length reverse]. rewrite Nat.sub_0_r, Z.sub_0_r.
    by rewrite app_nil_l, take_drop.
  - cbn [foldl length] in *. rewrite pushByte_in.
    rewrite (insert_take_drop area sp v) by lia.
    replace (S sp) with (sp + 1) by lia.
    destruct vs as [|v' vs'].
    + cbn [foldl length reverse]. by replace (sp + 1 - 1) with sp by lia.
    + assert (Hsp1 : 1 ≤ sp) by (cbn [length] in Hn; lia).
      replace (Z.of_nat sp - 1)%Z with (Z.of_nat (sp - 1)) by lia.
      rewrite IH.
      2: lia.
      2: { rewrite length_app, length_take. cbn [length]. lia. }
      f_equal; [|lia].
      rewrite take_app_le by (rewrite length_take; cbn [length] in *; lia).
      rewrite take_take.
      replace ((sp - 1 + 1 - length (v' :: vs')) `min` sp)
        with (sp + 1 - S (length (v' :: vs'))) by lia.
      f_equal. rewrite (reverse_cons _ v). rewrite <- app_assoc. f_equal.
      replace (sp - 1 + 1) with sp by lia.
      rewrite drop_app_length'; [done|]. rewrite length_take. lia.
Qed.

Lemma fillUnused_spec (rounds : nat) (area : list Z) (sp : nat) :
  sp + 1 ≤ rounds → sp < length area →
  fillUnused rounds (area, Z.of_nat sp)
  = (replicate (sp + 1) UNUSED_STACK_PATTERN ++ drop (sp + 1) area, (-1)%Z).
Proof.
  revert area sp. induction rounds as [|rounds IH]; intros area sp Hr Hsp; [lia|].
  cbn [fillUnused snd].
  replace (0 <=? Z.of_nat sp)%Z with true by (symmetry; apply Z.leb_le; lia).
  rewrite pushByte_in. rewrite (insert_take_drop area sp) by lia.
  replace (S sp) with (sp + 1) by lia.
  destruct sp as [|sp].
  - cbn [take app Nat.add replicate Z.of_nat Z.sub Z.opp Z.add Z.pos_sub].
    by destruct rounds.
  - replace (Z.of_nat (S sp) - 1)%Z with (Z.of_nat sp) by lia.
    rewrite IH.
    2: lia.
    2: { rewrite length_app, length_take. cbn [length]. lia. }
    f_equal. replace (S sp + 1) with (S (sp + 1)) by lia.
    rewrite replicate_S_end. rewrite <- app_assoc. f_equal.
    replace (sp + 1) with (S sp) by lia.
    rewrite drop_app_length'; [done|]. rewrite length_take. lia.
Qed.

(** The bytes that [prepareTaskStack] pushes, in the order of the pushes. *)
Lemma prepareTaskStack_pushes (area : list Z) (stackSize taskEntryPoint : Z) :
  prepareTaskStack area stackSize taskEntryPoint
  = let st := foldl (λ st v, pushByte v st) (area, (stackSize - 1)%Z)
                ([0; 0; 0; Z.land taskEntryPoint 255;
                  Z.shiftr (Z.land taskEntryPoint 65280) 8;
                  Z.shiftr (Z.land taskEntryPoint 16711680) 16;
                  0; 128; 0] ++ replicate 28 0)%Z in
    (fst (fillUnused (Z.to_nat stackSize) st), snd st).
Proof. reflexivity. Qed.

(** The prepared stack area and the returned stack pointer. *)
Lemma prepareTaskStack_prepared (area : list Z) (stackSize taskEntryPoint : Z) :
  Z.of_nat (length area) = stackSize → (37 ≤ stackSize)%Z →
  prepareTaskStack area stackSize taskEntryPoint
  = (replicate (length area - 37) UNUSED_STACK_PATTERN
       ++ replicate 28 0%Z
       ++ [0; 128; 0;
           Z.shiftr (Z.land taskEntryPoint 16711680) 16;
           Z.shiftr (Z.land taskEntryPoint 65280) 8;
           Z.land taskEntryPoint 255;
           0; 0; 0]%Z,
     (stackSize - 38)%Z).
Proof.
  intros Hlen Hsize. rewrite prepareTaskStack_pushes. cbv zeta.
  replace (stackSize - 1)%Z with (Z.of_nat (length area - 1)) by lia.
  rewrite pushBytes_spec by (rewrite ?length_app, ?length_replicate; cbn [length]; lia).
  rewrite length_app, length_replicate. cbn [fst snd length].
  f_equal; [|lia].
  replace (length area - 1 + 1) with (length area) by lia.
  rewrite drop_all, app_nil_r.
  rewrite reverse_app, reverse_replicate.
  change (reverse _) with [0; 128; 0;
           Z.shiftr (Z.land taskEntryPoint 16711680) 16;
           Z.shiftr (Z.land taskEntryPoint 65280) 8;
           Z.land taskEntryPoint 255;
           0; 0; 0]%Z.
  destruct (decide (length area = 37)) as [H37|H37].
  - (* no byte is left to fill *)
    replace (length area - (9 + 28)) with 0 by lia.
    replace (length area - 37) with 0 by lia.
    replace (Z.of_nat (length area - 1) - Z.of_nat (9 + 28))%Z with (-1)%Z by lia.
    replace (Z.to_nat stackSize) with (S 36) by lia.
    reflexivity.
  - replace (Z.of_nat (length area - 1) - Z.of_nat (9 + 28))%Z
      with (Z.of_nat (length area - 38)) by lia.
    rewrite fillUnused_spec.
    2: lia.
    2: { rewrite length_app, length_take. cbn [length]. lia. }
    cbn [fst]. replace (length area - 38 + 1) with (length area - 37) by lia.
    f_equal. rewrite drop_app_length'; [done|]. rewrite length_take. lia.
Qed.

(** X21: on a stack area of [stackSize] bytes, at least 37,
    [prepareTaskStack] leaves the pattern byte in all bytes but the 37 at
    the top; these hold, upwards, 28 zero bytes for r31..r26 and r23..r2,
    the bytes 0, 0x80 and 0 for r1, the status register and r0, the entry
    address of the task, high byte first, and three zero bytes as the
    address to return to from the task function.  The returned stack
    pointer is the byte just below these 37. *)
Theorem prepareTaskStack_layout (area : list Z) (stackSize taskEntryPoint : Z) :
  Z.of_nat (length area) = stackSize → (37 ≤ stackSize)%Z →
  prepareTaskStack area stackSize taskEntryPoint
  = (replicate (length area - 37) UNUSED_STACK_PATTERN
       ++ replicate 28 0%Z
       ++ [0; 128; 0;
           Z.shiftr (Z.land taskEntryPoint 16711680) 16;
           Z.shiftr (Z.land taskEntryPoint 65280) 8;
           Z.land taskEntryPoint 255;
           0; 0; 0]%Z,
     (stackSize - 38)%Z).
Proof. apply prepareTaskStack_prepared. Qed.

Lemma searchUsed_replicate (n : nat) (rest : list Z) :
  searchUsed (replicate n UNUSED_STACK_PATTERN ++ rest) = (λ k, n + k) <$> searchUsed rest.
Proof.
  induction n as [|n IH]; cbn [replicate app searchUsed].
  - by destruct (searchUsed rest).
  - rewrite Z.eqb_refl, IH. by destruct (searchUsed rest).
Qed.

Lemma searchUsed_spec (bytes : list Z) :
  match searchUsed bytes with
  | Some n => take n bytes = replicate n UNUSED_STACK_PATTERN
              ∧ ∃ b, bytes !! n = Some b ∧ b ≠ UNUSED_STACK_PATTERN
  | None => bytes = replicate (length bytes) UNUSED_STACK_PATTERN
  end.
Proof.
  induction bytes as [|b bytes IH]; [done|]. cbn [searchUsed].
  destruct (b =? UNUSED_STACK_PATTERN)%Z eqn:Hb.
  - apply Z.eqb_eq in Hb. subst b. destruct (searchUsed bytes) as [n|]; cbn.
    + destruct IH as [IH1 IH2]. split; [by f_equal|done].
    + by f_equal.
  - apply Z.eqb_neq in Hb. cbn. split; [done|]. by exists b.
Qed.

(** X22: [rtos_getStackReserve] counts the bytes at the bottom of the stack
    area that hold the pattern byte, up to the first byte that differs, and
    returns the count as a 16 bit number.  The search does not end inside
    the area if all its bytes hold the pattern. *)
Theorem rtos_getStackReserve_spec (pStackArea : list Z) :
  match rtos_getStackReserve pStackArea with
  | Some reserve =>
      ∃ n b, reserve = u16 (Z.of_nat n)
             ∧ take n pStackArea = replicate n UNUSED_STACK_PATTERN
             ∧ pStackArea !! n = Some b ∧ b ≠ UNUSED_STACK_PATTERN
  | None => pStackArea = replicate (length pStackArea) UNUSED_STACK_PATTERN
  end.
Proof.
  unfold rtos_getStackReserve. pose proof (searchUsed_spec pStackArea) as H.
  destruct (searchUsed pStackArea) as [n|]; cbn; [|done].
  destruct H as (H1 & b & H2 & H3). by exists n, b.
Qed.

(** X23: the stack reserve of a task that has not run yet is the size of its
    stack less the 37 bytes of the prepared context. *)
Theorem rtos_getStackReserve_prepared (area : list Z) (stackSize taskEntryPoint : Z) :
  Z.of_nat (length area) = stackSize → (37 ≤ stackSize < 65536)%Z →
  rtos_getStackReserve (fst (prepareTaskStack area stackSize taskEntryPoint))
  = Some (stackSize - 37)%Z.
Proof.
  intros Hlen Hsize.
  pose proof (prepareTaskStack_prepared area stackSize taskEntryPoint Hlen) as ->; [|lia].
  cbn [fst]. unfold rtos_getStackReserve. rewrite searchUsed_replicate.
  cbn. rewrite Nat.add_0_r. unfold u16. f_equal.
  rewrite Z.mod_small; lia.
Qed.

(** ** Saving and restoring the CPU context *)

(** The register file as the explicit list of its 32 registers. *)
Ltac explicit_registers regs Hlen :=
  do 32 (destruct regs as [|? regs]; [cbn [length] in Hlen; lia|]);
  destruct regs; [|cbn [length] in Hlen; lia].

(** Splits an equation of explicit lists into the equations of their
    elements. *)
Ltac elementwise :=
  repeat match goal with
         | |- _ :: _ = _ :: _ => f_equal
         end.

(** Reads a byte that was pushed before. *)
Ltac read_pushed :=
  repeat first
    [ rewrite list_lookup_total_insert_ne by lia
    | rewrite list_lookup_total_insert_eq by (rewrite ?length_insert; lia) ].



(** Reads the bytes of a prepared stack. *)
Ltac read_prepared H n :=
  lazymatch n with
  | 0 => idtac
  | S ?k =>
      let Hk := fresh in
      pose proof (H k ltac:(lia)) as Hk; cbn -[Z.shiftr Z.land] in Hk;
      rewrite ?Hk; clear Hk;
      read_prepared H k
  end.


(** ** The stack and the context on the example CPU *)

Lemma prepareTaskStack_layout_witness :
  snd (prepareTaskStack (replicate 40 0%Z) 40 4660) = 2%Z.
Proof.
  exact (f_equal snd (prepareTaskStack_layout (replicate 40 0%Z) 40 4660 eq_refl
                        ltac:(lia))).
Defined.

Lemma rtos_getStackReserve_prepared_witness :
  rtos_getStackReserve (fst (prepareTaskStack (replicate 40 0%Z) 40 4660))
  = Some (40 - 37)%Z.
Proof.
  exact (rtos_getStackReserve_prepared (replicate 40 0%Z) 40 4660 eq_refl ltac:(lia)).
Defined.



